(** * lithify: schema index, shape classifier, allOf collapser, alias
      synthesis and field mapping

    A shallow embedding of the SLAS core of lithify
    (slas_schema_index.py, slas_classifier.py, slas_allof_processor.py,
    slas_alias_generator.py, slas_field_mapper.py, utils.py) and the
    properties of it that the specification states.

    Conventions of the embedding.
    - A schema node is a JSON value as [json.load] returns it.  An [int]
      is an integer ([Z]); a [float] is an IEEE 754 double, the infinities
      and the NaN that [json.load] accepts included ([spec_float]).
    - A Python [str] is a Rocq [string]; its characters stand for the code
      points 0..255.
    - A [dict] is an association list in insertion order with distinct keys.
    - A Python exception is an explicit [Raise]; the exceptions that matter
      to the control flow ([ValueError] is caught by the collapser, the
      others are not) are told apart.
    - Warnings ([warnings.warn]) are returned as a list, in emission order.
    - Functions of the Python library that the code calls ([urljoin],
      [urldefrag], [str.isidentifier], [keyword.iskeyword],
      [str.capitalize]) are taken as an interface ([Pylib]); a model of
      CPython's is given for the concrete runs. *)

From Stdlib Require Import List String Ascii ZArith Bool Lia Arith DecimalString.
From Stdlib Require Import QArith Lqa SpecFloat.
From Stdlib Require DecimalNat.
Import ListNotations.
Close Scope Q_scope.
Open Scope string_scope.

(** ** Python strings *)

Module Str.

Definition nl : string := String (ascii_of_nat 10) EmptyString.

Definition startswith (s p : string) : bool := String.prefix p s.

Fixpoint rev (s : string) : string :=
  match s with
  | EmptyString => EmptyString
  | String c r => rev r ++ String c EmptyString
  end.

Definition endswith (s p : string) : bool := String.prefix (rev p) (rev s).

(** [sub in s] on strings. *)
Fixpoint contains (sub s : string) : bool :=
  String.prefix sub s
  || match s with
     | EmptyString => false
     | String _ r => contains sub r
     end.

Fixpoint mem (c : ascii) (s : string) : bool :=
  match s with
  | EmptyString => false
  | String d r => Ascii.eqb c d || mem c r
  end.

(** [s.lstrip(chars)], [s.rstrip(chars)]. *)
Fixpoint lstrip (chars s : string) : string :=
  match s with
  | EmptyString => EmptyString
  | String c r => if mem c chars then lstrip chars r else s
  end.

Definition rstrip (chars s : string) : string := rev (lstrip chars (rev s)).

(** [s.split(sep)] for a separator of one character: never empty. *)
Fixpoint split (sep : ascii) (s : string) : list string :=
  match s with
  | EmptyString => [EmptyString]
  | String c r =>
      if Ascii.eqb c sep then EmptyString :: split sep r
      else match split sep r with
           | [] => [String c EmptyString]
           | w :: ws => String c w :: ws
           end
  end.

(** [s.split(sep, 1)]: [None] stands for the one-element list [[s]],
    [Some (a, b)] for [[a, b]]. *)
Fixpoint split1 (sep : ascii) (s : string) : option (string * string) :=
  match s with
  | EmptyString => None
  | String c r =>
      if Ascii.eqb c sep then Some (EmptyString, r)
      else match split1 sep r with
           | Some (a, b) => Some (String c a, b)
           | None => None
           end
  end.

Fixpoint join (sep : string) (l : list string) : string :=
  match l with
  | [] => EmptyString
  | [x] => x
  | x :: r => x ++ sep ++ join sep r
  end.

(** [s.replace(old, new)] for a non-empty [old]: the occurrences are
    taken from left to right and do not overlap.  [skip] counts the
    characters of a matched occurrence still to be dropped. *)
Fixpoint replace_from (old new : string) (skip : nat) (s : string) : string :=
  match s with
  | EmptyString => EmptyString
  | String c r =>
      match skip with
      | S k => replace_from old new k r
      | O =>
          if String.prefix old s
          then new ++ replace_from old new (String.length old - 1) r
          else String c (replace_from old new 0 r)
      end
  end.

Definition replace (old new s : string) : string := replace_from old new 0 s.

(** [s.find(c)] for one character. *)
Fixpoint find (c : ascii) (s : string) : option nat :=
  match s with
  | EmptyString => None
  | String d r =>
      if Ascii.eqb c d then Some 0
      else match find c r with Some i => Some (S i) | None => None end
  end.

(** [s[a:b]] for [0 <= a]. *)
Definition slice (a b : nat) (s : string) : string := String.substring a (b - a) s.

Fixpoint drop (n : nat) (s : string) : string :=
  match n, s with
  | S k, String _ r => drop k r
  | _, _ => s
  end.

Fixpoint forallb (p : ascii -> bool) (s : string) : bool :=
  match s with
  | EmptyString => true
  | String c r => p c && forallb p r
  end.

Definition is_ascii_digit (c : ascii) : bool :=
  let n := nat_of_ascii c in ((48 <=? n) && (n <=? 57))%nat.

(** [c.isdigit()] on the code points below 256: the ASCII digits and the
    superscripts two, three and one. *)
Definition isdigit_char (c : ascii) : bool :=
  let n := nat_of_ascii c in
  is_ascii_digit c || (n =? 178)%nat || (n =? 179)%nat || (n =? 185)%nat.

(** [s.isdigit()]: false on the empty string. *)
Definition isdigit (s : string) : bool :=
  match s with
  | EmptyString => false
  | _ => forallb isdigit_char s
  end.

Definition digit_val (c : ascii) : Z := Z.of_nat (nat_of_ascii c - 48).

Definition of_char (c : ascii) : string := String c EmptyString.

(** [str(n)] for a digit [0 <= n <= 9], the only integers the collapser
    renders. *)
Definition of_digit (n : nat) : string := of_char (ascii_of_nat (48 + n)).

End Str.

(** ** JSON values and Python's operations on them *)

Set Warnings "-register-all".

Inductive json : Type :=
| JNull
| JBool (b : bool)
| JInt (n : Z)
| JFloat (f : spec_float)
| JStr (s : string)
| JArr (items : list json)
| JObj (fields : list (string * json)).

Definition dict : Type := list (string * json).

(** ** Exceptions *)

(** One entry of the list [validate_satisfiability] builds. *)
Inductive bound_error : Type :=
| MinLengthGtMaxLength (lo hi : json)
| MinimumGtMaximum (lo hi : json)
| ExclusiveMinimumGeExclusiveMaximum (lo hi : json).

(** The text of a [ValueError].  A message made of pointers and digits is
    kept as its text; one that prints arbitrary values or a [set] (whose
    order Python does not fix) is kept as the values it prints. *)
Inductive vmsg : Type :=
| MsgText (s : string)
| MsgCannotResolve (i : nat) (ref : json)
| MsgCircular (i : nat) (ref : json)
| MsgNonScalar (i : nat) (t : json)
| MsgMixedTypes (json_pointer : string) (types_seen : list json)
| MsgEnumEmpty (enums : list (list json))
| MsgImpossible (json_pointer : string) (errors : list bound_error)
| MsgInvalidLiteral (s : string).

(** [ValidationError] of slas_allof_processor.py. *)
Record ValidationError : Type := mkValidationError {
  ve_file : string;
  ve_json_pointer : string;
  ve_message : vmsg
}.

Inductive exn : Type :=
| ValueError (m : vmsg)
| TypeError
| KeyError
| IndexError
| AttributeError
| RuntimeError (errors : list ValidationError)
| Exit.

Inductive res (A : Type) : Type :=
| Ok (a : A)
| Raise (e : exn).
Arguments Ok {A} a.
Arguments Raise {A} e.

Definition bind {A B : Type} (c : res A) (k : A -> res B) : res B :=
  match c with
  | Ok a => k a
  | Raise e => Raise e
  end.

Notation "x <- c ;; k" := (bind c (fun x => k))
  (at level 61, c at next level, right associativity).
Notation "' p <- c ;; k" := (bind c (fun x => let p := x in k))
  (at level 61, p pattern, c at next level, right associativity).

(** [for x in l: ...] threading a state, stopping at the first exception. *)
Fixpoint foldM {A St : Type} (f : St -> A -> res St) (s : St) (l : list A) : res St :=
  match l with
  | [] => Ok s
  | x :: r => s' <- f s x ;; foldM f s' r
  end.

Fixpoint mapM {A B : Type} (f : A -> res B) (l : list A) : res (list B) :=
  match l with
  | [] => Ok []
  | x :: r => y <- f x ;; ys <- mapM f r ;; Ok (y :: ys)
  end.

(** ** Dictionaries *)

Fixpoint dict_get (k : string) (d : dict) : option json :=
  match d with
  | [] => None
  | (k', v) :: r => if String.eqb k k' then Some v else dict_get k r
  end.

Definition dict_has (k : string) (d : dict) : bool :=
  match dict_get k d with Some _ => true | None => false end.

(** [d[k] = v]: a present key keeps its place. *)
Fixpoint dict_set (k : string) (v : json) (d : dict) : dict :=
  match d with
  | [] => [(k, v)]
  | (k', v') :: r =>
      if String.eqb k k' then (k, v) :: r else (k', v') :: dict_set k v r
  end.

(** [d.get(k)]: [None] is JSON's null. *)
Definition dict_get_default (k : string) (d : dict) : json :=
  match dict_get k d with Some v => v | None => JNull end.

(** The same three operations on a dictionary of strings
    (a [dict[str, str]] such as ref_map). *)
Fixpoint smap_get {V : Type} (k : string) (m : list (string * V)) : option V :=
  match m with
  | [] => None
  | (k', v) :: r => if String.eqb k k' then Some v else smap_get k r
  end.

Definition smap_has {V : Type} (k : string) (m : list (string * V)) : bool :=
  match smap_get k m with Some _ => true | None => false end.

Fixpoint smap_set {V : Type} (k : string) (v : V) (m : list (string * V))
  : list (string * V) :=
  match m with
  | [] => [(k, v)]
  | (k', v') :: r =>
      if String.eqb k k' then (k, v) :: r else (k', v') :: smap_set k v r
  end.

(** ** Python's dynamic operations on the values of a document *)

Module Py.

(** [bool(x)]. *)
Definition truthy (x : json) : bool :=
  match x with
  | JNull => false
  | JBool b => b
  | JInt n => negb (n =? 0)%Z
  | JFloat f => match f with S754_zero _ => false | _ => true end
  | JStr s => negb (String.eqb s EmptyString)
  | JArr l => match l with [] => false | _ => true end
  | JObj d => match d with [] => false | _ => true end
  end.

Definition num_of_bool (b : bool) : Z := if b then 1%Z else 0%Z.

(** The value of a number: a rational, an infinity, or a NaN.  The
    doubles are the floats [(-1)^s * m * 2^e] with [m < 2^53] and [e] from
    -1074 to 971; the comparisons are those of the values, whatever [m]
    and [e]. *)
Inductive num : Type :=
| NaN
| MinusInf
| Finite (q : Q)
| PlusInf.

Definition float_num (f : spec_float) : num :=
  match f with
  | S754_nan => NaN
  | S754_infinity s => if s then MinusInf else PlusInf
  | S754_zero _ => Finite 0%Q
  | S754_finite s m e =>
      Finite ((if s then - inject_Z (Zpos m) else inject_Z (Zpos m)) * 2 ^ e)%Q
  end.

(** The numbers: [int], [float], and [bool], a subclass of [int]. *)
Definition number (x : json) : option num :=
  match x with
  | JBool b => Some (Finite (inject_Z (num_of_bool b)))
  | JInt n => Some (Finite (inject_Z n))
  | JFloat f => Some (float_num f)
  | _ => None
  end.

(** [a < b] for two numbers: Python compares an [int] and a [float] by
    their exact values; every comparison with a NaN is false. *)
Definition num_lt (a b : num) : bool :=
  match a, b with
  | NaN, _ | _, NaN => false
  | MinusInf, MinusInf => false
  | MinusInf, _ => true
  | _, MinusInf => false
  | PlusInf, _ => false
  | Finite _, PlusInf => true
  | Finite p, Finite q => negb (Qle_bool q p)
  end.

(** [a is b or a == b] for two numbers of the documents, which is how
    the lists, the sets and the dictionaries compare their members:
    [json.load] returns one object for every NaN, so that a NaN, which
    is not equal to itself, is found in a set that holds it. *)
Definition num_eqb (a b : num) : bool :=
  match a, b with
  | NaN, NaN => true
  | MinusInf, MinusInf => true
  | PlusInf, PlusInf => true
  | Finite p, Finite q => Qeq_bool p q
  | _, _ => false
  end.

(** [a is b or a == b], the comparison of the members of a container:
    [True] and [False] are the integers 1 and 0; two dictionaries are
    equal when they have the same items.  (The code compares the values
    of a document in no other way: as the members of a set or of a list
    and as the keys of a dictionary.) *)
Fixpoint eqb (a b : json) : bool :=
  match a, b with
  | JNull, JNull => true
  | JBool x, JBool y => Bool.eqb x y
  | JBool x, JInt n => (num_of_bool x =? n)%Z
  | JInt n, JBool x => (n =? num_of_bool x)%Z
  | JInt n, JInt m => (n =? m)%Z
  | JFloat f, (JBool _ | JInt _ | JFloat _) | (JBool _ | JInt _), JFloat f =>
      match number a, number b with
      | Some x, Some y => num_eqb x y
      | _, _ => false
      end
  | JStr s, JStr t => String.eqb s t
  | JArr l, JArr m =>
      (fix go (l m : list json) : bool :=
         match l, m with
         | [], [] => true
         | x :: l', y :: m' => eqb x y && go l' m'
         | _, _ => false
         end) l m
  | JObj d, JObj e =>
      (List.length d =? List.length e)%nat
      && (fix go (d : dict) : bool :=
            match d with
            | [] => true
            | (k, v) :: d' =>
                match dict_get k e with
                | Some w => eqb v w
                | None => false
                end && go d'
            end) d
  | _, _ => false
  end.

(** [x == s] for a string [s]. *)
Definition is_str (x : json) (s : string) : bool :=
  match x with JStr t => String.eqb t s | _ => false end.

(** [a < b]: numbers by value, strings by code points, lists
    lexicographically; anything else is a [TypeError]. *)
Fixpoint lt (a b : json) : res bool :=
  match a, b with
  | JBool x, JBool y => Ok (num_of_bool x <? num_of_bool y)%Z
  | JBool x, JInt n => Ok (num_of_bool x <? n)%Z
  | JInt n, JBool y => Ok (n <? num_of_bool y)%Z
  | JInt n, JInt m => Ok (n <? m)%Z
  | JFloat f, (JBool _ | JInt _ | JFloat _) | (JBool _ | JInt _), JFloat f =>
      match number a, number b with
      | Some x, Some y => Ok (num_lt x y)
      | _, _ => Raise TypeError
      end
  | JStr s, JStr t => Ok (String.ltb s t)
  | JArr l, JArr m =>
      (fix go (l m : list json) : res bool :=
         match l, m with
         | [], [] => Ok false
         | [], _ :: _ => Ok true
         | _ :: _, [] => Ok false
         | x :: l', y :: m' => if eqb x y then go l' m' else lt x y
         end) l m
  | _, _ => Raise TypeError
  end.

(** [a > b]. *)
Definition gt (a b : json) : res bool := lt b a.

(** [a >= b]: it is [not a < b], but for a NaN, of which every comparison
    is false. *)
Definition num_ge (a b : num) : bool :=
  match a, b with
  | NaN, _ | _, NaN => false
  | _, _ => negb (num_lt a b)
  end.

Fixpoint ge (a b : json) : res bool :=
  match a, b with
  | JBool x, JBool y => Ok (negb (num_of_bool x <? num_of_bool y)%Z)
  | JBool x, JInt n => Ok (negb (num_of_bool x <? n)%Z)
  | JInt n, JBool y => Ok (negb (n <? num_of_bool y)%Z)
  | JInt n, JInt m => Ok (negb (n <? m)%Z)
  | JFloat f, (JBool _ | JInt _ | JFloat _) | (JBool _ | JInt _), JFloat f =>
      match number a, number b with
      | Some x, Some y => Ok (num_ge x y)
      | _, _ => Raise TypeError
      end
  | JStr s, JStr t => Ok (negb (String.ltb s t))
  | JArr l, JArr m =>
      (fix go (l m : list json) : res bool :=
         match l, m with
         | [], [] => Ok true
         | [], _ :: _ => Ok false
         | _ :: _, [] => Ok true
         | x :: l', y :: m' => if eqb x y then go l' m' else ge x y
         end) l m
  | _, _ => Raise TypeError
  end.

(** [max(l)] and [min(l)] for a non-empty list: the first element is kept
    until a later one is greater (smaller). *)
Fixpoint max_from (cur : json) (l : list json) : res json :=
  match l with
  | [] => Ok cur
  | x :: r => b <- gt x cur ;; max_from (if b then x else cur) r
  end.

Fixpoint min_from (cur : json) (l : list json) : res json :=
  match l with
  | [] => Ok cur
  | x :: r => b <- lt x cur ;; min_from (if b then x else cur) r
  end.

Definition max (l : list json) : res json :=
  match l with
  | [] => Raise (ValueError (MsgText "max() arg is an empty sequence"))
  | x :: r => max_from x r
  end.

Definition min (l : list json) : res json :=
  match l with
  | [] => Raise (ValueError (MsgText "min() arg is an empty sequence"))
  | x :: r => min_from x r
  end.

(** [k in x] for a string [k]. *)
Definition contains (k : string) (x : json) : res bool :=
  match x with
  | JObj d => Ok (dict_has k d)
  | JArr l => Ok (existsb (fun y => is_str y k) l)
  | JStr s => Ok (Str.contains k s)
  | _ => Raise TypeError
  end.

(** [x[k]] for a string [k]. *)
Definition getitem (x : json) (k : string) : res json :=
  match x with
  | JObj d => match dict_get k d with Some v => Ok v | None => Raise KeyError end
  | _ => Raise TypeError
  end.

(** [x.get(k)]. *)
Definition get (x : json) (k : string) : res json :=
  match x with
  | JObj d => Ok (dict_get_default k d)
  | _ => Raise AttributeError
  end.

(** A value that can be hashed (be a key, or the member of a set). *)
Definition hashable (x : json) : bool :=
  match x with
  | JArr _ | JObj _ => false
  | _ => true
  end.

(** [x in s] for a set [s] of strings: hashes [x]. *)
Definition in_str_set (x : json) (s : list string) : res bool :=
  if hashable x then Ok (existsb (is_str x) s) else Raise TypeError.

(** Sets of hashable values, as lists without two equal members. *)
Definition set_mem (x : json) (s : list json) : bool := existsb (eqb x) s.

Definition set_add (x : json) (s : list json) : list json :=
  if set_mem x s then s else (s ++ [x])%list.

(** [set(x)]: the members of a list, the characters of a string, the keys
    of a dictionary. *)
Fixpoint chars (s : string) : list json :=
  match s with
  | EmptyString => []
  | String c r => JStr (Str.of_char c) :: chars r
  end.

Definition set_of (x : json) : res (list json) :=
  match x with
  | JArr l =>
      foldM (fun s y => if hashable y then Ok (set_add y s) else Raise TypeError) [] l
  | JStr s => Ok (fold_left (fun s y => set_add y s) (chars s) [])
  | JObj d => Ok (map (fun kv => JStr (fst kv)) d)
  | _ => Raise TypeError
  end.

(** [so & other] as CPython computes it: the members of the smaller set
    ([other] when the sizes are equal) that the larger one has. *)
Definition set_inter (so other : list json) : list json :=
  if (List.length so <? List.length other)%nat
  then filter (fun k => set_mem k other) so
  else filter (fun k => set_mem k so) other.

(** [set.intersection(s, *others)]. *)
Definition set_intersection (s : list json) (others : list (list json)) : list json :=
  fold_left set_inter others s.

(** [sorted(l)] of a set: an insertion sort by [<].  Whatever the order in
    which a set is iterated, the result is the same: a [TypeError] when
    two members cannot be compared, the increasing list otherwise.  (A
    set that holds a NaN beside other numbers is the exception: its
    members are compared, none is smaller than the NaN, and the place that
    CPython gives the NaN depends on the order of the hash table, which
    the addresses of the objects decide; the model puts it where the
    insertion sort does.) *)
Fixpoint insert_sorted (x : json) (l : list json) : res (list json) :=
  match l with
  | [] => Ok [x]
  | y :: r =>
      b <- lt x y ;;
      if b then Ok (x :: y :: r)
      else r' <- insert_sorted x r ;; Ok (y :: r')
  end.

Definition sorted (l : list json) : res (list json) :=
  foldM (fun acc x => insert_sorted x acc) [] l.

(** [int(s)] in base 10: blanks around, a sign, then digits, single
    underscores between digits allowed. *)
Definition isspace (c : ascii) : bool :=
  let n := nat_of_ascii c in
  (((9 <=? n) && (n <=? 13)) || ((28 <=? n) && (n <=? 32))
   || (n =? 133) || (n =? 160))%nat.

Fixpoint strip_left (s : string) : string :=
  match s with
  | String c r => if isspace c then strip_left r else s
  | EmptyString => EmptyString
  end.

Definition strip (s : string) : string :=
  Str.rev (strip_left (Str.rev (strip_left s))).

Inductive digit_state : Type := AtStart | AfterDigit | AfterUnderscore.

Fixpoint digits (st : digit_state) (acc : Z) (s : string) : option Z :=
  match s with
  | EmptyString => match st with AfterDigit => Some acc | _ => None end
  | String c r =>
      if Str.is_ascii_digit c
      then digits AfterDigit (acc * 10 + Str.digit_val c)%Z r
      else if Ascii.eqb c "_"%char
           then match st with
                | AfterDigit => digits AfterUnderscore acc r
                | _ => None
                end
           else None
  end.

Definition int (s : string) : res Z :=
  let t := strip s in
  let '(neg, body) :=
    match t with
    | String c r =>
        if Ascii.eqb c "-"%char then (true, r)
        else if Ascii.eqb c "+"%char then (false, r)
        else (false, t)
    | EmptyString => (false, t)
    end in
  match digits AtStart 0%Z body with
  | Some n => Ok (if neg then (- n)%Z else n)
  | None => Raise (ValueError (MsgInvalidLiteral s))
  end.

(** [l[i]] for an integer [i]: a negative index counts from the end. *)
Definition list_index (l : list json) (i : Z) : res json :=
  let n := Z.of_nat (List.length l) in
  let j := if (i <? 0)%Z then (i + n)%Z else i in
  if ((j <? 0) || (n <=? j))%Z then Raise IndexError
  else match nth_error l (Z.to_nat j) with
       | Some v => Ok v
       | None => Raise IndexError
       end.

End Py.

(** ** slas_classifier.py *)

Definition any_key (keys : list string) (d : dict) : bool :=
  existsb (fun k => dict_has k d) keys.

Definition is_scalar_str (schema : json) : bool :=
  match schema with
  | JObj d =>
      if negb (Py.is_str (dict_get_default "type" d) "string") then false
      else if any_key ["properties"; "items"; "oneOf"; "anyOf"; "allOf"] d then false
      else any_key ["pattern"; "format"; "minLength"; "maxLength"] d
  | _ => false
  end.

(** [type_val not in {"number", "integer"}] hashes [type_val]: a list-valued
    [type] is a [TypeError]. *)
Definition is_scalar_number (schema : json) : res bool :=
  match schema with
  | JObj d =>
      is_num <- Py.in_str_set (dict_get_default "type" d) ["number"; "integer"] ;;
      if negb is_num then Ok false
      else if any_key ["properties"; "items"; "oneOf"; "anyOf"; "allOf"] d then Ok false
      else Ok (any_key ["minimum"; "maximum"; "exclusiveMinimum";
                        "exclusiveMaximum"; "multipleOf"] d)
  | _ => Ok false
  end.

Definition isinstance_str (x : json) : bool :=
  match x with JStr _ => true | _ => false end.

Definition is_enum_str (schema : json) : bool :=
  match schema with
  | JObj d =>
      let by_enum :=
        match dict_get "enum" d with
        | Some (JArr values) => forallb isinstance_str values
        | _ => false
        end in
      if by_enum then true
      else match dict_get "const" d with
           | Some (JStr _) => true
           | _ => false
           end
  | _ => false
  end.

Definition is_union_of_scalar_str (schema : json) : bool :=
  match schema with
  | JObj d =>
      match dict_get "oneOf" d with
      | Some (JArr branches) =>
          if (List.length branches <? 2)%nat then false
          else if negb (forallb is_scalar_str branches) then false
          else existsb (fun b => match b with
                                 | JObj bd => dict_has "pattern" bd
                                 | _ => false
                                 end) branches
      | _ => false
      end
  | _ => false
  end.

Definition classify_shape (schema : json) : res string :=
  match schema with
  | JObj d =>
      if is_scalar_str schema then Ok "scalar_str"
      else
        num <- is_scalar_number schema ;;
        if num then Ok "scalar_number"
        else if is_enum_str schema then Ok "enum_str"
        else if is_union_of_scalar_str schema then Ok "union_scalar_str"
        else if Py.is_str (dict_get_default "type" d) "object" then
          if dict_has "additionalProperties" d && negb (dict_has "properties" d)
          then Ok "map" else Ok "object"
        else if Py.is_str (dict_get_default "type" d) "array" then Ok "array"
        else if any_key ["allOf"; "anyOf"; "oneOf"] d then Ok "mixed"
        else if dict_has "$ref" d then Ok "ref"
        else Ok "unknown"
  | _ => Ok "unknown"
  end.

(** [union_scalar_pattern].  The anchors of a pattern are stripped by
    [strip_anchors]; the loop over the branches, [branch_patterns], stops
    with [None] at the first branch that is not a scalar string or that
    has no pattern.  (A pattern that is not a string has no [startswith].) *)
Definition strip_anchors (pat : string) : string :=
  let pat := if Str.startswith pat "^" then Str.drop 1 pat else pat in
  if Str.endswith pat "$" then Str.slice 0 (String.length pat - 1) pat else pat.

Fixpoint branch_patterns (branches : list json) : res (option (list string)) :=
  match branches with
  | [] => Ok (Some [])
  | branch :: rest =>
      if negb (is_scalar_str branch) then Ok None
      else
        has <- Py.contains "pattern" branch ;;
        if has then
          pat <- Py.getitem branch "pattern" ;;
          match pat with
          | JStr pat =>
              patterns <- branch_patterns rest ;;
              Ok (option_map (cons (strip_anchors pat)) patterns)
          | _ => Raise AttributeError
          end
        else Ok None
  end.

Definition union_scalar_pattern (branches : list json) : res (option string) :=
  patterns <- branch_patterns branches ;;
  match patterns with
  | Some (p :: r) => Ok (Some ("^(?:" ++ Str.join "|" (p :: r) ++ ")$"))
  | _ => Ok None
  end.

(** A branch that is a scalar string with the pattern [pat]. *)
Definition pattern_branch (branch : json) (pat : string) : Prop :=
  is_scalar_str branch = true
  /\ exists d, branch = JObj d /\ dict_get "pattern" d = Some (JStr pat).

(** ** slas_allof_processor.py: the functions on one chain *)

Inductive warning : Type :=
| WarnPatternConflict (e : vmsg)
| WarnEnumEmpty (m : vmsg)
| WarnImpossible (m : vmsg)
| WarnMaxIterations (remaining : nat).

(** [InlineAllOfInfo].  [parent_class] is a title, of any JSON type, or the
    name that overrides it. *)
Record InlineAllOfInfo : Type := mkInlineAllOfInfo {
  property_name : string;
  parent_class : json;
  merged_schema : dict;
  json_pointer : string;
  origin_file : string
}.

Definition _is_inline_property_allof
  (node : dict) (json_ptr : string) (parent : option json) : bool :=
  negb (dict_has "title" node)
  && Str.contains "/properties/" json_ptr
  && match parent with Some _ => true | None => false end.

(** The index after the last part equal to [properties], if any. *)
Fixpoint last_properties_idx (parts : list string) (i : nat) (found : option nat)
  : option nat :=
  match parts with
  | [] => found
  | p :: r =>
      last_properties_idx r (S i) (if String.eqb p "properties" then Some i else found)
  end.

Definition _extract_property_name (json_ptr : string) : res string :=
  let parts := Str.split "/"%char json_ptr in
  match last_properties_idx parts 0 None with
  | Some i =>
      match nth_error parts (S i) with
      | Some name => Ok name
      | None => Raise (ValueError (MsgText
          ("Cannot extract property name from JSON pointer: " ++ json_ptr ++ Str.nl
           ++ "Expected format: .../properties/<property_name>/...")))
      end
  | None => Raise (ValueError (MsgText
      ("Cannot extract property name from JSON pointer: " ++ json_ptr ++ Str.nl
       ++ "Expected format: .../properties/<property_name>/...")))
  end.

Definition is_allof_refinement (schema : dict) : bool :=
  match dict_get "allOf" schema with
  | Some (JArr branches) => (2 <=? List.length branches)%nat
  | _ => false
  end.

(** [[f(b[key]) for b in branches if key in b]]. *)
Fixpoint collect_with {A : Type} (f : json -> res A) (key : string)
  (branches : list json) : res (list A) :=
  match branches with
  | [] => Ok []
  | b :: r =>
      has <- Py.contains key b ;;
      if has
      then v <- Py.getitem b key ;; y <- f v ;;
           ys <- collect_with f key r ;; Ok (y :: ys)
      else collect_with f key r
  end.

Definition collect (key : string) (branches : list json) : res (list json) :=
  collect_with Ok key branches.

Definition scalar_types : list string := ["string"; "number"; "integer"; "boolean"].

Definition add_type (t : string) (seen : list string) : list string :=
  if existsb (String.eqb t) seen then seen else (seen ++ [t])%list.

Fixpoint scan_types (branches : list json) (i : nat) (seen : list string)
  : res (list string) :=
  match branches with
  | [] => Ok seen
  | branch :: r =>
      has <- Py.contains "type" branch ;;
      if has then
        t <- Py.getitem branch "type" ;;
        scalar <- Py.in_str_set t scalar_types ;;
        match t with
        | JStr s =>
            if scalar then scan_types r (S i) (add_type s seen)
            else Raise (ValueError (MsgNonScalar i t))
        | _ => Raise (ValueError (MsgNonScalar i t))
        end
      else scan_types r (S i) seen
  end.

Definition validate_scalar_types (branches : list json) (json_ptr : string)
  : res string :=
  seen <- scan_types branches 0 [] ;;
  match seen with
  | [] => Raise (ValueError (MsgText
      ("allOf at " ++ json_ptr ++ " has no type information." ++ Str.nl
       ++ "Cannot determine if scalar refinement is applicable.")))
  | [t] => Ok t
  | _ => Raise (ValueError (MsgMixedTypes json_ptr (map JStr seen)))
  end.

(** *** UUID version sets *)

(** A set of one-character strings. *)
Definition vset : Type := list ascii.

Module VSet.

Definition mem (c : ascii) (s : vset) : bool := existsb (Ascii.eqb c) s.

Definition add (c : ascii) (s : vset) : vset :=
  if mem c s then s else (s ++ [c])%list.

Fixpoint of_string (s : string) : vset :=
  match s with
  | EmptyString => []
  | String c r => add c (of_string r)
  end.

Definition inter (a b : vset) : vset := filter (fun c => mem c b) a.

Definition is_empty (a : vset) : bool :=
  match a with [] => true | _ => false end.

Definition issubset (a b : vset) : bool := forallb (fun c => mem c b) a.

Definition eqb (a b : vset) : bool := issubset a b && issubset b a.

Fixpoint insert (c : ascii) (l : list ascii) : list ascii :=
  match l with
  | [] => [c]
  | d :: r =>
      if (nat_of_ascii c <=? nat_of_ascii d)%nat then c :: l else d :: insert c r
  end.

(** [sorted(s)]. *)
Definition sorted (s : vset) : list ascii := fold_right insert [] s.

(** [repr] of a list of one-character strings none of which is a quote,
    a backslash or a control character. *)
Definition repr (l : list ascii) : string :=
  "[" ++ Str.join ", " (map (fun c => "'" ++ Str.of_char c ++ "'") l) ++ "]".

End VSet.

(** The positions of the hyphens outside brackets and braces. *)
Fixpoint hyphen_positions
  (s : string) (i : nat) (bracket_depth brace_depth : Z) : list nat :=
  match s with
  | EmptyString => []
  | String c r =>
      if Ascii.eqb c "["%char then hyphen_positions r (S i) (bracket_depth + 1) brace_depth
      else if Ascii.eqb c "]"%char then hyphen_positions r (S i) (bracket_depth - 1) brace_depth
      else if Ascii.eqb c "{"%char then hyphen_positions r (S i) bracket_depth (brace_depth + 1)
      else if Ascii.eqb c "}"%char then hyphen_positions r (S i) bracket_depth (brace_depth - 1)
      else if Ascii.eqb c "-"%char && (bracket_depth =? 0)%Z && (brace_depth =? 0)%Z
           then i :: hyphen_positions r (S i) bracket_depth brace_depth
           else hyphen_positions r (S i) bracket_depth brace_depth
  end.

(** [{str(i) for i in range(a, b + 1)}] for digits [a] and [b]. *)
Definition digit_range (a b : Z) : vset :=
  map (fun k => ascii_of_nat (48 + (Z.to_nat a + k)))
      (seq 0 (Z.to_nat (b + 1 - a))).

Definition extract_uuid_version_set (pattern : string) : res (option vset) :=
  let clean := Str.rstrip "$" (Str.lstrip "^" pattern) in
  match hyphen_positions clean 0 0 0 with
  | [_; h1; h2; _] =>
      let third_group := Str.slice (h1 + 1) h2 clean in
      if Str.startswith third_group "[" then
        match Str.find "]"%char third_group with
        | None => Ok None
        | Some close_bracket =>
            let class_content := Str.slice 1 close_bracket third_group in
            let as_range :=
              match class_content with
              | String start_char (String mid (String end_char EmptyString)) =>
                  if Ascii.eqb mid "-"%char
                     && Str.isdigit_char start_char && Str.isdigit_char end_char
                  then Some (start_char, end_char)
                  else None
              | _ => None
              end in
            match as_range with
            | Some (start_char, end_char) =>
                a <- Py.int (Str.of_char start_char) ;;
                b <- Py.int (Str.of_char end_char) ;;
                Ok (Some (digit_range a b))
            | None =>
                if Str.forallb Str.isdigit_char class_content
                then Ok (Some (VSet.of_string class_content))
                else Ok None
            end
        end
      else
        match third_group with
        | String c _ => if Str.isdigit_char c then Ok (Some [c]) else Ok None
        | EmptyString => Ok None
        end
  | _ => Ok None
  end.

(** The depths that the loop of [extract_uuid_version_set] has reached at
    the end of [s]. *)
Fixpoint depths (s : string) (bracket_depth brace_depth : Z) : Z * Z :=
  match s with
  | EmptyString => (bracket_depth, brace_depth)
  | String c r =>
      if Ascii.eqb c "["%char then depths r (bracket_depth + 1) brace_depth
      else if Ascii.eqb c "]"%char then depths r (bracket_depth - 1) brace_depth
      else if Ascii.eqb c "{"%char then depths r bracket_depth (brace_depth + 1)
      else if Ascii.eqb c "}"%char then depths r bracket_depth (brace_depth - 1)
      else depths r bracket_depth brace_depth
  end.

(** A group of a UUID pattern: its hyphens are inside brackets or braces,
    and it closes what it opens. *)
Definition uuid_group (g : string) : Prop :=
  hyphen_positions g 0 0 0 = [] /\ depths g 0 0 = (0, 0)%Z.

(** The third group of a UUID pattern and the versions it admits: a range
    of digits, a class of digits, or one digit. *)
Inductive version_field : string -> vset -> Prop :=
| version_range (a b : ascii) (rest : string) :
    Str.is_ascii_digit a = true -> Str.is_ascii_digit b = true ->
    version_field (String "[" (String a (String "-" (String b (String "]" rest)))))
                  (digit_range (Str.digit_val a) (Str.digit_val b))
| version_class (digits rest : string) :
    Str.forallb Str.is_ascii_digit digits = true ->
    version_field (String "[" (digits ++ String "]" rest)) (VSet.of_string digits)
| version_digit (d : ascii) (rest : string) :
    Str.is_ascii_digit d = true ->
    version_field (String d rest) [d].

Definition uuid_conflict_message (json_ptr : string) (v1 v2 : vset) : string :=
  "UUID pattern conflict at " ++ json_ptr ++ ":" ++ Str.nl
  ++ "  Base allows versions: " ++ VSet.repr (VSet.sorted v1) ++ Str.nl
  ++ "  Refinement requires: " ++ VSet.repr (VSet.sorted v2) ++ Str.nl
  ++ "  Intersection: empty (unsatisfiable)" ++ Str.nl
  ++ "  Example: Cannot refine UUID v1-5 to require v7".

(** [pattern.lstrip] exists on a string only. *)
Definition version_set_of (p : json) : res (option vset) :=
  match p with
  | JStr s => extract_uuid_version_set s
  | _ => Raise AttributeError
  end.

Definition try_uuid_pattern_specialization (patterns : list json) (json_ptr : string)
  : res (option json) :=
  match patterns with
  | [p1; p2] =>
      v1 <- version_set_of p1 ;;
      v2 <- version_set_of p2 ;;
      match v1, v2 with
      | Some v1, Some v2 =>
          if VSet.is_empty (VSet.inter v1 v2)
          then Raise (ValueError (MsgText (uuid_conflict_message json_ptr v1 v2)))
          else if VSet.issubset v2 v1 && negb (VSet.eqb v2 v1) then Ok (Some p2)
          else if VSet.issubset v1 v2 && negb (VSet.eqb v1 v2) then Ok (Some p1)
          else Ok (Some p1)
      | _, _ => Ok None
      end
  | _ => Ok None
  end.

(** *** merge_constraints *)

(** The [patterns] block of [merge_constraints]: the [try] around the UUID
    specialization catches [ValueError] only. *)
Definition merge_patterns
  (branches : list json) (json_ptr : string) (strict : bool) (merged : dict)
  : res (dict * list warning) :=
  patterns <- collect "pattern" branches ;;
  match patterns with
  | [] => Ok (merged, [])
  | first :: _ =>
      let fallback :=
        dict_set "pattern" first (dict_set "_validator_patterns" (JArr patterns) merged) in
      match try_uuid_pattern_specialization patterns json_ptr with
      | Ok (Some specialized) =>
          if Py.truthy specialized
          then Ok (dict_set "pattern" specialized merged, [])
          else Ok (fallback, [])
      | Ok None => Ok (fallback, [])
      | Raise (ValueError e) =>
          if strict then Raise (ValueError e)
          else Ok (dict_set "pattern" first merged, [WarnPatternConflict e])
      | Raise e => Raise e
      end
  end.

Definition merge_enums (branches : list json) (strict : bool) (merged : dict)
  : res (dict * list warning) :=
  enums <- collect_with Py.set_of "enum" branches ;;
  match enums with
  | [] => Ok (merged, [])
  | e0 :: others =>
      match Py.set_intersection e0 others with
      | [] =>
          shown <- mapM Py.sorted enums ;;
          let msg := MsgEnumEmpty shown in
          if strict then Raise (ValueError msg)
          else first <- Py.sorted e0 ;;
               Ok (dict_set "enum" (JArr first) merged, [WarnEnumEmpty msg])
      | intersection =>
          s <- Py.sorted intersection ;;
          Ok (dict_set "enum" (JArr s) merged, [])
      end
  end.

(** The [for b in branches: if "format" in b: ...; break] loop. *)
Fixpoint merge_format (branches : list json) (merged : dict) : res dict :=
  match branches with
  | [] => Ok merged
  | b :: r =>
      has <- Py.contains "format" b ;;
      if has then v <- Py.getitem b "format" ;; Ok (dict_set "format" v merged)
      else merge_format r merged
  end.

Definition merge_constraints
  (branches : list json) (scalar_type : string) (json_ptr : string) (strict : bool)
  : res (dict * list warning) :=
  let merged := [("type", JStr scalar_type)] in
  '(merged, w1) <- merge_patterns branches json_ptr strict merged ;;
  min_lengths <- collect "minLength" branches ;;
  max_lengths <- collect "maxLength" branches ;;
  merged <- match min_lengths with
            | [] => Ok merged
            | _ => v <- Py.max min_lengths ;; Ok (dict_set "minLength" v merged)
            end ;;
  merged <- match max_lengths with
            | [] => Ok merged
            | _ => v <- Py.min max_lengths ;; Ok (dict_set "maxLength" v merged)
            end ;;
  minimums <- collect "minimum" branches ;;
  maximums <- collect "maximum" branches ;;
  merged <- match minimums with
            | [] => Ok merged
            | _ => v <- Py.max minimums ;; Ok (dict_set "minimum" v merged)
            end ;;
  merged <- match maximums with
            | [] => Ok merged
            | _ => v <- Py.min maximums ;; Ok (dict_set "maximum" v merged)
            end ;;
  '(merged, w2) <- merge_enums branches strict merged ;;
  merged <- merge_format branches merged ;;
  Ok (merged, (w1 ++ w2)%list).

(** *** validate_satisfiability *)

(** One of the three checks: both keys present and [cmp lo hi]. *)
Definition check_bounds
  (schema : dict) (lo_key hi_key : string) (cmp : json -> json -> res bool)
  (mk : json -> json -> bound_error) (errors : list bound_error)
  : res (list bound_error) :=
  match dict_get lo_key schema, dict_get hi_key schema with
  | Some lo, Some hi =>
      bad <- cmp lo hi ;;
      Ok (if bad then (errors ++ [mk lo hi])%list else errors)
  | _, _ => Ok errors
  end.

Definition impossible_bounds (schema : dict) : res (list bound_error) :=
  errors <- check_bounds schema "minLength" "maxLength" Py.gt MinLengthGtMaxLength [] ;;
  errors <- check_bounds schema "minimum" "maximum" Py.gt MinimumGtMaximum errors ;;
  check_bounds schema "exclusiveMinimum" "exclusiveMaximum" Py.ge
    ExclusiveMinimumGeExclusiveMaximum errors.

Definition validate_satisfiability (schema : dict) (json_ptr : string) (strict : bool)
  : res (list warning) :=
  errors <- impossible_bounds schema ;;
  match errors with
  | [] => Ok []
  | _ =>
      let msg := MsgImpossible json_ptr errors in
      if strict then Raise (ValueError msg) else Ok [WarnImpossible msg]
  end.

(** ** The Python library the index calls *)

(** [urllib.parse.urljoin], [urllib.parse.urldefrag], [str.isidentifier],
    [keyword.iskeyword] and [str.capitalize], on strings. *)
Class Pylib : Type := {
  urljoin : string -> string -> res string;
  urldefrag : string -> res (string * string);
  isidentifier : string -> bool;
  iskeyword : string -> bool;
  capitalize : string -> string
}.

(** ** Traversals of a dictionary that the guard condition sees through *)

(** [f(d[k]) if k in d else dflt]. *)
Definition with_key {A : Type} (k : string) (f : json -> A) (dflt : A) : dict -> A :=
  fix go (d : dict) : A :=
    match d with
    | [] => dflt
    | (k', v) :: r => if String.eqb k k' then f v else go r
    end.

(** [for k, v in d.items(): s = f(k, v, s)]. *)
Definition fold_items {St : Type} (f : string -> json -> St -> res St)
  : dict -> St -> res St :=
  fix go (d : dict) (s : St) : res St :=
    match d with
    | [] => Ok s
    | (k, v) :: r => s' <- f k v s ;; go r s'
    end.

(** [for i, v in enumerate(l): s = f(i, v, s)], counting from [i]. *)
Definition fold_elems {St : Type} (f : nat -> json -> St -> res St)
  : list json -> nat -> St -> res St :=
  fix go (l : list json) (i : nat) (s : St) : res St :=
    match l with
    | [] => Ok s
    | v :: r => s' <- f i v s ;; go r (S i) s'
    end.

Definition flat_items {A : Type} (f : string -> json -> list A) : dict -> list A :=
  fix go (d : dict) : list A :=
    match d with
    | [] => []
    | (k, v) :: r => (f k v ++ go r)%list
    end.

Definition flat_elems {A : Type} (f : nat -> json -> list A)
  : list json -> nat -> list A :=
  fix go (l : list json) (i : nat) : list A :=
    match l with
    | [] => []
    | v :: r => (f i v ++ go r (S i))%list
    end.

Definition str_of_nat (n : nat) : string := NilZero.string_of_uint (Nat.to_uint n).

(** RFC 6901 escaping of a property name, as utils.py and the index do it. *)
Definition escape (name : string) : string :=
  Str.replace "/" "~1" (Str.replace "~" "~0" name).

(** ** utils.walk_schema_nodes *)

(** The nodes the generator yields, in order, when nothing mutates the
    tree while it is walked. *)
Fixpoint walk_schema_nodes (schema : json) (json_ptr : string) {struct schema}
  : list (dict * string) :=
  match schema with
  | JObj d =>
      let named (key : string) (esc : string -> string) : list (dict * string) :=
        with_key key
          (fun sub => match sub with
                      | JObj items =>
                          flat_items (fun name s =>
                            walk_schema_nodes s (json_ptr ++ "/" ++ key ++ "/" ++ esc name))
                            items
                      | _ => []
                      end) [] d in
      let single (key : string) : list (dict * string) :=
        with_key key
          (fun sub => match sub with
                      | JObj _ => walk_schema_nodes sub (json_ptr ++ "/" ++ key)
                      | _ => []
                      end) [] d in
      let indexed (key : string) : list (dict * string) :=
        with_key key
          (fun sub => match sub with
                      | JArr l =>
                          flat_elems (fun i s =>
                            walk_schema_nodes s (json_ptr ++ "/" ++ key ++ "/" ++ str_of_nat i))
                            l 0
                      | _ => []
                      end) [] d in
      ((d, json_ptr)
       :: named "properties" escape
       ++ named "patternProperties" escape
       ++ single "additionalProperties"
       ++ with_key "items"
            (fun sub => match sub with
                        | JObj _ => walk_schema_nodes sub (json_ptr ++ "/items")
                        | JArr l =>
                            flat_elems (fun i s =>
                              walk_schema_nodes s (json_ptr ++ "/items/" ++ str_of_nat i)) l 0
                        | _ => []
                        end) [] d
       ++ indexed "prefixItems"
       ++ single "contains"
       ++ indexed "allOf" ++ indexed "anyOf" ++ indexed "oneOf"
       ++ single "if" ++ single "then" ++ single "else" ++ single "not"
       ++ named "dependentSchemas" escape
       ++ named "$defs" (fun name => name)
       ++ named "definitions" (fun name => name))%list
  | _ => []
  end.

(** ** slas_schema_index.py *)

(** *** Identity of nodes

    The index keeps its documents alive and never mutates them, so a node
    is identified by the number of the file it was loaded from and the path
    from that file's root: this is what [id(node)] tells apart. *)
Inductive step : Type :=
| Key (k : string)
| Idx (i : nat).

Definition addr : Type := (nat * list step)%type.

Definition step_eqb (a b : step) : bool :=
  match a, b with
  | Key x, Key y => String.eqb x y
  | Idx i, Idx j => Nat.eqb i j
  | _, _ => false
  end.

Fixpoint path_eqb (p q : list step) : bool :=
  match p, q with
  | [], [] => true
  | a :: p', b :: q' => step_eqb a b && path_eqb p' q'
  | _, _ => false
  end.

Definition addr_eqb (a b : addr) : bool :=
  Nat.eqb (fst a) (fst b) && path_eqb (snd a) (snd b).

Definition child (a : addr) (steps : list step) : addr :=
  (fst a, (snd a ++ steps)%list).

(** A node of the index: the object and its identity. *)
Record node : Type := mkNode {
  n_id : addr;
  n_val : json
}.

(** [NodeId]. *)
Record NodeId : Type := mkNodeId {
  nid_doc_uri : string;
  nid_fragment : string
}.

Definition NodeId_uri (n : NodeId) : string := nid_doc_uri n ++ nid_fragment n.

Record SchemaIndex : Type := mkSchemaIndex {
  docs : list (string * node);
  anchors : list (string * node);
  pointers : list (string * node);
  subschema_bases : list (addr * string);
  origin_files : list (string * string);
  class_name_overrides : list (json * json);
  base_url : option string
}.

Definition empty_index (base : option string) : SchemaIndex :=
  mkSchemaIndex [] [] [] [] [] [] base.

Definition set_docs (idx : SchemaIndex) (k : string) (n : node) : SchemaIndex :=
  mkSchemaIndex (smap_set k n (docs idx)) (anchors idx) (pointers idx)
    (subschema_bases idx) (origin_files idx) (class_name_overrides idx) (base_url idx).

Definition set_anchor (idx : SchemaIndex) (k : string) (n : node) : SchemaIndex :=
  mkSchemaIndex (docs idx) (smap_set k n (anchors idx)) (pointers idx)
    (subschema_bases idx) (origin_files idx) (class_name_overrides idx) (base_url idx).

Definition set_pointer (idx : SchemaIndex) (k : string) (n : node) : SchemaIndex :=
  mkSchemaIndex (docs idx) (anchors idx) (smap_set k n (pointers idx))
    (subschema_bases idx) (origin_files idx) (class_name_overrides idx) (base_url idx).

Fixpoint bases_get (a : addr) (m : list (addr * string)) : option string :=
  match m with
  | [] => None
  | (b, u) :: r => if addr_eqb a b then Some u else bases_get a r
  end.

Fixpoint bases_set (a : addr) (u : string) (m : list (addr * string))
  : list (addr * string) :=
  match m with
  | [] => [(a, u)]
  | (b, v) :: r => if addr_eqb a b then (a, u) :: r else (b, v) :: bases_set a u r
  end.

Definition set_base (idx : SchemaIndex) (a : addr) (u : string) : SchemaIndex :=
  mkSchemaIndex (docs idx) (anchors idx) (pointers idx)
    (bases_set a u (subschema_bases idx)) (origin_files idx)
    (class_name_overrides idx) (base_url idx).

Definition set_origin (idx : SchemaIndex) (k path : string) : SchemaIndex :=
  mkSchemaIndex (docs idx) (anchors idx) (pointers idx) (subschema_bases idx)
    (smap_set k path (origin_files idx)) (class_name_overrides idx) (base_url idx).

(** [class_name_overrides], keyed by titles: any hashable value. *)
Fixpoint overrides_get (k : json) (m : list (json * json)) : option json :=
  match m with
  | [] => None
  | (k', v) :: r => if Py.eqb k k' then Some v else overrides_get k r
  end.

Fixpoint overrides_set (k v : json) (m : list (json * json)) : list (json * json) :=
  match m with
  | [] => [(k, v)]
  | (k', v') :: r =>
      if Py.eqb k k' then (k', v) :: r else (k', v') :: overrides_set k v r
  end.

Definition set_override (idx : SchemaIndex) (title override : json) : SchemaIndex :=
  mkSchemaIndex (docs idx) (anchors idx) (pointers idx) (subschema_bases idx)
    (origin_files idx) (overrides_set title override (class_name_overrides idx))
    (base_url idx).

(** [class_name_overrides.get(title, title)]: hashes the title. *)
Definition override_or_self (idx : SchemaIndex) (title : json) : res json :=
  if Py.hashable title
  then Ok match overrides_get title (class_name_overrides idx) with
          | Some v => v
          | None => title
          end
  else Raise TypeError.

(** *** resolve_pointer *)

Definition unescape (token : string) : string :=
  Str.replace "~0" "~" (Str.replace "~1" "/" token).

(** The loop of [resolve_pointer], on the raw tokens; the identity of the
    node reached is carried along. *)
Fixpoint resolve_tokens (cur : node) (parts : list string) : res node :=
  match parts with
  | [] => Ok cur
  | raw :: rest =>
      let tok := unescape raw in
      match n_val cur with
      | JArr l =>
          idx <- Py.int tok ;;
          v <- Py.list_index l idx ;;
          let n := List.length l in
          let pos := if (idx <? 0)%Z then Z.to_nat (idx + Z.of_nat n) else Z.to_nat idx in
          resolve_tokens (mkNode (child (n_id cur) [Idx pos]) v) rest
      | JObj d =>
          match dict_get tok d with
          | Some v => resolve_tokens (mkNode (child (n_id cur) [Key tok]) v) rest
          | None => Raise KeyError
          end
      | _ => Raise KeyError
      end
  end.

Definition pointer_parts (pointer : string) : list string :=
  let pointer := if Str.startswith pointer "#" then Str.drop 1 pointer else pointer in
  if Str.startswith pointer "/"
  then List.tl (Str.split "/"%char pointer)
  else Str.split "/"%char pointer.

Definition resolve_pointer (doc : node) (pointer : string) : res node :=
  if String.eqb pointer EmptyString || String.eqb pointer "#" then Ok doc
  else resolve_tokens doc (pointer_parts pointer).

Section Index.

Context {L : Pylib}.

(** [urljoin(base, url)] when [url] comes from a document and may be of
    any type: a false value gives [base], another value that is not a
    string is a [TypeError].  (With an empty [base] Python returns [url]
    itself; the index takes a URI to be a string, and the model raises
    [TypeError] for a value that is not.) *)
Definition urljoin_dyn (base : string) (url : json) : res string :=
  match url with
  | JStr u => urljoin base u
  | _ =>
      if String.eqb base EmptyString then Raise TypeError
      else if Py.truthy url then Raise TypeError
      else Ok base
  end.

(** [resolve_uri(base, ref)] followed by [abs_uri + (frag or "")]. *)
Definition resolve_uri (base : string) (ref : json) : res (string * string) :=
  abs_ <- urljoin_dyn base ref ;;
  '(nofrag, frag) <- urldefrag abs_ ;;
  Ok (nofrag, if String.eqb frag EmptyString then EmptyString else "#" ++ frag).

Definition resolve_uri_full (base : string) (ref : json) : res string :=
  '(abs_uri, frag) <- resolve_uri base ref ;;
  Ok (abs_uri ++ frag).

Definition ref_prefixes : list string :=
  ["#"; "http://"; "https://"; "file://"; "lithify:///"].

(** [SchemaIndex.resolve_ref]; [ref] is a value of a document. *)
Definition resolve_ref (ref : json) (context_doc_uri : string) : res string :=
  if Str.startswith context_doc_uri "lithify:///" then
    match ref with
    | JStr r =>
        if existsb (Str.startswith r) ref_prefixes then urljoin context_doc_uri r
        else
          let ref_path := Str.lstrip "./" r in
          match Str.split1 "#"%char ref_path with
          | Some (path, fragment) => Ok ("lithify:///" ++ path ++ "#" ++ fragment)
          | None => Ok ("lithify:///" ++ ref_path)
          end
    | _ => Raise AttributeError
    end
  else urljoin_dyn context_doc_uri ref.

(** [validation.validate_class_name_override]. *)
Definition validate_class_name_override (name : json) : res unit :=
  if negb (Py.truthy name)
  then Raise (ValueError (MsgText "x-python-class-name cannot be empty"))
  else match name with
       | JStr s =>
           if negb (isidentifier s)
           then Raise (ValueError (MsgText
                  ("x-python-class-name '" ++ s ++ "' is not a valid Python identifier")))
           else if Str.startswith s "_"
           then Raise (ValueError (MsgText
                  ("x-python-class-name '" ++ s ++ "' should not start with underscore")))
           else if iskeyword s
           then Raise (ValueError (MsgText
                  ("x-python-class-name '" ++ s ++ "' is a Python keyword")))
           else Ok tt
       | _ => Raise AttributeError
       end.

(** The [title] block of [_index_tree]: a [ValueError] of the validation
    ends the program ([typer.Exit]). *)
Definition index_title (d : dict) (doc_uri : string) (idx : SchemaIndex)
  : res SchemaIndex :=
  match dict_get "title" d with
  | None => Ok idx
  | Some title =>
      let override := dict_get_default "x-python-class-name" d in
      if Py.truthy override then
        checked <- match smap_get doc_uri (origin_files idx) with
                   | Some _ =>
                       match validate_class_name_override override with
                       | Raise (ValueError _) => Raise Exit
                       | r => r
                       end
                   | None => Ok tt
                   end ;;
        if Py.hashable title then Ok (set_override idx title override)
        else Raise TypeError
      else Ok idx
  end.

(** [doc_uri + "#" + x] for a value [x] of the document. *)
Definition concat_fragment (doc_uri : string) (x : json) : res string :=
  match x with
  | JStr s => Ok (doc_uri ++ "#" ++ s)
  | _ => Raise TypeError
  end.

Fixpoint _index_tree (n : json) (a : addr) (doc_uri base_uri pointer : string)
  (idx : SchemaIndex) {struct n} : res SchemaIndex :=
  match n with
  | JObj d =>
      let this := mkNode a n in
      idx <- index_title d doc_uri idx ;;
      '(idx, base_uri) <-
        match dict_get "$id" d with
        | Some id =>
            if negb (String.eqb pointer EmptyString) then
              nested_uri <- urljoin_dyn base_uri id ;;
              Ok (set_docs idx nested_uri this, nested_uri)
            else Ok (idx, base_uri)
        | None => Ok (idx, base_uri)
        end ;;
      let idx := set_base idx a base_uri in
      let idx :=
        if negb (String.eqb pointer EmptyString)
        then set_pointer idx (doc_uri ++ "#" ++ pointer) this
        else idx in
      idx <- match dict_get "$anchor" d with
             | Some anchor =>
                 anchor_uri <- concat_fragment doc_uri anchor ;;
                 Ok (set_anchor idx anchor_uri this)
             | None => Ok idx
             end ;;
      let named (key : string) (esc : string -> string) (idx : SchemaIndex)
        : res SchemaIndex :=
        with_key key
          (fun sub idx =>
             match sub with
             | JObj items =>
                 fold_items (fun name s idx =>
                   _index_tree s (child a [Key key; Key name]) doc_uri base_uri
                     (pointer ++ "/" ++ key ++ "/" ++ esc name) idx) items idx
             | _ => Raise AttributeError
             end) (fun idx => Ok idx) d idx in
      let single (idx : SchemaIndex) (key : string) : res SchemaIndex :=
        with_key key
          (fun sub idx =>
             _index_tree sub (child a [Key key]) doc_uri base_uri
               (pointer ++ "/" ++ key) idx) (fun idx => Ok idx) d idx in
      let indexed (idx : SchemaIndex) (key : string) : res SchemaIndex :=
        with_key key
          (fun sub idx =>
             match sub with
             | JArr l =>
                 fold_elems (fun i s idx =>
                   _index_tree s (child a [Key key; Idx i]) doc_uri base_uri
                     (pointer ++ "/" ++ key ++ "/" ++ str_of_nat i) idx) l 0 idx
             | _ => Ok idx
             end) (fun idx => Ok idx) d idx in
      idx <- named "$defs" (fun name => name) idx ;;
      idx <- named "definitions" (fun name => name) idx ;;
      idx <- named "properties" escape idx ;;
      idx <- foldM single idx
               ["items"; "prefixItems"; "contains"; "additionalProperties";
                "if"; "then"; "else"; "not"] ;;
      foldM indexed idx ["allOf"; "anyOf"; "oneOf"]
  | _ => Ok idx
  end.

(** *** Files

    A file of the schema directory: its name and its content, [None]
    when the text is not JSON.  The directory holds no sub-directory,
    so [glob] and [rglob] list the same files. *)
Record file : Type := mkFile {
  fname : string;
  fcontent : option json
}.

(** [PurePath.suffix] and [PurePath.stem] of a file name. *)
Fixpoint rfind_dot (s : string) (i : nat) (found : option nat) : option nat :=
  match s with
  | EmptyString => found
  | String c r => rfind_dot r (S i) (if Ascii.eqb c "."%char then Some i else found)
  end.

Definition path_suffix (name : string) : string :=
  match rfind_dot name 0 None with
  | Some i =>
      if ((0 <? i) && (i <? String.length name - 1))%nat
      then Str.drop i name else EmptyString
  | None => EmptyString
  end.

Definition path_stem (name : string) : string :=
  match rfind_dot name 0 None with
  | Some i =>
      if ((0 <? i) && (i <? String.length name - 1))%nat
      then String.substring 0 i name else name
  | None => name
  end.

(** [sorted(paths)]: by name, the files being in one directory. *)
Fixpoint insert_file (f : file) (l : list file) : list file :=
  match l with
  | [] => [f]
  | g :: r => if String.leb (fname f) (fname g) then f :: l else g :: insert_file f r
  end.

Definition sort_files (l : list file) : list file := fold_right insert_file [] l.

(** [json_dir.glob("*.json")]. *)
Definition glob_json (dir : list file) : list file :=
  filter (fun f => Str.endswith (fname f) ".json") dir.

Definition as_str (x : json) : res string :=
  match x with
  | JStr s => Ok s
  | _ => Raise TypeError
  end.

(** One turn of the loop of [SchemaIndex.load]; [k] numbers the file.
    (A [$id] that is not a string is a [TypeError] in the model: the
    index types a document URI as [str].) *)
Definition load_file (base : option string) (st : SchemaIndex * nat) (f : file)
  : res (SchemaIndex * nat) :=
  let '(idx, k) := st in
  if negb (String.eqb (path_suffix (fname f)) ".json") then Ok (idx, S k)
  else match fcontent f with
       | None => Ok (idx, S k)
       | Some doc =>
           has_id <- Py.contains "$id" doc ;;
           doc_uri <-
             (if has_id then id <- Py.getitem doc "$id" ;; as_str id
              else match base with
                   | Some b =>
                       if negb (String.eqb b EmptyString) then urljoin b (fname f)
                       else Ok ("lithify:///" ++ path_stem (fname f) ++ ".json")
                   | None => Ok ("lithify:///" ++ path_stem (fname f) ++ ".json")
                   end) ;;
           let idx := set_docs idx doc_uri (mkNode (k, []) doc) in
           let idx := set_origin idx doc_uri (fname f) in
           idx <- _index_tree doc (k, []) doc_uri doc_uri EmptyString idx ;;
           Ok (idx, S k)
       end.

(** [SchemaIndex.load(paths, base_url)]. *)
Definition load (paths : list file) (base : option string) : res SchemaIndex :=
  '(idx, _) <- foldM (load_file base) (empty_index base, 0) (sort_files paths) ;;
  Ok idx.

(** [SchemaIndex.node_for]: the URI is split by hand under the pseudo
    scheme, by [urldefrag] otherwise; only the three exceptions named by
    the [except] clause are turned into [None]. *)
Definition split_fragment (uri : string) : res (string * string) :=
  if Str.startswith uri "lithify:///"
  then match Str.split1 "#"%char uri with
       | Some (d, f) => Ok (d, f)
       | None => Ok (uri, EmptyString)
       end
  else urldefrag uri.

Definition node_for (idx : SchemaIndex) (uri : string) : res (option node) :=
  '(doc_uri, fragment) <- split_fragment uri ;;
  match smap_get doc_uri (docs idx) with
  | None => Ok None
  | Some doc =>
      if String.eqb fragment EmptyString then Ok (Some doc)
      else
        let anchor_uri := doc_uri ++ "#" ++ fragment in
        match smap_get anchor_uri (anchors idx) with
        | Some n => Ok (Some n)
        | None =>
            if Str.startswith fragment "/" then
              match smap_get (doc_uri ++ "#" ++ fragment) (pointers idx) with
              | Some n => Ok (Some n)
              | None =>
                  match resolve_pointer doc fragment with
                  | Ok n => Ok (Some n)
                  | Raise KeyError | Raise IndexError | Raise TypeError => Ok None
                  | Raise e => Raise e
                  end
              end
            else Ok None
        end
  end.

(** The [visit] of [refs_from]. *)
Fixpoint visit_refs (base : string) (obj : json) (refs : list string) {struct obj}
  : res (list string) :=
  match obj with
  | JObj d =>
      refs <- match dict_get "$ref" d with
              | Some ref => u <- resolve_uri_full base ref ;; Ok (refs ++ [u])%list
              | None => Ok refs
              end ;;
      fold_items (fun _ v refs => visit_refs base v refs) d refs
  | JArr l => fold_elems (fun _ v refs => visit_refs base v refs) l 0 refs
  | _ => Ok refs
  end.

Definition refs_from (idx : SchemaIndex) (node_id : NodeId) : res (list string) :=
  found <- node_for idx (NodeId_uri node_id) ;;
  match found with
  | None => Ok []
  | Some n =>
      if negb (Py.truthy (n_val n)) then Ok []
      else
        let base := match bases_get (n_id n) (subschema_bases idx) with
                    | Some b => b
                    | None => nid_doc_uri node_id
                    end in
        visit_refs base (n_val n) []
  end.

(** [SchemaIndex.doc_uri_for_path]. *)
Fixpoint first_uri_of (path : string) (m : list (string * string)) : option string :=
  match m with
  | [] => None
  | (doc_uri, origin_path) :: r =>
      if String.eqb origin_path path then Some doc_uri else first_uri_of path r
  end.

Definition doc_uri_for_path (idx : SchemaIndex) (path : string) : option string :=
  first_uri_of path (origin_files idx).

(** [SchemaIndex.exportables].  The name of a symbol is a title, of any
    JSON type, or the name of a definition.  (The loop over [$defs]
    expects a dictionary, which [_index_tree] has checked when the index
    was loaded; on another value the model raises [TypeError].) *)
Definition module_name_of (stem : string) : string :=
  match Str.split1 "_"%char stem with
  | Some (head, rest) => if Str.isdigit head then rest else stem
  | None => stem
  end.

Definition def_exports (doc_uri key module_name : string) (doc : json)
  : res (list (NodeId * json * string)) :=
  has <- Py.contains key doc ;;
  if has then
    defs <- Py.getitem doc key ;;
    match defs with
    | JObj items =>
        Ok (map (fun kv => (mkNodeId doc_uri ("#/" ++ key ++ "/" ++ fst kv),
                            JStr (fst kv), module_name)) items)
    | _ => Raise TypeError
    end
  else Ok [].

Definition exportables (idx : SchemaIndex) (doc_uri : string)
  : res (list (NodeId * json * string)) :=
  match smap_get doc_uri (docs idx) with
  | None => Ok []
  | Some doc =>
      match smap_get doc_uri (origin_files idx) with
      | None => Raise KeyError
      | Some origin =>
          let module_name := module_name_of (path_stem origin) in
          has_title <- Py.contains "title" (n_val doc) ;;
          titled <- (if has_title
                     then t <- Py.getitem (n_val doc) "title" ;;
                          Ok [(mkNodeId doc_uri EmptyString, t, module_name)]
                     else Ok []) ;;
          defs <- def_exports doc_uri "$defs" module_name (n_val doc) ;;
          definitions <- def_exports doc_uri "definitions" module_name (n_val doc) ;;
          Ok (titled ++ defs ++ definitions)%list
      end
  end.

End Index.

(** ** slas_allof_processor.py: the pass over the documents *)

(** [json.dump(..., sort_keys=True)] followed by [json.loads]: every
    dictionary comes back with its keys in increasing order. *)
Fixpoint insert_item (k : string) (v : json) (d : dict) : dict :=
  match d with
  | [] => [(k, v)]
  | (k', v') :: r =>
      if String.leb k k' then (k, v) :: d else (k', v') :: insert_item k v r
  end.

Fixpoint sort_keys (j : json) : json :=
  match j with
  | JArr l => JArr (map sort_keys l)
  | JObj d =>
      JObj ((fix go (d : dict) : dict :=
               match d with
               | [] => []
               | (k, v) :: r => insert_item k (sort_keys v) (go r)
               end) d)
  | _ => j
  end.

(** What the body of the loop appends to the accumulators of a pass
    ([errors], [inline_allofs], [iteration_collapsed], and the warnings it
    emits): one event for each chain it meets.  The accumulators are only
    appended to, never read, so the pass is modelled as returning the
    events in order. *)
Inductive event : Type :=
| Collapsed (tracked : option InlineAllOfInfo) (emitted : list warning)
| Failed (error : ValidationError).

(** The accumulators, read off the events of a pass. *)
Definition errors (evs : list event) : list ValidationError :=
  flat_map (fun e => match e with Failed v => [v] | _ => [] end) evs.

Definition inline_allofs (evs : list event) : list InlineAllOfInfo :=
  flat_map (fun e => match e with Collapsed (Some i) _ => [i] | _ => [] end) evs.

Definition iteration_collapsed (evs : list event) : nat :=
  List.length (filter (fun e => match e with Collapsed _ _ => true | _ => false end) evs).

Definition warnings (evs : list event) : list warning :=
  flat_map (fun e => match e with Collapsed _ w => w | _ => [] end) evs.

(** Children of a node replaced in place, in order. *)
Definition map_items {E : Type} (f : string -> json -> res (json * list E))
  : dict -> res (dict * list E) :=
  fix go (d : dict) : res (dict * list E) :=
    match d with
    | [] => Ok ([], [])
    | (k, v) :: r =>
        '(v', e1) <- f k v ;;
        '(r', e2) <- go r ;;
        Ok ((k, v') :: r', (e1 ++ e2)%list)
    end.

Definition map_elems {E : Type} (f : nat -> json -> res (json * list E))
  : list json -> nat -> res (list json * list E) :=
  fix go (l : list json) (i : nat) : res (list json * list E) :=
    match l with
    | [] => Ok ([], [])
    | v :: r =>
        '(v', e1) <- f i v ;;
        '(r', e2) <- go r (S i) ;;
        Ok (v' :: r', (e1 ++ e2)%list)
    end.

(** [d] with the value of each key of [updates] replaced. *)
Definition apply_updates (d : dict) (updates : list (string * json)) : dict :=
  fold_left (fun d u => dict_set (fst u) (snd u) d) updates d.

(** The new values of the children of a node, with the events of the walk
    that made them. *)
Definition walked : Type := (list (string * json) * list event)%type.

Definition walked_add (acc : walked) (key : string) (v : json) (evs : list event)
  : walked :=
  ((fst acc ++ [(key, v)])%list, (snd acc ++ evs)%list).

Section Collapser.

Context {L : Pylib}.

(** The objects that CPython holds once, so that two places of the
    documents that hold one of them hold the same object: [None], [True]
    and [False], the integers from -5 to 256, the strings of one character
    at most, and the three constants of the decoder, [NaN], [Infinity] and
    [-Infinity].  (An infinity of the model is one written [Infinity] or
    [-Infinity], as [json.dump] writes it; the infinity that the decoder
    makes of a literal too large for a double, such as [1e400], is another
    object each time, and the model does not tell it from the constant.) *)
Definition shared_object (v : json) : bool :=
  match v with
  | JNull | JBool _ => true
  | JInt n => ((-5 <=? n) && (n <=? 256))%Z
  | JFloat S754_nan | JFloat (S754_infinity _) => true
  | JStr s => (String.length s <=? 1)%nat
  | _ => false
  end.

(** Two values that are written the same. *)
Definition same_scalar (a b : json) : bool :=
  match a, b with
  | JNull, JNull => true
  | JBool x, JBool y => Bool.eqb x y
  | JInt n, JInt m => (n =? m)%Z
  | JFloat S754_nan, JFloat S754_nan => true
  | JFloat (S754_infinity s), JFloat (S754_infinity t) => Bool.eqb s t
  | JStr s, JStr t => String.eqb s t
  | _, _ => false
  end.

(** [id(a) == id(b)] for two nodes of the index: they are at the same
    place of the same file, or they are one of the objects that CPython
    holds once. *)
Definition same_object (a b : node) : bool :=
  addr_eqb (n_id a) (n_id b)
  || (shared_object (n_val a) && shared_object (n_val b)
      && same_scalar (n_val a) (n_val b)).

Fixpoint resolve_branches
  (idx : SchemaIndex) (doc_uri : string) (branches : list json) (i : nat)
  (visited_nodes : list node) : res (list json) :=
  match branches with
  | [] => Ok []
  | branch :: rest =>
      is_ref <- Py.contains "$ref" branch ;;
      if is_ref then
        ref_uri <- Py.getitem branch "$ref" ;;
        full_ref_uri <- resolve_ref ref_uri doc_uri ;;
        found <- node_for idx full_ref_uri ;;
        match found with
        | Some n =>
            if negb (Py.truthy (n_val n))
            then Raise (ValueError (MsgCannotResolve i ref_uri))
            else if existsb (same_object n) visited_nodes
            then Raise (ValueError (MsgCircular i ref_uri))
            else
              resolved <- resolve_branches idx doc_uri rest (S i)
                            (visited_nodes ++ [n])%list ;;
              Ok (n_val n :: resolved)
        | None => Raise (ValueError (MsgCannotResolve i ref_uri))
        end
      else
        resolved <- resolve_branches idx doc_uri rest (S i) visited_nodes ;;
        Ok (branch :: resolved)
  end.

Definition resolve_allof_branches
  (branches : list json) (idx : SchemaIndex) (json_ptr doc_uri : string)
  : res (list json) :=
  resolved <- resolve_branches idx doc_uri branches 0 [] ;;
  match resolved with
  | [] => Raise (ValueError (MsgText
            ("allOf has no resolvable branches at " ++ json_ptr)))
  | _ => Ok resolved
  end.

(** The node that the reference of a branch designates, if the branch is
    a reference and the index has a node for it. *)
Definition referent (idx : SchemaIndex) (doc_uri : string) (branch : json)
  : option node :=
  match (is_ref <- Py.contains "$ref" branch ;;
         if is_ref then
           ref_uri <- Py.getitem branch "$ref" ;;
           full_ref_uri <- resolve_ref ref_uri doc_uri ;;
           node_for idx full_ref_uri
         else Ok None) with
  | Ok found => found
  | Raise _ => None
  end.

Definition referents (idx : SchemaIndex) (doc_uri : string) (branches : list json)
  : list node :=
  flat_map (fun branch => match referent idx doc_uri branch with
                          | Some n => [n]
                          | None => []
                          end) branches.

(** What the loop of [process_allof_collapse] knows about the file it
    walks. *)
Record file_ctx : Type := mkFileCtx {
  ctx_index : SchemaIndex;
  ctx_doc_uri : string;
  ctx_file : string;
  ctx_parent_class : option json;
  ctx_strict : bool
}.

(** The four calls at the head of the [try] block. *)
Definition merged_chain (c : file_ctx) (node : dict) (json_ptr : string)
  : res (dict * list warning) :=
  branches <- match dict_get "allOf" node with
              | Some (JArr branches) =>
                  resolve_allof_branches branches (ctx_index c) json_ptr (ctx_doc_uri c)
              | _ => Raise KeyError
              end ;;
  scalar_type <- validate_scalar_types branches json_ptr ;;
  '(merged, w1) <- merge_constraints branches scalar_type json_ptr (ctx_strict c) ;;
  w2 <- validate_satisfiability merged json_ptr (ctx_strict c) ;;
  Ok (merged, (w1 ++ w2)%list).

(** The record appended for an inline chain; a [ValueError] of
    [_extract_property_name] is passed over. *)
Definition track_inline
  (c : file_ctx) (node merged : dict) (json_ptr : string)
  : res (option InlineAllOfInfo) :=
  if _is_inline_property_allof node json_ptr (ctx_parent_class c) then
    match ctx_parent_class c, _extract_property_name json_ptr with
    | Some parent, Ok name =>
        Ok (Some (mkInlineAllOfInfo name parent merged json_ptr (ctx_file c)))
    | _, Raise (ValueError _) => Ok None
    | _, Raise e => Raise e
    | None, Ok _ => Ok None
    end
  else Ok None.

(** The body of the loop over the nodes: [Some merged] when the node is
    collapsed into [merged], [None] when it is left as it is.  A
    [ValueError] is recorded; any other exception leaves the loop. *)
Definition process_node (c : file_ctx) (node : dict) (json_ptr : string)
  : res (option dict * list event) :=
  if negb (is_allof_refinement node) then Ok (None, [])
  else
    match merged_chain c node json_ptr with
    | Ok (merged, w) =>
        tracked <- track_inline c node merged json_ptr ;;
        Ok (Some merged, [Collapsed tracked w])
    | Raise (ValueError m) =>
        Ok (None, [Failed (mkValidationError (ctx_file c) json_ptr m)])
    | Raise e => Raise e
    end.

(** The loop [for node, json_ptr in walk_schema_nodes(schema)] with its
    body.  The generator is lazy: it looks for the children of a node
    after the body has run on it.  A collapsed node holds only keys that
    [merge_constraints] writes, none of which the generator follows, so
    nothing below it is walked; a node left as it is keeps its keys, and
    each child is replaced by what the walk makes of it. *)
Fixpoint collapse_walk (c : file_ctx) (schema : json) (json_ptr : string)
  {struct schema} : res (json * list event) :=
  match schema with
  | JObj d =>
      '(r, evs) <- process_node c d json_ptr ;;
      match r with
      | Some merged => Ok (JObj merged, evs)
      | None =>
          let named (key : string) (esc : string -> string) (acc : walked)
            : res walked :=
            with_key key
              (fun sub =>
                 match sub with
                 | JObj items =>
                     '(items', e) <-
                       map_items (fun name s =>
                         collapse_walk c s (json_ptr ++ "/" ++ key ++ "/" ++ esc name))
                         items ;;
                     Ok (walked_add acc key (JObj items') e)
                 | _ => Ok acc
                 end) (Ok acc) d in
          let single (acc : walked) (key : string) : res walked :=
            with_key key
              (fun sub =>
                 match sub with
                 | JObj _ =>
                     '(sub', e) <- collapse_walk c sub (json_ptr ++ "/" ++ key) ;;
                     Ok (walked_add acc key sub' e)
                 | _ => Ok acc
                 end) (Ok acc) d in
          let indexed (acc : walked) (key : string) : res walked :=
            with_key key
              (fun sub =>
                 match sub with
                 | JArr l =>
                     '(l', e) <-
                       map_elems (fun i s =>
                         collapse_walk c s
                           (json_ptr ++ "/" ++ key ++ "/" ++ str_of_nat i))
                         l 0 ;;
                     Ok (walked_add acc key (JArr l') e)
                 | _ => Ok acc
                 end) (Ok acc) d in
          acc <- named "properties" escape ([], evs) ;;
          acc <- named "patternProperties" escape acc ;;
          acc <- single acc "additionalProperties" ;;
          acc <- with_key "items"
                   (fun sub =>
                      match sub with
                      | JObj _ =>
                          '(sub', e) <- collapse_walk c sub (json_ptr ++ "/items") ;;
                          Ok (walked_add acc "items" sub' e)
                      | JArr l =>
                          '(l', e) <-
                            map_elems (fun i s =>
                              collapse_walk c s
                                (json_ptr ++ "/items/" ++ str_of_nat i))
                              l 0 ;;
                          Ok (walked_add acc "items" (JArr l') e)
                      | _ => Ok acc
                      end) (Ok acc) d ;;
          acc <- indexed acc "prefixItems" ;;
          acc <- single acc "contains" ;;
          acc <- foldM indexed acc ["allOf"; "anyOf"; "oneOf"] ;;
          acc <- foldM single acc ["if"; "then"; "else"; "not"] ;;
          acc <- named "dependentSchemas" escape acc ;;
          acc <- named "$defs" (fun name => name) acc ;;
          acc <- named "definitions" (fun name => name) acc ;;
          Ok (JObj (apply_updates d (fst acc)), snd acc)
      end
  | _ => Ok (schema, [])
  end.

(** What the loop over the files sets before it walks a file. *)
Definition file_context (idx : SchemaIndex) (strict : bool) (f : file)
  (schema : json) (doc_uri : string) : res file_ctx :=
  schema_title <- Py.get schema "title" ;;
  parent <- (if Py.truthy schema_title
             then p <- override_or_self idx schema_title ;;
                  Ok match p with JNull => None | _ => Some p end
             else Ok None) ;;
  Ok (mkFileCtx idx doc_uri (fname f) parent strict).

(** The body of the loop over the files: the new content of the file
    when a node of it was collapsed, and the events of the file. *)
Definition process_file (idx : SchemaIndex) (strict : bool) (f : file)
  : res (option json * list event) :=
  match fcontent f with
  | None => Raise (ValueError (MsgText "JSONDecodeError"))
  | Some schema =>
      match doc_uri_for_path idx (fname f) with
      | None => Ok (None, [])
      | Some doc_uri =>
          if String.eqb doc_uri EmptyString then Ok (None, [])
          else
            c <- file_context idx strict f schema doc_uri ;;
            '(schema', evs) <- collapse_walk c schema "#" ;;
            Ok (if (iteration_collapsed evs =? 0)%nat
                then None else Some (sort_keys schema'),
                evs)
      end
  end.

Definition write_file (dir : list file) (name : string) (content : json)
  : list file :=
  map (fun f => if String.eqb (fname f) name then mkFile name (Some content) else f)
      dir.

(** The loop over the files of one pass: the directory, the events and
    the exception that ended the loop, if any.  The files written before
    an exception stay written. *)
Fixpoint pass_files (idx : SchemaIndex) (strict : bool) (fs dir : list file)
  : list file * list event * option exn :=
  match fs with
  | [] => (dir, [], None)
  | f :: r =>
      match process_file idx strict f with
      | Ok (content, evs) =>
          let dir := match content with
                     | Some c => write_file dir (fname f) c
                     | None => dir
                     end in
          let '(dir', evs', raised) := pass_files idx strict r dir in
          (dir', (evs ++ evs')%list, raised)
      | Raise e => (dir, [], Some e)
      end
  end.

(** One iteration of [process_allof_collapse]. *)
Definition collapse_pass (idx : SchemaIndex) (strict : bool) (dir : list file)
  : list file * list event * option exn :=
  pass_files idx strict (sort_files (glob_json dir)) dir.

(** How the loop of a run ended. *)
Inductive ending : Type :=
| Fixpoint_reached
| Max_iterations_reached
| Raised.

(** What a run leaves: the directory, what it returns or raises, the
    warnings, the number of collapses, the number of passes and the way
    the loop ended. *)
Record run : Type := mkRun {
  run_dir : list file;
  run_outcome : res (list InlineAllOfInfo);
  run_warnings : list warning;
  total_collapsed : nat;
  passes : nat;
  run_ending : ending
}.

(** The end of [process_allof_collapse], after the loop: [errors] holds
    the errors of the last pass. *)
Definition finish (strict : bool) (last_errors : list ValidationError)
  (tracked : list InlineAllOfInfo) : res (list InlineAllOfInfo) :=
  match last_errors with
  | [] => Ok tracked
  | _ => if strict then Raise (RuntimeError last_errors) else Ok tracked
  end.

(** The loop [for iteration in range(max_iterations)], [n] iterations
    being left; [tracked], [warned], [total] and [done] are what the
    iterations before have accumulated. *)
Fixpoint iterate (n : nat) (idx : SchemaIndex) (strict : bool) (dir : list file)
  (tracked : list InlineAllOfInfo) (warned : list warning) (total done : nat)
  : run :=
  match n with
  | O => mkRun dir (Ok tracked) warned total done Max_iterations_reached
  | S n' =>
      let '(dir', evs, raised) := collapse_pass idx strict dir in
      let tracked' := (tracked ++ inline_allofs evs)%list in
      let warned' := (warned ++ warnings evs)%list in
      match raised with
      | Some e => mkRun dir' (Raise e) warned' total (S done) Raised
      | None =>
          let total' := total + iteration_collapsed evs in
          if (iteration_collapsed evs =? 0)%nat
          then mkRun dir' (finish strict (errors evs) tracked') warned' total'
                 (S done) Fixpoint_reached
          else
            match load (glob_json dir') (base_url idx) with
            | Raise e => mkRun dir' (Raise e) warned' total' (S done) Raised
            | Ok idx' =>
                match n' with
                | O =>
                    mkRun dir' (finish strict (errors evs) tracked')
                      (warned' ++ [WarnMaxIterations (iteration_collapsed evs)])%list
                      total' (S done) Max_iterations_reached
                | S _ => iterate n' idx' strict dir' tracked' warned' total' (S done)
                end
            end
      end
  end.

Definition max_iterations : nat := 10.

Definition process_allof_collapse (dir : list file) (idx : SchemaIndex)
  (strict : bool) : run :=
  iterate max_iterations idx strict dir [] [] 0 0.

(** *** The nodes a walk reaches

    The steps of [collapse_walk] below a node that is left as it is, one
    definition for each kind of key, and the nodes that the walk of a
    schema comes to. *)
Definition walk_named (c : file_ctx) (d : dict) (json_ptr key : string)
  (esc : string -> string) (acc : walked) : res walked :=
  with_key key
    (fun sub =>
       match sub with
       | JObj items =>
           '(items', e) <-
             map_items (fun name s =>
               collapse_walk c s (json_ptr ++ "/" ++ key ++ "/" ++ esc name)) items ;;
           Ok (walked_add acc key (JObj items') e)
       | _ => Ok acc
       end) (Ok acc) d.

Definition walk_single (c : file_ctx) (d : dict) (json_ptr : string)
  (acc : walked) (key : string) : res walked :=
  with_key key
    (fun sub =>
       match sub with
       | JObj _ =>
           '(sub', e) <- collapse_walk c sub (json_ptr ++ "/" ++ key) ;;
           Ok (walked_add acc key sub' e)
       | _ => Ok acc
       end) (Ok acc) d.

Definition walk_indexed (c : file_ctx) (d : dict) (json_ptr : string)
  (acc : walked) (key : string) : res walked :=
  with_key key
    (fun sub =>
       match sub with
       | JArr l =>
           '(l', e) <-
             map_elems (fun i s =>
               collapse_walk c s (json_ptr ++ "/" ++ key ++ "/" ++ str_of_nat i)) l 0 ;;
           Ok (walked_add acc key (JArr l') e)
       | _ => Ok acc
       end) (Ok acc) d.

Definition walk_items (c : file_ctx) (d : dict) (json_ptr : string) (acc : walked)
  : res walked :=
  with_key "items"
    (fun sub =>
       match sub with
       | JObj _ =>
           '(sub', e) <- collapse_walk c sub (json_ptr ++ "/items") ;;
           Ok (walked_add acc "items" sub' e)
       | JArr l =>
           '(l', e) <-
             map_elems (fun i s =>
               collapse_walk c s (json_ptr ++ "/items/" ++ str_of_nat i)) l 0 ;;
           Ok (walked_add acc "items" (JArr l') e)
       | _ => Ok acc
       end) (Ok acc) d.

(** The children of a node that the generator yields from. *)
Inductive walk_child (d : dict) (json_ptr : string) : json -> string -> Prop :=
| child_escaped (key name : string) (items : dict) (s : json) :
    In key ["properties"; "patternProperties"; "dependentSchemas"] ->
    dict_get key d = Some (JObj items) -> In (name, s) items ->
    walk_child d json_ptr s (json_ptr ++ "/" ++ key ++ "/" ++ escape name)
| child_named (key name : string) (items : dict) (s : json) :
    In key ["$defs"; "definitions"] ->
    dict_get key d = Some (JObj items) -> In (name, s) items ->
    walk_child d json_ptr s (json_ptr ++ "/" ++ key ++ "/" ++ name)
| child_single (key : string) (x : dict) :
    In key ["additionalProperties"; "items"; "contains"; "if"; "then"; "else"; "not"] ->
    dict_get key d = Some (JObj x) ->
    walk_child d json_ptr (JObj x) (json_ptr ++ "/" ++ key)
| child_indexed (key : string) (l : list json) (i : nat) (s : json) :
    In key ["items"; "prefixItems"; "allOf"; "anyOf"; "oneOf"] ->
    dict_get key d = Some (JArr l) -> nth_error l i = Some s ->
    walk_child d json_ptr s (json_ptr ++ "/" ++ key ++ "/" ++ str_of_nat i).



End Collapser.

(** ** A model of the library: CPython 3.11's urllib.parse

    Used for the concrete runs below; the theorems about the index hold
    for every [Pylib].  The model follows [urlsplit], [urlunsplit],
    [urlparse], [urlunparse], [urljoin] and [urldefrag] line by line, but
    for the checks of a bracketed (IPv6) host and of the NFKC form of a
    host: an authority holding a bracket or a character above 127 is a
    [ValueError] here. *)
Module CPython.

Definition uses_relative : list string :=
  [""; "ftp"; "http"; "gopher"; "nntp"; "imap"; "wais"; "file"; "https";
   "shttp"; "mms"; "prospero"; "rtsp"; "rtspu"; "sftp"; "svn"; "svn+ssh";
   "ws"; "wss"].

Definition uses_netloc : list string :=
  [""; "ftp"; "http"; "gopher"; "nntp"; "telnet"; "imap"; "wais"; "file";
   "mms"; "https"; "shttp"; "snews"; "prospero"; "rtsp"; "rtspu"; "rsync";
   "svn"; "svn+ssh"; "sftp"; "nfs"; "git"; "git+ssh"; "ws"; "wss"].

Definition uses_params : list string :=
  [""; "ftp"; "hdl"; "prospero"; "http"; "imap"; "https"; "shttp"; "rtsp";
   "rtspu"; "sip"; "sips"; "mms"; "sftp"; "tel"].

Definition elem (s : string) (l : list string) : bool := existsb (String.eqb s) l.

Definition is_upper (c : ascii) : bool :=
  let n := nat_of_ascii c in ((65 <=? n) && (n <=? 90))%nat.

Definition is_lower (c : ascii) : bool :=
  let n := nat_of_ascii c in ((97 <=? n) && (n <=? 122))%nat.

Definition is_ascii_alpha (c : ascii) : bool := is_upper c || is_lower c.

Definition is_scheme_char (c : ascii) : bool :=
  is_ascii_alpha c || Str.is_ascii_digit c
  || Ascii.eqb c "+"%char || Ascii.eqb c "-"%char || Ascii.eqb c "."%char.

Definition lower_char (c : ascii) : ascii :=
  if is_upper c then ascii_of_nat (nat_of_ascii c + 32) else c.

Fixpoint lower (s : string) : string :=
  match s with
  | EmptyString => EmptyString
  | String c r => String (lower_char c) (lower r)
  end.

(** The C0 control characters and the space. *)
Definition is_c0_or_space (c : ascii) : bool := (nat_of_ascii c <=? 32)%nat.

Fixpoint lstrip_c0 (s : string) : string :=
  match s with
  | String c r => if is_c0_or_space c then lstrip_c0 r else s
  | EmptyString => EmptyString
  end.

(** Tab, line feed and carriage return are removed wherever they are. *)
Fixpoint remove_unsafe (s : string) : string :=
  match s with
  | EmptyString => EmptyString
  | String c r =>
      let n := nat_of_ascii c in
      if ((n =? 9) || (n =? 10) || (n =? 13))%nat then remove_unsafe r
      else String c (remove_unsafe r)
  end.

(** [s.rfind(c)]. *)
Fixpoint rfind (c : ascii) (s : string) (i : nat) (found : option nat) : option nat :=
  match s with
  | EmptyString => found
  | String d r => rfind c r (S i) (if Ascii.eqb c d then Some i else found)
  end.

Record parts : Type := mkParts {
  p_scheme : string;
  p_netloc : string;
  p_path : string;
  p_params : string;
  p_query : string;
  p_fragment : string
}.

(** The index of the first of the characters [/], [?] and [#]. *)
Fixpoint netloc_end (s : string) : nat :=
  match s with
  | EmptyString => 0
  | String c r =>
      if Ascii.eqb c "/"%char || Ascii.eqb c "?"%char || Ascii.eqb c "#"%char
      then 0 else S (netloc_end r)
  end.

Definition netloc_ok (netloc : string) : bool :=
  Str.forallb (fun c => negb (Ascii.eqb c "["%char) && negb (Ascii.eqb c "]"%char)
                        && (nat_of_ascii c <? 128)%nat) netloc.

(** [urlsplit(url, scheme)]; [p_params] is left empty. *)
Definition urlsplit (url scheme : string) : res parts :=
  let url := remove_unsafe (lstrip_c0 url) in
  let scheme := remove_unsafe (Str.rev (lstrip_c0 (Str.rev (lstrip_c0 scheme)))) in
  let '(scheme, url) :=
    match Str.find ":"%char url, url with
    | Some (S i), String c _ =>
        if is_ascii_alpha c && Str.forallb is_scheme_char (String.substring 0 (S i) url)
        then (lower (String.substring 0 (S i) url), Str.drop (S (S i)) url)
        else (scheme, url)
    | _, _ => (scheme, url)
    end in
  let '(netloc, url) :=
    if Str.startswith url "//"
    then let rest := Str.drop 2 url in
         (String.substring 0 (netloc_end rest) rest, Str.drop (netloc_end rest) rest)
    else (EmptyString, url) in
  if negb (netloc_ok netloc) then Raise (ValueError (MsgText "Invalid URL"))
  else
    let '(url, fragment) :=
      match Str.split1 "#"%char url with
      | Some (u, f) => (u, f)
      | None => (url, EmptyString)
      end in
    let '(url, query) :=
      match Str.split1 "?"%char url with
      | Some (u, q) => (u, q)
      | None => (url, EmptyString)
      end in
    Ok (mkParts scheme netloc url EmptyString query fragment).

Definition _splitparams (url : string) : string * string :=
  match rfind "/"%char url 0 None with
  | Some j =>
      match Str.find ";"%char (Str.drop j url) with
      | Some k => (String.substring 0 (j + k) url, Str.drop (S (j + k)) url)
      | None => (url, EmptyString)
      end
  | None =>
      match Str.find ";"%char url with
      | Some i => (String.substring 0 i url, Str.drop (S i) url)
      | None =>
          (String.substring 0 (String.length url - 1) url, url)
      end
  end.

Definition urlparse (url scheme : string) : res parts :=
  p <- urlsplit url scheme ;;
  if elem (p_scheme p) uses_params && Str.mem ";"%char (p_path p)
  then let '(path, params) := _splitparams (p_path p) in
       Ok (mkParts (p_scheme p) (p_netloc p) path params (p_query p) (p_fragment p))
  else Ok p.

Definition nonempty (s : string) : bool := negb (String.eqb s EmptyString).

Definition urlunsplit (scheme netloc url query fragment : string) : string :=
  let url :=
    if nonempty netloc
       || (nonempty scheme && elem scheme uses_netloc
           && negb (Str.startswith url "//"))
    then "//" ++ netloc
         ++ (if nonempty url && negb (Str.startswith url "/") then "/" ++ url else url)
    else url in
  let url := if nonempty scheme then scheme ++ ":" ++ url else url in
  let url := if nonempty query then url ++ "?" ++ query else url in
  if nonempty fragment then url ++ "#" ++ fragment else url.

Definition urlunparse (p : parts) : string :=
  let url := if nonempty (p_params p) then p_path p ++ ";" ++ p_params p else p_path p in
  urlunsplit (p_scheme p) (p_netloc p) url (p_query p) (p_fragment p).

(** [segments[1:-1] = filter(None, segments[1:-1])]. *)
Definition drop_empty_inner (segments : list string) : list string :=
  match segments with
  | first :: rest =>
      match List.rev rest with
      | last :: inner_rev =>
          (first :: filter nonempty (List.rev inner_rev) ++ [last])%list
      | [] => segments
      end
  | [] => []
  end.

Fixpoint resolve_segments (segments resolved : list string) : list string :=
  match segments with
  | [] => resolved
  | seg :: r =>
      if String.eqb seg ".." then resolve_segments r (List.removelast resolved)
      else if String.eqb seg "." then resolve_segments r resolved
      else resolve_segments r (resolved ++ [seg])%list
  end.

Definition urljoin (base url : string) : res string :=
  if negb (nonempty base) then Ok url
  else if negb (nonempty url) then Ok base
  else
    b <- urlparse base EmptyString ;;
    u <- urlparse url (p_scheme b) ;;
    if negb (String.eqb (p_scheme u) (p_scheme b)) || negb (elem (p_scheme u) uses_relative)
    then Ok url
    else if elem (p_scheme u) uses_netloc && nonempty (p_netloc u)
    then Ok (urlunparse u)
    else
      let netloc := if elem (p_scheme u) uses_netloc then p_netloc b else p_netloc u in
      if negb (nonempty (p_path u)) && negb (nonempty (p_params u))
      then Ok (urlunparse (mkParts (p_scheme u) netloc (p_path b) (p_params b)
                 (if nonempty (p_query u) then p_query u else p_query b)
                 (p_fragment u)))
      else
        let base_parts := Str.split "/"%char (p_path b) in
        let base_parts :=
          if nonempty (List.last base_parts EmptyString)
          then List.removelast base_parts else base_parts in
        let segments :=
          if Str.startswith (p_path u) "/" then Str.split "/"%char (p_path u)
          else drop_empty_inner (base_parts ++ Str.split "/"%char (p_path u))%list in
        let resolved := resolve_segments segments [] in
        let last := List.last segments EmptyString in
        let resolved :=
          if String.eqb last "." || String.eqb last ".."
          then (resolved ++ [EmptyString])%list else resolved in
        let path := Str.join "/" resolved in
        Ok (urlunparse (mkParts (p_scheme u) netloc
              (if nonempty path then path else "/")
              (p_params u) (p_query u) (p_fragment u))).

Definition urldefrag (url : string) : res (string * string) :=
  if Str.mem "#"%char url then
    p <- urlparse url EmptyString ;;
    Ok (urlunparse (mkParts (p_scheme p) (p_netloc p) (p_path p) (p_params p)
          (p_query p) EmptyString),
        p_fragment p)
  else Ok (url, EmptyString).

(** [str.isidentifier] on the code points below 256. *)
Definition is_xid_start (c : ascii) : bool :=
  let n := nat_of_ascii c in
  is_ascii_alpha c || Ascii.eqb c "_"%char
  || ((n =? 170) || (n =? 181) || (n =? 186)
      || ((192 <=? n) && (n <=? 214)) || ((216 <=? n) && (n <=? 246))
      || (248 <=? n))%nat.

Definition is_xid_continue (c : ascii) : bool :=
  is_xid_start c || Str.is_ascii_digit c || (nat_of_ascii c =? 183)%nat.

Definition isidentifier (s : string) : bool :=
  match s with
  | EmptyString => false
  | String c r => is_xid_start c && Str.forallb is_xid_continue r
  end.

Definition kwlist : list string :=
  ["False"; "None"; "True"; "and"; "as"; "assert"; "async"; "await"; "break";
   "class"; "continue"; "def"; "del"; "elif"; "else"; "except"; "finally";
   "for"; "from"; "global"; "if"; "import"; "in"; "is"; "lambda"; "nonlocal";
   "not"; "or"; "pass"; "raise"; "return"; "try"; "while"; "with"; "yield"].

Definition iskeyword (s : string) : bool := elem s kwlist.

(** [str.capitalize], exact on ASCII; another character is kept. *)
Definition upper_char (c : ascii) : ascii :=
  if is_lower c then ascii_of_nat (nat_of_ascii c - 32) else c.

Definition capitalize (s : string) : string :=
  match s with
  | EmptyString => EmptyString
  | String c r => String (upper_char c) (lower r)
  end.

End CPython.

Definition cpython : Pylib :=
  Build_Pylib CPython.urljoin CPython.urldefrag CPython.isidentifier
    CPython.iskeyword CPython.capitalize.

(** ** slas_alias_generator.py: which aliases are emitted *)

Record alias : Type := mkAlias {
  alias_name : json;
  alias_schema : json;
  alias_shape : string;
  alias_node : NodeId
}.

(** [f"{package_name}.{module_name}.{name}"], kept as its three parts. *)
Record alias_fqn : Type := mkFqn {
  fq_package : string;
  fq_module : string;
  fq_name : json
}.

Definition alias_shapes : list string :=
  ["scalar_str"; "scalar_number"; "enum_str"; "union_scalar_str"].

(** [by_module[module].append(entry)] on a [defaultdict(list)]. *)
Fixpoint by_module_append (module : string) (entry : alias)
  (m : list (string * list alias)) : list (string * list alias) :=
  match m with
  | [] => [(module, [entry])]
  | (k, l) :: r =>
      if String.eqb module k then (k, (l ++ [entry])%list) :: r
      else (k, l) :: by_module_append module entry r
  end.

Section Aliases.

Context {L : Pylib}.

(** The set [all_refs]: every [$ref] of every document, resolved against
    the URI of the document. *)
Definition doc_refs (doc_uri : string) (doc : json) (all_refs : list string)
  : res (list string) :=
  foldM (fun refs (n : dict * string) =>
           match dict_get "$ref" (fst n) with
           | Some ref =>
               u <- resolve_ref ref doc_uri ;;
               Ok (if existsb (String.eqb u) refs then refs else (refs ++ [u])%list)
           | None => Ok refs
           end)
        all_refs (walk_schema_nodes doc "#").

Definition all_refs (idx : SchemaIndex) : res (list string) :=
  foldM (fun refs (d : string * node) => doc_refs (fst d) (n_val (snd d)) refs)
        [] (docs idx).

(** The body of the loop over the exportable symbols: [true] in the
    first component when the symbol gets an alias. *)
Definition export_alias (idx : SchemaIndex) (refs : list string)
  (e : NodeId * json * string) : res (option alias) :=
  let '(node_id, name, module) := e in
  found <- node_for idx (NodeId_uri node_id) ;;
  match found with
  | None => Ok None
  | Some n =>
      if negb (Py.truthy (n_val n)) then Ok None
      else
        skip <- (if Str.startswith (nid_fragment node_id) "#/$defs/"
                 then titled <- Py.contains "title" (n_val n) ;;
                      Ok (titled && negb (existsb (String.eqb (NodeId_uri node_id)) refs))
                 else Ok false) ;;
        if skip then Ok None
        else
          shape <- classify_shape (n_val n) ;;
          if existsb (String.eqb shape) alias_shapes
          then Ok (Some (mkAlias name (n_val n) shape node_id))
          else Ok None
  end.

Definition export_doc (idx : SchemaIndex) (refs : list string)
  (by_module : list (string * list alias)) (doc_uri : string)
  : res (list (string * list alias)) :=
  exports <- exportables idx doc_uri ;;
  foldM (fun bm (e : NodeId * json * string) =>
           a <- export_alias idx refs e ;;
           match a with
           | Some entry => Ok (by_module_append (snd e) entry bm)
           | None => Ok bm
           end)
        by_module exports.

(** The aliases grouped by module, as [emit_alias_modules] collects them
    before it writes the modules. *)
Definition aliases_by_module (idx : SchemaIndex) : res (list (string * list alias)) :=
  refs <- all_refs idx ;;
  foldM (export_doc idx refs) [] (map fst (docs idx)).

(** [ref_map] and the aliases of each module as [emit_alias_modules]
    returns them, called without [json_dir].  (The text of the modules,
    the validator functions and the NsInt codec are files; they are not
    part of the model, which gives what the function returns when the
    printing of these texts raises nothing: [generate_alias_code] raises
    [AttributeError] on a pattern that is not a string.) *)
Definition emit_alias_modules (idx : SchemaIndex) (package_name : string)
  : res (list (string * alias_fqn) * list (string * list alias)) :=
  by_module <- aliases_by_module idx ;;
  let ref_map :=
    fold_left
      (fun rm (m : string * list alias) =>
         fold_left
           (fun rm a =>
              smap_set (NodeId_uri (alias_node a))
                (mkFqn package_name (fst m) (alias_name a)) rm)
           (snd m) rm)
      by_module [] in
  Ok (ref_map, by_module).

End Aliases.

(** ** slas_field_mapper.py *)

Record FieldTarget : Type := mkFieldTarget {
  model_name : json;
  field_name : string;
  target_fqn : string;
  slot : string
}.

(** [str(x)] for a class name: a string, or a title that is a number.
    (A list or a dictionary prints as its [repr]; no index that [load]
    builds holds one as a class name, and the model raises [TypeError].
    A float prints as the shortest decimal that reads back as the same
    double; the model has no such printer and raises [TypeError] for a
    title that is a float.) *)
Definition py_str (x : json) : res string :=
  match x with
  | JStr s => Ok s
  | JInt n => Ok (NilZero.string_of_int (Z.to_int n))
  | JBool true => Ok "True"
  | JBool false => Ok "False"
  | JNull => Ok "None"
  | _ => Raise TypeError
  end.

(** The alias map with its names as texts,
    [f"{package_name}.{module_name}.{name}"]. *)
Definition fqn_text (f : alias_fqn) : res string :=
  name <- py_str (fq_name f) ;;
  Ok (fq_package f ++ "." ++ fq_module f ++ "." ++ name).

Definition ref_map_text (ref_map : list (string * alias_fqn))
  : res (list (string * string)) :=
  mapM (fun kv => t <- fqn_text (snd kv) ;; Ok (fst kv, t)) ref_map.

(** [FieldTarget.field_key]. *)
Definition field_key (model : json) (field : string) : res string :=
  m <- py_str model ;; Ok (m ++ "." ++ field).

Module Sanitize.

Definition is_upper (c : ascii) : bool := CPython.is_upper c.
Definition is_lower (c : ascii) : bool := CPython.is_lower c.

Fixpoint but_last (s : string) : string :=
  match s with
  | EmptyString => EmptyString
  | String c EmptyString => EmptyString
  | String c r => String c (but_last r)
  end.

Fixpoint last (s : string) : string :=
  match s with
  | EmptyString => EmptyString
  | String c EmptyString => s
  | String _ r => last r
  end.

(** [re.sub(r"([A-Z]+)([A-Z][a-z])", r"\1_\2", s)]: an underscore goes
    before the last letter of each run of two or more capitals that a
    small letter follows.  [run] is the run of capitals being read. *)
Fixpoint split_acronyms (run s : string) : string :=
  match s with
  | EmptyString => run
  | String c r =>
      if is_upper c then split_acronyms (run ++ Str.of_char c) r
      else if is_lower c && (2 <=? String.length run)%nat
      then but_last run ++ "_" ++ last run ++ String c (split_acronyms EmptyString r)
      else run ++ String c (split_acronyms EmptyString r)
  end.

(** [re.sub(r"([a-z\d])([A-Z])", r"\1_\2", s)]: [armed] tells that the
    character before is a small letter or a digit, and is not itself the
    capital of a match. *)
Fixpoint split_camel (armed : bool) (s : string) : string :=
  match s with
  | EmptyString => EmptyString
  | String c r =>
      if armed && is_upper c then String "_" (String c (split_camel false r))
      else String c (split_camel (is_lower c || Str.is_ascii_digit c) r)
  end.

(** [s.lower()] on the code points below 256. *)
Definition lower_char (c : ascii) : ascii :=
  let n := nat_of_ascii c in
  if (is_upper c || ((192 <=? n) && (n <=? 222) && negb (n =? 215)))%nat
  then ascii_of_nat (n + 32) else c.

Fixpoint lower (s : string) : string :=
  match s with
  | EmptyString => EmptyString
  | String c r => String (lower_char c) (lower r)
  end.

(** [re.sub(r"[^a-z0-9_]", "_", s)]. *)
Fixpoint underscore_others (s : string) : string :=
  match s with
  | EmptyString => EmptyString
  | String c r =>
      String (if is_lower c || Str.is_ascii_digit c || Ascii.eqb c "_"%char
              then c else "_"%char)
             (underscore_others r)
  end.

End Sanitize.

Definition sanitize_field_name (name : string) : string :=
  let name := Sanitize.split_acronyms EmptyString name in
  let name := Sanitize.split_camel false name in
  let name := Sanitize.lower name in
  let name := Sanitize.underscore_others name in
  let name :=
    match name with
    | String c _ => if Str.isdigit_char c then "field_" ++ name else name
    | EmptyString => name
    end in
  let name :=
    if existsb (String.eqb name) ["class"; "def"; "return"; "from"; "import"; "type"]
    then name ++ "_" else name in
  if String.eqb name EmptyString then "field" else name.

(** nsint_mapper.detect_ns_fields, the names only. *)
Definition detect_ns_fields (schema : json) : res (list string) :=
  props <- Py.get schema "properties" ;;
  match props with
  | JNull =>
      match schema with
      | JObj d => if dict_has "properties" d then Raise AttributeError else Ok []
      | _ => Ok []
      end
  | JObj items =>
      foldM (fun (acc : list string) (kv : string * json) =>
               if Str.endswith (fst kv) "_ns" then
                 t <- Py.get (snd kv) "type" ;;
                 if Py.is_str t "string" then
                   p <- Py.get (snd kv) "pattern" ;;
                   Ok (if Py.is_str p "^[0-9]+$" then (acc ++ [fst kv])%list else acc)
                 else Ok acc
               else Ok acc)
            [] items
  | _ => Raise AttributeError
  end.

Section FieldMapper.

Context {L : Pylib}.

Definition field_map : Type := list (string * FieldTarget).

Definition put_target (fm : field_map) (model : json) (field fqn slot : string)
  : res field_map :=
  key <- field_key model field ;;
  Ok (smap_set key (mkFieldTarget model field fqn slot) fm).

(** [find_refs_recursive]; [a] is the identity of [sub_schema]. *)
Fixpoint find_refs_recursive
  (idx : SchemaIndex) (ref_map : list (string * string)) (doc_uri : string)
  (model : json) (sub_schema : json) (a : addr) (prop_name slot : string)
  (fm : field_map) {struct sub_schema} : res field_map :=
  match sub_schema with
  | JObj d =>
      fm <- match dict_get "$ref" d with
            | Some ref =>
                let base_uri := match bases_get a (subschema_bases idx) with
                                | Some b => b
                                | None => doc_uri
                                end in
                full_uri <- resolve_uri_full base_uri ref ;;
                match smap_get full_uri ref_map with
                | Some fqn =>
                    if negb (String.eqb fqn EmptyString)
                    then put_target fm model (sanitize_field_name prop_name) fqn slot
                    else Ok fm
                | None => Ok fm
                end
            | None => Ok fm
            end ;;
      fm <- with_key "items"
              (fun sub fm =>
                 find_refs_recursive idx ref_map doc_uri model sub
                   (child a [Key "items"]) prop_name "list_item" fm)
              (fun fm => Ok fm) d fm ;;
      fm <- with_key "additionalProperties"
              (fun sub fm =>
                 find_refs_recursive idx ref_map doc_uri model sub
                   (child a [Key "additionalProperties"]) prop_name "dict_value" fm)
              (fun fm => Ok fm) d fm ;;
      foldM (fun fm key =>
               with_key key
                 (fun sub fm =>
                    match sub with
                    | JArr l =>
                        fold_elems (fun i item fm =>
                          find_refs_recursive idx ref_map doc_uri model item
                            (child a [Key key; Idx i]) prop_name "union_member" fm)
                          l 0 fm
                    | _ => Ok fm
                    end)
                 (fun fm => Ok fm) d fm)
            fm ["oneOf"; "anyOf"; "allOf"]
  | _ => Ok fm
  end.

(** The name of the model of a document. *)
Definition model_name_of (idx : SchemaIndex) (doc_uri : string) (doc : dict)
  : res json :=
  let title := dict_get_default "title" doc in
  let name :=
    if Py.truthy title then title
    else
      let stem := Str.replace ".json" EmptyString
                    (List.last (Str.split "/"%char doc_uri) EmptyString) in
      JStr (String.concat EmptyString (map capitalize (Str.split "_"%char stem))) in
  if Py.hashable name
  then Ok match overrides_get name (class_name_overrides idx) with
          | Some v => v
          | None => name
          end
  else Raise TypeError.

(** The body of the loop over the properties of a document. *)
Definition map_property
  (idx : SchemaIndex) (ref_map : list (string * string)) (doc_uri : string)
  (model : json) (a : addr) (fm : field_map) (prop : string * json)
  : res field_map :=
  let '(prop_name, prop_schema) := prop in
  match smap_get ("#/properties/" ++ prop_name) ref_map with
  | Some fqn => put_target fm model (sanitize_field_name prop_name) fqn "self"
  | None =>
      find_refs_recursive idx ref_map doc_uri model prop_schema
        (child a [Key "properties"; Key prop_name]) prop_name "self" fm
  end.

(** The body of the loop over the documents of the index. *)
Definition map_document
  (idx : SchemaIndex) (ref_map : list (string * string)) (fm : field_map)
  (d : string * node) : res field_map :=
  let '(doc_uri, doc) := d in
  match n_val doc with
  | JObj fields =>
      if negb (dict_has "properties" fields) && negb (dict_has "patternProperties" fields)
      then Ok fm
      else
        model <- model_name_of idx doc_uri fields ;;
        match dict_get "properties" fields with
        | None => Ok fm
        | Some (JObj props) =>
            foldM (map_property idx ref_map doc_uri model (n_id doc)) fm props
        | Some _ => Raise AttributeError
        end
  | _ => Ok fm
  end.

(** The loop over the files, for the NsInt fields. *)
Definition map_ns_fields (idx : SchemaIndex) (package_name : string)
  (fm : field_map) (f : file) : res field_map :=
  match fcontent f with
  | None => Raise (ValueError (MsgText "JSONDecodeError"))
  | Some schema =>
      titled <- Py.contains "title" schema ;;
      if negb titled then Ok fm
      else
        title <- Py.getitem schema "title" ;;
        class_name <- override_or_self idx title ;;
        ns_fields <- detect_ns_fields schema ;;
        foldM (fun fm name =>
                 put_target fm class_name name
                   (package_name ++ ".common_types.NsInt") "self")
              fm ns_fields
  end.

Definition build_field_map
  (idx : SchemaIndex) (ref_map : list (string * string)) (json_dir : list file)
  (package_name : string) : res field_map :=
  fm <- foldM (map_document idx ref_map) [] (docs idx) ;;
  foldM (map_ns_fields idx package_name) fm (sort_files (glob_json json_dir)).

(** The keys of the field map that the loops write: those of the
    properties of a model, of a document of the index, and of the NsInt
    fields of a file. *)
Definition property_keys (model : json) (props : dict) : list string :=
  flat_map (fun p => match field_key model (sanitize_field_name (fst p)) with
                     | Ok k => [k]
                     | Raise _ => []
                     end) props.

Definition document_keys (idx : SchemaIndex) (d : string * node) : list string :=
  match n_val (snd d) with
  | JObj fields =>
      match model_name_of idx (fst d) fields, dict_get "properties" fields with
      | Ok model, Some (JObj props) => property_keys model props
      | _, _ => []
      end
  | _ => []
  end.

Definition ns_keys (idx : SchemaIndex) (f : file) : list string :=
  match fcontent f with
  | Some schema =>
      match (title <- Py.getitem schema "title" ;; override_or_self idx title),
            detect_ns_fields schema with
      | Ok class_name, Ok names =>
          flat_map (fun n => match field_key class_name n with
                             | Ok k => [k]
                             | Raise _ => []
                             end) names
      | _, _ => []
      end
  | None => []
  end.

(** A walk of [find_refs_recursive] that leaves the key [k] as it was. *)
Definition keeps_key
  (idx : SchemaIndex) (ref_map : list (string * string)) (doc_uri : string)
  (model : json) (prop_name k : string) (sub : json) : Prop :=
  forall (a : addr) (s : string) (fm fm' : field_map),
    find_refs_recursive idx ref_map doc_uri model sub a prop_name s fm = Ok fm' ->
    smap_get k fm' = smap_get k fm.

(** [found_ref idx doc_uri sub a s full_uri s']: the call of
    [find_refs_recursive] on [sub], whose identity is [a], with the slot
    [s], comes to a [$ref] that it resolves to [full_uri] and to which it
    gives the slot [s']. *)
Inductive found_ref (idx : SchemaIndex) (doc_uri : string)
  : json -> addr -> string -> string -> string -> Prop :=
| found_here (d : dict) (a : addr) (s : string) (ref : json) (full_uri : string) :
    dict_get "$ref" d = Some ref ->
    resolve_uri_full match bases_get a (subschema_bases idx) with
                     | Some b => b
                     | None => doc_uri
                     end ref = Ok full_uri ->
    found_ref idx doc_uri (JObj d) a s full_uri s
| found_items (d : dict) (a : addr) (s : string) (sub : json) (full_uri s' : string) :
    dict_get "items" d = Some sub ->
    found_ref idx doc_uri sub (child a [Key "items"]) "list_item" full_uri s' ->
    found_ref idx doc_uri (JObj d) a s full_uri s'
| found_additional (d : dict) (a : addr) (s : string) (sub : json)
    (full_uri s' : string) :
    dict_get "additionalProperties" d = Some sub ->
    found_ref idx doc_uri sub (child a [Key "additionalProperties"]) "dict_value"
      full_uri s' ->
    found_ref idx doc_uri (JObj d) a s full_uri s'
| found_union (d : dict) (a : addr) (s key : string) (l : list json) (i : nat)
    (item : json) (full_uri s' : string) :
    In key ["oneOf"; "anyOf"; "allOf"] ->
    dict_get key d = Some (JArr l) -> nth_error l i = Some item ->
    found_ref idx doc_uri item (child a [Key key; Idx i]) "union_member" full_uri s' ->
    found_ref idx doc_uri (JObj d) a s full_uri s'.

End FieldMapper.

(** ** The words of the specification

    Definitions that follow the specification, for the statements below
    to compare the code with. *)

(** The values a list of branches holds under a key, in order. *)
Definition values_of (key : string) (branches : list dict) : list json :=
  flat_map (fun b => match dict_get key b with Some v => [v] | None => [] end)
           branches.

(** The values that the branches of a chain hold under a key, in order;
    a branch that is not a dictionary holds none. *)
Definition held (key : string) (branches : list json) : list json :=
  flat_map (fun b => match b with
                     | JObj d => match dict_get key d with Some v => [v] | None => [] end
                     | _ => []
                     end) branches.

(** The order of the numbers, by their values: that of the rationals,
    with the two infinities at the ends.  A NaN is below nothing and
    nothing is below it. *)
Definition num_leb (a b : Py.num) : bool :=
  match a, b with
  | Py.NaN, _ | _, Py.NaN => false
  | Py.MinusInf, _ => true
  | _, Py.PlusInf => true
  | Py.Finite p, Py.Finite q => Qle_bool p q
  | _, _ => false
  end.

Definition value_leb (a b : json) : bool :=
  match Py.number a, Py.number b with
  | Some x, Some y => num_leb x y
  | _, _ => false
  end.

(** A number that has a place in the order: an [int], a [bool], a
    [float] other than a NaN. *)
Definition ordered (v : json) : bool :=
  match Py.number v with
  | Some Py.NaN | None => false
  | Some _ => true
  end.

Definition is_max (m : json) (l : list json) : Prop :=
  In m l /\ forall v, In v l -> value_leb v m = true.

Definition is_min (m : json) (l : list json) : Prop :=
  In m l /\ forall v, In v l -> value_leb m v = true.

(** [merged] holds nothing under [key] when the branches hold nothing
    under it; otherwise it holds one of the values that they hold, the
    one that [pick] selects when these values are numbers that have a
    place in the order. *)
Definition bound_is (pick : json -> list json -> Prop) (key : string)
  (branches : list json) (merged : dict) : Prop :=
  match held key branches with
  | [] => dict_get key merged = None
  | v :: r =>
      exists m, dict_get key merged = Some m
                /\ In m (v :: r)
                /\ (forallb ordered (v :: r) = true -> pick m (v :: r))
  end.

(** Relations between two version sets. *)
Definition strict_subset (a b : vset) : Prop :=
  (forall c, In c a -> In c b) /\ ~ (forall c, In c b -> In c a).

Definition overlap (a b : vset) : Prop := exists c, In c a /\ In c b.

Definition disjoint (a b : vset) : Prop := forall c, In c a -> ~ In c b.

(** A text names a version set when it holds the set printed as Python
    prints [sorted(v)]. *)
Definition names_set (text : string) (v : vset) : Prop :=
  Str.contains (VSet.repr (VSet.sorted v)) text = true.

(** A computation that does not raise [ValueError]. *)
Definition no_value_error {A : Type} (r : res A) : Prop :=
  forall m, r <> Raise (ValueError m).

(** RFC 6901.  A pointer is a sequence of reference tokens, each written
    after a [/] with [~] as [~0] and [/] as [~1]; an array is indexed by
    [0] or by digits that do not start with [0]. *)
Fixpoint rfc_escape (token : string) : string :=
  match token with
  | EmptyString => EmptyString
  | String c r =>
      if Ascii.eqb c "~"%char then String "~" (String "0" (rfc_escape r))
      else if Ascii.eqb c "/"%char then String "~" (String "1" (rfc_escape r))
      else String c (rfc_escape r)
  end.

Fixpoint pointer_of (tokens : list string) : string :=
  match tokens with
  | [] => EmptyString
  | t :: r => String "/" (rfc_escape t ++ pointer_of r)
  end.

Fixpoint decimal (acc : nat) (s : string) : nat :=
  match s with
  | EmptyString => acc
  | String c r => decimal (10 * acc + (nat_of_ascii c - 48)) r
  end.

Definition rfc_index (token : string) : option nat :=
  match token with
  | EmptyString => None
  | String c r =>
      if Str.forallb Str.is_ascii_digit token
         && (negb (Ascii.eqb c "0"%char) || String.eqb r EmptyString)
      then Some (decimal 0 token) else None
  end.

Fixpoint rfc6901 (doc : json) (tokens : list string) : option json :=
  match tokens with
  | [] => Some doc
  | t :: r =>
      match doc with
      | JObj d =>
          match dict_get t d with
          | Some v => rfc6901 v r
          | None => None
          end
      | JArr l =>
          match rfc_index t with
          | Some i =>
              match nth_error l i with
              | Some v => rfc6901 v r
              | None => None
              end
          | None => None
          end
      | _ => None
      end
  end.

(** An entry of the field map as [build_field_map] makes them: the key
    is that of the target, the slot is one of the four, and the alias is
    one that the alias map holds, for a field named by a sanitized
    property name, or the NsInt codec, for a field that bears the name of
    the property, which ends with [_ns]. *)
Definition slots : list string := ["self"; "list_item"; "dict_value"; "union_member"].

Definition target_ok (ref_map : list (string * string)) (package_name : string)
  (entry : string * FieldTarget) : Prop :=
  field_key (model_name (snd entry)) (field_name (snd entry)) = Ok (fst entry)
  /\ In (slot (snd entry)) slots
  /\ ((In (target_fqn (snd entry)) (map snd ref_map)
       /\ target_fqn (snd entry) <> EmptyString
       /\ exists prop_name, field_name (snd entry) = sanitize_field_name prop_name)
      \/ (target_fqn (snd entry) = package_name ++ ".common_types.NsInt"
          /\ slot (snd entry) = "self"
          /\ Str.endswith (field_name (snd entry)) "_ns" = true)).

(** What the loops of [build_field_map] keep true of the field map. *)
Definition entries_ok (ref_map : list (string * string)) (package_name : string)
  (fm : list (string * FieldTarget)) : Prop :=
  Forall (target_ok ref_map package_name) fm /\ NoDup (map fst fm).

(** A property that yields an NsInt field: its name ends with [_ns], its
    type is [string] and its pattern is that of the digits. *)
Definition ns_field (schema : json) (name : string) : Prop :=
  exists (items : dict) (s t p : json),
    Py.get schema "properties" = Ok (JObj items)
    /\ In (name, s) items
    /\ Str.endswith name "_ns" = true
    /\ Py.get s "type" = Ok t /\ Py.is_str t "string" = true
    /\ Py.get s "pattern" = Ok p /\ Py.is_str p "^[0-9]+$" = true.

(** Where a target comes from.  It is that of a property of a document
    of the index that has [properties]: the model is the name of that
    document, the field is the sanitized name of the property, and the
    alias is the one the alias map holds for [#/properties/<name>], with
    the slot [self], or, when it holds none, the one it holds for a
    reference that [find_refs_recursive] finds in the schema of the
    property, with the slot of the place where it finds it.  Or it is
    that of an NsInt field of a titled file of the directory: the model
    is the title of the file, or its override, and the field is the name
    of the property as the file has it. *)
Definition target_from {L : Pylib} (idx : SchemaIndex)
  (ref_map : list (string * string)) (json_dir : list file) (package_name : string)
  (entry : string * FieldTarget) : Prop :=
  (exists (doc_uri : string) (doc : node) (fields props : dict)
          (prop_name : string) (prop_schema : json),
      In (doc_uri, doc) (docs idx)
      /\ n_val doc = JObj fields
      /\ dict_get "properties" fields = Some (JObj props)
      /\ In (prop_name, prop_schema) props
      /\ model_name_of idx doc_uri fields = Ok (model_name (snd entry))
      /\ field_name (snd entry) = sanitize_field_name prop_name
      /\ match smap_get ("#/properties/" ++ prop_name) ref_map with
         | Some fqn => target_fqn (snd entry) = fqn /\ slot (snd entry) = "self"
         | None =>
             exists full_uri,
               found_ref idx doc_uri prop_schema
                 (child (n_id doc) [Key "properties"; Key prop_name]) "self"
                 full_uri (slot (snd entry))
               /\ smap_get full_uri ref_map = Some (target_fqn (snd entry))
         end)
  \/ (exists (f : file) (schema title : json),
         In f json_dir
         /\ Str.endswith (fname f) ".json" = true
         /\ fcontent f = Some schema
         /\ Py.getitem schema "title" = Ok title
         /\ override_or_self idx title = Ok (model_name (snd entry))
         /\ ns_field schema (field_name (snd entry))
         /\ target_fqn (snd entry) = package_name ++ ".common_types.NsInt"
         /\ slot (snd entry) = "self").

(** A record of an inline chain as the collapser makes them: the pointer
    goes through [properties], the name of the property is read off it,
    and the merged schema has a scalar type. *)
Definition tracked_ok (info : InlineAllOfInfo) : Prop :=
  Str.contains "/properties/" (json_pointer info) = true
  /\ _extract_property_name (json_pointer info) = Ok (property_name info)
  /\ exists t, In t scalar_types
               /\ dict_get "type" (merged_schema info) = Some (JStr t).

Definition event_ok (file : string) (e : event) : Prop :=
  match e with
  | Collapsed (Some info) _ => origin_file info = file /\ tracked_ok info
  | _ => True
  end.

(** The characters of a field name: small letters, digits and [_]. *)
Definition name_char (c : ascii) : bool :=
  Sanitize.is_lower c || Str.is_ascii_digit c || Ascii.eqb c "_"%char.

Definition reserved_names : list string :=
  ["class"; "def"; "return"; "from"; "import"; "type"].

(** Bounds that no value meets, for bounds that are integers. *)
Definition int_at (key : string) (d : dict) : option Z :=
  match dict_get key d with
  | Some (JInt z) => Some z
  | _ => None
  end.

Definition int_bounds (d : dict) : bool :=
  forallb (fun key => match dict_get key d with
                      | Some (JInt _) | None => true
                      | Some _ => false
                      end)
    ["minLength"; "maxLength"; "minimum"; "maximum";
     "exclusiveMinimum"; "exclusiveMaximum"].





Definition unsatisfiable (d : dict) : bool :=
  match int_at "minLength" d, int_at "maxLength" d with
  | Some lo, Some hi => (hi <? lo)%Z
  | _, _ => false
  end
  || match int_at "minimum" d, int_at "maximum" d with
     | Some lo, Some hi => (hi <? lo)%Z
     | _, _ => false
     end
  || match int_at "exclusiveMinimum" d, int_at "exclusiveMaximum" d with
     | Some lo, Some hi => (hi <=? lo)%Z
     | _, _ => false
     end.

(** [half] is a token with [~] alone escaped: what is left of an escaped
    token when [~1] has been replaced. *)
Fixpoint half (t : string) : string :=
  match t with
  | EmptyString => EmptyString
  | String c r =>
      if Ascii.eqb c "~"%char then String "~" (String "0" (half r))
      else String c (half r)
  end.

(** Induction on a JSON value, with the hypothesis for the members of a
    list and the values of a dictionary. *)
Fixpoint json_ind' (P : json -> Prop)
  (HNull : P JNull) (HBool : forall b, P (JBool b)) (HInt : forall n, P (JInt n))
  (HFloat : forall f, P (JFloat f)) (HStr : forall s, P (JStr s))
  (HArr : forall l, Forall P l -> P (JArr l))
  (HObj : forall d, Forall (fun kv => P (snd kv)) d -> P (JObj d))
  (j : json) {struct j} : P j :=
  match j with
  | JNull => HNull
  | JBool b => HBool b
  | JInt n => HInt n
  | JFloat f => HFloat f
  | JStr s => HStr s
  | JArr l =>
      HArr l ((fix go (l : list json) : Forall P l :=
                 match l with
                 | [] => Forall_nil P
                 | x :: r =>
                     Forall_cons x (json_ind' P HNull HBool HInt HFloat HStr HArr HObj x) (go r)
                 end) l)
  | JObj d =>
      HObj d ((fix go (d : dict) : Forall (fun kv => P (snd kv)) d :=
                 match d with
                 | [] => Forall_nil _
                 | kv :: r =>
                     Forall_cons kv
                       (json_ind' P HNull HBool HInt HFloat HStr HArr HObj (snd kv)) (go r)
                 end) d)
  end.

(** A property of a value and of its members, for the inductions on the
    functions that look two levels down (a list of schemas under a key). *)
Definition members_hold (P : json -> Prop) (j : json) : Prop :=
  P j /\
  match j with
  | JArr l => Forall P l
  | JObj d => Forall (fun kv => P (snd kv)) d
  | _ => True
  end.

(** A document whose pointers can be followed: no key twice in a
    dictionary, as [json.load] leaves it, and no [~] or [/] in the name of
    a definition. *)
Definition plain_names (key : string) (d : dict) : bool :=
  match dict_get key d with
  | Some (JObj items) => forallb (fun kv => String.eqb (escape (fst kv)) (fst kv)) items
  | _ => true
  end.

Fixpoint distinct_keys (keys : list string) : bool :=
  match keys with
  | [] => true
  | k :: r => negb (existsb (String.eqb k) r) && distinct_keys r
  end.

Fixpoint pointer_safe (j : json) : bool :=
  match j with
  | JArr l => forallb pointer_safe l
  | JObj d =>
      distinct_keys (map fst d)
      && plain_names "$defs" d && plain_names "definitions" d
      && (fix go (d : dict) : bool :=
            match d with
            | [] => true
            | (_, v) :: r => pointer_safe v && go r
            end) d
  | _ => true
  end.

(** ** Documents of the examples *)

Module Examples.

(** A model with a list of tags, and the module of its types. *)
Definition tags : json :=
  JObj [("type", JStr "array");
        ("items", JObj [("$ref", JStr "types.json#/$defs/Tag")])].

Definition order_doc : json :=
  JObj [("$id", JStr "http://example.com/order.json");
        ("title", JStr "Order");
        ("type", JStr "object");
        ("properties", JObj [("tags", tags)])].

Definition tag_schema : json :=
  JObj [("title", JStr "Tag"); ("type", JStr "string"); ("minLength", JInt 1)].

Definition types_doc : json :=
  JObj [("$id", JStr "http://example.com/types.json");
        ("$defs", JObj [("Tag", tag_schema)])].

Definition order_files : list file :=
  [mkFile "order.json" (Some order_doc); mkFile "types.json" (Some types_doc)].

(** The index that [SchemaIndex.load] builds from the two files. *)
Definition order_index : SchemaIndex :=
  Eval vm_compute in
    match @load cpython order_files None with
    | Ok idx => idx
    | Raise _ => empty_index None
    end.

Definition tag_uri : string := "http://example.com/types.json#/$defs/Tag".

Definition order_ref_map : list (string * string) := [(tag_uri, "pkg.types.Tag")].

(** The same map after [emit_inline_allof_aliases] has added the alias of
    an inline allOf property that is named [tags] too. *)
Definition inline_ref_map : list (string * string) :=
  [(tag_uri, "pkg.types.Tag"); ("#/properties/tags", "pkg.event_types.Event_tags")].

(** A document with a property that is an array of references, a
    property that has an inline alias and an NsInt field. *)
Definition ledger_doc : json :=
  JObj [("$id", JStr "http://example.com/ledger.json");
        ("title", JStr "Ledger");
        ("type", JStr "object");
        ("properties",
         JObj [("tags", tags);
               ("ownerID", JObj [("type", JStr "string"); ("minLength", JInt 1)]);
               ("created_ns", JObj [("type", JStr "string");
                                    ("pattern", JStr "^[0-9]+$")])])].

Definition ledger_files : list file :=
  [mkFile "ledger.json" (Some ledger_doc); mkFile "types.json" (Some types_doc)].

Definition ledger_index : SchemaIndex :=
  Eval vm_compute in
    match @load cpython ledger_files None with
    | Ok idx => idx
    | Raise _ => empty_index None
    end.

Definition ledger_ref_map : list (string * string) :=
  [(tag_uri, "pkg.types.Tag"); ("#/properties/ownerID", "pkg.ledger_types.Ledger_ownerID")].

Definition ledger_field_map : list (string * FieldTarget) :=
  [("Ledger.tags", mkFieldTarget (JStr "Ledger") "tags" "pkg.types.Tag" "list_item");
   ("Ledger.owner_id",
    mkFieldTarget (JStr "Ledger") "owner_id" "pkg.ledger_types.Ledger_ownerID" "self");
   ("Ledger.created_ns",
    mkFieldTarget (JStr "Ledger") "created_ns" "pkg.common_types.NsInt" "self")].

(** The same two documents without [$id]. *)
Definition plain_order_doc : json :=
  JObj [("title", JStr "Order");
        ("type", JStr "object");
        ("properties", JObj [("tags", tags)])].

Definition plain_types_doc : json := JObj [("$defs", JObj [("Tag", tag_schema)])].

Definition plain_files : list file :=
  [mkFile "order.json" (Some plain_order_doc); mkFile "types.json" (Some plain_types_doc)].

Definition plain_index : SchemaIndex :=
  Eval vm_compute in
    match @load cpython plain_files None with
    | Ok idx => idx
    | Raise _ => empty_index None
    end.

(** A definition that has a title, and a property of its own document
    that refers to it; the document has no [$id]. *)
Definition code_schema : json :=
  JObj [("title", JStr "Code"); ("type", JStr "string"); ("pattern", JStr "^[A-Z]+$")].

Definition shop_fields : dict :=
  [("title", JStr "Shop");
   ("type", JStr "object");
   ("properties", JObj [("code", JObj [("$ref", JStr "#/$defs/Code")])]);
   ("$defs", JObj [("Code", code_schema)])].

Definition shop_doc : json := JObj shop_fields.

Definition shop_files : list file := [mkFile "shop.json" (Some shop_doc)].

Definition shop_index : SchemaIndex :=
  Eval vm_compute in
    match @load cpython shop_files None with
    | Ok idx => idx
    | Raise _ => empty_index None
    end.

Definition code_id : NodeId := mkNodeId "lithify:///shop.json" "#/$defs/Code".

(** The same document under an [$id]. *)
Definition shop_id_doc : json :=
  JObj (("$id", JStr "http://example.com/shop.json") :: shop_fields).

Definition shop_id_files : list file := [mkFile "shop.json" (Some shop_id_doc)].

Definition shop_id_index : SchemaIndex :=
  Eval vm_compute in
    match @load cpython shop_id_files None with
    | Ok idx => idx
    | Raise _ => empty_index None
    end.

(** Two definitions, one of which has a [/] in its name. *)
Definition shadow_doc : json :=
  JObj [("$defs", JObj [("a", JObj [("b", JObj [("type", JStr "integer")])]);
                        ("a/b", JObj [("type", JStr "string")])])].

Definition shadow_files : list file := [mkFile "d.json" (Some shadow_doc)].

Definition shadow_index : SchemaIndex :=
  Eval vm_compute in
    match @load cpython shadow_files None with
    | Ok idx => idx
    | Raise _ => empty_index None
    end.

(** A property whose name holds a [/], with a list of item schemas. *)
Definition items_doc : json :=
  JObj [("properties",
         JObj [("a/b", JObj [("items", JArr [JObj [("type", JStr "string")]])])])].

(** A model with an inline chain on one of its properties. *)
Definition event_doc : json :=
  JObj [("$id", JStr "http://example.com/event.json");
        ("title", JStr "Event");
        ("type", JStr "object");
        ("properties",
         JObj [("code",
                JObj [("allOf", JArr [JObj [("type", JStr "string"); ("minLength", JInt 2)];
                                      JObj [("maxLength", JInt 8)]])])])].

Definition event_files : list file := [mkFile "event.json" (Some event_doc)].

Definition event_index : SchemaIndex :=
  Eval vm_compute in
    match @load cpython event_files None with
    | Ok idx => idx
    | Raise _ => empty_index None
    end.

(** The types in a file whose name bears a number. *)
Definition numbered_files : list file :=
  [mkFile "02_common_types.json" (Some types_doc)].

Definition numbered_index : SchemaIndex :=
  Eval vm_compute in
    match @load cpython numbered_files None with
    | Ok idx => idx
    | Raise _ => empty_index None
    end.

(** A chain of two references to two definitions, and a chain of two
    references to two places that hold [true]. *)
Definition twin_branches : list json :=
  [JObj [("$ref", JStr "#/$defs/A")]; JObj [("$ref", JStr "#/$defs/B")]].

Definition flag_branches : list json :=
  [JObj [("$ref", JStr "#/$defs/flags/x")]; JObj [("$ref", JStr "#/$defs/flags/y")]].

Definition twin_doc : json :=
  JObj [("$id", JStr "http://example.com/twin.json");
        ("$defs",
         JObj [("A", JObj [("type", JStr "string"); ("minLength", JInt 1)]);
               ("B", JObj [("type", JStr "string"); ("maxLength", JInt 9)]);
               ("flags", JObj [("x", JBool true); ("y", JBool true)])]);
        ("properties",
         JObj [("p", JObj [("allOf", JArr twin_branches)]);
               ("q", JObj [("allOf", JArr flag_branches)])])].

Definition twin_files : list file := [mkFile "twin.json" (Some twin_doc)].

Definition twin_index : SchemaIndex :=
  Eval vm_compute in
    match @load cpython twin_files None with
    | Ok idx => idx
    | Raise _ => empty_index None
    end.

(** A chain under a nested [$id]: [t.json] names one document against
    the base of the subtree and another against the URI of the file. *)
Definition nested_branches : list json :=
  [JObj [("$ref", JStr "t.json")];
   JObj [("type", JStr "string"); ("minLength", JInt 1)]].

Definition nested_doc : json :=
  JObj [("$id", JStr "http://example.com/a.json");
        ("$defs",
         JObj [("Sub",
                JObj [("$id", JStr "http://example.com/sub/");
                      ("type", JStr "object");
                      ("properties",
                       JObj [("p", JObj [("allOf", JArr nested_branches)])])])])].

Definition t_doc : json :=
  JObj [("$id", JStr "http://example.com/t.json");
        ("type", JStr "string"); ("maxLength", JInt 5)].

Definition sub_t_doc : json :=
  JObj [("$id", JStr "http://example.com/sub/t.json");
        ("type", JStr "string"); ("maxLength", JInt 9)].

Definition nested_files : list file :=
  [mkFile "a.json" (Some nested_doc); mkFile "sub_t.json" (Some sub_t_doc);
   mkFile "t.json" (Some t_doc)].

Definition nested_index : SchemaIndex :=
  Eval vm_compute in
    match @load cpython nested_files None with
    | Ok idx => idx
    | Raise _ => empty_index None
    end.

(** Chains that refer to one another: [Refined] can be collapsed once
    [Base] has been. *)
Definition refined_doc : json :=
  JObj [("$id", JStr "http://example.com/nested.json");
        ("$defs",
         JObj [("Primitive", JObj [("type", JStr "string"); ("pattern", JStr "^[a-z]+$")]);
               ("Base",
                JObj [("allOf", JArr [JObj [("$ref", JStr "#/$defs/Primitive")];
                                      JObj [("minLength", JInt 3)]])]);
               ("Refined",
                JObj [("allOf", JArr [JObj [("$ref", JStr "#/$defs/Base")];
                                      JObj [("maxLength", JInt 10)]])])])].

Definition refined_files : list file := [mkFile "nested.json" (Some refined_doc)].

Definition refined_index : SchemaIndex :=
  Eval vm_compute in
    match @load cpython refined_files None with
    | Ok idx => idx
    | Raise _ => empty_index None
    end.

(** Two chains whose bounds cannot be met. *)
Definition code_chain : dict :=
  [("allOf", JArr [JObj [("type", JStr "string"); ("minLength", JInt 5)];
                   JObj [("type", JStr "string"); ("maxLength", JInt 3)]])].

Definition level_chain : dict :=
  [("allOf", JArr [JObj [("type", JStr "integer"); ("minimum", JInt 10)];
                   JObj [("type", JStr "integer"); ("maximum", JInt 1)]])].

Definition range_doc : json :=
  JObj [("$id", JStr "http://example.com/range.json");
        ("title", JStr "Range");
        ("type", JStr "object");
        ("properties", JObj [("code", JObj code_chain); ("level", JObj level_chain)])].

Definition range_file : file := mkFile "range.json" (Some range_doc).

Definition range_files : list file := [range_file].

Definition range_index : SchemaIndex :=
  Eval vm_compute in
    match @load cpython range_files None with
    | Ok idx => idx
    | Raise _ => empty_index None
    end.













End Examples.

(** * Properties *)

(** ** The error monad and dictionaries *)

Lemma bind_Ok {A B : Type} (c : res A) (k : A -> res B) (b : B) :
  bind c k = Ok b -> exists a, c = Ok a /\ k a = Ok b.
Proof.
  destruct c as [a | e]; simpl; intros H.
  - exists a. split; [reflexivity | exact H].
  - discriminate H.
Qed.

Lemma bind_ext {A B : Type} (c : res A) (k k' : A -> res B) :
  (forall a, k a = k' a) -> bind c k = bind c k'.
Proof. intros H. destruct c; simpl; [apply H | reflexivity]. Qed.

(** Splits a hypothesis [x <- c ;; k = Ok b]. *)
Ltac inv_bind H :=
  let a := fresh "a" in
  let Ha := fresh "Ha" in
  apply bind_Ok in H; destruct H as [a [Ha H]].

Tactic Notation "split_bind" hyp(H) "as" ident(a) ident(Ha) :=
  apply bind_Ok in H; destruct H as [a [Ha H]].

Lemma dict_get_set_same (k : string) (v : json) (d : dict) :
  dict_get k (dict_set k v d) = Some v.
Proof.
  induction d as [| [k' v'] r IH]; simpl.
  - rewrite String.eqb_refl. reflexivity.
  - destruct (String.eqb k k') eqn:E; simpl.
    + rewrite String.eqb_refl. reflexivity.
    + rewrite E. exact IH.
Qed.

Lemma dict_get_set_other (k k' : string) (v : json) (d : dict) :
  k <> k' -> dict_get k (dict_set k' v d) = dict_get k d.
Proof.
  intros Hne. induction d as [| [k0 v0] r IH]; simpl.
  - destruct (String.eqb_spec k k'); [contradiction | reflexivity].
  - destruct (String.eqb_spec k' k0) as [-> | Hk]; simpl.
    + destruct (String.eqb_spec k k0); [contradiction | reflexivity].
    + destruct (String.eqb_spec k k0); [reflexivity | exact IH].
Qed.

Lemma dict_has_get (k : string) (d : dict) :
  dict_has k d = true <-> exists v, dict_get k d = Some v.
Proof.
  unfold dict_has. destruct (dict_get k d) as [v |].
  - split; [intros _; exists v; reflexivity | reflexivity].
  - split; [discriminate | intros [v Hv]; discriminate Hv].
Qed.

(** ** The shape classifier *)

(** An empty [enum] passes the test of [is_enum_str]: [all] of nothing. *)
Lemma is_enum_str_empty_enum (d : dict) :
  dict_get "enum" d = Some (JArr []) -> is_enum_str (JObj d) = true.
Proof.
  intros H. unfold is_enum_str. rewrite H. reflexivity.
Qed.

(** C10, as the code has it: a schema whose [enum] is the empty list is
    classified [enum_str] when neither of the two checks made before,
    scalar string and scalar number, takes it. *)
Theorem classify_empty_enum (d : dict) :
  dict_get "enum" d = Some (JArr []) ->
  is_scalar_str (JObj d) = false ->
  is_scalar_number (JObj d) = Ok false ->
  classify_shape (JObj d) = Ok "enum_str".
Proof.
  intros Henum Hstr Hnum.
  unfold classify_shape. rewrite Hstr, Hnum. cbn [bind].
  rewrite (is_enum_str_empty_enum d Henum). reflexivity.
Qed.

(** The schema [{"enum": []}] is such a schema. *)
Lemma classify_empty_enum_witness :
  classify_shape (JObj [("enum", JArr [])]) = Ok "enum_str".
Proof.
  apply (classify_empty_enum [("enum", JArr [])]); reflexivity.
Defined.

(** C10 as stated fails on [{"type": "string", "minLength": 1, "enum": []}]:
    the check for a scalar string comes first. *)
Lemma classify_empty_enum_scalar_first :
  dict_get "enum" [("type", JStr "string"); ("minLength", JInt 1); ("enum", JArr [])]
    = Some (JArr [])
  /\ classify_shape
       (JObj [("type", JStr "string"); ("minLength", JInt 1); ("enum", JArr [])])
     = Ok "scalar_str".
Proof. split; reflexivity. Qed.

(** ** merge_constraints: bounds *)

Lemma collect_dicts (key : string) (ds : list dict) :
  collect key (map JObj ds) = Ok (values_of key ds).
Proof.
  unfold collect. induction ds as [| d r IH]; simpl.
  - reflexivity.
  - unfold dict_has. destruct (dict_get key d) as [v |]; simpl.
    + rewrite IH. reflexivity.
    + exact IH.
Qed.

(** The order of the numbers. *)
Lemma num_leb_trans (x y z : Py.num) :
  num_leb x y = true -> num_leb y z = true -> num_leb x z = true.
Proof.
  destruct x as [| | p |], y as [| | q |], z as [| | r |]; simpl;
    try discriminate; try reflexivity.
  rewrite !Qle_bool_iff. apply Qle_trans.
Qed.

Lemma num_leb_total (x y : Py.num) :
  x <> Py.NaN -> y <> Py.NaN -> num_leb x y = true \/ num_leb y x = true.
Proof.
  destruct x as [| | p |], y as [| | q |]; simpl; intros Hx Hy;
    try contradiction; try (left; reflexivity); try (right; reflexivity).
  rewrite !Qle_bool_iff. destruct (Qlt_le_dec p q) as [H | H].
  - left. apply Qlt_le_weak. exact H.
  - right. exact H.
Qed.

Lemma num_lt_leb (x y : Py.num) :
  Py.num_lt x y = num_leb x y && negb (num_leb y x).
Proof.
  destruct x as [| | p |], y as [| | q |]; simpl; try reflexivity.
  destruct (Qle_bool q p) eqn:E; simpl; [symmetry; apply andb_false_r |].
  rewrite andb_true_r. symmetry. apply Qle_bool_iff.
  destruct (Qlt_le_dec p q) as [H | H]; [apply Qlt_le_weak; exact H |].
  apply Qle_bool_iff in H. rewrite H in E. discriminate E.
Qed.


Lemma Qle_bool_inject (n m : Z) : Qle_bool (inject_Z n) (inject_Z m) = (n <=? m)%Z.
Proof. unfold Qle_bool, inject_Z. simpl. rewrite !Z.mul_1_r. reflexivity. Qed.

(** [<] and [>=] on two numbers are those of their values. *)
Lemma lt_number (a b : json) (x y : Py.num) :
  Py.number a = Some x -> Py.number b = Some y -> Py.lt a b = Ok (Py.num_lt x y).
Proof.
  destruct a, b; simpl; intros Hx Hy; try discriminate;
    injection Hx as <-; injection Hy as <-; try reflexivity;
    simpl; rewrite Qle_bool_inject, Z.ltb_antisym; reflexivity.
Qed.


Lemma ordered_number (v : json) :
  ordered v = true -> exists x, Py.number v = Some x /\ x <> Py.NaN.
Proof.
  unfold ordered. destruct (Py.number v) as [[| | q |] |]; try discriminate;
    intros _; eexists; (split; [reflexivity | discriminate]).
Qed.

Lemma value_leb_refl (v : json) : ordered v = true -> value_leb v v = true.
Proof.
  intros H. destruct (ordered_number v H) as [x [Hx Hn]]. unfold value_leb. rewrite Hx.
  destruct (num_leb_total x x Hn Hn); assumption.
Qed.

Lemma value_leb_trans (a b c : json) :
  value_leb a b = true -> value_leb b c = true -> value_leb a c = true.
Proof.
  unfold value_leb.
  destruct (Py.number a) as [x |]; [| discriminate].
  destruct (Py.number b) as [y |]; [| discriminate].
  destruct (Py.number c) as [z |]; [| intros _ H; exact H].
  apply num_leb_trans.
Qed.

(** [a < b] on two numbers of the order: [b] is not below [a]. *)
Lemma lt_ordered (a b : json) :
  ordered a = true -> ordered b = true ->
  exists r, Py.lt a b = Ok r
            /\ (r = true -> value_leb a b = true)
            /\ (r = false -> value_leb b a = true).
Proof.
  intros Ha Hb.
  destruct (ordered_number a Ha) as [x [Hx Hnx]].
  destruct (ordered_number b Hb) as [y [Hy Hny]].
  exists (Py.num_lt x y). split; [exact (lt_number a b x y Hx Hy) |].
  unfold value_leb. rewrite Hx, Hy, num_lt_leb. split.
  - intros H. apply andb_true_iff in H. exact (proj1 H).
  - intros H. destruct (num_leb_total x y Hnx Hny) as [E | E]; [| exact E].
    rewrite E in H. simpl in H. apply negb_false_iff in H. exact H.
Qed.

(** [max] and [min] return one of the members of the list. *)
Lemma max_from_In (l : list json) :
  forall c m, Py.max_from c l = Ok m -> In m (c :: l).
Proof.
  induction l as [| x r IH]; intros c m H; simpl in H.
  - injection H as <-. left. reflexivity.
  - split_bind H as b Hb. destruct (IH _ _ H) as [E | Hin].
    + destruct b; [right; left | left]; exact E.
    + right. right. exact Hin.
Qed.

Lemma min_from_In (l : list json) :
  forall c m, Py.min_from c l = Ok m -> In m (c :: l).
Proof.
  induction l as [| x r IH]; intros c m H; simpl in H.
  - injection H as <-. left. reflexivity.
  - split_bind H as b Hb. destruct (IH _ _ H) as [E | Hin].
    + destruct b; [right; left | left]; exact E.
    + right. right. exact Hin.
Qed.

(** On numbers of the order they return the greatest and the least. *)
Lemma max_from_is_max (l : list json) :
  forall c m, forallb ordered (c :: l) = true -> Py.max_from c l = Ok m ->
              is_max m (c :: l).
Proof.
  induction l as [| x r IH]; intros c m Ho H.
  - simpl in H. injection H as <-. simpl in Ho. rewrite andb_true_r in Ho.
    split; [left; reflexivity |]. intros v [<- | []]. exact (value_leb_refl _ Ho).
  - cbn [forallb] in Ho. apply andb_true_iff in Ho. destruct Ho as [Hc Ho].
    apply andb_true_iff in Ho. destruct Ho as [Hx Hr].
    pose proof (max_from_In (x :: r) c m H) as Hin0.
    cbn [Py.max_from] in H. unfold Py.gt in H.
    destruct (lt_ordered c x Hc Hx) as [b [Hb [Ht Hf]]].
    rewrite Hb in H. cbn [bind] in H.
    assert (Ho' : forallb ordered ((if b then x else c) :: r) = true).
    { cbn [forallb]. rewrite Hr, andb_true_r. destruct b; assumption. }
    destruct (IH _ _ Ho' H) as [Hin Hub]. split; [exact Hin0 |].
    pose proof (Hub _ (or_introl eq_refl)) as Hcur.
    intros v [<- | [<- | Hv]].
    + destruct b; [| exact Hcur]. exact (value_leb_trans _ _ _ (Ht eq_refl) Hcur).
    + destruct b; [exact Hcur |]. exact (value_leb_trans _ _ _ (Hf eq_refl) Hcur).
    + apply Hub. right. exact Hv.
Qed.

Lemma min_from_is_min (l : list json) :
  forall c m, forallb ordered (c :: l) = true -> Py.min_from c l = Ok m ->
              is_min m (c :: l).
Proof.
  induction l as [| x r IH]; intros c m Ho H.
  - simpl in H. injection H as <-. simpl in Ho. rewrite andb_true_r in Ho.
    split; [left; reflexivity |]. intros v [<- | []]. exact (value_leb_refl _ Ho).
  - cbn [forallb] in Ho. apply andb_true_iff in Ho. destruct Ho as [Hc Ho].
    apply andb_true_iff in Ho. destruct Ho as [Hx Hr].
    destruct (lt_ordered x c Hx Hc) as [b [Hb [Ht Hf]]].
    pose proof (min_from_In (x :: r) c m H) as Hin0.
    cbn [Py.min_from] in H.
    rewrite Hb in H. cbn [bind] in H.
    assert (Ho' : forallb ordered ((if b then x else c) :: r) = true).
    { cbn [forallb]. rewrite Hr, andb_true_r. destruct b; assumption. }
    destruct (IH _ _ Ho' H) as [Hin Hlb]. split; [exact Hin0 |].
    pose proof (Hlb _ (or_introl eq_refl)) as Hcur.
    intros v [<- | [<- | Hv]].
    + destruct b; [| exact Hcur]. exact (value_leb_trans _ _ _ Hcur (Ht eq_refl)).
    + destruct b; [exact Hcur |]. exact (value_leb_trans _ _ _ Hcur (Hf eq_refl)).
    + apply Hlb. right. exact Hv.
Qed.

(** The list that [collect] returns is the list of the values held. *)
Lemma collect_held (key : string) (branches : list json) (vs : list json) :
  collect key branches = Ok vs -> vs = held key branches.
Proof.
  unfold collect. revert vs. induction branches as [| b r IH]; intros vs H.
  - injection H as <-. reflexivity.
  - cbn [collect_with] in H. split_bind H as has Hc.
    destruct b as [| x | n | fl | s | l | d]; try discriminate Hc; cbn [held flat_map].
    + destruct has; [discriminate H | exact (IH _ H)].
    + destruct has; [discriminate H | exact (IH _ H)].
    + simpl in Hc. injection Hc as <-. unfold dict_has in H.
      fold (held key r).
      destruct (dict_get key d) as [v |] eqn:E.
      * simpl in H. rewrite E in H. cbn [bind] in H.
        split_bind H as ys Hys. injection H as <-.
        rewrite (IH _ Hys). reflexivity.
      * exact (IH _ H).
Qed.

(** The three blocks of [merge_constraints] that do not write a bound
    leave the bounds as they are. *)
Lemma merge_patterns_other (branches : list json) (ptr : string) (strict : bool)
  (m m' : dict) (w : list warning) (k : string) :
  merge_patterns branches ptr strict m = Ok (m', w) ->
  k <> "pattern" -> k <> "_validator_patterns" ->
  dict_get k m' = dict_get k m.
Proof.
  unfold merge_patterns. intros H Hp Hv. inv_bind H.
  destruct a as [| first rest].
  - inversion H. reflexivity.
  - destruct (try_uuid_pattern_specialization (first :: rest) ptr) as [[p |] | e].
    + destruct (Py.truthy p); inversion H; subst;
        repeat rewrite dict_get_set_other by assumption; reflexivity.
    + inversion H; subst. repeat rewrite dict_get_set_other by assumption. reflexivity.
    + destruct e; try discriminate H.
      destruct strict; [discriminate H |].
      inversion H; subst. rewrite dict_get_set_other by assumption. reflexivity.
Qed.

Lemma merge_enums_other (branches : list json) (strict : bool)
  (m m' : dict) (w : list warning) (k : string) :
  merge_enums branches strict m = Ok (m', w) ->
  k <> "enum" -> dict_get k m' = dict_get k m.
Proof.
  unfold merge_enums. intros H Hk. inv_bind H.
  destruct a as [| e0 others].
  - inversion H. reflexivity.
  - destruct (Py.set_intersection e0 others).
    + inv_bind H. destruct strict; [discriminate H |].
      inv_bind H. inversion H; subst. apply dict_get_set_other. exact Hk.
    + inv_bind H. inversion H; subst. apply dict_get_set_other. exact Hk.
Qed.

Lemma merge_format_other (branches : list json) (m m' : dict) (k : string) :
  merge_format branches m = Ok m' ->
  k <> "format" -> dict_get k m' = dict_get k m.
Proof.
  intros H Hk. induction branches as [| b r IH]; simpl in H.
  - inversion H. reflexivity.
  - inv_bind H. destruct a.
    + inv_bind H. inversion H; subst. apply dict_get_set_other. exact Hk.
    + apply IH. exact H.
Qed.

(** One of the four [if vs: merged[key] = pick(vs)] steps. *)
Lemma bound_step (pickf : list json -> res json) (key : string) (vs : list json)
  (m m' : dict) :
  match vs with
  | [] => Ok m
  | _ => v <- pickf vs ;; Ok (dict_set key v m)
  end = Ok m' ->
  (forall k, k <> key -> dict_get k m' = dict_get k m)
  /\ match vs with
     | [] => dict_get key m' = dict_get key m
     | _ => exists v, pickf vs = Ok v /\ dict_get key m' = Some v
     end.
Proof.
  intros H. destruct vs as [| x r].
  - inversion H. split; reflexivity.
  - inv_bind H. inversion H; subst. split.
    + intros k Hk. apply dict_get_set_other. exact Hk.
    + exists a. split; [exact Ha | apply dict_get_set_same].
Qed.

Lemma str_neq (a b : string) : String.eqb a b = false -> a <> b.
Proof. intros H. apply String.eqb_neq. exact H. Qed.

(** Proves that two string literals differ. *)
Ltac neq_lit := apply str_neq; reflexivity.

(** C5, for every chain: when [merge_constraints] returns a node, the
    node has no minLength when no branch has one, and likewise maxLength,
    minimum and maximum; otherwise its minLength is one of the minLength
    values of the branches, and when these values are numbers other than
    NaN it is the greatest of them by value, an [int] and a [float] being
    compared exactly; its maxLength is the least of the maxLength values
    in the same way, and likewise minimum and maximum. *)
Theorem merge_constraints_bounds
  (branches : list json) (scalar_type json_ptr : string) (strict : bool)
  (merged : dict) (w : list warning) :
  merge_constraints branches scalar_type json_ptr strict = Ok (merged, w) ->
  bound_is is_max "minLength" branches merged
  /\ bound_is is_min "maxLength" branches merged
  /\ bound_is is_max "minimum" branches merged
  /\ bound_is is_min "maximum" branches merged.
Proof.
  unfold merge_constraints. intros H.
  split_bind H as a P0. destruct a as [m0 w1]. cbn beta iota zeta in H.
  split_bind H as v1 C1. split_bind H as v2 C2.
  split_bind H as m1 S1.
  split_bind H as m2 S2.
  split_bind H as v3 C3. split_bind H as v4 C4.
  split_bind H as m3 S3.
  split_bind H as m4 S4.
  split_bind H as a E5. destruct a as [m5 w2]. cbn beta iota zeta in H.
  split_bind H as m6 F6. inversion H; subst m6 w. clear H.
  apply collect_held in C1, C2, C3, C4. subst v1 v2 v3 v4.
  pose proof (bound_step Py.max "minLength" _ m0 m1 S1) as [O1 V1].
  pose proof (bound_step Py.min "maxLength" _ m1 m2 S2) as [O2 V2].
  pose proof (bound_step Py.max "minimum" _ m2 m3 S3) as [O3 V3].
  pose proof (bound_step Py.min "maximum" _ m3 m4 S4) as [O4 V4].
  clear S1 S2 S3 S4.
  assert (Hend : forall k, k <> "enum" -> k <> "format" ->
                           dict_get k merged = dict_get k m4).
  { intros k He Hf.
    rewrite (merge_format_other _ _ _ k F6 Hf).
    apply (merge_enums_other _ _ _ _ _ k E5 He). }
  assert (Hstart : forall k, k <> "pattern" -> k <> "_validator_patterns" ->
                             k <> "type" -> dict_get k m0 = None).
  { intros k Hp Hv Ht.
    rewrite (merge_patterns_other _ _ _ _ _ _ k P0 Hp Hv). simpl.
    destruct (String.eqb_spec k "type"); [contradiction | reflexivity]. }
  unfold bound_is. repeat split.
  - rewrite Hend by neq_lit.
    rewrite O4, O3, O2 by neq_lit.
    destruct (held "minLength" branches) as [| z r].
    + rewrite V1. apply Hstart; neq_lit.
    + destruct V1 as [v [Hv Hg]]. exists v. split; [exact Hg |].
      split; [exact (max_from_In _ _ _ Hv) |].
      intros Ho. exact (max_from_is_max _ _ _ Ho Hv).
  - rewrite Hend by neq_lit.
    rewrite O4, O3 by neq_lit.
    destruct (held "maxLength" branches) as [| z r].
    + rewrite V2, O1 by neq_lit. apply Hstart; neq_lit.
    + destruct V2 as [v [Hv Hg]]. exists v. split; [exact Hg |].
      split; [exact (min_from_In _ _ _ Hv) |].
      intros Ho. exact (min_from_is_min _ _ _ Ho Hv).
  - rewrite Hend by neq_lit.
    rewrite O4 by neq_lit.
    destruct (held "minimum" branches) as [| z r].
    + rewrite V3, O2, O1 by neq_lit. apply Hstart; neq_lit.
    + destruct V3 as [v [Hv Hg]]. exists v. split; [exact Hg |].
      split; [exact (max_from_In _ _ _ Hv) |].
      intros Ho. exact (max_from_is_max _ _ _ Ho Hv).
  - rewrite Hend by neq_lit.
    destruct (held "maximum" branches) as [| z r].
    + rewrite V4, O3, O2, O1 by neq_lit. apply Hstart; neq_lit.
    + destruct V4 as [v [Hv Hg]]. exists v. split; [exact Hg |].
      split; [exact (min_from_In _ _ _ Hv) |].
      intros Ho. exact (min_from_is_min _ _ _ Ho Hv).
Qed.

(** A chain of numbers: an [int] and two [float]s as minimum, 1, 2.5
    and 0.75, and two as maximum, 10 and 9.5. *)
Lemma merge_constraints_bounds_witness :
  let branches :=
    [JObj [("type", JStr "number"); ("minimum", JInt 1); ("maximum", JInt 10)];
     JObj [("type", JStr "number"); ("minimum", JFloat (S754_finite false 5 (-1)));
           ("maximum", JFloat (S754_finite false 19 (-1)))];
     JObj [("type", JStr "number"); ("minimum", JFloat (S754_finite false 3 (-2)))]] in
  let merged :=
    [("type", JStr "number"); ("minimum", JFloat (S754_finite false 5 (-1)));
     ("maximum", JFloat (S754_finite false 19 (-1)))] in
  merge_constraints branches "number" "#/properties/price" true = Ok (merged, [])
  /\ forallb ordered (held "minimum" branches) = true
  /\ forallb ordered (held "maximum" branches) = true
  /\ (bound_is is_max "minLength" branches merged
      /\ bound_is is_min "maxLength" branches merged
      /\ bound_is is_max "minimum" branches merged
      /\ bound_is is_min "maximum" branches merged).
Proof.
  split; [vm_compute; reflexivity |].
  split; [vm_compute; reflexivity |].
  split; [vm_compute; reflexivity |].
  apply (merge_constraints_bounds _ "number" "#/properties/price" true _ []).
  vm_compute. reflexivity.
Defined.

(** C5 as stated fails on a chain that holds a NaN, which [json.load]
    reads: no comparison with a NaN is true, so that [max] and [min] keep
    the NaN when it comes first and pass over it when it comes later.
    The merged minimum of the minimums NaN and 1 is the NaN, which is not
    the greatest of the two, and the merged minimum of 1 and NaN is 1:
    the result depends on the order of the branches. *)
Lemma nan_bound_depends_on_order :
  let nan := JFloat S754_nan in
  let a := JObj [("type", JStr "number"); ("minimum", nan)] in
  let b := JObj [("type", JStr "number"); ("minimum", JInt 1)] in
  merge_constraints [a; b] "number" "#/properties/price" true
  = Ok ([("type", JStr "number"); ("minimum", nan)], [])
  /\ held "minimum" [a; b] = [nan; JInt 1]
  /\ ~ is_max nan [nan; JInt 1]
  /\ merge_constraints [b; a] "number" "#/properties/price" true
     = Ok ([("type", JStr "number"); ("minimum", JInt 1)], [])
  /\ ~ is_max (JInt 1) [JInt 1; nan].
Proof.
  cbv zeta. split; [vm_compute; reflexivity |]. split; [reflexivity |].
  split; [| split; [vm_compute; reflexivity |]].
  - intros [_ H]. specialize (H (JInt 1) (or_intror (or_introl eq_refl))).
    discriminate H.
  - intros [_ H]. specialize (H (JFloat S754_nan) (or_intror (or_introl eq_refl))).
    discriminate H.
Qed.

(** ** merge_constraints: UUID patterns *)

Lemma vset_mem_In (c : ascii) (s : vset) : VSet.mem c s = true <-> In c s.
Proof.
  unfold VSet.mem. rewrite existsb_exists. split.
  - intros [x [Hx E]]. apply Ascii.eqb_eq in E. subst x. exact Hx.
  - intros H. exists c. split; [exact H | apply Ascii.eqb_refl].
Qed.

Lemma vset_issubset_spec (a b : vset) :
  VSet.issubset a b = true <-> (forall c, In c a -> In c b).
Proof.
  unfold VSet.issubset. rewrite forallb_forall. split.
  - intros H c Hc. apply vset_mem_In. apply H. exact Hc.
  - intros H c Hc. apply vset_mem_In. apply H. exact Hc.
Qed.

Lemma vset_inter_In (a b : vset) (c : ascii) :
  In c (VSet.inter a b) <-> In c a /\ In c b.
Proof.
  unfold VSet.inter. rewrite filter_In, vset_mem_In. reflexivity.
Qed.

Lemma vset_inter_empty (a b : vset) :
  VSet.is_empty (VSet.inter a b) = true <-> disjoint a b.
Proof.
  split.
  - intros H c Ha Hb.
    assert (Hin : In c (VSet.inter a b)) by (apply vset_inter_In; split; assumption).
    destruct (VSet.inter a b); [exact Hin | discriminate H].
  - intros H. destruct (VSet.inter a b) as [| c r] eqn:E; [reflexivity |].
    assert (Hin : In c (VSet.inter a b)) by (rewrite E; left; reflexivity).
    apply vset_inter_In in Hin. destruct Hin as [Ha Hb].
    exfalso. exact (H c Ha Hb).
Qed.

Lemma vset_inter_overlap (a b : vset) :
  overlap a b -> VSet.is_empty (VSet.inter a b) = false.
Proof.
  intros [c [Ha Hb]].
  destruct (VSet.is_empty (VSet.inter a b)) eqn:E; [| reflexivity].
  apply vset_inter_empty in E. exfalso. exact (E c Ha Hb).
Qed.

Lemma vset_strict_subset (a b : vset) :
  strict_subset a b ->
  VSet.issubset a b = true /\ VSet.issubset b a = false /\ VSet.eqb a b = false.
Proof.
  intros [Hab Hba].
  assert (E1 : VSet.issubset a b = true) by (apply vset_issubset_spec; exact Hab).
  assert (E2 : VSet.issubset b a = false).
  { destruct (VSet.issubset b a) eqn:E; [| reflexivity].
    exfalso. apply Hba. apply vset_issubset_spec. exact E. }
  unfold VSet.eqb. rewrite E1, E2. repeat split; reflexivity.
Qed.

Lemma vset_eqb_sym (a b : vset) : VSet.eqb a b = VSet.eqb b a.
Proof. unfold VSet.eqb. apply andb_comm. Qed.

(** A recognized pattern is not the empty string. *)
Lemma recognized_truthy (p : string) (v : vset) :
  extract_uuid_version_set p = Ok (Some v) -> Py.truthy (JStr p) = true.
Proof.
  intros H. destruct p as [| c r]; [discriminate H | reflexivity].
Qed.

(** What [try_uuid_pattern_specialization] makes of two recognized
    patterns. *)
Lemma try_uuid_recognized (p1 p2 : string) (v1 v2 : vset) (ptr : string) :
  extract_uuid_version_set p1 = Ok (Some v1) ->
  extract_uuid_version_set p2 = Ok (Some v2) ->
  try_uuid_pattern_specialization [JStr p1; JStr p2] ptr =
    if VSet.is_empty (VSet.inter v1 v2)
    then Raise (ValueError (MsgText (uuid_conflict_message ptr v1 v2)))
    else if VSet.issubset v2 v1 && negb (VSet.eqb v2 v1) then Ok (Some (JStr p2))
    else Ok (Some (JStr p1)).
Proof.
  intros H1 H2. unfold try_uuid_pattern_specialization, version_set_of.
  rewrite H1, H2. cbn [bind].
  destruct (VSet.is_empty (VSet.inter v1 v2)); [reflexivity |].
  destruct (VSet.issubset v2 v1 && negb (VSet.eqb v2 v1)); [reflexivity |].
  destruct (VSet.issubset v1 v2 && negb (VSet.eqb v1 v2)); reflexivity.
Qed.

(** The steps of [merge_constraints] after the patterns leave [pattern] and
    [_validator_patterns] as they are. *)
Lemma merge_constraints_patterns
  (branches : list dict) (scalar_type ptr : string) (strict : bool)
  (merged : dict) (w : list warning) :
  merge_constraints (map JObj branches) scalar_type ptr strict = Ok (merged, w) ->
  exists m0 w1 w2,
    merge_patterns (map JObj branches) ptr strict [("type", JStr scalar_type)]
      = Ok (m0, w1)
    /\ w = (w1 ++ w2)%list
    /\ dict_get "pattern" merged = dict_get "pattern" m0
    /\ dict_get "_validator_patterns" merged = dict_get "_validator_patterns" m0.
Proof.
  unfold merge_constraints. intros H.
  split_bind H as a P0. destruct a as [m0 w1]. cbn beta iota zeta in H.
  rewrite !collect_dicts in H. cbn [bind] in H.
  split_bind H as m1 S1.
  split_bind H as m2 S2.
  split_bind H as m3 S3.
  split_bind H as m4 S4.
  split_bind H as a E5. destruct a as [m5 w2]. cbn beta iota zeta in H.
  split_bind H as m6 F6. inversion H; subst m6 w. clear H.
  pose proof (bound_step Py.max "minLength" _ m0 m1 S1) as [O1 _].
  pose proof (bound_step Py.min "maxLength" _ m1 m2 S2) as [O2 _].
  pose proof (bound_step Py.max "minimum" _ m2 m3 S3) as [O3 _].
  pose proof (bound_step Py.min "maximum" _ m3 m4 S4) as [O4 _].
  exists m0, w1, w2. split; [exact P0 |]. split; [reflexivity |].
  split.
  - rewrite (merge_format_other _ _ _ "pattern" F6) by neq_lit.
    rewrite (merge_enums_other _ _ _ _ _ "pattern" E5) by neq_lit.
    rewrite O4, O3, O2, O1 by neq_lit. reflexivity.
  - rewrite (merge_format_other _ _ _ "_validator_patterns" F6) by neq_lit.
    rewrite (merge_enums_other _ _ _ _ _ "_validator_patterns" E5) by neq_lit.
    rewrite O4, O3, O2, O1 by neq_lit. reflexivity.
Qed.

(** The [patterns] block on two recognized patterns. *)
Lemma merge_patterns_recognized
  (branches : list dict) (p1 p2 : string) (v1 v2 : vset) (ptr : string)
  (strict : bool) (m : dict) :
  values_of "pattern" branches = [JStr p1; JStr p2] ->
  extract_uuid_version_set p1 = Ok (Some v1) ->
  extract_uuid_version_set p2 = Ok (Some v2) ->
  merge_patterns (map JObj branches) ptr strict m =
    if VSet.is_empty (VSet.inter v1 v2) then
      if strict then Raise (ValueError (MsgText (uuid_conflict_message ptr v1 v2)))
      else Ok (dict_set "pattern" (JStr p1) m,
               [WarnPatternConflict (MsgText (uuid_conflict_message ptr v1 v2))])
    else if VSet.issubset v2 v1 && negb (VSet.eqb v2 v1)
    then Ok (dict_set "pattern" (JStr p2) m, [])
    else Ok (dict_set "pattern" (JStr p1) m, []).
Proof.
  intros Hp H1 H2. unfold merge_patterns.
  rewrite collect_dicts, Hp. cbn [bind].
  rewrite (try_uuid_recognized p1 p2 v1 v2 ptr H1 H2).
  destruct (VSet.is_empty (VSet.inter v1 v2)); [reflexivity |].
  destruct (VSet.issubset v2 v1 && negb (VSet.eqb v2 v1)).
  - rewrite (recognized_truthy p2 v2 H2). reflexivity.
  - rewrite (recognized_truthy p1 v1 H1). reflexivity.
Qed.

Lemma prefix_append (s t : string) : String.prefix s (s ++ t) = true.
Proof.
  induction s as [| c r IH]; simpl.
  - destruct t; reflexivity.
  - destruct (ascii_dec c c) as [_ | N]; [exact IH | contradiction].
Qed.

Lemma contains_prefix (sub s : string) :
  String.prefix sub s = true -> Str.contains sub s = true.
Proof.
  intros H. destruct s; unfold Str.contains; rewrite H; reflexivity.
Qed.

Lemma contains_here (sub t : string) : Str.contains sub (sub ++ t) = true.
Proof. apply contains_prefix. apply prefix_append. Qed.

Lemma contains_later (sub a t : string) :
  Str.contains sub t = true -> Str.contains sub (a ++ t) = true.
Proof.
  intros H. induction a as [| c r IH]; simpl.
  - exact H.
  - rewrite IH. apply orb_true_r.
Qed.

(** The conflict message names the two version sets. *)
Lemma uuid_conflict_message_names (ptr : string) (v1 v2 : vset) :
  names_set (uuid_conflict_message ptr v1 v2) v1
  /\ names_set (uuid_conflict_message ptr v1 v2) v2.
Proof.
  unfold names_set, uuid_conflict_message. split.
  - do 5 apply contains_later. apply contains_here.
  - do 8 apply contains_later. apply contains_here.
Qed.

(** C6, as the code has it.  For a chain that holds exactly two patterns,
    both recognized, with version sets [v1] and [v2]: when the sets share a
    character and one is a strict subset of the other, the node that
    [merge_constraints] returns keeps the pattern of the smaller set; when
    they share none, [merge_constraints] in strict mode raises a
    [ValueError] whose message names both sets. *)
Theorem uuid_specialization
  (branches : list dict) (scalar_type ptr p1 p2 : string) (v1 v2 : vset) :
  values_of "pattern" branches = [JStr p1; JStr p2] ->
  extract_uuid_version_set p1 = Ok (Some v1) ->
  extract_uuid_version_set p2 = Ok (Some v2) ->
  (forall strict merged w,
     overlap v1 v2 ->
     merge_constraints (map JObj branches) scalar_type ptr strict = Ok (merged, w) ->
     (strict_subset v2 v1 -> dict_get "pattern" merged = Some (JStr p2))
     /\ (strict_subset v1 v2 -> dict_get "pattern" merged = Some (JStr p1)))
  /\ (disjoint v1 v2 ->
      merge_constraints (map JObj branches) scalar_type ptr true
        = Raise (ValueError (MsgText (uuid_conflict_message ptr v1 v2)))
      /\ names_set (uuid_conflict_message ptr v1 v2) v1
      /\ names_set (uuid_conflict_message ptr v1 v2) v2).
Proof.
  intros Hp H1 H2. split.
  - intros strict merged w Hov Hm.
    destruct (merge_constraints_patterns _ _ _ _ _ _ Hm)
      as [m0 [w1 [w2 [P0 [_ [Epat _]]]]]].
    rewrite (merge_patterns_recognized branches p1 p2 v1 v2 ptr strict _ Hp H1 H2) in P0.
    rewrite (vset_inter_overlap v1 v2 Hov) in P0.
    split; intros Hs; apply vset_strict_subset in Hs; destruct Hs as [S1 [S2 S3]].
    + rewrite S1, S3 in P0. cbn [andb negb] in P0. inversion P0; subst m0 w1.
      rewrite Epat. reflexivity.
    + rewrite S2 in P0. cbn [andb negb] in P0. inversion P0; subst m0 w1.
      rewrite Epat. reflexivity.
  - intros Hd. split; [| apply uuid_conflict_message_names].
    unfold merge_constraints.
    rewrite (merge_patterns_recognized branches p1 p2 v1 v2 ptr true _ Hp H1 H2).
    rewrite (proj2 (vset_inter_empty v1 v2) Hd). reflexivity.
Qed.

(** The two patterns of the test suite, versions 1 to 7 and version 7. *)
Lemma uuid_specialization_witness :
  let p17 := "^[0-9a-f]{8}-[0-9a-f]{4}-[1-7][0-9a-f]{3}-[89ab][0-9a-f]{3}-[0-9a-f]{12}$" in
  let p7 := "^[0-9a-f]{8}-[0-9a-f]{4}-7[0-9a-f]{3}-[89ab][0-9a-f]{3}-[0-9a-f]{12}$" in
  let v17 := ["1"; "2"; "3"; "4"; "5"; "6"; "7"]%char in
  let v7 := ["7"]%char in
  let branches := [[("type", JStr "string"); ("pattern", JStr p17)];
                   [("type", JStr "string"); ("pattern", JStr p7)]] in
  (forall strict merged w,
     overlap v17 v7 ->
     merge_constraints (map JObj branches) "string" "#/properties/event_id" strict
       = Ok (merged, w) ->
     (strict_subset v7 v17 -> dict_get "pattern" merged = Some (JStr p7))
     /\ (strict_subset v17 v7 -> dict_get "pattern" merged = Some (JStr p17)))
  /\ (disjoint v17 v7 ->
      merge_constraints (map JObj branches) "string" "#/properties/event_id" true
        = Raise (ValueError (MsgText (uuid_conflict_message "#/properties/event_id" v17 v7)))
      /\ names_set (uuid_conflict_message "#/properties/event_id" v17 v7) v17
      /\ names_set (uuid_conflict_message "#/properties/event_id" v17 v7) v7).
Proof.
  cbv zeta.
  apply (uuid_specialization _ "string" "#/properties/event_id"); reflexivity.
Defined.

(** The two cases of C6 on the patterns of the test suite. *)
Example uuid_v7_on_v1_7 :
  merge_constraints
    [JObj [("type", JStr "string");
           ("pattern", JStr "^[0-9a-f]{8}-[0-9a-f]{4}-[1-7][0-9a-f]{3}-[89ab][0-9a-f]{3}-[0-9a-f]{12}$")];
     JObj [("type", JStr "string");
           ("pattern", JStr "^[0-9a-f]{8}-[0-9a-f]{4}-7[0-9a-f]{3}-[89ab][0-9a-f]{3}-[0-9a-f]{12}$")]]
    "string" "#/properties/event_id" true
  = Ok ([("type", JStr "string");
         ("pattern", JStr "^[0-9a-f]{8}-[0-9a-f]{4}-7[0-9a-f]{3}-[89ab][0-9a-f]{3}-[0-9a-f]{12}$")],
        []).
Proof. reflexivity. Qed.

(** C6 as stated fails when the smaller set is empty: the class [[5-1]]
    is read as the empty set of versions, a strict subset of [{7}], and in
    strict mode the chain is not merged but refused. *)
Lemma uuid_empty_set_is_refused :
  let p51 := "^[0-9a-f]{8}-[0-9a-f]{4}-[5-1][0-9a-f]{3}-[89ab][0-9a-f]{3}-[0-9a-f]{12}$" in
  let p7 := "^[0-9a-f]{8}-[0-9a-f]{4}-7[0-9a-f]{3}-[89ab][0-9a-f]{3}-[0-9a-f]{12}$" in
  extract_uuid_version_set p51 = Ok (Some [])
  /\ extract_uuid_version_set p7 = Ok (Some ["7"%char])
  /\ strict_subset [] ["7"%char]
  /\ merge_constraints
       [JObj [("type", JStr "string"); ("pattern", JStr p51)];
        JObj [("type", JStr "string"); ("pattern", JStr p7)]]
       "string" "#/properties/event_id" true
     = Raise (ValueError (MsgText
         (uuid_conflict_message "#/properties/event_id" [] ["7"%char]))).
Proof.
  cbv zeta. repeat split; try reflexivity.
  - intros c [].
  - intros H. exact (H "7"%char (or_introl eq_refl)).
Qed.

(** ** merge_constraints in lenient mode *)

Lemma json_ind_members (P : json -> Prop) :
  P JNull -> (forall b, P (JBool b)) -> (forall n, P (JInt n)) ->
  (forall f, P (JFloat f)) -> (forall s, P (JStr s)) ->
  (forall l, Forall (members_hold P) l -> P (JArr l)) ->
  (forall d, Forall (fun kv => members_hold P (snd kv)) d -> P (JObj d)) ->
  forall j, P j.
Proof.
  intros HNull HBool HInt HFloat HStr HArr HObj j.
  enough (H : members_hold P j) by exact (proj1 H).
  induction j as [| b | n | fl | s | l IH | d IH] using json_ind';
    try (split; [auto | exact I]).
  - split; [exact (HArr l IH) |]. revert IH. apply Forall_impl. intros x [Hx _]. exact Hx.
  - split; [exact (HObj d IH) |]. revert IH. apply Forall_impl. intros x [Hx _]. exact Hx.
Qed.

Lemma nve_Ok {A : Type} (a : A) : no_value_error (Ok a).
Proof. intros m H. discriminate H. Qed.

Lemma nve_bind {A B : Type} (c : res A) (k : A -> res B) :
  no_value_error c -> (forall a, c = Ok a -> no_value_error (k a)) ->
  no_value_error (bind c k).
Proof.
  intros Hc Hk m H. destruct c as [a | e]; simpl in H.
  - exact (Hk a eq_refl m H).
  - apply (Hc m). inversion H. reflexivity.
Qed.

Lemma nve_lt (a b : json) : no_value_error (Py.lt a b).
Proof.
  revert b. induction a as [| x | n | fl | s | l IH | d IH] using json_ind'; intros b;
    destruct b; simpl; try (intros m H; discriminate H).
  revert items. induction IH as [| x l Hx _ IHl]; intros items.
  - destruct items; apply nve_Ok.
  - destruct items as [| y r]; [apply nve_Ok |].
    destruct (Py.eqb x y); [apply IHl | apply Hx].
Qed.

Lemma nve_ge (a b : json) : no_value_error (Py.ge a b).
Proof.
  revert b. induction a as [| x | n | fl | s | l IH | d IH] using json_ind'; intros b;
    destruct b; simpl; try (intros m H; discriminate H).
  revert items. induction IH as [| x l Hx _ IHl]; intros items.
  - destruct items; apply nve_Ok.
  - destruct items as [| y r]; [apply nve_Ok |].
    destruct (Py.eqb x y); [apply IHl | apply Hx].
Qed.

Lemma nve_max_from (l : list json) (c : json) : no_value_error (Py.max_from c l).
Proof.
  revert c. induction l as [| x r IH]; intros c; simpl.
  - apply nve_Ok.
  - apply nve_bind; [apply nve_lt | intros b _; apply IH].
Qed.

Lemma nve_min_from (l : list json) (c : json) : no_value_error (Py.min_from c l).
Proof.
  revert c. induction l as [| x r IH]; intros c; simpl.
  - apply nve_Ok.
  - apply nve_bind; [apply nve_lt | intros b _; apply IH].
Qed.

Lemma nve_contains (k : string) (x : json) : no_value_error (Py.contains k x).
Proof. destruct x; intros m H; discriminate H. Qed.

Lemma nve_getitem (x : json) (k : string) : no_value_error (Py.getitem x k).
Proof.
  destruct x; simpl; try (intros m H; discriminate H).
  destruct (dict_get k fields); intros m H; discriminate H.
Qed.

Lemma nve_collect_with {A : Type} (f : json -> res A) (key : string) (l : list json) :
  (forall v, no_value_error (f v)) -> no_value_error (collect_with f key l).
Proof.
  intros Hf. induction l as [| b r IH]; simpl.
  - apply nve_Ok.
  - apply nve_bind; [apply nve_contains |]. intros has _. destruct has.
    + apply nve_bind; [apply nve_getitem |]. intros v _.
      apply nve_bind; [apply Hf |]. intros y _.
      apply nve_bind; [exact IH |]. intros ys _. apply nve_Ok.
    + exact IH.
Qed.

Lemma nve_foldM {A St : Type} (f : St -> A -> res St) (l : list A) (s : St) :
  (forall s x, no_value_error (f s x)) -> no_value_error (foldM f s l).
Proof.
  intros Hf. revert s. induction l as [| x r IH]; intros s; simpl.
  - apply nve_Ok.
  - apply nve_bind; [apply Hf | intros s' _; apply IH].
Qed.

Lemma nve_mapM {A B : Type} (f : A -> res B) (l : list A) :
  (forall x, no_value_error (f x)) -> no_value_error (mapM f l).
Proof.
  intros Hf. induction l as [| x r IH]; simpl.
  - apply nve_Ok.
  - apply nve_bind; [apply Hf |]. intros y _.
    apply nve_bind; [exact IH |]. intros ys _. apply nve_Ok.
Qed.

Lemma nve_insert_sorted (x : json) (l : list json) :
  no_value_error (Py.insert_sorted x l).
Proof.
  induction l as [| y r IH]; simpl.
  - apply nve_Ok.
  - apply nve_bind; [apply nve_lt |]. intros b _. destruct b; [apply nve_Ok |].
    apply nve_bind; [exact IH |]. intros r' _. apply nve_Ok.
Qed.

Lemma nve_sorted (l : list json) : no_value_error (Py.sorted l).
Proof. apply nve_foldM. intros s x. apply nve_insert_sorted. Qed.

Lemma nve_set_of (x : json) : no_value_error (Py.set_of x).
Proof.
  destruct x; simpl; try (intros m H; discriminate H).
  apply nve_foldM. intros s y. destruct (Py.hashable y); intros m H; discriminate H.
Qed.

Lemma nve_merge_patterns (branches : list json) (ptr : string) (m : dict) :
  no_value_error (merge_patterns branches ptr false m).
Proof.
  unfold merge_patterns. apply nve_bind.
  - apply nve_collect_with. intros v. apply nve_Ok.
  - intros patterns _. destruct patterns as [| first rest]; [apply nve_Ok |].
    destruct (try_uuid_pattern_specialization (first :: rest) ptr) as [[p |] | e].
    + destruct (Py.truthy p); apply nve_Ok.
    + apply nve_Ok.
    + destruct e; try (intros m0 H; discriminate H). apply nve_Ok.
Qed.

Lemma nve_merge_enums (branches : list json) (m : dict) :
  no_value_error (merge_enums branches false m).
Proof.
  unfold merge_enums. apply nve_bind.
  - apply nve_collect_with. apply nve_set_of.
  - intros enums _. destruct enums as [| e0 others]; [apply nve_Ok |].
    destruct (Py.set_intersection e0 others).
    + apply nve_bind; [apply nve_mapM; apply nve_sorted |]. intros shown _.
      apply nve_bind; [apply nve_sorted |]. intros f _. apply nve_Ok.
    + apply nve_bind; [apply nve_sorted |]. intros f _. apply nve_Ok.
Qed.

Lemma nve_merge_format (branches : list json) (m : dict) :
  no_value_error (merge_format branches m).
Proof.
  induction branches as [| b r IH]; simpl.
  - apply nve_Ok.
  - apply nve_bind; [apply nve_contains |]. intros has _. destruct has; [| exact IH].
    apply nve_bind; [apply nve_getitem |]. intros v _. apply nve_Ok.
Qed.

(** In lenient mode [merge_constraints] raises no [ValueError]: a conflict
    is a warning. *)
Lemma merge_constraints_lenient (branches : list json) (scalar_type ptr : string) :
  no_value_error (merge_constraints branches scalar_type ptr false).
Proof.
  unfold merge_constraints.
  apply nve_bind; [apply nve_merge_patterns |]. intros [m0 w1] _. cbn beta iota zeta.
  apply nve_bind; [apply nve_collect_with; intros v; apply nve_Ok |]. intros mins _.
  apply nve_bind; [apply nve_collect_with; intros v; apply nve_Ok |]. intros maxs _.
  apply nve_bind.
  { destruct mins; [apply nve_Ok |].
    apply nve_bind; [apply nve_max_from | intros v _; apply nve_Ok]. }
  intros m1 _. apply nve_bind.
  { destruct maxs; [apply nve_Ok |].
    apply nve_bind; [apply nve_min_from | intros v _; apply nve_Ok]. }
  intros m2 _.
  apply nve_bind; [apply nve_collect_with; intros v; apply nve_Ok |]. intros los _.
  apply nve_bind; [apply nve_collect_with; intros v; apply nve_Ok |]. intros his _.
  apply nve_bind.
  { destruct los; [apply nve_Ok |].
    apply nve_bind; [apply nve_max_from | intros v _; apply nve_Ok]. }
  intros m3 _. apply nve_bind.
  { destruct his; [apply nve_Ok |].
    apply nve_bind; [apply nve_min_from | intros v _; apply nve_Ok]. }
  intros m4 _.
  apply nve_bind; [apply nve_merge_enums |]. intros [m5 w2] _. cbn beta iota zeta.
  apply nve_bind; [apply nve_merge_format |]. intros m6 _. apply nve_Ok.
Qed.

(** C3, as the code has it.  For a chain that holds exactly two patterns,
    both recognized, whose version sets share no character,
    [merge_constraints] in lenient mode does not raise the conflict: the
    node it returns keeps the first pattern as [pattern], holds no
    [_validator_patterns], and the conflict is emitted as a warning. *)
Theorem lenient_uuid_conflict
  (branches : list dict) (scalar_type ptr p1 p2 : string) (v1 v2 : vset) :
  values_of "pattern" branches = [JStr p1; JStr p2] ->
  extract_uuid_version_set p1 = Ok (Some v1) ->
  extract_uuid_version_set p2 = Ok (Some v2) ->
  disjoint v1 v2 ->
  no_value_error (merge_constraints (map JObj branches) scalar_type ptr false)
  /\ forall merged w,
       merge_constraints (map JObj branches) scalar_type ptr false = Ok (merged, w) ->
       dict_get "pattern" merged = Some (JStr p1)
       /\ dict_get "_validator_patterns" merged = None
       /\ In (WarnPatternConflict (MsgText (uuid_conflict_message ptr v1 v2))) w.
Proof.
  intros Hp H1 H2 Hd. split; [apply merge_constraints_lenient |].
  intros merged w Hm.
  destruct (merge_constraints_patterns _ _ _ _ _ _ Hm)
    as [m0 [w1 [w2 [P0 [Hw [Epat Eval]]]]]].
  rewrite (merge_patterns_recognized branches p1 p2 v1 v2 ptr false _ Hp H1 H2) in P0.
  rewrite (proj2 (vset_inter_empty v1 v2) Hd) in P0.
  inversion P0; subst m0 w1. clear P0.
  rewrite Epat, Eval, Hw. repeat split.
  left. reflexivity.
Qed.

(** The chain of the test [test_conflict_warns_in_lenient_mode]: versions
    1 to 5 and version 7. *)
Lemma lenient_uuid_conflict_witness :
  let p15 := "^[0-9a-f]{8}-[0-9a-f]{4}-[1-5][0-9a-f]{3}-[89ab][0-9a-f]{3}-[0-9a-f]{12}$" in
  let p7 := "^[0-9a-f]{8}-[0-9a-f]{4}-7[0-9a-f]{3}-[89ab][0-9a-f]{3}-[0-9a-f]{12}$" in
  let v15 := ["1"; "2"; "3"; "4"; "5"]%char in
  let v7 := ["7"]%char in
  let branches := [[("type", JStr "string"); ("pattern", JStr p15)];
                   [("type", JStr "string"); ("pattern", JStr p7)]] in
  disjoint v15 v7
  /\ no_value_error
       (merge_constraints (map JObj branches) "string" "#/properties/event_id" false)
  /\ forall merged w,
       merge_constraints (map JObj branches) "string" "#/properties/event_id" false
         = Ok (merged, w) ->
       dict_get "pattern" merged = Some (JStr p15)
       /\ dict_get "_validator_patterns" merged = None
       /\ In (WarnPatternConflict
                (MsgText (uuid_conflict_message "#/properties/event_id" v15 v7))) w.
Proof.
  cbv zeta.
  assert (Hd : disjoint ["1"; "2"; "3"; "4"; "5"]%char ["7"%char]).
  { apply vset_inter_empty. reflexivity. }
  split; [exact Hd |].
  eapply (lenient_uuid_conflict _ "string" "#/properties/event_id");
    [reflexivity | reflexivity | reflexivity | exact Hd].
Defined.

(** C3 as stated fails on that chain: the node returned in lenient mode
    holds the first pattern and no [_validator_patterns]. *)
Lemma lenient_conflict_has_no_validator_patterns :
  let p15 := "^[0-9a-f]{8}-[0-9a-f]{4}-[1-5][0-9a-f]{3}-[89ab][0-9a-f]{3}-[0-9a-f]{12}$" in
  let p7 := "^[0-9a-f]{8}-[0-9a-f]{4}-7[0-9a-f]{3}-[89ab][0-9a-f]{3}-[0-9a-f]{12}$" in
  extract_uuid_version_set p15 = Ok (Some ["1"; "2"; "3"; "4"; "5"]%char)
  /\ extract_uuid_version_set p7 = Ok (Some ["7"%char])
  /\ exists merged w,
       merge_constraints
         [JObj [("type", JStr "string"); ("pattern", JStr p15)];
          JObj [("type", JStr "string"); ("pattern", JStr p7)]]
         "string" "#/properties/event_id" false = Ok (merged, w)
       /\ merged = [("type", JStr "string"); ("pattern", JStr p15)]
       /\ dict_has "_validator_patterns" merged = false.
Proof.
  cbv zeta. split; [reflexivity |]. split; [reflexivity |].
  eexists. eexists. split; [reflexivity |]. split; reflexivity.
Qed.

(** ** resolve_pointer and RFC 6901 *)

Lemma split_cons_sep (sep : ascii) (s : string) :
  Str.split sep (String sep s) = EmptyString :: Str.split sep s.
Proof. simpl. rewrite Ascii.eqb_refl. reflexivity. Qed.

Lemma split_not_nil (sep : ascii) (s : string) : Str.split sep s <> [].
Proof.
  induction s as [| c r IH]; simpl.
  - discriminate.
  - destruct (Ascii.eqb c sep); [discriminate |].
    destruct (Str.split sep r); discriminate.
Qed.

(** A string without the separator is one part. *)
Lemma split_no_sep (sep : ascii) (e : string) :
  Str.mem sep e = false -> Str.split sep e = [e].
Proof.
  induction e as [| c r IH]; simpl; intros H.
  - reflexivity.
  - apply orb_false_iff in H. destruct H as [Hc Hr].
    rewrite Ascii.eqb_sym in Hc. rewrite Hc, (IH Hr). reflexivity.
Qed.

Lemma split_app_sep (sep : ascii) (e s : string) :
  Str.mem sep e = false ->
  Str.split sep (e ++ String sep s) = e :: Str.split sep s.
Proof.
  induction e as [| c r IH]; simpl; intros H.
  - rewrite Ascii.eqb_refl. reflexivity.
  - apply orb_false_iff in H. destruct H as [Hc Hr].
    rewrite Ascii.eqb_sym in Hc. rewrite Hc, (IH Hr). reflexivity.
Qed.

Lemma rfc_escape_no_slash (t : string) : Str.mem "/"%char (rfc_escape t) = false.
Proof.
  induction t as [| c r IH]; [reflexivity |].
  cbn [rfc_escape].
  destruct (Ascii.eqb c "~"%char) eqn:Et; [exact IH |].
  destruct (Ascii.eqb c "/"%char) eqn:Es; [exact IH |].
  cbn [Str.mem]. rewrite Ascii.eqb_sym, Es. exact IH.
Qed.

Lemma append_nil_r (s : string) : s ++ EmptyString = s.
Proof. induction s as [| c r IH]; simpl; [| rewrite IH]; reflexivity. Qed.

(** The parts of a pointer are its tokens, escaped. *)
Lemma split_pointer_of (t : string) (r : list string) :
  Str.split "/"%char (pointer_of (t :: r)) = EmptyString :: map rfc_escape (t :: r).
Proof.
  revert t. induction r as [| t' r' IH]; intros t.
  - cbn [pointer_of map]. rewrite split_cons_sep, append_nil_r.
    rewrite (split_no_sep _ _ (rfc_escape_no_slash t)). reflexivity.
  - specialize (IH t'). cbn [pointer_of] in IH |- *.
    rewrite split_cons_sep in IH. injection IH as IH.
    rewrite split_cons_sep, (split_app_sep _ _ _ (rfc_escape_no_slash t)), IH.
    reflexivity.
Qed.

Lemma prefix_tilde_other (x : ascii) (c : ascii) (r : string) :
  Ascii.eqb c "~"%char = false ->
  String.prefix (String "~" (String x EmptyString)) (String c r) = false.
Proof.
  intros H. cbn [String.prefix].
  destruct (ascii_dec "~" c) as [E | _]; [| reflexivity].
  subst c. discriminate H.
Qed.

Lemma prefix_empty (s : string) : String.prefix EmptyString s = true.
Proof. destruct s; reflexivity. Qed.

Lemma prefix_cons (c : ascii) (s t : string) :
  String.prefix (String c s) (String c t) = String.prefix s t.
Proof.
  cbn [String.prefix]. destruct (ascii_dec c c) as [_ | N]; [reflexivity | contradiction].
Qed.

Lemma replace_tilde1 (t : string) :
  Str.replace_from "~1" "/" 0 (rfc_escape t) = half t.
Proof.
  induction t as [| c r IH]; [reflexivity |].
  cbn [rfc_escape half].
  destruct (Ascii.eqb c "~"%char) eqn:Et.
  - cbn. rewrite ?prefix_empty, IH. reflexivity.
  - destruct (Ascii.eqb c "/"%char) eqn:Es.
    + apply Ascii.eqb_eq in Es. subst c. cbn. rewrite ?prefix_empty, IH. reflexivity.
    + cbn [Str.replace_from]. rewrite (prefix_tilde_other _ _ _ Et), IH. reflexivity.
Qed.

Lemma replace_tilde0 (t : string) : Str.replace_from "~0" "~" 0 (half t) = t.
Proof.
  induction t as [| c r IH]; [reflexivity |].
  cbn [half].
  destruct (Ascii.eqb c "~"%char) eqn:Et.
  - apply Ascii.eqb_eq in Et. subst c. cbn. rewrite ?prefix_empty, IH. reflexivity.
  - cbn [Str.replace_from]. rewrite (prefix_tilde_other _ _ _ Et), IH. reflexivity.
Qed.

(** Unescaping undoes the escaping of RFC 6901. *)
Lemma unescape_rfc_escape (t : string) : unescape (rfc_escape t) = t.
Proof.
  unfold unescape, Str.replace. rewrite replace_tilde1. apply replace_tilde0.
Qed.

Lemma rev_snoc (s : string) (c : ascii) :
  Str.rev (s ++ String c EmptyString) = String c (Str.rev s).
Proof.
  induction s as [| d r IH]; simpl; [reflexivity |]. rewrite IH. reflexivity.
Qed.

Lemma rev_involutive (s : string) : Str.rev (Str.rev s) = s.
Proof.
  induction s as [| c r IH]; simpl; [reflexivity |]. rewrite rev_snoc, IH. reflexivity.
Qed.

Lemma forallb_append (p : ascii -> bool) (s t : string) :
  Str.forallb p (s ++ t) = Str.forallb p s && Str.forallb p t.
Proof.
  induction s as [| c r IH]; simpl; [reflexivity |]. rewrite IH. apply andb_assoc.
Qed.

Lemma forallb_rev (p : ascii -> bool) (s : string) :
  Str.forallb p (Str.rev s) = Str.forallb p s.
Proof.
  induction s as [| c r IH]; simpl; [reflexivity |].
  rewrite forallb_append, IH. simpl. rewrite andb_true_r. apply andb_comm.
Qed.

Lemma digit_not_space (c : ascii) : Str.is_ascii_digit c = true -> Py.isspace c = false.
Proof.
  unfold Str.is_ascii_digit, Py.isspace. cbv zeta.
  generalize (nat_of_ascii c). intros n H.
  apply andb_true_iff in H. destruct H as [H1 H2].
  apply Nat.leb_le in H1. apply Nat.leb_le in H2.
  repeat rewrite orb_false_iff. repeat split.
  - apply andb_false_iff. right. apply Nat.leb_gt. lia.
  - apply andb_false_iff. right. apply Nat.leb_gt. lia.
  - apply Nat.eqb_neq. lia.
  - apply Nat.eqb_neq. lia.
Qed.

Lemma strip_left_digits (s : string) :
  Str.forallb Str.is_ascii_digit s = true -> Py.strip_left s = s.
Proof.
  destruct s as [| c r]; simpl; [reflexivity |]. intros H.
  apply andb_true_iff in H. destruct H as [Hc _].
  rewrite (digit_not_space c Hc). reflexivity.
Qed.

Lemma strip_digits (s : string) :
  Str.forallb Str.is_ascii_digit s = true -> Py.strip s = s.
Proof.
  intros H. unfold Py.strip.
  rewrite (strip_left_digits s H).
  rewrite strip_left_digits by (rewrite forallb_rev; exact H).
  apply rev_involutive.
Qed.

Lemma digits_decimal (s : string) (acc : nat) :
  Str.forallb Str.is_ascii_digit s = true ->
  Py.digits Py.AfterDigit (Z.of_nat acc) s = Some (Z.of_nat (decimal acc s)).
Proof.
  revert acc. induction s as [| c r IH]; intros acc H; simpl.
  - reflexivity.
  - simpl in H. apply andb_true_iff in H. destruct H as [Hc Hr].
    rewrite Hc. unfold Str.digit_val.
    replace (Z.of_nat acc * 10 + Z.of_nat (nat_of_ascii c - 48))%Z
      with (Z.of_nat (acc + (acc + (acc + (acc + (acc + (acc + (acc + (acc + (acc + (acc + 0)))))))))
                      + (nat_of_ascii c - 48))) by lia.
    apply IH. exact Hr.
Qed.

(** [int] reads an index of RFC 6901 as the number it writes. *)
Lemma int_rfc_index (t : string) (i : nat) :
  rfc_index t = Some i -> Py.int t = Ok (Z.of_nat i).
Proof.
  unfold rfc_index. destruct t as [| c r]; [discriminate |].
  destruct (Str.forallb Str.is_ascii_digit (String c r)) eqn:Hd; [| discriminate].
  destruct (negb (Ascii.eqb c "0"%char) || String.eqb r EmptyString); [| discriminate].
  cbn [andb]. intros H. injection H as <-.
  unfold Py.int. rewrite (strip_digits _ Hd).
  assert (Hc : Str.is_ascii_digit c = true).
  { simpl in Hd. apply andb_true_iff in Hd. apply Hd. }
  assert (Hm : Ascii.eqb c "-"%char = false).
  { destruct (Ascii.eqb_spec c "-"%char) as [-> |]; [discriminate Hc | reflexivity]. }
  assert (Hp : Ascii.eqb c "+"%char = false).
  { destruct (Ascii.eqb_spec c "+"%char) as [-> |]; [discriminate Hc | reflexivity]. }
  rewrite Hm, Hp.
  assert (E : Py.digits Py.AtStart 0 (String c r) = Some (Z.of_nat (decimal 0 (String c r)))).
  { cbn [Py.digits decimal]. rewrite Hc.
    simpl in Hd. apply andb_true_iff in Hd. destruct Hd as [_ Hr].
    unfold Str.digit_val.
    replace (0 * 10 + Z.of_nat (nat_of_ascii c - 48))%Z
      with (Z.of_nat (10 * 0 + (nat_of_ascii c - 48))) by lia.
    apply digits_decimal. exact Hr. }
  rewrite E. reflexivity.
Qed.

Lemma list_index_nth (l : list json) (i : nat) (v : json) :
  nth_error l i = Some v -> Py.list_index l (Z.of_nat i) = Ok v.
Proof.
  intros H. unfold Py.list_index.
  assert (Hlt : i < List.length l) by (apply nth_error_Some; rewrite H; discriminate).
  destruct (Z.ltb_spec (Z.of_nat i) 0) as [Hn | _]; [lia |].
  destruct (Z.ltb_spec (Z.of_nat i) 0) as [Hn | _]; [lia |].
  destruct (Z.leb_spec (Z.of_nat (List.length l)) (Z.of_nat i)) as [Hn | _]; [lia |].
  cbn [orb]. rewrite Nat2Z.id, H. reflexivity.
Qed.

(** The loop of [resolve_pointer] follows the traversal of RFC 6901. *)
Lemma resolve_tokens_rfc6901 (tokens : list string) (doc : json) (a : addr) (v : json) :
  rfc6901 doc tokens = Some v ->
  exists n, resolve_tokens (mkNode a doc) (map rfc_escape tokens) = Ok n /\ n_val n = v.
Proof.
  revert doc a. induction tokens as [| t r IH]; intros doc a H.
  - injection H as <-. exists (mkNode a doc). split; reflexivity.
  - cbn [map resolve_tokens]. rewrite unescape_rfc_escape. cbn [n_val n_id].
    cbn [rfc6901] in H. destruct doc; try discriminate H.
    + destruct (rfc_index t) as [i |] eqn:Ei; [| discriminate H].
      destruct (nth_error items i) as [x |] eqn:En; [| discriminate H].
      rewrite (int_rfc_index t i Ei). cbn [bind].
      rewrite (list_index_nth items i x En). cbn [bind].
      apply IH. exact H.
    + destruct (dict_get t fields) as [x |] eqn:Eg; [| discriminate H].
      apply IH. exact H.
Qed.

(** [resolve_pointer] on the text of a pointer that is valid in a document
    returns the subtree that RFC 6901 designates, tokens unescaped. *)
Lemma resolve_pointer_rfc6901 (tokens : list string) (doc : json) (a : addr) (v : json) :
  tokens <> [] ->
  rfc6901 doc tokens = Some v ->
  exists n, resolve_pointer (mkNode a doc) (pointer_of tokens) = Ok n /\ n_val n = v.
Proof.
  intros Hne H. destruct tokens as [| t r]; [contradiction |].
  unfold resolve_pointer, pointer_parts.
  assert (E : Str.split "/"%char (pointer_of (t :: r))
              = EmptyString :: map rfc_escape (t :: r)) by apply split_pointer_of.
  cbn [pointer_of] in E |- *.
  cbn [String.eqb Ascii.eqb Bool.eqb orb].
  unfold Str.startswith.
  replace (String.prefix "#" (String "/" (rfc_escape t ++ pointer_of r)))
    with false by reflexivity.
  rewrite prefix_cons, prefix_empty, E. cbn [List.tl].
  apply (resolve_tokens_rfc6901 (t :: r) doc a v H).
Qed.

(** ** node_for *)

Lemma startswith_append (s p t : string) :
  Str.startswith s p = true -> Str.startswith (s ++ t) p = true.
Proof.
  unfold Str.startswith. revert s. induction p as [| c r IH]; intros s H.
  - apply prefix_empty.
  - destruct s as [| d s']; [discriminate H |].
    cbn [String.prefix append] in H |- *.
    destruct (ascii_dec c d); [apply IH; exact H | discriminate H].
Qed.

Lemma split1_append (sep : ascii) (d f : string) :
  Str.mem sep d = false -> Str.split1 sep (d ++ String sep f) = Some (d, f).
Proof.
  induction d as [| c r IH]; cbn [Str.mem Str.split1 append]; intros H.
  - rewrite Ascii.eqb_refl. reflexivity.
  - apply orb_false_iff in H. destruct H as [Hc Hr].
    rewrite Ascii.eqb_sym in Hc. rewrite Hc, (IH Hr). reflexivity.
Qed.

Section NodeFor.

Context {L : Pylib}.

(** Under the pseudo scheme a URI is split at its first [#]. *)
Lemma split_fragment_lithify (doc_uri fragment : string) :
  Str.startswith doc_uri "lithify:///" = true ->
  Str.mem "#"%char doc_uri = false ->
  split_fragment (doc_uri ++ "#" ++ fragment) = Ok (doc_uri, fragment).
Proof.
  intros Hs Hm. unfold split_fragment.
  rewrite (startswith_append _ _ _ Hs).
  change (doc_uri ++ "#" ++ fragment) with (doc_uri ++ String "#" fragment).
  rewrite (split1_append _ _ _ Hm). reflexivity.
Qed.

(** X26: [node_for] on a pointer that is valid in a document of the index,
    when the URI made of the URI of the document and of the pointer splits
    back into them and neither an anchor nor a pointer is registered under
    it: the answer is the subtree that the traversal of RFC 6901 reaches,
    each token unescaped. *)
Theorem node_for_traverses
  (idx : SchemaIndex) (doc_uri : string) (doc : node) (tokens : list string)
  (v : json) :
  split_fragment (doc_uri ++ "#" ++ pointer_of tokens)
    = Ok (doc_uri, pointer_of tokens) ->
  smap_get doc_uri (docs idx) = Some doc ->
  tokens <> [] ->
  rfc6901 (n_val doc) tokens = Some v ->
  smap_get (doc_uri ++ "#" ++ pointer_of tokens) (anchors idx) = None ->
  smap_get (doc_uri ++ "#" ++ pointer_of tokens) (pointers idx) = None ->
  exists n,
    node_for idx (doc_uri ++ "#" ++ pointer_of tokens) = Ok (Some n) /\ n_val n = v.
Proof.
  intros Hsplit Hdoc Hne Hv Ha Hp. unfold node_for. rewrite Hsplit. cbn [bind].
  rewrite Hdoc.
  destruct tokens as [| t r]; [contradiction |].
  assert (Hfrag : String.eqb (pointer_of (t :: r)) EmptyString = false) by reflexivity.
  rewrite Hfrag, Ha.
  assert (Hslash : Str.startswith (pointer_of (t :: r)) "/" = true).
  { unfold Str.startswith. cbn [pointer_of]. rewrite prefix_cons. apply prefix_empty. }
  rewrite Hslash, Hp.
  destruct doc as [a d]. cbn [n_val] in Hv.
  destruct (resolve_pointer_rfc6901 (t :: r) d a v Hne Hv) as [n [Hn Hval]].
  rewrite Hn. exists n. split; [reflexivity | exact Hval].
Qed.

End NodeFor.

Section NodeForRuns.

#[local] Existing Instance cpython.

Lemma node_for_traverses_witness :
  pointer_of ["$defs"; "a/b"; "type"] = "/$defs/a~1b/type"
  /\ exists n,
       node_for Examples.shadow_index ("lithify:///d.json" ++ "#" ++ pointer_of ["$defs"; "a/b"; "type"])
       = Ok (Some n)
       /\ n_val n = JStr "string".
Proof.
  split; [reflexivity |].
  apply (node_for_traverses Examples.shadow_index "lithify:///d.json"
           (mkNode (0, []) Examples.shadow_doc) ["$defs"; "a/b"; "type"] (JStr "string")).
  - vm_compute. reflexivity.
  - vm_compute. reflexivity.
  - discriminate.
  - reflexivity.
  - vm_compute. reflexivity.
  - vm_compute. reflexivity.
Defined.

(** C8 does not hold of the index.  [_index_tree] registers every
    definition under the pointer [<pointer>/$defs/<name>], the name written
    as it is, where it escapes the name of a property.  In a document with
    the definitions [a] and [a/b], the definition [a/b] is registered under
    [#/$defs/a/b], which by RFC 6901 designates the member [b] of the
    definition [a]; [node_for] looks the pointer up among the registered
    ones before it traverses the document, and answers with the definition
    [a/b].  (The pointer of that definition, [#/$defs/a~1b], is answered by
    the traversal.) *)
Theorem node_for_shadowed_pointer :
  load Examples.shadow_files None = Ok Examples.shadow_index
  /\ smap_get "lithify:///d.json" (docs Examples.shadow_index)
     = Some (mkNode (0, []) Examples.shadow_doc)
  /\ pointer_of ["$defs"; "a"; "b"] = "/$defs/a/b"
  /\ rfc6901 Examples.shadow_doc ["$defs"; "a"; "b"]
     = Some (JObj [("type", JStr "integer")])
  /\ smap_get "lithify:///d.json#/$defs/a/b" (anchors Examples.shadow_index) = None
  /\ smap_get "lithify:///d.json#/$defs/a/b" (pointers Examples.shadow_index)
     = Some (mkNode (0, [Key "$defs"; Key "a/b"]) (JObj [("type", JStr "string")]))
  /\ node_for Examples.shadow_index "lithify:///d.json#/$defs/a/b"
     = Ok (Some (mkNode (0, [Key "$defs"; Key "a/b"]) (JObj [("type", JStr "string")])))
  /\ resolve_pointer (mkNode (0, []) Examples.shadow_doc) "/$defs/a/b"
     = Ok (mkNode (0, [Key "$defs"; Key "a"; Key "b"]) (JObj [("type", JStr "integer")]))
  /\ pointer_of ["$defs"; "a/b"] = "/$defs/a~1b"
  /\ smap_get "lithify:///d.json#/$defs/a~1b" (pointers Examples.shadow_index) = None
  /\ node_for Examples.shadow_index "lithify:///d.json#/$defs/a~1b"
     = Ok (Some (mkNode (0, [Key "$defs"; Key "a/b"]) (JObj [("type", JStr "string")]))).
Proof.
  repeat split; vm_compute; reflexivity.
Qed.

End NodeForRuns.

(** ** build_field_map *)

Lemma smap_get_set_same {V : Type} (k : string) (v : V) (m : list (string * V)) :
  smap_get k (smap_set k v m) = Some v.
Proof.
  induction m as [| [k' v'] r IH]; simpl.
  - rewrite String.eqb_refl. reflexivity.
  - destruct (String.eqb k k') eqn:E; simpl.
    + rewrite String.eqb_refl. reflexivity.
    + rewrite E. exact IH.
Qed.

Lemma smap_get_set_other {V : Type} (k k' : string) (v : V) (m : list (string * V)) :
  k <> k' -> smap_get k (smap_set k' v m) = smap_get k m.
Proof.
  intros Hne. induction m as [| [k0 v0] r IH]; simpl.
  - destruct (String.eqb_spec k k'); [contradiction | reflexivity].
  - destruct (String.eqb_spec k' k0) as [-> | Hk]; simpl.
    + destruct (String.eqb_spec k k0); [contradiction | reflexivity].
    + destruct (String.eqb_spec k k0); [reflexivity | exact IH].
Qed.

Lemma with_key_get {A : Type} (k : string) (f : json -> A) (dflt : A) (d : dict) :
  with_key k f dflt d = match dict_get k d with Some v => f v | None => dflt end.
Proof.
  induction d as [| [k' v] r IH]; simpl; [reflexivity |].
  destruct (String.eqb k k'); [reflexivity | exact IH].
Qed.

Lemma with_key_get_app {A B : Type} (k : string) (f : json -> A -> B) (dflt : A -> B)
  (d : dict) (x : A) :
  with_key k f dflt d x = match dict_get k d with Some v => f v x | None => dflt x end.
Proof.
  induction d as [| [k' v] r IH]; simpl; [reflexivity |].
  destruct (String.eqb k k'); [reflexivity | exact IH].
Qed.

Section FieldMap.

Context {L : Pylib}.

(** The walk of a property whose schema is an array of references to an
    aliased type. *)
Lemma map_array_of_ref
  (idx : SchemaIndex) (ref_map : list (string * string)) (doc_uri : string)
  (model : json) (a : addr) (fm : field_map) (prop_name : string) (X : json)
  (full_uri fqn key : string) :
  smap_get ("#/properties/" ++ prop_name) ref_map = None ->
  resolve_uri_full
    match bases_get (child a [Key "properties"; Key prop_name; Key "items"])
            (subschema_bases idx) with
    | Some b => b
    | None => doc_uri
    end X = Ok full_uri ->
  smap_get full_uri ref_map = Some fqn ->
  fqn <> EmptyString ->
  field_key model (sanitize_field_name prop_name) = Ok key ->
  map_property idx ref_map doc_uri model a fm
    (prop_name, JObj [("type", JStr "array"); ("items", JObj [("$ref", X)])])
  = Ok (smap_set key
          (mkFieldTarget model (sanitize_field_name prop_name) fqn "list_item") fm).
Proof.
  intros Hdirect Hres Hmap Hfqn Hkey.
  unfold map_property. rewrite Hdirect.
  cbn [find_refs_recursive dict_get String.eqb Ascii.eqb Bool.eqb bind foldM with_key].
  unfold child in *. cbn [fst snd app] in *. rewrite <- app_assoc. cbn [app].
  rewrite Hres. cbn [bind]. rewrite Hmap.
  destruct (String.eqb_spec fqn EmptyString) as [E | _]; [contradiction |].
  cbn [negb]. unfold put_target. rewrite Hkey. reflexivity.
Qed.

(** *** What a walk writes

    The walk of a property writes under the field key of that property
    only. *)

Lemma dict_get_Forall (P : json -> Prop) (d : dict) (k : string) (v : json) :
  Forall (fun kv => P (snd kv)) d -> dict_get k d = Some v -> P v.
Proof.
  intros HF. induction HF as [| [k' v'] r Hx _ IH]; simpl; intros H.
  - discriminate H.
  - destruct (String.eqb k k').
    + injection H as <-. exact Hx.
    + apply IH. exact H.
Qed.

Lemma foldM_keeps {A : Type} (f : field_map -> A -> res field_map) (k : string)
  (l : list A) (fm fm' : field_map) :
  (forall x fm fm', In x l -> f fm x = Ok fm' -> smap_get k fm' = smap_get k fm) ->
  foldM f fm l = Ok fm' -> smap_get k fm' = smap_get k fm.
Proof.
  revert fm. induction l as [| x r IH]; intros fm Hf H; simpl in H.
  - injection H as <-. reflexivity.
  - split_bind H as fm1 H1.
    rewrite (IH fm1 (fun y m m' Hy => Hf y m m' (or_intror Hy)) H).
    apply (Hf x fm fm1 (or_introl eq_refl) H1).
Qed.

Lemma fold_elems_keeps (f : nat -> json -> field_map -> res field_map) (k : string)
  (l : list json) (i : nat) (fm fm' : field_map) :
  Forall (fun x => forall i fm fm', f i x fm = Ok fm' -> smap_get k fm' = smap_get k fm) l ->
  fold_elems f l i fm = Ok fm' -> smap_get k fm' = smap_get k fm.
Proof.
  intros HF. revert i fm. induction HF as [| x r Hx _ IH]; intros i fm H; simpl in H.
  - injection H as <-. reflexivity.
  - split_bind H as fm1 H1. rewrite (IH (S i) fm1 H). apply (Hx i fm fm1 H1).
Qed.

Lemma put_target_keeps (fm fm' : field_map) (model : json) (field fqn s k : string) :
  field_key model field <> Ok k ->
  put_target fm model field fqn s = Ok fm' -> smap_get k fm' = smap_get k fm.
Proof.
  unfold put_target. intros Hk H. split_bind H as key Hkey.
  injection H as <-. apply smap_get_set_other. intros E. subst key. exact (Hk Hkey).
Qed.

(** [find_refs_recursive] on a dictionary, its lookups written out. *)
Lemma find_refs_recursive_obj
  (idx : SchemaIndex) (ref_map : list (string * string)) (doc_uri : string)
  (model : json) (d : dict) (a : addr) (prop_name s : string) (fm : field_map) :
  find_refs_recursive idx ref_map doc_uri model (JObj d) a prop_name s fm =
  (let union (key : string) (fm : field_map) :=
     match dict_get key d with
     | Some (JArr l) =>
         fold_elems (fun i item fm =>
           find_refs_recursive idx ref_map doc_uri model item
             (child a [Key key; Idx i]) prop_name "union_member" fm) l 0 fm
     | _ => Ok fm
     end in
   fm <- match dict_get "$ref" d with
         | Some ref =>
             full_uri <- resolve_uri_full
                           match bases_get a (subschema_bases idx) with
                           | Some b => b
                           | None => doc_uri
                           end ref ;;
             match smap_get full_uri ref_map with
             | Some fqn =>
                 if negb (String.eqb fqn EmptyString)
                 then put_target fm model (sanitize_field_name prop_name) fqn s
                 else Ok fm
             | None => Ok fm
             end
         | None => Ok fm
         end ;;
   fm <- match dict_get "items" d with
         | Some sub =>
             find_refs_recursive idx ref_map doc_uri model sub
               (child a [Key "items"]) prop_name "list_item" fm
         | None => Ok fm
         end ;;
   fm <- match dict_get "additionalProperties" d with
         | Some sub =>
             find_refs_recursive idx ref_map doc_uri model sub
               (child a [Key "additionalProperties"]) prop_name "dict_value" fm
         | None => Ok fm
         end ;;
   fm <- union "oneOf" fm ;;
   fm <- union "anyOf" fm ;;
   fm <- union "allOf" fm ;;
   Ok fm).
Proof.
  cbv zeta. cbn [find_refs_recursive foldM].
  apply bind_ext; intros fm0. rewrite with_key_get_app.
  apply bind_ext; intros fm1. rewrite with_key_get_app.
  apply bind_ext; intros fm2. rewrite with_key_get_app.
  apply bind_ext; intros fm3. rewrite with_key_get_app.
  apply bind_ext; intros fm4. rewrite with_key_get_app.
  reflexivity.
Qed.

Lemma find_refs_recursive_keeps_members
  (idx : SchemaIndex) (ref_map : list (string * string)) (doc_uri : string)
  (model : json) (prop_name k : string) (sub : json) :
  field_key model (sanitize_field_name prop_name) <> Ok k ->
  keeps_key idx ref_map doc_uri model prop_name k sub /\
  match sub with
  | JArr l => Forall (keeps_key idx ref_map doc_uri model prop_name k) l
  | _ => True
  end.
Proof.
  intros Hk.
  induction sub as [| b | n | fl | x | l IH | d IH] using json_ind';
    try (split; [intros a s fm fm' H; injection H as <-; reflexivity | exact I]).
  - split; [intros a s fm fm' H; injection H as <-; reflexivity |].
    revert IH. apply Forall_impl. intros x [Hx _]. exact Hx.
  - split; [| exact I]. intros a s fm fm' H.
    rewrite find_refs_recursive_obj in H. cbv zeta in H.
    assert (Hval : forall key v, dict_get key d = Some v ->
               keeps_key idx ref_map doc_uri model prop_name k v /\
               match v with
               | JArr l => Forall (keeps_key idx ref_map doc_uri model prop_name k) l
               | _ => True
               end).
    { intros key v E.
      exact (dict_get_Forall
               (fun j => keeps_key idx ref_map doc_uri model prop_name k j /\
                         match j with
                         | JArr l => Forall (keeps_key idx ref_map doc_uri model prop_name k) l
                         | _ => True
                         end) d key v IH E). }
    assert (Hunion : forall key m m',
               match dict_get key d with
               | Some (JArr l) =>
                   fold_elems (fun i item fm =>
                     find_refs_recursive idx ref_map doc_uri model item
                       (child a [Key key; Idx i]) prop_name "union_member" fm) l 0 m
               | _ => Ok m
               end = Ok m' -> smap_get k m' = smap_get k m).
    { intros key m m' Hu. destruct (dict_get key d) as [v |] eqn:E;
        [| injection Hu as <-; reflexivity].
      destruct (Hval key v E) as [_ Hv].
      destruct v; try (injection Hu as <-; reflexivity).
      refine (fold_elems_keeps _ k items 0 m m' _ Hu).
      revert Hv. apply Forall_impl. intros x Hx i m0 m1. apply Hx. }
    split_bind H as fm0 H0. split_bind H as fm1 H1. split_bind H as fm2 H2.
    split_bind H as fm3 H3. split_bind H as fm4 H4. split_bind H as fm5 H5.
    injection H as <-.
    rewrite (Hunion _ _ _ H5), (Hunion _ _ _ H4), (Hunion _ _ _ H3).
    assert (E2 : smap_get k fm2 = smap_get k fm1).
    { destruct (dict_get "additionalProperties" d) as [v |] eqn:E;
        [| injection H2 as <-; reflexivity].
      exact (proj1 (Hval _ v E) _ _ _ _ H2). }
    assert (E1 : smap_get k fm1 = smap_get k fm0).
    { destruct (dict_get "items" d) as [v |] eqn:E;
        [| injection H1 as <-; reflexivity].
      exact (proj1 (Hval _ v E) _ _ _ _ H1). }
    rewrite E2, E1. clear - H0 Hk.
    destruct (dict_get "$ref" d) as [ref |]; [| injection H0 as <-; reflexivity].
    split_bind H0 as full_uri Hu.
    destruct (smap_get full_uri ref_map) as [fqn |]; [| injection H0 as <-; reflexivity].
    destruct (negb (String.eqb fqn EmptyString)); [| injection H0 as <-; reflexivity].
    exact (put_target_keeps _ _ _ _ _ _ _ Hk H0).
Qed.

Lemma find_refs_recursive_keeps
  (idx : SchemaIndex) (ref_map : list (string * string)) (doc_uri : string)
  (model : json) (prop_name k : string) (sub : json) (a : addr) (s : string)
  (fm fm' : field_map) :
  field_key model (sanitize_field_name prop_name) <> Ok k ->
  find_refs_recursive idx ref_map doc_uri model sub a prop_name s fm = Ok fm' ->
  smap_get k fm' = smap_get k fm.
Proof.
  intros Hk.
  apply (proj1 (find_refs_recursive_keeps_members idx ref_map doc_uri model
                  prop_name k sub Hk)).
Qed.

Lemma map_property_keeps
  (idx : SchemaIndex) (ref_map : list (string * string)) (doc_uri : string)
  (model : json) (a : addr) (k : string) (prop : string * json) (fm fm' : field_map) :
  field_key model (sanitize_field_name (fst prop)) <> Ok k ->
  map_property idx ref_map doc_uri model a fm prop = Ok fm' ->
  smap_get k fm' = smap_get k fm.
Proof.
  destruct prop as [prop_name prop_schema]. unfold map_property. cbn [fst].
  intros Hk H. destruct (smap_get ("#/properties/" ++ prop_name) ref_map) as [fqn |].
  - exact (put_target_keeps _ _ _ _ _ _ _ Hk H).
  - exact (find_refs_recursive_keeps _ _ _ _ _ _ _ _ _ _ _ Hk H).
Qed.

Lemma foldM_app {A St : Type} (f : St -> A -> res St) (s : St) (l1 l2 : list A) :
  foldM f s (l1 ++ l2) = (s1 <- foldM f s l1 ;; foldM f s1 l2).
Proof.
  revert s. induction l1 as [| x r IH]; intros s; simpl; [reflexivity |].
  destruct (f s x) as [s' | e]; simpl; [apply IH | reflexivity].
Qed.

Lemma existsb_eqb_false (k : string) (l : list string) :
  existsb (String.eqb k) l = false -> ~ In k l.
Proof.
  intros H Hin. assert (E : existsb (String.eqb k) l = true).
  { apply existsb_exists. exists k. split; [exact Hin | apply String.eqb_refl]. }
  rewrite E in H. discriminate H.
Qed.

Lemma property_keys_avoid (model : json) (props : dict) (k : string) :
  existsb (String.eqb k) (property_keys model props) = false ->
  forall p, In p props -> field_key model (sanitize_field_name (fst p)) <> Ok k.
Proof.
  intros H p Hp E. apply (existsb_eqb_false _ _ H).
  unfold property_keys. apply in_flat_map. exists p. split; [exact Hp |].
  rewrite E. left. reflexivity.
Qed.

Lemma map_properties_keep
  (idx : SchemaIndex) (ref_map : list (string * string)) (doc_uri : string)
  (model : json) (a : addr) (k : string) (props : dict) (fm fm' : field_map) :
  existsb (String.eqb k) (property_keys model props) = false ->
  foldM (map_property idx ref_map doc_uri model a) fm props = Ok fm' ->
  smap_get k fm' = smap_get k fm.
Proof.
  intros Hk. apply foldM_keeps. intros p m m' Hp.
  apply map_property_keeps. exact (property_keys_avoid _ _ _ Hk p Hp).
Qed.

Lemma map_document_keeps
  (idx : SchemaIndex) (ref_map : list (string * string)) (k : string)
  (d : string * node) (fm fm' : field_map) :
  existsb (String.eqb k) (document_keys idx d) = false ->
  map_document idx ref_map fm d = Ok fm' -> smap_get k fm' = smap_get k fm.
Proof.
  destruct d as [doc_uri doc]. unfold document_keys, map_document. cbn [fst snd].
  intros Hk H. destruct (n_val doc) as [| | | | | | fields];
    try (injection H as <-; reflexivity).
  destruct (negb (dict_has "properties" fields) && negb (dict_has "patternProperties" fields));
    [injection H as <-; reflexivity |].
  split_bind H as model Hm. rewrite Hm in Hk.
  destruct (dict_get "properties" fields) as [[| | | | | | props] |];
    try discriminate H; [| injection H as <-; reflexivity].
  exact (map_properties_keep _ _ _ _ _ _ _ _ _ Hk H).
Qed.

Lemma map_ns_fields_keeps
  (idx : SchemaIndex) (package_name k : string) (f : file) (fm fm' : field_map) :
  existsb (String.eqb k) (ns_keys idx f) = false ->
  map_ns_fields idx package_name fm f = Ok fm' -> smap_get k fm' = smap_get k fm.
Proof.
  unfold ns_keys, map_ns_fields. intros Hk H.
  destruct (fcontent f) as [schema |]; [| discriminate H].
  split_bind H as titled Ht. destruct titled; cbn [negb] in H;
    [| injection H as <-; reflexivity].
  split_bind H as title Hti. split_bind H as class_name Hc. split_bind H as names Hn.
  rewrite Hti in Hk. cbn [bind] in Hk. rewrite Hc, Hn in Hk.
  revert H. apply foldM_keeps. intros n m m' Hin.
  apply put_target_keeps. intros E. apply (existsb_eqb_false _ _ Hk).
  apply in_flat_map. exists n. split; [exact Hin |]. rewrite E. left. reflexivity.
Qed.

(** X25: for a property of a document of the index whose schema is an
    array of references, when the reference, joined by [urljoin] to the
    base URI recorded for the [items] node, is a key that the alias map
    sends to a name that is not empty, when the alias map has no entry
    for the pointer [#/properties/<name>] itself, and when no property,
    document or NsInt field walked later writes the same key, the field
    map that [build_field_map] returns holds, under the key of the model
    and the field, a target with that alias whose slot is [list_item]. *)
Theorem build_field_map_list_item
  (idx : SchemaIndex) (ref_map : list (string * string)) (json_dir : list file)
  (package_name : string) (fm : field_map)
  (docs_before docs_after : list (string * node)) (doc_uri : string) (doc : node)
  (fields props_before props_after : dict) (prop_name : string) (X model : json)
  (full_uri fqn key : string) :
  docs idx = (docs_before ++ (doc_uri, doc) :: docs_after)%list ->
  n_val doc = JObj fields ->
  dict_get "properties" fields
  = Some (JObj (props_before
                ++ (prop_name, JObj [("type", JStr "array"); ("items", JObj [("$ref", X)])])
                :: props_after)%list) ->
  model_name_of idx doc_uri fields = Ok model ->
  field_key model (sanitize_field_name prop_name) = Ok key ->
  smap_get ("#/properties/" ++ prop_name) ref_map = None ->
  resolve_uri_full
    match bases_get (child (n_id doc) [Key "properties"; Key prop_name; Key "items"])
            (subschema_bases idx) with
    | Some b => b
    | None => doc_uri
    end X = Ok full_uri ->
  smap_get full_uri ref_map = Some fqn ->
  fqn <> EmptyString ->
  existsb (String.eqb key) (property_keys model props_after) = false ->
  existsb (String.eqb key) (flat_map (document_keys idx) docs_after) = false ->
  existsb (String.eqb key) (flat_map (ns_keys idx) (sort_files (glob_json json_dir)))
  = false ->
  build_field_map idx ref_map json_dir package_name = Ok fm ->
  smap_get key fm
  = Some (mkFieldTarget model (sanitize_field_name prop_name) fqn "list_item").
Proof.
  intros Hdocs Hval Hprops Hmodel Hkey Hdirect Hres Hmap Hfqn Hpa Hda Hns H.
  unfold build_field_map in H. split_bind H as fm1 Hd.
  assert (Efiles : smap_get key fm = smap_get key fm1).
  { revert H. apply foldM_keeps. intros f m m' Hf. apply map_ns_fields_keeps.
    destruct (existsb (String.eqb key) (ns_keys idx f)) eqn:E; [| reflexivity].
    exfalso. apply (existsb_eqb_false _ _ Hns). apply existsb_exists in E.
    destruct E as [x [Hx Ex]]. apply String.eqb_eq in Ex. subst x.
    apply in_flat_map. exists f. split; [exact Hf | exact Hx]. }
  rewrite Efiles. clear H Efiles Hns.
  rewrite Hdocs, foldM_app in Hd. split_bind Hd as fm0 Hb.
  cbn [foldM] in Hd. split_bind Hd as fm2 Hdoc.
  assert (Eafter : smap_get key fm1 = smap_get key fm2).
  { revert Hd. apply foldM_keeps. intros d m m' Hin. apply map_document_keeps.
    destruct (existsb (String.eqb key) (document_keys idx d)) eqn:E; [| reflexivity].
    exfalso. apply (existsb_eqb_false _ _ Hda). apply existsb_exists in E.
    destruct E as [x [Hx Ex]]. apply String.eqb_eq in Ex. subst x.
    apply in_flat_map. exists d. split; [exact Hin | exact Hx]. }
  rewrite Eafter. clear Hd Eafter Hda Hb.
  unfold map_document in Hdoc. rewrite Hval in Hdoc.
  assert (Hhas : dict_has "properties" fields = true).
  { apply dict_has_get. eexists. exact Hprops. }
  rewrite Hhas in Hdoc. cbn [negb andb] in Hdoc.
  rewrite Hmodel in Hdoc. cbn [bind] in Hdoc. rewrite Hprops, foldM_app in Hdoc.
  split_bind Hdoc as fm3 Hpb. cbn [foldM] in Hdoc. split_bind Hdoc as fm4 Hp.
  rewrite (map_properties_keep _ _ _ _ _ _ _ _ _ Hpa Hdoc).
  rewrite (map_array_of_ref idx ref_map doc_uri model (n_id doc) fm3 prop_name X
             full_uri fqn key Hdirect Hres Hmap Hfqn Hkey) in Hp.
  injection Hp as <-. apply smap_get_set_same.
Qed.

End FieldMap.

Section FieldMapRuns.

#[local] Existing Instance cpython.

Lemma build_field_map_list_item_witness :
  load Examples.order_files None = Ok Examples.order_index
  /\ exists fm,
       build_field_map Examples.order_index Examples.order_ref_map Examples.order_files
         "pkg" = Ok fm
       /\ smap_get "Order.tags" fm
          = Some (mkFieldTarget (JStr "Order") "tags" "pkg.types.Tag" "list_item").
Proof.
  split; [vm_compute; reflexivity |].
  eexists. split; [vm_compute; reflexivity |].
  eapply (build_field_map_list_item
            Examples.order_index Examples.order_ref_map Examples.order_files "pkg" _
            [] [("http://example.com/types.json", mkNode (1, []) Examples.types_doc)]
            "http://example.com/order.json" (mkNode (0, []) Examples.order_doc)
            _ [] [] "tags" (JStr "types.json#/$defs/Tag")
            (JStr "Order") Examples.tag_uri "pkg.types.Tag" "Order.tags").
  - reflexivity.
  - reflexivity.
  - reflexivity.
  - reflexivity.
  - reflexivity.
  - reflexivity.
  - vm_compute. reflexivity.
  - reflexivity.
  - discriminate.
  - reflexivity.
  - vm_compute. reflexivity.
  - vm_compute. reflexivity.
  - vm_compute. reflexivity.
Defined.

(** C9 does not hold of the field mapper when the documents bear no
    [$id] and no base URL is given.  The property [tags] of [order.json]
    is an array of references to the definition [Tag] of [types.json],
    for which [emit_alias_modules] makes an alias: the alias map has the
    key [lithify:///types.json#/$defs/Tag], the URI that the index gives
    the definition and that [SchemaIndex.resolve_ref] gives the
    reference.  [find_refs_recursive] resolves the reference with
    [resolve_uri], that is with [urljoin], which under the pseudo scheme
    returns the reference as it is: it looks [types.json#/$defs/Tag] up in
    the alias map, finds nothing, and the field map has no target for the
    property. *)
Theorem alias_mapped_items_get_no_target :
  load Examples.plain_files None = Ok Examples.plain_index
  /\ smap_get "lithify:///order.json" (docs Examples.plain_index)
     = Some (mkNode (0, []) Examples.plain_order_doc)
  /\ (r <- Py.getitem Examples.plain_order_doc "properties" ;; Py.getitem r "tags")
     = Ok (JObj [("type", JStr "array");
                 ("items", JObj [("$ref", JStr "types.json#/$defs/Tag")])])
  /\ resolve_ref (JStr "types.json#/$defs/Tag") "lithify:///order.json"
     = Ok "lithify:///types.json#/$defs/Tag"
  /\ node_for Examples.plain_index "lithify:///types.json#/$defs/Tag"
     = Ok (Some (mkNode (1, [Key "$defs"; Key "Tag"]) Examples.tag_schema))
  /\ (r <- emit_alias_modules Examples.plain_index "pkg" ;; Ok (fst r))
     = Ok [("lithify:///types.json#/$defs/Tag", mkFqn "pkg" "types" (JStr "Tag"))]
  /\ (r <- emit_alias_modules Examples.plain_index "pkg" ;; ref_map_text (fst r))
     = Ok [("lithify:///types.json#/$defs/Tag", "pkg.types.Tag")]
  /\ bases_get (0, [Key "properties"; Key "tags"; Key "items"])
       (subschema_bases Examples.plain_index)
     = Some "lithify:///order.json"
  /\ resolve_uri_full "lithify:///order.json" (JStr "types.json#/$defs/Tag")
     = Ok "types.json#/$defs/Tag"
  /\ build_field_map Examples.plain_index
       [("lithify:///types.json#/$defs/Tag", "pkg.types.Tag")] Examples.plain_files "pkg"
     = Ok [].
Proof.
  repeat split; vm_compute; reflexivity.
Qed.

(** An entry of the alias map for the pointer [#/properties/tags], which
    the inline allOf aliases add without the URI of a document, takes
    precedence in every model that has a property of that name: the
    property is an array of references to an aliased type, and its target
    has the slot [self] and the name of the inline alias. *)
Lemma inline_alias_takes_the_slot :
  load Examples.order_files None = Ok Examples.order_index
  /\ smap_get "http://example.com/order.json" (docs Examples.order_index)
     = Some (mkNode (0, []) Examples.order_doc)
  /\ dict_get "tags" [("tags", Examples.tags)]
     = Some (JObj [("type", JStr "array");
                   ("items", JObj [("$ref", JStr "types.json#/$defs/Tag")])])
  /\ resolve_uri_full "http://example.com/order.json" (JStr "types.json#/$defs/Tag")
     = Ok Examples.tag_uri
  /\ smap_get Examples.tag_uri Examples.inline_ref_map = Some "pkg.types.Tag"
  /\ build_field_map Examples.order_index Examples.inline_ref_map Examples.order_files
       "pkg"
     = Ok [("Order.tags",
            mkFieldTarget (JStr "Order") "tags" "pkg.event_types.Event_tags" "self")].
Proof.
  repeat split; vm_compute; reflexivity.
Qed.

End FieldMapRuns.

(** ** emit_alias_modules *)

Lemma foldM_preserves {A St : Type} (f : St -> A -> res St) (P : St -> Prop)
  (l : list A) (s s' : St) :
  (forall x s s', f s x = Ok s' -> P s -> P s') ->
  foldM f s l = Ok s' -> P s -> P s'.
Proof.
  intros Hmono. revert s. induction l as [| x r IH]; intros s H Ps; simpl in H.
  - injection H as <-. exact Ps.
  - split_bind H as s1 H1. exact (IH s1 H (Hmono x s s1 H1 Ps)).
Qed.

Section AliasModulesRuns.

#[local] Existing Instance cpython.

(** C2 does not hold of the alias synthesizer when the documents bear no
    [$id] and no base URL is given.  In [shop.json] the property [code]
    refers to the definition [Code] of the same document, which has a
    scalar shape and is exportable.  The set [all_refs] is made with
    [resolve_ref], which leaves a reference that starts with [#] to
    [urljoin]; under the pseudo scheme [urljoin] returns the reference as
    it is, so the set holds [#/$defs/Code] where the symbol has the URI
    [lithify:///shop.json#/$defs/Code]: the definition, which has a
    title, is taken for unreferenced, and no alias is made for it.  The
    same document under an [$id] of the scheme [http] gets the alias. *)
Theorem referenced_definition_gets_no_alias :
  load Examples.shop_files None = Ok Examples.shop_index
  /\ (r <- Py.getitem Examples.shop_doc "properties" ;; Py.getitem r "code")
     = Ok (JObj [("$ref", JStr "#/$defs/Code")])
  /\ resolve_pointer (mkNode (0, []) Examples.shop_doc) "#/$defs/Code"
     = Ok (mkNode (0, [Key "$defs"; Key "Code"]) Examples.code_schema)
  /\ exportables Examples.shop_index "lithify:///shop.json"
     = Ok [(mkNodeId "lithify:///shop.json" EmptyString, JStr "Shop", "shop");
           (Examples.code_id, JStr "Code", "shop")]
  /\ node_for Examples.shop_index (NodeId_uri Examples.code_id)
     = Ok (Some (mkNode (0, [Key "$defs"; Key "Code"]) Examples.code_schema))
  /\ classify_shape Examples.code_schema = Ok "scalar_str"
  /\ all_refs Examples.shop_index = Ok ["#/$defs/Code"]
  /\ NodeId_uri Examples.code_id = "lithify:///shop.json#/$defs/Code"
  /\ aliases_by_module Examples.shop_index = Ok []
  /\ emit_alias_modules Examples.shop_index "pkg" = Ok ([], [])
  /\ load Examples.shop_id_files None = Ok Examples.shop_id_index
  /\ all_refs Examples.shop_id_index = Ok ["http://example.com/shop.json#/$defs/Code"]
  /\ aliases_by_module Examples.shop_id_index
     = Ok [("shop",
            [mkAlias (JStr "Code") Examples.code_schema "scalar_str"
               (mkNodeId "http://example.com/shop.json" "#/$defs/Code")])].
Proof.
  repeat split; vm_compute; reflexivity.
Qed.

End AliasModulesRuns.

(** ** The base URI of a chain *)

Section NestedBase.

#[local] Existing Instance cpython.

(** C1 does not hold of the collapser: the index records, for the branch
    [{"$ref": "t.json"}] under the nested [$id], the base
    [http://example.com/sub/], against which the reference names
    [http://example.com/sub/t.json] (whose [maxLength] is 9);
    [resolve_allof_branches] resolves it against the URI of the file and
    finds [http://example.com/t.json] (whose [maxLength] is 5), and the
    run writes that bound into the chain. *)
Theorem collapser_ignores_nested_base :
  load Examples.nested_files None = Ok Examples.nested_index
  /\ bases_get (0, [Key "$defs"; Key "Sub"; Key "properties"; Key "p";
                    Key "allOf"; Idx 0])
       (subschema_bases Examples.nested_index)
     = Some "http://example.com/sub/"
  /\ resolve_uri_full "http://example.com/sub/" (JStr "t.json")
     = Ok "http://example.com/sub/t.json"
  /\ node_for Examples.nested_index "http://example.com/sub/t.json"
     = Ok (Some (mkNode (1, []) Examples.sub_t_doc))
  /\ resolve_allof_branches Examples.nested_branches Examples.nested_index
       "#/$defs/Sub/properties/p" "http://example.com/a.json"
     = Ok [Examples.t_doc; JObj [("type", JStr "string"); ("minLength", JInt 1)]]
  /\ (r <- Py.getitem Examples.nested_doc "$defs" ;;
      r <- Py.getitem r "Sub" ;;
      r <- Py.getitem r "properties" ;;
      Py.getitem r "p")
     = Ok (JObj [("allOf", JArr Examples.nested_branches)])
  /\ match fcontent (hd (mkFile EmptyString None)
                       (run_dir (process_allof_collapse Examples.nested_files
                                   Examples.nested_index true))) with
     | Some doc =>
         r <- Py.getitem doc "$defs" ;;
         r <- Py.getitem r "Sub" ;;
         r <- Py.getitem r "properties" ;;
         Py.getitem r "p"
     | None => Raise KeyError
     end
     = Ok (JObj [("maxLength", JInt 5); ("minLength", JInt 1); ("type", JStr "string")]).
Proof.
  repeat split; vm_compute; reflexivity.
Qed.

End NestedBase.

(** ** The collapser: a pass, a run *)

Lemma fold_items_preserves {St : Type} (P : St -> Prop)
  (f : string -> json -> St -> res St) (d : dict) (s s' : St) :
  Forall (fun kv => forall k s s', f k (snd kv) s = Ok s' -> P s -> P s') d ->
  fold_items f d s = Ok s' -> P s -> P s'.
Proof.
  intros HF. revert s. induction HF as [| [k v] r Hx _ IH]; intros s H Ps; simpl in H.
  - injection H as <-. exact Ps.
  - split_bind H as s1 H1. exact (IH s1 H (Hx k s s1 H1 Ps)).
Qed.

Lemma fold_elems_preserves {St : Type} (P : St -> Prop)
  (f : nat -> json -> St -> res St) (l : list json) (i : nat) (s s' : St) :
  Forall (fun x => forall i s s', f i x s = Ok s' -> P s -> P s') l ->
  fold_elems f l i s = Ok s' -> P s -> P s'.
Proof.
  intros HF. revert i s. induction HF as [| x r Hx _ IH]; intros i s H Ps; simpl in H.
  - injection H as <-. exact Ps.
  - split_bind H as s1 H1. exact (IH (S i) s1 H (Hx i s s1 H1 Ps)).
Qed.

Section Runs.

Context {L : Pylib}.

Lemma index_title_base_url (d : dict) (doc_uri : string) (idx idx' : SchemaIndex) :
  index_title d doc_uri idx = Ok idx' -> base_url idx' = base_url idx.
Proof.
  unfold index_title. intros H.
  destruct (dict_get "title" d) as [title |]; [| injection H as <-; reflexivity].
  destruct (Py.truthy (dict_get_default "x-python-class-name" d));
    [| injection H as <-; reflexivity].
  split_bind H as u Hu. destruct (Py.hashable title); [| discriminate H].
  injection H as <-. reflexivity.
Qed.

Lemma _index_tree_base_url (n : json) :
  forall (a : addr) (doc_uri base_uri pointer : string) (idx idx' : SchemaIndex),
    _index_tree n a doc_uri base_uri pointer idx = Ok idx' ->
    base_url idx' = base_url idx.
Proof.
  induction n as [| b | z | fl | x | l IH | d IH] using json_ind_members;
    intros a doc_uri base_uri pointer idx idx' H;
    try (injection H as <-; reflexivity).
  cbn [_index_tree] in H.
  assert (Hval : forall key v, dict_get key d = Some v ->
             members_hold
               (fun n => forall a doc_uri base_uri pointer idx idx',
                  _index_tree n a doc_uri base_uri pointer idx = Ok idx' ->
                  base_url idx' = base_url idx) v).
  { intros key v E.
    exact (dict_get_Forall
             (members_hold
                (fun n => forall a doc_uri base_uri pointer idx idx',
                   _index_tree n a doc_uri base_uri pointer idx = Ok idx' ->
                   base_url idx' = base_url idx)) d key v IH E). }
  clear IH. set (c := base_url idx).
  assert (Hnamed : forall key esc b m m',
             with_key key
               (fun sub idx =>
                  match sub with
                  | JObj items =>
                      fold_items (fun name s idx =>
                        _index_tree s (child a [Key key; Key name]) doc_uri b
                          (pointer ++ "/" ++ key ++ "/" ++ esc name) idx) items idx
                  | _ => Raise AttributeError
                  end) (fun idx => Ok idx) d m = Ok m' ->
             base_url m = c -> base_url m' = c).
  { intros key esc b m m' Hn Hm. rewrite with_key_get_app in Hn.
    destruct (dict_get key d) as [v |] eqn:E; [| injection Hn as <-; exact Hm].
    destruct (Hval key v E) as [_ Hv]. destruct v; try discriminate Hn.
    revert Hn Hm. apply (fold_items_preserves (fun s => base_url s = c)). revert Hv. apply Forall_impl.
    intros kv Hkv k s s' Hs Ps. rewrite (Hkv _ _ _ _ _ _ Hs). exact Ps. }
  assert (Hsingle : forall b key m m',
             with_key key
               (fun sub idx =>
                  _index_tree sub (child a [Key key]) doc_uri b
                    (pointer ++ "/" ++ key) idx) (fun idx => Ok idx) d m = Ok m' ->
             base_url m = c -> base_url m' = c).
  { intros b key m m' Hn Hm. rewrite with_key_get_app in Hn.
    destruct (dict_get key d) as [v |] eqn:E; [| injection Hn as <-; exact Hm].
    destruct (Hval key v E) as [Hv _]. rewrite (Hv _ _ _ _ _ _ Hn). exact Hm. }
  assert (Hindexed : forall b key m m',
             with_key key
               (fun sub idx =>
                  match sub with
                  | JArr l =>
                      fold_elems (fun i s idx =>
                        _index_tree s (child a [Key key; Idx i]) doc_uri b
                          (pointer ++ "/" ++ key ++ "/" ++ str_of_nat i) idx) l 0 idx
                  | _ => Ok idx
                  end) (fun idx => Ok idx) d m = Ok m' ->
             base_url m = c -> base_url m' = c).
  { intros b key m m' Hn Hm. rewrite with_key_get_app in Hn.
    destruct (dict_get key d) as [v |] eqn:E; [| injection Hn as <-; exact Hm].
    destruct (Hval key v E) as [_ Hv].
    destruct v; try (injection Hn as <-; exact Hm).
    revert Hn Hm. apply (fold_elems_preserves (fun s => base_url s = c)). revert Hv. apply Forall_impl.
    intros x Hx i s s' Hs Ps. rewrite (Hx _ _ _ _ _ _ Hs). exact Ps. }
  split_bind H as i0 H0. apply index_title_base_url in H0. fold c in H0.
  split_bind H as x Hx. destruct x as [i1 b1].
  assert (E1 : base_url i1 = c).
  { destruct (dict_get "$id" d) as [id |].
    - destruct (negb (String.eqb pointer EmptyString)).
      + split_bind Hx as u Hu. injection Hx as <- <-. exact H0.
      + injection Hx as <- <-. exact H0.
    - injection Hx as <- <-. exact H0. }
  clear Hx H0. split_bind H as i2 H2.
  assert (E2 : base_url i2 = c).
  { destruct (dict_get "$anchor" d) as [anchor |].
    - split_bind H2 as u Hu. injection H2 as <-.
      destruct (negb (String.eqb pointer EmptyString)); exact E1.
    - injection H2 as <-. destruct (negb (String.eqb pointer EmptyString)); exact E1. }
  clear H2. split_bind H as i3 H3. split_bind H as i4 H4. split_bind H as i5 H5.
  split_bind H as i6 H6.
  pose proof (Hnamed _ _ _ _ _ H3 E2) as E3.
  pose proof (Hnamed _ _ _ _ _ H4 E3) as E4.
  pose proof (Hnamed _ _ _ _ _ H5 E4) as E5.
  assert (E6 : base_url i6 = c).
  { revert H6 E5. apply (foldM_preserves _ (fun s => base_url s = c)). intros key m m'. apply Hsingle. }
  revert H E6. apply (foldM_preserves _ (fun s => base_url s = c)). intros key m m'. apply Hindexed.
Qed.

Lemma load_file_base_url (base : option string) (st st' : SchemaIndex * nat) (f : file) :
  load_file base st f = Ok st' -> base_url (fst st') = base_url (fst st).
Proof.
  destruct st as [idx k]. unfold load_file. intros H.
  destruct (negb (String.eqb (path_suffix (fname f)) ".json"));
    [injection H as <-; reflexivity |].
  destruct (fcontent f) as [doc |]; [| injection H as <-; reflexivity].
  split_bind H as has_id Hh. split_bind H as doc_uri Hu. split_bind H as idx1 H1.
  injection H as <-. apply _index_tree_base_url in H1. exact H1.
Qed.

Lemma load_base_url (paths : list file) (base : option string) (idx : SchemaIndex) :
  load paths base = Ok idx -> base_url idx = base.
Proof.
  unfold load. intros H. split_bind H as st Hst. destruct st as [idx1 k].
  injection H as <-.
  refine (foldM_preserves (load_file base) (fun st => base_url (fst st) = base)
            _ _ _ _ Hst eq_refl).
  intros f st st' Hf Hs. rewrite (load_file_base_url _ _ _ _ Hf). exact Hs.
Qed.

Lemma iteration_collapsed_app (a b : list event) :
  iteration_collapsed (a ++ b) = iteration_collapsed a + iteration_collapsed b.
Proof. unfold iteration_collapsed. rewrite filter_app, length_app. reflexivity. Qed.

Lemma process_file_unwritten (idx : SchemaIndex) (strict : bool) (f : file)
  (content : option json) (evs : list event) :
  process_file idx strict f = Ok (content, evs) ->
  iteration_collapsed evs = 0 -> content = None.
Proof.
  unfold process_file. intros H Hz.
  destruct (fcontent f) as [schema |]; [| discriminate H].
  destruct (doc_uri_for_path idx (fname f)) as [doc_uri |];
    [| injection H as <- _; reflexivity].
  destruct (String.eqb doc_uri EmptyString); [injection H as <- _; reflexivity |].
  split_bind H as c Hc. split_bind H as w Hw.
  destruct w as [schema' evs']. injection H as <- <-.
  rewrite Hz. reflexivity.
Qed.

Lemma pass_files_unchanged (idx : SchemaIndex) (strict : bool) (fs : list file) :
  forall (dir dir' : list file) (evs : list event) (raised : option exn),
    pass_files idx strict fs dir = (dir', evs, raised) ->
    iteration_collapsed evs = 0 -> dir' = dir.
Proof.
  induction fs as [| f r IH]; intros dir dir' evs raised H Hz; simpl in H.
  - injection H as <- _ _. reflexivity.
  - destruct (process_file idx strict f) as [[content evs1] | e] eqn:Ef;
      [| injection H as <- _ _; reflexivity].
    destruct (pass_files idx strict r
                match content with
                | Some c => write_file dir (fname f) c
                | None => dir
                end) as [[dir2 evs2] raised2] eqn:Er.
    injection H as <- <- _. rewrite iteration_collapsed_app in Hz.
    assert (Hz1 : iteration_collapsed evs1 = 0) by lia.
    assert (Hz2 : iteration_collapsed evs2 = 0) by lia.
    rewrite (process_file_unwritten _ _ _ _ _ Ef Hz1) in Er.
    exact (IH _ _ _ _ Er Hz2).
Qed.

(** *** The events of a walk *)

(** [collapse_walk] on a dictionary, its steps named. *)
Lemma collapse_walk_obj (c : file_ctx) (d : dict) (json_ptr : string) :
  collapse_walk c (JObj d) json_ptr =
  ('(r, evs) <- process_node c d json_ptr ;;
   match r with
   | Some merged => Ok (JObj merged, evs)
   | None =>
       acc <- walk_named c d json_ptr "properties" escape ([], evs) ;;
       acc <- walk_named c d json_ptr "patternProperties" escape acc ;;
       acc <- walk_single c d json_ptr acc "additionalProperties" ;;
       acc <- walk_items c d json_ptr acc ;;
       acc <- walk_indexed c d json_ptr acc "prefixItems" ;;
       acc <- walk_single c d json_ptr acc "contains" ;;
       acc <- foldM (walk_indexed c d json_ptr) acc ["allOf"; "anyOf"; "oneOf"] ;;
       acc <- foldM (walk_single c d json_ptr) acc ["if"; "then"; "else"; "not"] ;;
       acc <- walk_named c d json_ptr "dependentSchemas" escape acc ;;
       acc <- walk_named c d json_ptr "$defs" (fun name => name) acc ;;
       acc <- walk_named c d json_ptr "definitions" (fun name => name) acc ;;
       Ok (JObj (apply_updates d (fst acc)), snd acc)
   end).
Proof. reflexivity. Qed.

Lemma walked_add_events (acc : walked) (key : string) (v : json) (e : list event) :
  snd (walked_add acc key v e) = (snd acc ++ e)%list.
Proof. reflexivity. Qed.

















(** *** Chains that cannot be satisfied *)

Lemma impossible_bounds_unsatisfiable (d : dict) :
  int_bounds d = true -> unsatisfiable d = true ->
  exists errs, impossible_bounds d = Ok errs /\ errs <> [].
Proof.
  unfold int_bounds, unsatisfiable, impossible_bounds, check_bounds, int_at.
  cbn [forallb]. intros Hi Hu.
  destruct (dict_get "minLength" d) as [[| | z1 | fl | | |] |]; try discriminate Hi;
  destruct (dict_get "maxLength" d) as [[| | z2 | fl | | |] |]; try discriminate Hi;
  destruct (dict_get "minimum" d) as [[| | z3 | fl | | |] |]; try discriminate Hi;
  destruct (dict_get "maximum" d) as [[| | z4 | fl | | |] |]; try discriminate Hi;
  destruct (dict_get "exclusiveMinimum" d) as [[| | z5 | fl | | |] |]; try discriminate Hi;
  destruct (dict_get "exclusiveMaximum" d) as [[| | z6 | fl | | |] |]; try discriminate Hi;
  cbn [bind Py.gt Py.ge Py.lt orb] in *; try discriminate Hu;
  rewrite ?Z.leb_antisym in Hu;
  repeat match goal with
         | |- context [(?a <? ?b)%Z] => destruct (a <? b)%Z
         end;
  cbn [bind negb orb app] in *; try discriminate Hu;
  (eexists; split; [reflexivity | discriminate]).
Qed.




Lemma file_context_fields (idx : SchemaIndex) (strict : bool) (f : file)
  (schema : json) (doc_uri : string) (c : file_ctx) :
  file_context idx strict f schema doc_uri = Ok c ->
  ctx_index c = idx /\ ctx_doc_uri c = doc_uri /\ ctx_file c = fname f
  /\ ctx_strict c = strict.
Proof.
  unfold file_context. intros H. split_bind H as t Ht. split_bind H as parent Hp.
  injection H as <-. repeat split.
Qed.


(** *** The events of a pass *)

Lemma insert_file_In (x f : file) (l : list file) :
  In x (insert_file f l) <-> x = f \/ In x l.
Proof.
  induction l as [| g r IH]; simpl.
  - split; [intros [H | []]; left; symmetry; exact H | intros [H | []]; left; symmetry; exact H].
  - destruct (String.leb (fname f) (fname g)); simpl.
    + split; [intros [H | H]; [left; symmetry; exact H | right; exact H]
             | intros [H | H]; [left; symmetry; exact H | right; exact H]].
    + rewrite IH. split.
      * intros [H | [H | H]]; [right; left; exact H | left; exact H | right; right; exact H].
      * intros [H | [H | H]]; [right; left; exact H | left; exact H | right; right; exact H].
Qed.

Lemma sort_files_In (x : file) (l : list file) : In x (sort_files l) <-> In x l.
Proof.
  unfold sort_files. induction l as [| f r IH]; simpl; [reflexivity |].
  rewrite insert_file_In, IH. split; intros [H | H];
    try (left; symmetry; exact H); try (right; exact H).
Qed.




(** The pass that collapses nothing is the last of the loop. *)
Lemma iterate_last_pass (n : nat) (idx : SchemaIndex) (strict : bool)
  (dir dir' : list file) (evs : list event) (tracked : list InlineAllOfInfo)
  (warned : list warning) (total done : nat) :
  collapse_pass idx strict dir = (dir', evs, None) ->
  iteration_collapsed evs = 0 ->
  iterate (S n) idx strict dir tracked warned total done
  = mkRun dir' (finish strict (errors evs) (tracked ++ inline_allofs evs))
      (warned ++ warnings evs) (total + 0) (S done) Fixpoint_reached.
Proof.
  intros Hp Hz. cbn [iterate]. rewrite Hp, Hz. reflexivity.
Qed.

(** A run that ends on a pass without a collapse: that pass has left the
    directory as it found it, and its index is the one the run was given
    (the run has made one pass) or the one loaded from that directory. *)
Lemma iterate_fixpoint (strict : bool) (n : nat) :
  forall (idx : SchemaIndex) (dir : list file) (tracked : list InlineAllOfInfo)
         (warned : list warning) (total done : nat),
    run_ending (iterate n idx strict dir tracked warned total done) = Fixpoint_reached ->
    exists idx_last evs,
      collapse_pass idx_last strict
        (run_dir (iterate n idx strict dir tracked warned total done))
      = (run_dir (iterate n idx strict dir tracked warned total done), evs, None)
      /\ iteration_collapsed evs = 0
      /\ ((idx_last = idx
           /\ run_dir (iterate n idx strict dir tracked warned total done) = dir
           /\ passes (iterate n idx strict dir tracked warned total done) = S done)
          \/ load (glob_json (run_dir (iterate n idx strict dir tracked warned total done)))
               (base_url idx) = Ok idx_last).
Proof.
  induction n as [| n' IH]; intros idx dir tracked warned total done; [discriminate |].
  cbn [iterate].
  destruct (collapse_pass idx strict dir) as [[dir' evs] raised] eqn:Ep.
  destruct raised as [e |]; [discriminate |].
  destruct (iteration_collapsed evs =? 0)%nat eqn:Ez.
  - intros _. cbn [run_dir passes]. apply Nat.eqb_eq in Ez.
    assert (Ed : dir' = dir) by exact (pass_files_unchanged _ _ _ _ _ _ _ Ep Ez).
    subst dir'. exists idx, evs. split; [exact Ep |]. split; [exact Ez |].
    left. repeat split.
  - destruct (load (glob_json dir') (base_url idx)) as [idx1 | e] eqn:El; [| discriminate].
    destruct n' as [| n'']; [discriminate |].
    intros He. destruct (IH idx1 dir' _ _ _ _ He) as [idx_last [evs2 [Hp [Hz Hi]]]].
    exists idx_last, evs2. split; [exact Hp |]. split; [exact Hz |]. right.
    destruct Hi as [[-> [Hd _]] | Hl].
    + rewrite Hd. exact El.
    + rewrite <- (load_base_url _ _ _ El). exact Hl.
Qed.

(** C7: when a run of the collapser has reached its fixpoint (from the
    index of its directory, or in more than one pass), the index loaded
    from the directory it leaves exists, and a second run on that
    directory with that index collapses nothing, in one pass, and leaves
    every file as it is. *)
Theorem process_allof_collapse_idempotent
  (dir : list file) (idx : SchemaIndex) (strict : bool) :
  run_ending (process_allof_collapse dir idx strict) = Fixpoint_reached ->
  load (glob_json dir) (base_url idx) = Ok idx
  \/ 2 <= passes (process_allof_collapse dir idx strict) ->
  exists idx',
    load (glob_json (run_dir (process_allof_collapse dir idx strict))) (base_url idx)
    = Ok idx'
    /\ total_collapsed
         (process_allof_collapse (run_dir (process_allof_collapse dir idx strict))
            idx' strict) = 0
    /\ run_dir
         (process_allof_collapse (run_dir (process_allof_collapse dir idx strict))
            idx' strict)
       = run_dir (process_allof_collapse dir idx strict)
    /\ passes
         (process_allof_collapse (run_dir (process_allof_collapse dir idx strict))
            idx' strict) = 1
    /\ run_ending
         (process_allof_collapse (run_dir (process_allof_collapse dir idx strict))
            idx' strict) = Fixpoint_reached.
Proof.
  intros He Hidx. unfold process_allof_collapse in He, Hidx.
  destruct (iterate_fixpoint strict max_iterations idx dir [] [] 0 0 He)
    as [idx_last [evs [Hp [Hz Hi]]]].
  fold (process_allof_collapse dir idx strict) in *.
  exists idx_last.
  assert (Hl : load (glob_json (run_dir (process_allof_collapse dir idx strict)))
                 (base_url idx) = Ok idx_last).
  { destruct Hi as [[-> [Hd Hone]] | Hl]; [| exact Hl].
    rewrite Hd. destruct Hidx as [Hl | Htwo]; [exact Hl |].
    unfold process_allof_collapse in Hone, Htwo. rewrite Hone in Htwo. lia. }
  split; [exact Hl |].
  remember (run_dir (process_allof_collapse dir idx strict)) as dir1 eqn:Ed.
  unfold process_allof_collapse, max_iterations.
  rewrite (iterate_last_pass _ _ _ _ _ _ _ _ _ _ Hp Hz).
  repeat split.
Qed.




End Runs.

Section RunsOfTheCollapser.

#[local] Existing Instance cpython.

Lemma process_allof_collapse_idempotent_witness :
  passes (process_allof_collapse Examples.refined_files Examples.refined_index true) = 3
  /\ exists idx',
       load (glob_json (run_dir (process_allof_collapse Examples.refined_files
                                   Examples.refined_index true)))
         (base_url Examples.refined_index) = Ok idx'
       /\ total_collapsed
            (process_allof_collapse
               (run_dir (process_allof_collapse Examples.refined_files
                           Examples.refined_index true)) idx' true) = 0
       /\ run_dir
            (process_allof_collapse
               (run_dir (process_allof_collapse Examples.refined_files
                           Examples.refined_index true)) idx' true)
          = run_dir (process_allof_collapse Examples.refined_files
                       Examples.refined_index true)
       /\ passes
            (process_allof_collapse
               (run_dir (process_allof_collapse Examples.refined_files
                           Examples.refined_index true)) idx' true) = 1
       /\ run_ending
            (process_allof_collapse
               (run_dir (process_allof_collapse Examples.refined_files
                           Examples.refined_index true)) idx' true) = Fixpoint_reached.
Proof.
  split; [vm_compute; reflexivity |].
  apply (process_allof_collapse_idempotent Examples.refined_files
           Examples.refined_index true).
  - vm_compute. reflexivity.
  - left. vm_compute. reflexivity.
Defined.



End RunsOfTheCollapser.

(** * Further properties of the code *)

(** ** slas_classifier.py *)

(** X1: [classify_shape] raises an exception exactly on a dictionary
    whose [type] is a list or a dictionary (a union type such as
    ["string", "null"]): the membership test of [is_scalar_number] hashes
    it.  The exception is a [TypeError]. *)
Theorem classify_shape_raises (schema : json) (e : exn) :
  classify_shape schema = Raise e <->
  e = TypeError
  /\ exists d, schema = JObj d /\ Py.hashable (dict_get_default "type" d) = false.
Proof.
  split.
  - intros H. destruct schema as [| b | n | fl | s | l | d]; try discriminate H.
    cbn [classify_shape] in H.
    destruct (is_scalar_str (JObj d)); [discriminate H |].
    destruct (Py.hashable (dict_get_default "type" d)) eqn:Eh.
    + exfalso.
      assert (En : exists b, is_scalar_number (JObj d) = Ok b).
      { unfold is_scalar_number, Py.in_str_set. rewrite Eh. cbn [bind].
        repeat match goal with
               | |- exists _, (if ?c then _ else _) = _ => destruct c
               end; eexists; reflexivity. }
      destruct En as [b En]. rewrite En in H. cbn [bind] in H.
      repeat match type of H with
             | (if ?c then _ else _) = _ => destruct c
             end; discriminate H.
    + unfold is_scalar_number, Py.in_str_set in H. rewrite Eh in H.
      cbn [bind] in H. injection H as <-. split; [reflexivity |].
      exists d. split; [reflexivity | exact Eh].
  - intros [-> [d [-> Eh]]]. cbn [classify_shape].
    assert (Es : is_scalar_str (JObj d) = false).
    { unfold is_scalar_str. destruct (dict_get_default "type" d); try discriminate Eh;
        reflexivity. }
    rewrite Es. unfold is_scalar_number, Py.in_str_set. rewrite Eh. reflexivity.
Qed.

(** ** Escaping in the pointers of the index and of the walk *)

Lemma prefix_char_other (x c : ascii) (r : string) :
  Ascii.eqb c x = false -> String.prefix (String x EmptyString) (String c r) = false.
Proof.
  intros H. cbn [String.prefix].
  destruct (ascii_dec x c) as [E | _]; [| reflexivity].
  subst c. rewrite Ascii.eqb_refl in H. discriminate H.
Qed.

Lemma replace_tilde (t : string) : Str.replace_from "~" "~0" 0 t = half t.
Proof.
  induction t as [| c r IH]; [reflexivity |].
  cbn [half]. destruct (Ascii.eqb c "~"%char) eqn:Et.
  - apply Ascii.eqb_eq in Et. subst c. cbn. rewrite ?prefix_empty, IH. reflexivity.
  - cbn [Str.replace_from]. rewrite (prefix_char_other _ _ _ Et), IH. reflexivity.
Qed.

Lemma replace_slash (t : string) : Str.replace_from "/" "~1" 0 (half t) = rfc_escape t.
Proof.
  induction t as [| c r IH]; [reflexivity |].
  cbn [half rfc_escape]. destruct (Ascii.eqb c "~"%char) eqn:Et.
  - apply Ascii.eqb_eq in Et. subst c. cbn. rewrite IH. reflexivity.
  - destruct (Ascii.eqb c "/"%char) eqn:Es.
    + apply Ascii.eqb_eq in Es. subst c. cbn. rewrite ?prefix_empty, IH. reflexivity.
    + cbn [Str.replace_from]. rewrite (prefix_char_other _ _ _ Es), IH. reflexivity.
Qed.

Lemma escape_rfc_escape (name : string) : escape name = rfc_escape name.
Proof. unfold escape, Str.replace. rewrite replace_tilde. apply replace_slash. Qed.

(** X2: the escaping that the index and the walk apply to a property
    name is undone by the unescaping of [resolve_pointer], and leaves no
    [/] in the token, so that the token is one part of the pointer. *)
Theorem escape_round_trip (name : string) :
  unescape (escape name) = name
  /\ Str.split "/"%char (escape name) = [escape name].
Proof.
  rewrite escape_rfc_escape. split.
  - apply unescape_rfc_escape.
  - apply split_no_sep. apply rfc_escape_no_slash.
Qed.

(** ** slas_allof_processor.py: the functions on one chain *)

Lemma split_app (sep : ascii) (a b : string) :
  Str.split sep (a ++ String sep b) = (Str.split sep a ++ Str.split sep b)%list.
Proof.
  induction a as [| c r IH]; cbn [append Str.split].
  - rewrite Ascii.eqb_refl. reflexivity.
  - destruct (Ascii.eqb c sep); [rewrite IH; reflexivity |].
    rewrite IH. destruct (Str.split sep r) as [| w ws] eqn:E.
    + exfalso. exact (split_not_nil sep r E).
    + reflexivity.
Qed.

Lemma last_properties_idx_app (l m : list string) (i : nat) (found : option nat) :
  last_properties_idx (l ++ m) i found
  = last_properties_idx m (i + List.length l) (last_properties_idx l i found).
Proof.
  revert i found. induction l as [| p r IH]; intros i found; cbn [app last_properties_idx].
  - rewrite Nat.add_0_r. reflexivity.
  - rewrite IH. cbn [List.length]. replace (S i + List.length r) with (i + S (List.length r))
      by lia. reflexivity.
Qed.

(** X3: on a pointer that ends with [/properties/<name>],
    [_extract_property_name] returns the name, which is the part of the
    pointer after the last part [properties], except for a property that
    is itself named [properties]: the last part [properties] is then the
    name, nothing follows it, and the function raises [ValueError]. *)
Theorem extract_property_name_last (prefix name : string) :
  Str.mem "/"%char name = false ->
  if String.eqb name "properties"
  then exists m,
         _extract_property_name (prefix ++ "/properties/" ++ name) = Raise (ValueError m)
  else _extract_property_name (prefix ++ "/properties/" ++ name) = Ok name.
Proof.
  intros Hn. unfold _extract_property_name.
  assert (E : Str.split "/"%char (prefix ++ "/properties/" ++ name)
              = (Str.split "/"%char prefix ++ ["properties"; name])%list).
  { change (prefix ++ "/properties/" ++ name)
      with (prefix ++ String "/" ("properties" ++ String "/" name)).
    rewrite split_app. f_equal.
    rewrite (split_app_sep "/" "properties" name) by reflexivity.
    rewrite (split_no_sep _ _ Hn). reflexivity. }
  rewrite E, last_properties_idx_app. cbn [last_properties_idx String.eqb Ascii.eqb Bool.eqb].
  cbn [Nat.add]. destruct (String.eqb name "properties").
  - assert (En : nth_error (Str.split "/"%char prefix ++ ["properties"; name])
                   (S (S (List.length (Str.split "/"%char prefix)))) = None).
    { apply nth_error_None. rewrite length_app. cbn [List.length]. lia. }
    rewrite En. eexists. reflexivity.
  - assert (En : nth_error (Str.split "/"%char prefix ++ ["properties"; name])
                   (S (List.length (Str.split "/"%char prefix))) = Some name).
    { rewrite nth_error_app2 by lia.
      replace (S (List.length (Str.split "/"%char prefix))
               - List.length (Str.split "/"%char prefix)) with 1 by lia.
      reflexivity. }
    rewrite En. reflexivity.
Qed.

Lemma extract_property_name_last_witness :
  _extract_property_name "#/$defs/Foo/properties/bar" = Ok "bar".
Proof.
  exact (extract_property_name_last "#/$defs/Foo" "bar" eq_refl).
Defined.

(** What [scan_types] adds to the types it has seen. *)
Lemma scan_types_spec (branches : list json) :
  forall (i : nat) (seen seen' : list string),
    scan_types branches i seen = Ok seen' ->
    incl seen seen'
    /\ (forall s, In s seen' ->
          In s seen
          \/ (In s scalar_types
              /\ exists d, In (JObj d) branches /\ dict_get "type" d = Some (JStr s)))
    /\ (forall d v, In (JObj d) branches -> dict_get "type" d = Some v ->
          exists s, v = JStr s /\ In s seen').
Proof.
  induction branches as [| b r IH]; intros i seen seen' H; cbn [scan_types] in H.
  - injection H as <-. split; [apply incl_refl |]. split.
    + intros s Hs. left. exact Hs.
    + intros d v [].
  - split_bind H as has Hh. destruct has.
    + split_bind H as t Ht. split_bind H as scalar Hs.
      destruct t as [| | | fl | s | |]; try discriminate H.
      destruct scalar; [| discriminate H].
      destruct b as [| | | | | | d]; try discriminate Ht.
      cbn [Py.getitem] in Ht. destruct (dict_get "type" d) as [v |] eqn:Ed;
        [| discriminate Ht]. injection Ht as ->.
      assert (Hin : In s scalar_types).
      { unfold Py.in_str_set in Hs. cbn [Py.hashable] in Hs.
        assert (Hs' : existsb (Py.is_str (JStr s)) scalar_types = true)
          by (injection Hs as Hs; exact Hs).
        apply existsb_exists in Hs'. destruct Hs' as [x [Hx Ex]].
        cbn [Py.is_str] in Ex. apply String.eqb_eq in Ex. subst x. exact Hx. }
      destruct (IH _ _ _ H) as [Hi [Hfrom Hall]].
      assert (Hadd : In s (add_type s seen)).
      { unfold add_type. destruct (existsb (String.eqb s) seen) eqn:E.
        - apply existsb_exists in E. destruct E as [x [Hx Ex]].
          apply String.eqb_eq in Ex. subst x. exact Hx.
        - apply in_or_app. right. left. reflexivity. }
      assert (Hsub : incl seen (add_type s seen)).
      { unfold add_type. destruct (existsb (String.eqb s) seen);
          [apply incl_refl | apply incl_appl, incl_refl]. }
      split; [exact (incl_tran Hsub Hi) |]. split.
      * intros x Hx. destruct (Hfrom x Hx) as [Hold | [Hsc [d' [Hd' Ht']]]].
        -- unfold add_type in Hold. destruct (existsb (String.eqb s) seen).
           ++ left. exact Hold.
           ++ apply in_app_or in Hold. destruct Hold as [Hold | [<- | []]].
              ** left. exact Hold.
              ** right. split; [exact Hin |]. exists d. split; [left; reflexivity | exact Ed].
        -- right. split; [exact Hsc |]. exists d'. split; [right; exact Hd' | exact Ht'].
      * intros d' v [Heq | Hd'] Hv.
        -- injection Heq as <-. rewrite Ed in Hv. injection Hv as <-.
           exists s. split; [reflexivity | exact (Hi s Hadd)].
        -- exact (Hall d' v Hd' Hv).
    + destruct (IH _ _ _ H) as [Hi [Hfrom Hall]].
      split; [exact Hi |]. split.
      * intros x Hx. destruct (Hfrom x Hx) as [Hold | [Hsc [d' [Hd' Ht']]]].
        -- left. exact Hold.
        -- right. split; [exact Hsc |]. exists d'. split; [right; exact Hd' | exact Ht'].
      * intros d' v [Heq | Hd'] Hv.
        -- subst b. cbn [Py.contains] in Hh. injection Hh as Hh.
           unfold dict_has in Hh. rewrite Hv in Hh. discriminate Hh.
        -- exact (Hall d' v Hd' Hv).
Qed.

(** X4: the type that [validate_scalar_types] returns is one of the four
    scalar types, it is the [type] of some branch, and every branch that
    has a [type] has that one. *)
Theorem validate_scalar_types_sound (branches : list json) (json_ptr t : string) :
  validate_scalar_types branches json_ptr = Ok t ->
  In t scalar_types
  /\ (exists d, In (JObj d) branches /\ dict_get "type" d = Some (JStr t))
  /\ (forall d v, In (JObj d) branches -> dict_get "type" d = Some v -> v = JStr t).
Proof.
  unfold validate_scalar_types. intros H. split_bind H as seen Hs.
  destruct seen as [| t0 [| t1 r]]; try discriminate H. injection H as ->.
  destruct (scan_types_spec _ _ _ _ Hs) as [_ [Hfrom Hall]].
  destruct (Hfrom t (or_introl eq_refl)) as [[] | [Hsc Hd]].
  split; [exact Hsc |]. split; [exact Hd |].
  intros d v Hin Hv. destruct (Hall d v Hin Hv) as [s [-> [<- | []]]]. reflexivity.
Qed.

Lemma validate_scalar_types_sound_witness :
  In "string" scalar_types
  /\ (exists d, In (JObj d) [JObj [("type", JStr "string"); ("minLength", JInt 1)];
                             JObj [("maxLength", JInt 9)]]
                /\ dict_get "type" d = Some (JStr "string"))
  /\ (forall d v, In (JObj d) [JObj [("type", JStr "string"); ("minLength", JInt 1)];
                               JObj [("maxLength", JInt 9)]] ->
                  dict_get "type" d = Some v -> v = JStr "string").
Proof.
  exact (validate_scalar_types_sound
           [JObj [("type", JStr "string"); ("minLength", JInt 1)];
            JObj [("maxLength", JInt 9)]] "#/properties/p" "string" eq_refl).
Defined.

(** The steps of [merge_constraints], in order. *)
Lemma merge_constraints_steps
  (branches : list json) (scalar_type ptr : string) (strict : bool)
  (merged : dict) (w : list warning) :
  merge_constraints branches scalar_type ptr strict = Ok (merged, w) ->
  exists m0 m5 w1 w2,
    merge_patterns branches ptr strict [("type", JStr scalar_type)] = Ok (m0, w1)
    /\ (forall k, ~ In k ["minLength"; "maxLength"; "minimum"; "maximum"; "enum"] ->
                  dict_get k m5 = dict_get k m0)
    /\ merge_format branches m5 = Ok merged
    /\ w = (w1 ++ w2)%list.
Proof.
  unfold merge_constraints. intros H.
  split_bind H as a P0. destruct a as [m0 w1]. cbn beta iota zeta in H.
  split_bind H as mins C1. split_bind H as maxs C2.
  split_bind H as m1 S1. split_bind H as m2 S2.
  split_bind H as los C3. split_bind H as his C4.
  split_bind H as m3 S3. split_bind H as m4 S4.
  split_bind H as a E5. destruct a as [m5 w2]. cbn beta iota zeta in H.
  split_bind H as m6 F6. injection H as <- <-.
  pose proof (bound_step Py.max "minLength" _ m0 m1 S1) as [O1 _].
  pose proof (bound_step Py.min "maxLength" _ m1 m2 S2) as [O2 _].
  pose proof (bound_step Py.max "minimum" _ m2 m3 S3) as [O3 _].
  pose proof (bound_step Py.min "maximum" _ m3 m4 S4) as [O4 _].
  assert (Hk : forall k, ~ In k ["minLength"; "maxLength"; "minimum"; "maximum"; "enum"] ->
                 dict_get k m5 = dict_get k m0).
  { intros k Hk. rewrite (merge_enums_other _ _ _ _ _ k E5) by (intros ->; apply Hk; simpl; tauto).
    rewrite O4 by (intros ->; apply Hk; simpl; tauto).
    rewrite O3 by (intros ->; apply Hk; simpl; tauto).
    rewrite O2 by (intros ->; apply Hk; simpl; tauto).
    apply O1. intros ->; apply Hk; simpl; tauto. }
  exists m0, m5, w1, w2. split; [exact P0 |]. split; [exact Hk |].
  split; [exact F6 | reflexivity].
Qed.

Lemma merge_constraints_type
  (branches : list json) (scalar_type ptr : string) (strict : bool)
  (merged : dict) (w : list warning) :
  merge_constraints branches scalar_type ptr strict = Ok (merged, w) ->
  dict_get "type" merged = Some (JStr scalar_type).
Proof.
  intros H. destruct (merge_constraints_steps _ _ _ _ _ _ H)
    as (m0 & m5 & w1 & w2 & P0 & Hk & F6 & _).
  rewrite (merge_format_other _ _ _ "type" F6) by neq_lit.
  rewrite Hk by (intros [E | [E | [E | [E | [E | []]]]]]; discriminate E).
  rewrite (merge_patterns_other _ _ _ _ _ _ "type" P0) by neq_lit. reflexivity.
Qed.

(** X5: the node that [merge_constraints] makes holds the scalar type
    of the chain under [type] and no key besides [type], [pattern],
    [_validator_patterns], the four bounds, [enum] and [format]: a title,
    a description, a default or an exclusive bound of a branch is not
    carried over. *)
Theorem merge_constraints_keys
  (branches : list json) (scalar_type ptr : string) (strict : bool)
  (merged : dict) (w : list warning) :
  merge_constraints branches scalar_type ptr strict = Ok (merged, w) ->
  dict_get "type" merged = Some (JStr scalar_type)
  /\ forall k,
       ~ In k ["type"; "pattern"; "_validator_patterns"; "minLength"; "maxLength";
               "minimum"; "maximum"; "enum"; "format"] ->
       dict_get k merged = None.
Proof.
  intros H. destruct (merge_constraints_steps _ _ _ _ _ _ H)
    as (m0 & m5 & w1 & w2 & P0 & Hk & F6 & _).
  split.
  - rewrite (merge_format_other _ _ _ "type" F6) by neq_lit.
    rewrite Hk by (intros [E | [E | [E | [E | [E | []]]]]]; discriminate E).
    rewrite (merge_patterns_other _ _ _ _ _ _ "type" P0) by neq_lit. reflexivity.
  - intros k Hn.
    rewrite (merge_format_other _ _ _ k F6) by (intros ->; apply Hn; simpl; tauto).
    rewrite Hk by (intros Hin; apply Hn; simpl in Hin |- *; tauto).
    rewrite (merge_patterns_other _ _ _ _ _ _ k P0)
      by (intros ->; apply Hn; simpl; tauto).
    cbn [dict_get]. destruct (String.eqb_spec k "type") as [-> | _]; [| reflexivity].
    exfalso. apply Hn. left. reflexivity.
Qed.

Lemma merge_constraints_keys_witness :
  dict_get "type" [("type", JStr "number"); ("minimum", JInt 1)] = Some (JStr "number")
  /\ forall k,
       ~ In k ["type"; "pattern"; "_validator_patterns"; "minLength"; "maxLength";
               "minimum"; "maximum"; "enum"; "format"] ->
       dict_get k [("type", JStr "number"); ("minimum", JInt 1)] = None.
Proof.
  exact (merge_constraints_keys
           [JObj [("type", JStr "number"); ("minimum", JInt 1);
                  ("exclusiveMaximum", JInt 0); ("description", JStr "a level")];
            JObj [("title", JStr "Level")]]
           "number" "#/properties/level" true
           [("type", JStr "number"); ("minimum", JInt 1)] [] eq_refl).
Defined.

Lemma merge_format_first (branches : list dict) (m m' : dict) :
  merge_format (map JObj branches) m = Ok m' ->
  dict_get "format" m'
  = match values_of "format" branches with
    | v :: _ => Some v
    | [] => dict_get "format" m
    end.
Proof.
  induction branches as [| b r IH]; cbn [map merge_format]; intros H.
  - injection H as <-. reflexivity.
  - cbn [Py.contains bind] in H. unfold values_of. cbn [flat_map].
    unfold dict_has in H. destruct (dict_get "format" b) as [v |] eqn:E.
    + cbn [Py.getitem] in H. rewrite E in H. cbn [bind] in H. injection H as <-.
      cbn [app]. apply dict_get_set_same.
    + cbn [app]. exact (IH H).
Qed.

(** X6: when several branches of a chain have a [format], the merged
    node takes the one of the first branch that has one; when none has,
    the merged node has no [format]. *)
Theorem merge_constraints_format
  (branches : list dict) (scalar_type ptr : string) (strict : bool)
  (merged : dict) (w : list warning) :
  merge_constraints (map JObj branches) scalar_type ptr strict = Ok (merged, w) ->
  dict_get "format" merged = hd_error (values_of "format" branches).
Proof.
  intros H. destruct (merge_constraints_steps _ _ _ _ _ _ H)
    as (m0 & m5 & w1 & w2 & P0 & Hk & F6 & _).
  rewrite (merge_format_first _ _ _ F6).
  destruct (values_of "format" branches) as [| v r]; [| reflexivity].
  rewrite Hk by (intros [E | [E | [E | [E | [E | []]]]]]; discriminate E).
  rewrite (merge_patterns_other _ _ _ _ _ _ "format" P0) by neq_lit. reflexivity.
Qed.

Lemma merge_constraints_format_witness :
  dict_get "format" [("type", JStr "string"); ("format", JStr "uuid")]
  = hd_error (values_of "format"
                [[("type", JStr "string")]; [("format", JStr "uuid")];
                 [("format", JStr "email")]]).
Proof.
  exact (merge_constraints_format
           [[("type", JStr "string")]; [("format", JStr "uuid")];
            [("format", JStr "email")]]
           "string" "#" true [("type", JStr "string"); ("format", JStr "uuid")] []
           eq_refl).
Defined.

Lemma nve_check_bounds (schema : dict) (lo hi : string)
  (cmp : json -> json -> res bool) (mk : json -> json -> bound_error)
  (errors : list bound_error) :
  (forall a b, no_value_error (cmp a b)) ->
  no_value_error (check_bounds schema lo hi cmp mk errors).
Proof.
  intros Hc. unfold check_bounds.
  destruct (dict_get lo schema) as [a |]; [| apply nve_Ok].
  destruct (dict_get hi schema) as [b |]; [| apply nve_Ok].
  apply nve_bind; [apply Hc | intros bad _; apply nve_Ok].
Qed.

Lemma nve_validate_satisfiability (schema : dict) (ptr : string) :
  no_value_error (validate_satisfiability schema ptr false).
Proof.
  unfold validate_satisfiability, impossible_bounds.
  apply nve_bind.
  - apply nve_bind; [apply nve_check_bounds; intros a b; apply nve_lt |]. intros e1 _.
    apply nve_bind; [apply nve_check_bounds; intros a b; apply nve_lt |]. intros e2 _.
    apply nve_check_bounds. intros a b. apply nve_ge.
  - intros errs _. destruct errs; apply nve_Ok.
Qed.

Section LenientChains.

Context {L : Pylib}.

(** X7: in lenient mode, a chain whose branches resolve and agree on a
    scalar type is never left with an error: the body of the loop
    collapses it (conflicts of patterns, of enums and of bounds become
    warnings), unless an exception other than [ValueError] leaves the
    loop. *)
Theorem lenient_chain_is_collapsed
  (c : file_ctx) (node : dict) (json_ptr : string) (bs branches : list json)
  (scalar_type : string) :
  ctx_strict c = false ->
  is_allof_refinement node = true ->
  dict_get "allOf" node = Some (JArr bs) ->
  resolve_allof_branches bs (ctx_index c) json_ptr (ctx_doc_uri c) = Ok branches ->
  validate_scalar_types branches json_ptr = Ok scalar_type ->
  match process_node c node json_ptr with
  | Ok (Some merged, [Collapsed _ _]) =>
      dict_get "type" merged = Some (JStr scalar_type)
  | Ok _ => False
  | Raise (ValueError _) => False
  | Raise _ => True
  end.
Proof.
  intros Hs Hr Ha Hb Ht. unfold process_node, merged_chain.
  rewrite Hr, Ha, Hb. cbn [negb bind]. rewrite Ht. cbn [bind]. rewrite Hs.
  pose proof (merge_constraints_lenient branches scalar_type json_ptr) as Hm.
  destruct (merge_constraints branches scalar_type json_ptr false)
    as [[merged w1] | e] eqn:Em.
  - cbn [bind]. pose proof (nve_validate_satisfiability merged json_ptr) as Hv.
    destruct (validate_satisfiability merged json_ptr false) as [w2 | e] eqn:Ev.
    + cbn [bind]. unfold track_inline.
      destruct (_is_inline_property_allof node json_ptr (ctx_parent_class c)).
      * destruct (ctx_parent_class c) as [parent |];
          destruct (_extract_property_name json_ptr) as [name | [m | | | | | |]];
          cbn [bind]; try exact I;
          exact (merge_constraints_type _ _ _ _ _ _ Em).
      * cbn [bind]. exact (merge_constraints_type _ _ _ _ _ _ Em).
    + cbn [bind]. destruct e; try exact I. exact (Hv _ eq_refl).
  - cbn [bind]. destruct e; try exact I. exact (Hm _ eq_refl).
Qed.

End LenientChains.

Section LenientRuns.

#[local] Existing Instance cpython.

Lemma lenient_chain_is_collapsed_witness :
  match process_node
          (mkFileCtx Examples.range_index "http://example.com/range.json" "range.json"
             (Some (JStr "Range")) false)
          Examples.code_chain "#/properties/code" with
  | Ok (Some merged, [Collapsed _ _]) => dict_get "type" merged = Some (JStr "string")
  | Ok _ => False
  | Raise (ValueError _) => False
  | Raise _ => True
  end.
Proof.
  apply (lenient_chain_is_collapsed
           (mkFileCtx Examples.range_index "http://example.com/range.json" "range.json"
              (Some (JStr "Range")) false)
           Examples.code_chain "#/properties/code"
           [JObj [("type", JStr "string"); ("minLength", JInt 5)];
            JObj [("type", JStr "string"); ("maxLength", JInt 3)]]
           [JObj [("type", JStr "string"); ("minLength", JInt 5)];
            JObj [("type", JStr "string"); ("maxLength", JInt 3)]]
           "string").
  - reflexivity.
  - reflexivity.
  - reflexivity.
  - vm_compute. reflexivity.
  - vm_compute. reflexivity.
Defined.

End LenientRuns.

(** ** slas_allof_processor.py: a run *)

Lemma write_file_names (dir : list file) (name : string) (content : json) :
  map fname (write_file dir name content) = map fname dir.
Proof.
  unfold write_file. rewrite map_map. apply map_ext_in. intros f _.
  destruct (String.eqb_spec (fname f) name) as [E | _]; [symmetry; exact E | reflexivity].
Qed.

Lemma write_file_other (dir : list file) (name : string) (content : json) (f : file) :
  In f dir -> fname f <> name -> In f (write_file dir name content).
Proof.
  intros Hin Hne. unfold write_file. apply in_map_iff. exists f.
  destruct (String.eqb_spec (fname f) name) as [E | _]; [contradiction |].
  split; [reflexivity | exact Hin].
Qed.

Section RunInvariants.

Context {L : Pylib}.

Lemma pass_files_names (idx : SchemaIndex) (strict : bool) (fs : list file) :
  forall (dir dir' : list file) (evs : list event) (raised : option exn),
    pass_files idx strict fs dir = (dir', evs, raised) ->
    Forall (fun f => Str.endswith (fname f) ".json" = true) fs ->
    map fname dir' = map fname dir
    /\ forall f, In f dir -> Str.endswith (fname f) ".json" = false -> In f dir'.
Proof.
  induction fs as [| f0 r IH]; intros dir dir' evs raised H HF; simpl in H.
  - injection H as <- _ _. split; [reflexivity | intros f Hf _; exact Hf].
  - destruct (process_file idx strict f0) as [[content evs0] | e];
      [| injection H as <- _ _; split; [reflexivity | intros f Hf _; exact Hf]].
    destruct (pass_files idx strict r
                match content with
                | Some c => write_file dir (fname f0) c
                | None => dir
                end) as [[dir2 evs2] raised2] eqn:Er.
    injection H as <- _ _. inversion HF as [| x l H0 Hr]; subst x l.
    destruct (IH _ _ _ _ Er Hr) as [Hn Ho]. destruct content as [c |].
    + split; [rewrite Hn; apply write_file_names |].
      intros f Hf Hj. apply Ho; [| exact Hj]. apply write_file_other; [exact Hf |].
      intros E. rewrite E, H0 in Hj. discriminate Hj.
    + split; assumption.
Qed.

Lemma collapse_pass_names (idx : SchemaIndex) (strict : bool)
  (dir dir' : list file) (evs : list event) (raised : option exn) :
  collapse_pass idx strict dir = (dir', evs, raised) ->
  map fname dir' = map fname dir
  /\ forall f, In f dir -> Str.endswith (fname f) ".json" = false -> In f dir'.
Proof.
  unfold collapse_pass. intros H. apply (pass_files_names _ _ _ _ _ _ _ H).
  apply Forall_forall. intros f Hf. apply (proj1 (sort_files_In _ _)) in Hf.
  unfold glob_json in Hf. apply filter_In in Hf. exact (proj2 Hf).
Qed.

Lemma iterate_names (strict : bool) (n : nat) :
  forall (idx : SchemaIndex) (dir : list file) (tracked : list InlineAllOfInfo)
         (warned : list warning) (total done : nat),
    map fname (run_dir (iterate n idx strict dir tracked warned total done))
    = map fname dir
    /\ forall f, In f dir -> Str.endswith (fname f) ".json" = false ->
                 In f (run_dir (iterate n idx strict dir tracked warned total done)).
Proof.
  induction n as [| n' IH]; intros idx dir tracked warned total done.
  - split; [reflexivity | intros f Hf _; exact Hf].
  - cbn [iterate].
    destruct (collapse_pass idx strict dir) as [[dir' evs] raised] eqn:Ep.
    destruct (collapse_pass_names _ _ _ _ _ _ Ep) as [Hn Ho].
    destruct raised as [e |]; [split; assumption |].
    destruct (iteration_collapsed evs =? 0)%nat; [split; assumption |].
    destruct (load (glob_json dir') (base_url idx)) as [idx1 | e]; [| split; assumption].
    destruct n' as [| n'']; [split; assumption |].
    destruct (IH idx1 dir' (tracked ++ inline_allofs evs)%list
                (warned ++ warnings evs)%list (total + iteration_collapsed evs)
                (S done)) as [Hn2 Ho2].
    split; [rewrite Hn2; exact Hn |].
    intros f Hf Hj. exact (Ho2 f (Ho f Hf Hj) Hj).
Qed.

(** X8: a run of the collapser neither adds nor removes a file, nor
    renames one, and it leaves every file whose name does not end with
    [.json] exactly as it was, however the run ends. *)
Theorem process_allof_collapse_files
  (dir : list file) (idx : SchemaIndex) (strict : bool) :
  map fname (run_dir (process_allof_collapse dir idx strict)) = map fname dir
  /\ forall f, In f dir -> Str.endswith (fname f) ".json" = false ->
               In f (run_dir (process_allof_collapse dir idx strict)).
Proof.
  unfold process_allof_collapse. apply iterate_names.
Qed.

Lemma iterate_passes (strict : bool) (n : nat) :
  forall (idx : SchemaIndex) (dir : list file) (tracked : list InlineAllOfInfo)
         (warned : list warning) (total done : nat),
    done <= total ->
    passes (iterate n idx strict dir tracked warned total done) <= done + n
    /\ (0 < n -> done < passes (iterate n idx strict dir tracked warned total done))
    /\ passes (iterate n idx strict dir tracked warned total done)
       <= total_collapsed (iterate n idx strict dir tracked warned total done) + 1
    /\ (run_ending (iterate n idx strict dir tracked warned total done)
        = Max_iterations_reached ->
        passes (iterate n idx strict dir tracked warned total done) = done + n).
Proof.
  induction n as [| n' IH]; intros idx dir tracked warned total done Hd.
  - cbn [iterate passes total_collapsed run_ending]. repeat split; try lia.
  - cbn [iterate].
    destruct (collapse_pass idx strict dir) as [[dir' evs] raised] eqn:Ep.
    destruct raised as [e |].
    { cbn [passes total_collapsed run_ending]. repeat split; try lia. discriminate. }
    destruct (iteration_collapsed evs =? 0)%nat eqn:Ez.
    { cbn [passes total_collapsed run_ending]. repeat split; try lia. discriminate. }
    apply Nat.eqb_neq in Ez.
    destruct (load (glob_json dir') (base_url idx)) as [idx1 | e].
    2: { cbn [passes total_collapsed run_ending]. repeat split; try lia. discriminate. }
    destruct n' as [| n''].
    { cbn [passes total_collapsed run_ending]. repeat split; lia. }
    assert (Hd' : S done <= total + iteration_collapsed evs) by lia.
    destruct (IH idx1 dir' (tracked ++ inline_allofs evs)%list
                (warned ++ warnings evs)%list (total + iteration_collapsed evs)
                (S done) Hd') as [H1 [H2 [H3 H4]]].
    assert (H0 : 0 < S n'') by lia. specialize (H2 H0).
    split; [lia |]. split; [intros _; lia |]. split; [lia |].
    intros He. rewrite (H4 He). lia.
Qed.

(** X9: a run makes at least one pass and at most ten; every pass but
    the last has collapsed a chain, so that the passes are at most one
    more than the chains collapsed; and a run that stops because the
    limit is reached has made ten passes. *)
Theorem process_allof_collapse_passes
  (dir : list file) (idx : SchemaIndex) (strict : bool) :
  1 <= passes (process_allof_collapse dir idx strict) <= 10
  /\ passes (process_allof_collapse dir idx strict)
     <= total_collapsed (process_allof_collapse dir idx strict) + 1
  /\ (run_ending (process_allof_collapse dir idx strict) = Max_iterations_reached ->
      passes (process_allof_collapse dir idx strict) = 10).
Proof.
  unfold process_allof_collapse, max_iterations.
  destruct (iterate_passes strict 10 idx dir [] [] 0 0 (le_n 0)) as [H1 [H2 [H3 H4]]].
  assert (H0 : 0 < 10) by lia. specialize (H2 H0).
  repeat split; try lia. exact H4.
Qed.

End RunInvariants.

(** ** validate_satisfiability *)

Lemma impossible_bounds_satisfiable (d : dict) :
  int_bounds d = true -> unsatisfiable d = false -> impossible_bounds d = Ok [].
Proof.
  unfold int_bounds, unsatisfiable, impossible_bounds, check_bounds, int_at.
  cbn [forallb]. intros Hi Hu.
  destruct (dict_get "minLength" d) as [[| | z1 | fl | | |] |]; try discriminate Hi;
  destruct (dict_get "maxLength" d) as [[| | z2 | fl | | |] |]; try discriminate Hi;
  destruct (dict_get "minimum" d) as [[| | z3 | fl | | |] |]; try discriminate Hi;
  destruct (dict_get "maximum" d) as [[| | z4 | fl | | |] |]; try discriminate Hi;
  destruct (dict_get "exclusiveMinimum" d) as [[| | z5 | fl | | |] |]; try discriminate Hi;
  destruct (dict_get "exclusiveMaximum" d) as [[| | z6 | fl | | |] |]; try discriminate Hi;
  cbn [bind Py.gt Py.ge Py.lt orb] in *;
  rewrite ?Z.leb_antisym in Hu;
  repeat match goal with
         | |- context [(?a <? ?b)%Z] => destruct (a <? b)%Z
         end;
  cbn [bind negb orb app] in *; try discriminate Hu; reflexivity.
Qed.

(** X10: on a node whose bounds are integers, [validate_satisfiability]
    accepts the node exactly when each of the three pairs of bounds is in
    order (minLength <= maxLength, minimum <= maximum,
    exclusiveMinimum < exclusiveMaximum); an inclusive bound is not
    compared with an exclusive one.  Otherwise strict mode raises
    [ValueError] and lenient mode returns with one warning of the same
    content. *)
Theorem validate_satisfiability_int_bounds (schema : dict) (json_ptr : string) :
  int_bounds schema = true ->
  if unsatisfiable schema
  then exists errs,
         errs <> []
         /\ validate_satisfiability schema json_ptr true
            = Raise (ValueError (MsgImpossible json_ptr errs))
         /\ validate_satisfiability schema json_ptr false
            = Ok [WarnImpossible (MsgImpossible json_ptr errs)]
  else forall strict, validate_satisfiability schema json_ptr strict = Ok [].
Proof.
  intros Hi. destruct (unsatisfiable schema) eqn:Hu.
  - destruct (impossible_bounds_unsatisfiable schema Hi Hu) as [errs [He Hne]].
    exists errs. split; [exact Hne |]. unfold validate_satisfiability. rewrite He.
    cbn [bind]. destruct errs as [| e r]; [contradiction |]. split; reflexivity.
  - intros strict. unfold validate_satisfiability.
    rewrite (impossible_bounds_satisfiable schema Hi Hu). reflexivity.
Qed.

Lemma validate_satisfiability_int_bounds_witness :
  validate_satisfiability
    [("type", JStr "number"); ("minimum", JInt 5); ("exclusiveMaximum", JInt 3)]
    "#/properties/n" true = Ok [].
Proof.
  exact (validate_satisfiability_int_bounds
           [("type", JStr "number"); ("minimum", JInt 5); ("exclusiveMaximum", JInt 3)]
           "#/properties/n" eq_refl true).
Defined.

(** ** slas_schema_index.py *)

Lemma rfc_escape_plain (t : string) :
  Str.mem "~"%char t = false -> Str.mem "/"%char t = false -> rfc_escape t = t.
Proof.
  induction t as [| c r IH]; [reflexivity |].
  cbn [Str.mem rfc_escape]. intros Ht Hs.
  apply orb_false_iff in Ht. destruct Ht as [Ht Htr].
  apply orb_false_iff in Hs. destruct Hs as [Hs Hsr].
  rewrite Ascii.eqb_sym in Ht. rewrite Ascii.eqb_sym in Hs.
  rewrite Ht, Hs, (IH Htr Hsr). reflexivity.
Qed.

Lemma digits_plain (s : string) (c : ascii) :
  Str.forallb Str.is_ascii_digit s = true -> Str.is_ascii_digit c = false ->
  Str.mem c s = false.
Proof.
  induction s as [| d r IH]; [reflexivity |].
  cbn [Str.forallb Str.mem]. intros H Hc.
  apply andb_true_iff in H. destruct H as [Hd Hr].
  rewrite (IH Hr Hc), orb_false_r.
  destruct (Ascii.eqb_spec c d) as [-> | _]; [| reflexivity].
  rewrite Hd in Hc. discriminate Hc.
Qed.

Lemma strip_minus_digits (s : string) :
  Str.forallb Str.is_ascii_digit s = true -> Py.strip (String "-" s) = String "-" s.
Proof.
  intros H. unfold Py.strip. cbn [Py.strip_left Py.isspace].
  replace (Py.isspace "-"%char) with false by reflexivity.
  cbn [Str.rev].
  assert (E : Py.strip_left (Str.rev s ++ "-") = Str.rev s ++ "-").
  { assert (Hr : Str.forallb Str.is_ascii_digit (Str.rev s) = true)
      by (rewrite forallb_rev; exact H).
    destruct (Str.rev s) as [| c r] eqn:Er; [reflexivity |].
    cbn [append Py.strip_left]. cbn [Str.forallb] in Hr.
    apply andb_true_iff in Hr. destruct Hr as [Hc _].
    rewrite (digit_not_space c Hc). reflexivity. }
  rewrite E. rewrite rev_snoc, rev_involutive. reflexivity.
Qed.

(** X11: [resolve_pointer] takes an index as Python does: a token [-k]
    on an array of [n] members, with [1 <= k <= n], designates the member
    at position [n - k] (RFC 6901 has no such token). *)
Theorem resolve_pointer_negative_index
  (a : addr) (l : list json) (s : string) (v : json) :
  s <> EmptyString ->
  Str.forallb Str.is_ascii_digit s = true ->
  1 <= decimal 0 s <= List.length l ->
  nth_error l (List.length l - decimal 0 s) = Some v ->
  resolve_pointer (mkNode a (JArr l)) ("/-" ++ s)
  = Ok (mkNode (child a [Idx (List.length l - decimal 0 s)]) v).
Proof.
  intros Hne Hd Hk Hv. unfold resolve_pointer, pointer_parts.
  cbn [append String.eqb Ascii.eqb Bool.eqb orb].
  unfold Str.startswith.
  replace (String.prefix "#" (String "/" (String "-" s))) with false by reflexivity.
  rewrite prefix_cons, prefix_empty, split_cons_sep. cbn [List.tl].
  assert (Hs : Str.mem "/"%char (String "-" s) = false).
  { cbn [Str.mem]. rewrite (digits_plain s "/" Hd) by reflexivity. reflexivity. }
  assert (Ht : Str.mem "~"%char (String "-" s) = false).
  { cbn [Str.mem]. rewrite (digits_plain s "~" Hd) by reflexivity. reflexivity. }
  rewrite (split_no_sep _ _ Hs). cbn [resolve_tokens n_val n_id].
  rewrite <- (rfc_escape_plain _ Ht Hs) at 1. rewrite unescape_rfc_escape.
  assert (Ei : Py.int (String "-" s) = Ok (- Z.of_nat (decimal 0 s))%Z).
  { unfold Py.int. rewrite (strip_minus_digits s Hd).
    cbn [Ascii.eqb Bool.eqb].
    destruct s as [| c r]; [contradiction |].
    cbn [Str.forallb] in Hd. apply andb_true_iff in Hd. destruct Hd as [Hc Hr].
    cbn [Py.digits]. rewrite Hc.
    change (0 * 10 + Str.digit_val c)%Z with (Str.digit_val c).
    unfold Str.digit_val.
    rewrite (digits_decimal r (nat_of_ascii c - 48) Hr). reflexivity. }
  rewrite Ei. cbn [bind].
  assert (El : Py.list_index l (- Z.of_nat (decimal 0 s)) = Ok v).
  { unfold Py.list_index.
    destruct (Z.ltb_spec (- Z.of_nat (decimal 0 s)) 0) as [_ | Hge]; [| lia].
    replace (- Z.of_nat (decimal 0 s) + Z.of_nat (List.length l))%Z
      with (Z.of_nat (List.length l - decimal 0 s)) by lia.
    destruct (Z.ltb_spec (Z.of_nat (List.length l - decimal 0 s)) 0) as [Hn | _]; [lia |].
    destruct (Z.leb_spec (Z.of_nat (List.length l))
                (Z.of_nat (List.length l - decimal 0 s))) as [Hn | _]; [lia |].
    cbn [orb]. rewrite Nat2Z.id, Hv. reflexivity. }
  rewrite El. cbn [bind].
  destruct (Z.ltb_spec (- Z.of_nat (decimal 0 s)) 0) as [_ | Hge]; [| lia].
  replace (Z.to_nat (- Z.of_nat (decimal 0 s) + Z.of_nat (List.length l)))
    with (List.length l - decimal 0 s) by lia.
  reflexivity.
Qed.

Lemma resolve_pointer_negative_index_witness :
  resolve_pointer (mkNode (0, []) (JArr [JStr "a"; JStr "b"; JStr "c"])) "/-1"
  = Ok (mkNode (0, [Idx 2]) (JStr "c")).
Proof.
  apply (resolve_pointer_negative_index (0, []) [JStr "a"; JStr "b"; JStr "c"] "1"
           (JStr "c")).
  - discriminate.
  - reflexivity.
  - simpl. lia.
  - reflexivity.
Defined.

Lemma split1_join (sep : ascii) (s a b : string) :
  Str.split1 sep s = Some (a, b) -> a ++ String sep b = s.
Proof.
  revert a. induction s as [| c r IH]; intros a H; cbn [Str.split1] in H;
    [discriminate H |].
  destruct (Ascii.eqb_spec c sep) as [-> | _].
  - injection H as <- <-. reflexivity.
  - destruct (Str.split1 sep r) as [[a' b'] |]; [| discriminate H].
    injection H as <- <-. cbn [append]. rewrite (IH a' eq_refl). reflexivity.
Qed.

Section ResolveRef.

Context {L : Pylib}.

(** X12: under the pseudo scheme, a reference that does not start with
    [#] or with a known scheme is taken as the name of a file beside the
    others: the result is [lithify:///] followed by the reference without
    its leading dots and slashes, fragment included.  A reference to a
    parent directory ([../types.json]) or to the current one
    ([./types.json]) thus names the same document as [types.json], and
    the document that holds the reference plays no part. *)
Theorem resolve_ref_relative (context_doc_uri r : string) :
  Str.startswith context_doc_uri "lithify:///" = true ->
  existsb (Str.startswith r) ref_prefixes = false ->
  resolve_ref (JStr r) context_doc_uri = Ok ("lithify:///" ++ Str.lstrip "./" r).
Proof.
  intros Hc Hp. unfold resolve_ref. rewrite Hc, Hp.
  destruct (Str.split1 "#"%char (Str.lstrip "./" r)) as [[path fragment] |] eqn:E;
    [| reflexivity].
  rewrite <- (split1_join _ _ _ _ E). reflexivity.
Qed.

End ResolveRef.

Section ResolveRefRuns.

#[local] Existing Instance cpython.

Lemma resolve_ref_relative_witness :
  resolve_ref (JStr "../common/types.json#/$defs/Id") "lithify:///user.json"
  = Ok "lithify:///common/types.json#/$defs/Id".
Proof.
  exact (resolve_ref_relative "lithify:///user.json" "../common/types.json#/$defs/Id"
           eq_refl eq_refl).
Defined.

End ResolveRefRuns.

(** ** slas_field_mapper.py *)

Lemma underscore_others_chars (s : string) :
  Str.forallb name_char (Sanitize.underscore_others s) = true.
Proof.
  induction s as [| c r IH]; [reflexivity |].
  cbn [Sanitize.underscore_others Str.forallb]. rewrite IH, andb_true_r.
  unfold name_char.
  destruct (Sanitize.is_lower c || Str.is_ascii_digit c || Ascii.eqb c "_"%char) eqn:E;
    [exact E | reflexivity].
Qed.

Lemma name_char_digit (c : ascii) :
  name_char c = true -> Str.isdigit_char c = Str.is_ascii_digit c.
Proof.
  unfold name_char, Str.isdigit_char, Sanitize.is_lower, CPython.is_lower,
    Str.is_ascii_digit. cbv zeta.
  destruct (Ascii.eqb_spec c "_"%char) as [-> | _]; [reflexivity |].
  rewrite orb_false_r. generalize (nat_of_ascii c). intros n H.
  destruct (Nat.eqb_spec n 178) as [-> | _]; [discriminate H |].
  destruct (Nat.eqb_spec n 179) as [-> | _]; [discriminate H |].
  destruct (Nat.eqb_spec n 185) as [-> | _]; [discriminate H |].
  rewrite !orb_false_r. reflexivity.
Qed.

Lemma sanitize_field_name_shape (name : string) :
  sanitize_field_name name <> EmptyString
  /\ Str.forallb name_char (sanitize_field_name name) = true
  /\ match sanitize_field_name name with
     | String c _ => Str.is_ascii_digit c = false
     | EmptyString => True
     end
  /\ ~ In (sanitize_field_name name) reserved_names.
Proof.
  unfold sanitize_field_name. cbv zeta.
  pose proof (underscore_others_chars
                (Sanitize.lower (Sanitize.split_camel false
                   (Sanitize.split_acronyms EmptyString name)))) as Hu.
  generalize dependent (Sanitize.underscore_others
                          (Sanitize.lower (Sanitize.split_camel false
                             (Sanitize.split_acronyms EmptyString name)))).
  intros u Hu.
  set (p := match u with
            | String c _ => if Str.isdigit_char c then "field_" ++ u else u
            | EmptyString => u
            end).
  assert (Hp : Str.forallb name_char p = true
               /\ match p with
                  | String c _ => Str.is_ascii_digit c = false
                  | EmptyString => True
                  end).
  { subst p. destruct u as [| c r]; [split; [reflexivity | exact I] |].
    pose proof Hu as Hc. cbn [Str.forallb] in Hc. apply andb_true_iff in Hc.
    destruct Hc as [Hc _]. rewrite (name_char_digit c Hc).
    destruct (Str.is_ascii_digit c) eqn:Ed.
    - split; [| reflexivity]. rewrite forallb_append, Hu. reflexivity.
    - split; [exact Hu | exact Ed]. }
  clearbody p. clear u Hu. destruct Hp as [Hp Hd].
  destruct (existsb (String.eqb p) reserved_names) eqn:Er.
  - fold reserved_names. rewrite Er.
    apply existsb_exists in Er. destruct Er as [x [Hx Ex]].
    apply String.eqb_eq in Ex. subst x.
    destruct Hx as [<- | [<- | [<- | [<- | [<- | [<- | []]]]]]]; cbn;
      (split; [discriminate |]; split; [reflexivity |]; split; [reflexivity |];
       intros [E | [E | [E | [E | [E | [E | []]]]]]]; discriminate E).
  - fold reserved_names. rewrite Er.
    destruct p as [| c r].
    + cbn. split; [discriminate |]. split; [reflexivity |]. split; [reflexivity |].
      intros [E | [E | [E | [E | [E | [E | []]]]]]]; discriminate E.
    + cbn [String.eqb]. split; [discriminate |]. split; [exact Hp |].
      split; [exact Hd |]. intros Hin.
      assert (Et : existsb (String.eqb (String c r)) reserved_names = true).
      { apply existsb_exists. exists (String c r). split; [exact Hin | apply String.eqb_refl]. }
      rewrite Et in Er. discriminate Er.
Qed.

(** X13: whatever the name of the property, [sanitize_field_name]
    returns a name that is not empty, is made of small letters, digits
    and [_] only, does not start with a digit, and is none of the six
    names the function reserves ([class], [def], [return], [from],
    [import], [type]). *)
Theorem sanitize_field_name_safe (name : string) :
  sanitize_field_name name <> EmptyString
  /\ Str.forallb name_char (sanitize_field_name name) = true
  /\ (forall c r, sanitize_field_name name = String c r -> Str.is_ascii_digit c = false)
  /\ existsb (String.eqb (sanitize_field_name name)) reserved_names = false.
Proof.
  destruct (sanitize_field_name_shape name) as [Hne [Hc [Hd Hr]]].
  split; [exact Hne |]. split; [exact Hc |]. split.
  - intros c r E. rewrite E in Hd. exact Hd.
  - destruct (existsb (String.eqb (sanitize_field_name name)) reserved_names) eqn:E;
      [| reflexivity].
    exfalso. apply Hr. apply existsb_exists in E. destruct E as [x [Hx Ex]].
    apply String.eqb_eq in Ex. subst x. exact Hx.
Qed.

Lemma name_char_not_upper (c : ascii) :
  name_char c = true -> Sanitize.is_upper c = false /\ Sanitize.lower_char c = c.
Proof.
  unfold name_char, Sanitize.lower_char, Sanitize.is_upper, Sanitize.is_lower,
    CPython.is_upper, CPython.is_lower, Str.is_ascii_digit. cbv zeta.
  destruct (Ascii.eqb_spec c "_"%char) as [-> | _]; [split; reflexivity |].
  rewrite orb_false_r. remember (nat_of_ascii c) as n eqn:En. clear En. intros H.
  assert (Hn : (97 <= n <= 122) \/ (48 <= n <= 57)).
  { apply orb_true_iff in H. destruct H as [H | H]; apply andb_true_iff in H;
      destruct H as [H1 H2]; apply Nat.leb_le in H1, H2; lia. }
  assert (Eu : ((65 <=? n) && (n <=? 90))%nat = false).
  { apply andb_false_iff. destruct (Nat.leb_spec n 90); [| right; reflexivity].
    left. apply Nat.leb_gt. lia. }
  assert (El : ((192 <=? n) && (n <=? 222) && negb (n =? 215))%nat = false).
  { destruct (Nat.leb_spec 192 n); [lia | reflexivity]. }
  rewrite Eu, El. split; reflexivity.
Qed.

Lemma split_acronyms_plain (s : string) :
  Str.forallb name_char s = true -> Sanitize.split_acronyms EmptyString s = s.
Proof.
  induction s as [| c r IH]; [reflexivity |].
  cbn [Str.forallb Sanitize.split_acronyms]. intros H.
  apply andb_true_iff in H. destruct H as [Hc Hr].
  rewrite (proj1 (name_char_not_upper c Hc)). cbn [String.length Nat.leb andb].
  rewrite andb_false_r, (IH Hr). reflexivity.
Qed.

Lemma split_camel_plain (s : string) (armed : bool) :
  Str.forallb name_char s = true -> Sanitize.split_camel armed s = s.
Proof.
  revert armed. induction s as [| c r IH]; intros armed; [reflexivity |].
  cbn [Str.forallb Sanitize.split_camel]. intros H.
  apply andb_true_iff in H. destruct H as [Hc Hr].
  rewrite (proj1 (name_char_not_upper c Hc)), andb_false_r, (IH _ Hr). reflexivity.
Qed.

Lemma lower_plain (s : string) :
  Str.forallb name_char s = true -> Sanitize.lower s = s.
Proof.
  induction s as [| c r IH]; [reflexivity |].
  cbn [Str.forallb Sanitize.lower]. intros H.
  apply andb_true_iff in H. destruct H as [Hc Hr].
  rewrite (proj2 (name_char_not_upper c Hc)), (IH Hr). reflexivity.
Qed.

Lemma underscore_others_plain (s : string) :
  Str.forallb name_char s = true -> Sanitize.underscore_others s = s.
Proof.
  induction s as [| c r IH]; [reflexivity |].
  cbn [Str.forallb Sanitize.underscore_others]. intros H.
  apply andb_true_iff in H. destruct H as [Hc Hr].
  unfold name_char in Hc. rewrite Hc, (IH Hr). reflexivity.
Qed.

(** X14: [sanitize_field_name] is idempotent: a name it has returned
    is returned as it is. *)
Theorem sanitize_field_name_idempotent (name : string) :
  sanitize_field_name (sanitize_field_name name) = sanitize_field_name name.
Proof.
  destruct (sanitize_field_name_shape name) as [Hne [Hc [Hd Hr]]].
  generalize dependent (sanitize_field_name name). intros r Hne Hc Hd Hr.
  unfold sanitize_field_name. cbv zeta.
  rewrite (split_acronyms_plain r Hc), (split_camel_plain r false Hc),
    (lower_plain r Hc), (underscore_others_plain r Hc).
  destruct r as [| c t]; [contradiction |].
  pose proof Hc as Hc1. cbn [Str.forallb] in Hc1. apply andb_true_iff in Hc1.
  rewrite (name_char_digit c (proj1 Hc1)), Hd.
  destruct (existsb (String.eqb (String c t))
              ["class"; "def"; "return"; "from"; "import"; "type"]) eqn:E.
  - exfalso. apply Hr. apply existsb_exists in E. destruct E as [x [Hx Ex]].
    apply String.eqb_eq in Ex. subst x. exact Hx.
  - reflexivity.
Qed.

Lemma smap_set_Forall {V : Type} (P : string * V -> Prop) (k : string) (v : V)
  (m : list (string * V)) :
  P (k, v) -> Forall P m -> Forall P (smap_set k v m).
Proof.
  intros Hv HF. induction m as [| [k' v'] r IH]; simpl.
  - constructor; [exact Hv | constructor].
  - inversion HF as [| x l Hx Hr]; subst x l.
    destruct (String.eqb k k'); constructor; auto.
Qed.

Lemma smap_get_In {V : Type} (k : string) (v : V) (m : list (string * V)) :
  smap_get k m = Some v -> In v (map snd m).
Proof.
  induction m as [| [k' v'] r IH]; simpl; intros H; [discriminate H |].
  destruct (String.eqb k k').
  - injection H as <-. left. reflexivity.
  - right. exact (IH H).
Qed.

Lemma smap_set_keys {V : Type} (k : string) (v : V) (m : list (string * V)) :
  NoDup (map fst m) -> NoDup (map fst (smap_set k v m)).
Proof.
  intros H. induction m as [| [k' v'] r IH]; simpl.
  - constructor; [intros [] | constructor].
  - cbn [map fst] in H. inversion H as [| x l Hn Hr]; subst x l.
    destruct (String.eqb_spec k k') as [-> | Hne]; cbn [map fst].
    + constructor; assumption.
    + constructor; [| exact (IH Hr)].
      intros Hin. apply Hn. clear - Hin Hne.
      induction r as [| [k0 v0] r IH]; simpl in *.
      * destruct Hin as [E | []]. contradiction.
      * destruct (String.eqb_spec k k0) as [-> | _]; simpl in Hin.
        -- destruct Hin as [E | Hin]; [contradiction | right; exact Hin].
        -- destruct Hin as [E | Hin]; [left; exact E | right; exact (IH Hin)].
Qed.

Lemma foldM_preserves_Forall {A St : Type} (f : St -> A -> res St) (P : St -> Prop)
  (Q : A -> Prop) (l : list A) (s s' : St) :
  Forall Q l ->
  (forall x s s', Q x -> f s x = Ok s' -> P s -> P s') ->
  foldM f s l = Ok s' -> P s -> P s'.
Proof.
  intros HQ Hstep. revert s. induction HQ as [| x r Hx _ IH]; intros s H Ps; simpl in H.
  - injection H as <-. exact Ps.
  - split_bind H as s1 H1. exact (IH s1 H (Hstep x s s1 Hx H1 Ps)).
Qed.

(** The names that [detect_ns_fields] returns end with [_ns]. *)
Lemma detect_ns_fields_names (schema : json) (names : list string) :
  detect_ns_fields schema = Ok names ->
  Forall (fun n => Str.endswith n "_ns" = true) names.
Proof.
  unfold detect_ns_fields. intros H. split_bind H as props Hp.
  destruct props as [| | | | | | items]; try discriminate H.
  - destruct schema; try (injection H as <-; constructor).
    destruct (dict_has "properties" fields); [discriminate H | injection H as <-; constructor].
  - refine (foldM_preserves _ (Forall (fun n => Str.endswith n "_ns" = true))
              _ _ _ _ H (Forall_nil _)).
    intros kv acc acc' Hs Ha.
    destruct (Str.endswith (fst kv) "_ns") eqn:En; [| injection Hs as <-; exact Ha].
    split_bind Hs as t Ht. destruct (Py.is_str t "string"); [| injection Hs as <-; exact Ha].
    split_bind Hs as pat Hpat. injection Hs as <-.
    destruct (Py.is_str pat "^[0-9]+$"); [| exact Ha].
    apply Forall_app. split; [exact Ha | constructor; [exact En | constructor]].
Qed.

Section FieldMapEntries.

Context {L : Pylib}.

Variable ref_map : list (string * string).
Variable package_name : string.

Lemma put_target_ok (fm fm' : field_map) (model : json) (field fqn s : string) :
  In s slots ->
  (In fqn (map snd ref_map) /\ fqn <> EmptyString
   /\ exists prop_name, field = sanitize_field_name prop_name)
  \/ (fqn = package_name ++ ".common_types.NsInt" /\ s = "self"
      /\ Str.endswith field "_ns" = true) ->
  put_target fm model field fqn s = Ok fm' ->
  (entries_ok ref_map package_name) fm -> (entries_ok ref_map package_name) fm'.
Proof.
  unfold put_target. intros Hs Hf H [HF HN]. split_bind H as key Hk. injection H as <-.
  split; [| apply smap_set_keys; exact HN].
  apply smap_set_Forall; [| exact HF].
  split; [exact Hk |]. split; [exact Hs | exact Hf].
Qed.

Lemma find_refs_recursive_ok (idx : SchemaIndex) (doc_uri : string) (model : json)
  (prop_name : string) (sub : json) :
  forall (a : addr) (s : string) (fm fm' : field_map),
    In s slots ->
    find_refs_recursive idx ref_map doc_uri model sub a prop_name s fm = Ok fm' ->
    (entries_ok ref_map package_name) fm -> (entries_ok ref_map package_name) fm'.
Proof.
  induction sub as [| b | n | fl | x | l IH | d IH] using json_ind_members;
    intros a s fm fm' Hs H Hok; try (injection H as <-; exact Hok).
  rewrite find_refs_recursive_obj in H. cbv zeta in H.
  assert (Hval : forall key v, dict_get key d = Some v ->
             members_hold
               (fun sub => forall a s fm fm', In s slots ->
                  find_refs_recursive idx ref_map doc_uri model sub a prop_name s fm
                  = Ok fm' -> (entries_ok ref_map package_name) fm -> (entries_ok ref_map package_name) fm') v).
  { intros key v E.
    exact (dict_get_Forall
             (members_hold
                (fun sub => forall a s fm fm', In s slots ->
                   find_refs_recursive idx ref_map doc_uri model sub a prop_name s fm
                   = Ok fm' -> (entries_ok ref_map package_name) fm -> (entries_ok ref_map package_name) fm')) d key v IH E). }
  clear IH.
  assert (Hunion : forall key m m',
             match dict_get key d with
             | Some (JArr l) =>
                 fold_elems (fun i item fm =>
                   find_refs_recursive idx ref_map doc_uri model item
                     (child a [Key key; Idx i]) prop_name "union_member" fm) l 0 m
             | _ => Ok m
             end = Ok m' -> (entries_ok ref_map package_name) m -> (entries_ok ref_map package_name) m').
  { intros key m m' Hu Hm. destruct (dict_get key d) as [v |] eqn:E;
      [| injection Hu as <-; exact Hm].
    destruct (Hval key v E) as [_ Hv].
    destruct v; try (injection Hu as <-; exact Hm).
    revert Hu Hm. apply (fold_elems_preserves (entries_ok ref_map package_name)).
    revert Hv. apply Forall_impl. intros x Hx i m0 m1 H0.
    refine (Hx _ _ _ _ _ H0). unfold slots. simpl. tauto. }
  split_bind H as fm0 H0. split_bind H as fm1 H1. split_bind H as fm2 H2.
  split_bind H as fm3 H3. split_bind H as fm4 H4. split_bind H as fm5 H5.
  injection H as <-.
  apply (Hunion _ _ _ H5). apply (Hunion _ _ _ H4). apply (Hunion _ _ _ H3).
  assert (E0 : (entries_ok ref_map package_name) fm0).
  { destruct (dict_get "$ref" d) as [ref |]; [| injection H0 as <-; exact Hok].
    split_bind H0 as full_uri Hu.
    destruct (smap_get full_uri ref_map) as [fqn |] eqn:Eg;
      [| injection H0 as <-; exact Hok].
    destruct (String.eqb_spec fqn EmptyString) as [-> | Hne]; cbn [negb] in H0;
      [injection H0 as <-; exact Hok |].
    refine (put_target_ok _ _ _ _ _ _ Hs _ H0 Hok).
    left. split; [exact (smap_get_In _ _ _ Eg) |].
    split; [exact Hne | exists prop_name; reflexivity]. }
  assert (E1 : (entries_ok ref_map package_name) fm1).
  { destruct (dict_get "items" d) as [v |] eqn:E; [| injection H1 as <-; exact E0].
    refine (proj1 (Hval _ v E) _ _ _ _ _ H1 E0). unfold slots. simpl. tauto. }
  destruct (dict_get "additionalProperties" d) as [v |] eqn:E;
    [| injection H2 as <-; exact E1].
  refine (proj1 (Hval _ v E) _ _ _ _ _ H2 E1). unfold slots. simpl. tauto.
Qed.

Lemma map_property_ok (idx : SchemaIndex) (doc_uri : string) (model : json) (a : addr)
  (prop : string * json) (fm fm' : field_map) :
  (forall fqn, smap_get ("#/properties/" ++ fst prop) ref_map = Some fqn ->
               fqn <> EmptyString) ->
  map_property idx ref_map doc_uri model a fm prop = Ok fm' ->
  (entries_ok ref_map package_name) fm -> (entries_ok ref_map package_name) fm'.
Proof.
  destruct prop as [prop_name prop_schema]. unfold map_property. cbn [fst].
  intros Hd H Hok.
  destruct (smap_get ("#/properties/" ++ prop_name) ref_map) as [fqn |] eqn:E.
  - refine (put_target_ok _ _ _ _ _ _ (or_introl eq_refl) _ H Hok).
    left. split; [exact (smap_get_In _ _ _ E) |].
    split; [exact (Hd fqn eq_refl) | exists prop_name; reflexivity].
  - exact (find_refs_recursive_ok _ _ _ _ _ _ _ _ _ (or_introl eq_refl) H Hok).
Qed.

(** The names that [detect_ns_fields] returns are those of properties of
    the schema. *)
Lemma detect_ns_fields_from (schema : json) (names : list string) :
  detect_ns_fields schema = Ok names -> Forall (ns_field schema) names.
Proof.
  unfold detect_ns_fields. intros H. split_bind H as props Hp.
  destruct props as [| | | | | | items]; try discriminate H.
  - destruct schema; try (injection H as <-; constructor).
    destruct (dict_has "properties" fields); [discriminate H | injection H as <-; constructor].
  - refine (foldM_preserves_Forall _ (Forall (ns_field schema)) (fun kv => In kv items)
              _ _ _ (proj2 (Forall_forall _ items) (fun x Hx => Hx)) _ H (Forall_nil _)).
    intros [name sub] acc acc' Hin Hs Ha. cbn [fst snd] in Hs.
    destruct (Str.endswith name "_ns") eqn:En; [| injection Hs as <-; exact Ha].
    split_bind Hs as t Ht. destruct (Py.is_str t "string") eqn:Et;
      [| injection Hs as <-; exact Ha].
    split_bind Hs as pat Hpat. injection Hs as <-.
    destruct (Py.is_str pat "^[0-9]+$") eqn:Epat; [| exact Ha].
    apply Forall_app. split; [exact Ha |]. constructor; [| constructor].
    exists items, sub, t, pat. repeat split; assumption.
Qed.

(** [find_refs_recursive] below the schema [root] of a property: what
    holds of the map after every entry put for a reference found in
    [root] holds of the map it returns. *)
Lemma find_refs_recursive_from (idx : SchemaIndex) (doc_uri : string) (model : json)
  (prop_name : string) (root : json) (a0 : addr) (Inv : field_map -> Prop) :
  (forall fm fm' full_uri fqn s,
      found_ref idx doc_uri root a0 "self" full_uri s ->
      smap_get full_uri ref_map = Some fqn ->
      put_target fm model (sanitize_field_name prop_name) fqn s = Ok fm' ->
      Inv fm -> Inv fm') ->
  forall (sub : json) (a : addr) (s : string) (fm fm' : field_map),
    (forall full_uri s', found_ref idx doc_uri sub a s full_uri s' ->
                         found_ref idx doc_uri root a0 "self" full_uri s') ->
    find_refs_recursive idx ref_map doc_uri model sub a prop_name s fm = Ok fm' ->
    Inv fm -> Inv fm'.
Proof.
  intros Hput sub.
  induction sub as [| b | n | fl | x | l IH | d IH] using json_ind_members;
    intros a s fm fm' Hup H Hok; try (injection H as <-; exact Hok).
  rewrite find_refs_recursive_obj in H. cbv zeta in H.
  assert (Hval : forall key v, dict_get key d = Some v ->
             members_hold
               (fun sub => forall a s fm fm',
                  (forall full_uri s', found_ref idx doc_uri sub a s full_uri s' ->
                                       found_ref idx doc_uri root a0 "self" full_uri s') ->
                  find_refs_recursive idx ref_map doc_uri model sub a prop_name s fm
                  = Ok fm' -> Inv fm -> Inv fm') v).
  { intros key v E.
    exact (dict_get_Forall
             (members_hold
                (fun sub => forall a s fm fm',
                   (forall full_uri s', found_ref idx doc_uri sub a s full_uri s' ->
                                        found_ref idx doc_uri root a0 "self" full_uri s') ->
                   find_refs_recursive idx ref_map doc_uri model sub a prop_name s fm
                   = Ok fm' -> Inv fm -> Inv fm')) d key v IH E). }
  clear IH.
  assert (Helems : forall key l0 (l1 : list json) i m m',
             In key ["oneOf"; "anyOf"; "allOf"] ->
             dict_get key d = Some (JArr l0) ->
             (forall j item, nth_error l1 j = Some item ->
                             nth_error l0 (i + j) = Some item) ->
             Forall (fun sub => forall a s fm fm',
                  (forall full_uri s', found_ref idx doc_uri sub a s full_uri s' ->
                                       found_ref idx doc_uri root a0 "self" full_uri s') ->
                  find_refs_recursive idx ref_map doc_uri model sub a prop_name s fm
                  = Ok fm' -> Inv fm -> Inv fm') l1 ->
             fold_elems (fun i item fm =>
               find_refs_recursive idx ref_map doc_uri model item
                 (child a [Key key; Idx i]) prop_name "union_member" fm) l1 i m = Ok m' ->
             Inv m -> Inv m').
  { intros key l0 l1. induction l1 as [| item r IHr]; intros i m m' Hk E Hnth HF Hu Hm;
      simpl in Hu.
    - injection Hu as <-. exact Hm.
    - split_bind Hu as m1 H1. inversion HF as [| x0 r0 Hx Hr]; subst x0 r0.
      refine (IHr (S i) m1 m' Hk E _ Hr Hu _).
      + intros j it Hj. replace (S i + j) with (i + S j) by lia. exact (Hnth (S j) it Hj).
      + refine (Hx _ _ _ _ _ H1 Hm). intros full_uri s' Hf. apply Hup.
        apply (found_union idx doc_uri d a s key l0 i item full_uri s' Hk E); [| exact Hf].
        rewrite <- (Nat.add_0_r i). exact (Hnth 0 item eq_refl). }
  assert (Hunion : forall key m m',
             In key ["oneOf"; "anyOf"; "allOf"] ->
             match dict_get key d with
             | Some (JArr l) =>
                 fold_elems (fun i item fm =>
                   find_refs_recursive idx ref_map doc_uri model item
                     (child a [Key key; Idx i]) prop_name "union_member" fm) l 0 m
             | _ => Ok m
             end = Ok m' -> Inv m -> Inv m').
  { intros key m m' Hk Hu Hm. destruct (dict_get key d) as [v |] eqn:E;
      [| injection Hu as <-; exact Hm].
    destruct (Hval key v E) as [_ Hv].
    destruct v as [| | | | | l0 |]; try (injection Hu as <-; exact Hm).
    exact (Helems key l0 l0 0 m m' Hk E (fun j item Hj => Hj) Hv Hu Hm). }
  split_bind H as fm0 H0. split_bind H as fm1 H1. split_bind H as fm2 H2.
  split_bind H as fm3 H3. split_bind H as fm4 H4. split_bind H as fm5 H5.
  injection H as <-.
  refine (Hunion "allOf" _ _ _ H5 _); [simpl; tauto |].
  refine (Hunion "anyOf" _ _ _ H4 _); [simpl; tauto |].
  refine (Hunion "oneOf" _ _ _ H3 _); [simpl; tauto |].
  assert (E0 : Inv fm0).
  { destruct (dict_get "$ref" d) as [ref |] eqn:Er; [| injection H0 as <-; exact Hok].
    split_bind H0 as full_uri Hu.
    destruct (smap_get full_uri ref_map) as [fqn |] eqn:Eg;
      [| injection H0 as <-; exact Hok].
    destruct (String.eqb fqn EmptyString); cbn [negb] in H0;
      [injection H0 as <-; exact Hok |].
    refine (Hput _ _ full_uri fqn s _ Eg H0 Hok).
    apply Hup. exact (found_here idx doc_uri d a s ref full_uri Er Hu). }
  assert (E1 : Inv fm1).
  { destruct (dict_get "items" d) as [v |] eqn:E; [| injection H1 as <-; exact E0].
    refine (proj1 (Hval _ v E) _ _ _ _ _ H1 E0).
    intros full_uri s' Hf. apply Hup.
    exact (found_items idx doc_uri d a s v full_uri s' E Hf). }
  destruct (dict_get "additionalProperties" d) as [v |] eqn:E;
    [| injection H2 as <-; exact E1].
  refine (proj1 (Hval _ v E) _ _ _ _ _ H2 E1).
  intros full_uri s' Hf. apply Hup.
  exact (found_additional idx doc_uri d a s v full_uri s' E Hf).
Qed.

(** An entry put in the map comes from where the entry put says. *)
Lemma put_target_from (idx : SchemaIndex) (json_dir : list file)
  (fm fm' : field_map) (model : json) (field fqn s : string) :
  (forall key, target_from idx ref_map json_dir package_name
                 (key, mkFieldTarget model field fqn s)) ->
  put_target fm model field fqn s = Ok fm' ->
  Forall (target_from idx ref_map json_dir package_name) fm ->
  Forall (target_from idx ref_map json_dir package_name) fm'.
Proof.
  unfold put_target. intros Hf H HF. split_bind H as key Hk. injection H as <-.
  apply smap_set_Forall; [exact (Hf key) | exact HF].
Qed.

(** Every entry of the field map comes from a property of a document of
    the index, or from an NsInt field of a file of the directory. *)
Lemma build_field_map_from (idx : SchemaIndex) (json_dir : list file)
  (fm : field_map) :
  build_field_map idx ref_map json_dir package_name = Ok fm ->
  Forall (target_from idx ref_map json_dir package_name) fm.
Proof.
  intros H. unfold build_field_map in H. split_bind H as fm1 Hd.
  assert (E1 : Forall (target_from idx ref_map json_dir package_name) fm1).
  { refine (foldM_preserves_Forall (map_document idx ref_map)
              (Forall (target_from idx ref_map json_dir package_name))
              (fun d => In d (docs idx)) _ _ _
              (proj2 (Forall_forall _ (docs idx)) (fun x Hx => Hx)) _ Hd (Forall_nil _)).
    intros [doc_uri doc] m m' Hdoc Hm Hok. unfold map_document in Hm.
    destruct (n_val doc) as [| | | | | | fields] eqn:Ev; try (injection Hm as <-; exact Hok).
    destruct (negb (dict_has "properties" fields)
              && negb (dict_has "patternProperties" fields));
      [injection Hm as <-; exact Hok |].
    split_bind Hm as model Hmo.
    destruct (dict_get "properties" fields) as [[| | | | | | props] |] eqn:Ep;
      try discriminate Hm; [| injection Hm as <-; exact Hok].
    refine (foldM_preserves_Forall _
              (Forall (target_from idx ref_map json_dir package_name))
              (fun p => In p props) _ _ _
              (proj2 (Forall_forall _ props) (fun x Hx => Hx)) _ Hm Hok).
    intros [prop_name prop_schema] m0 m1 Hprop Hp Hok0. unfold map_property in Hp.
    destruct (smap_get ("#/properties/" ++ prop_name) ref_map) as [fqn |] eqn:E.
    - refine (put_target_from idx json_dir _ _ _ _ _ _ _ Hp Hok0).
      intros key. left.
      exists doc_uri, doc, fields, props, prop_name, prop_schema. cbn [snd model_name
        field_name target_fqn slot]. rewrite E. repeat split; assumption.
    - refine (find_refs_recursive_from idx doc_uri model prop_name prop_schema
                (child (n_id doc) [Key "properties"; Key prop_name])
                (Forall (target_from idx ref_map json_dir package_name))
                _ prop_schema _ "self" m0 m1 (fun _ _ Hf => Hf) Hp Hok0).
      intros fm0 fm' full_uri fqn s Hf Hg Hput.
      refine (put_target_from idx json_dir fm0 fm' model _ fqn s _ Hput).
      intros key. left.
      exists doc_uri, doc, fields, props, prop_name, prop_schema. cbn [snd model_name
        field_name target_fqn slot]. rewrite E.
      repeat split; try assumption. exists full_uri. split; assumption. }
  refine (foldM_preserves_Forall (map_ns_fields idx package_name)
            (Forall (target_from idx ref_map json_dir package_name))
            (fun f => In f (sort_files (glob_json json_dir))) _ _ _
            (proj2 (Forall_forall _ _) (fun x Hx => Hx)) _ H E1).
  intros f m m' Hf Hm Hok. unfold map_ns_fields in Hm.
  apply (proj1 (sort_files_In _ _)) in Hf. unfold glob_json in Hf.
  apply (proj1 (filter_In _ _ _)) in Hf.
  destruct Hf as [Hf Hjson].
  destruct (fcontent f) as [schema |] eqn:Ec; [| discriminate Hm].
  split_bind Hm as titled Ht. destruct titled; cbn [negb] in Hm;
    [| injection Hm as <-; exact Hok].
  split_bind Hm as title Hti. split_bind Hm as class_name Hc.
  split_bind Hm as names Hn.
  refine (foldM_preserves_Forall _
            (Forall (target_from idx ref_map json_dir package_name)) _ _ _ _
            (detect_ns_fields_from _ _ Hn) _ Hm Hok).
  intros n m0 m1 Hns Hp. refine (put_target_from idx json_dir _ _ _ _ _ _ _ Hp).
  intros key. right. exists f, schema, title. cbn [snd model_name field_name target_fqn slot].
  repeat split; assumption.
Qed.

(** X15: when no alias of the alias map is the empty string, every
    entry of the field map that [build_field_map] returns is keyed by
    [<model>.<field>] of its own target and has one of the four slots,
    and no key occurs twice.  Every entry comes from the documents:
    either from a property of a document of the index that has
    [properties], the model being the name of that document and the
    field the sanitized name of the property, with the alias that the
    alias map holds for [#/properties/<name>] and the slot [self], or,
    when the map holds none, with the alias it holds for a reference that
    [find_refs_recursive] finds in the schema of the property, joined to
    the base URI of its node, and the slot of the place where it is
    found; or from a property of a titled file of the directory whose
    name ends with [_ns], of type [string] and with the pattern of the
    digits, the model being the title of the file or its override, the
    field the name of the property as the file has it, the alias the
    NsInt codec of the package and the slot [self]. *)
Theorem build_field_map_entries (idx : SchemaIndex) (json_dir : list file)
  (fm : field_map) :
  Forall (fun kv => snd kv <> EmptyString) ref_map ->
  build_field_map idx ref_map json_dir package_name = Ok fm ->
  Forall (target_ok ref_map package_name) fm
  /\ Forall (target_from idx ref_map json_dir package_name) fm
  /\ NoDup (map fst fm).
Proof.
  intros Hne H.
  assert (Hfrom := build_field_map_from idx json_dir fm H).
  cut (entries_ok ref_map package_name fm).
  { intros [HF HN]. split; [exact HF |]. split; [exact Hfrom | exact HN]. }
  clear Hfrom.
  unfold build_field_map in H. split_bind H as fm1 Hd.
  assert (Hfqn : forall k fqn, smap_get k ref_map = Some fqn -> fqn <> EmptyString).
  { intros k fqn Hg. clear - Hne Hg.
    induction Hne as [| [k' v'] r Hx _ IH]; simpl in Hg; [discriminate Hg |].
    destruct (String.eqb k k'); [injection Hg as <-; exact Hx | exact (IH Hg)]. }
  assert (E1 : (entries_ok ref_map package_name) fm1).
  { revert Hd. intros Hd.
    refine (foldM_preserves (map_document idx ref_map) (entries_ok ref_map package_name) _ _ _ _ Hd _).
    - intros [doc_uri doc] m m' Hm Hok. unfold map_document in Hm.
      destruct (n_val doc) as [| | | | | | fields]; try (injection Hm as <-; exact Hok).
      destruct (negb (dict_has "properties" fields)
                && negb (dict_has "patternProperties" fields));
        [injection Hm as <-; exact Hok |].
      split_bind Hm as model Hmo.
      destruct (dict_get "properties" fields) as [[| | | | | | props] |];
        try discriminate Hm; [| injection Hm as <-; exact Hok].
      refine (foldM_preserves _ (entries_ok ref_map package_name) _ _ _ _ Hm Hok).
      intros prop m0 m1 Hp. apply (map_property_ok _ _ _ _ _ _ _ (Hfqn _) Hp).
    - split; constructor. }
  refine (foldM_preserves (map_ns_fields idx package_name) (entries_ok ref_map package_name) _ _ _ _ H E1).
  intros f m m' Hm Hok. unfold map_ns_fields in Hm.
  destruct (fcontent f) as [schema |]; [| discriminate Hm].
  split_bind Hm as titled Ht. destruct titled; cbn [negb] in Hm;
    [| injection Hm as <-; exact Hok].
  split_bind Hm as title Hti. split_bind Hm as class_name Hc.
  split_bind Hm as names Hn.
  refine (foldM_preserves_Forall _ (entries_ok ref_map package_name) _ _ _ _
            (detect_ns_fields_names _ _ Hn) _ Hm Hok).
  intros n m0 m1 Hns Hp. refine (put_target_ok _ _ _ _ _ _ (or_introl eq_refl) _ Hp).
  right. split; [reflexivity |]. split; [reflexivity | exact Hns].
Qed.

End FieldMapEntries.

Section FieldMapRuns.

#[local] Existing Instance cpython.

Lemma build_field_map_entries_witness :
  Forall (fun kv : string * string => snd kv <> EmptyString) Examples.ledger_ref_map
  /\ build_field_map Examples.ledger_index Examples.ledger_ref_map Examples.ledger_files
       "pkg" = Ok Examples.ledger_field_map
  /\ Forall (target_ok Examples.ledger_ref_map "pkg") Examples.ledger_field_map
  /\ Forall (target_from Examples.ledger_index Examples.ledger_ref_map
               Examples.ledger_files "pkg") Examples.ledger_field_map
  /\ NoDup (map fst Examples.ledger_field_map).
Proof.
  assert (Hne : Forall (fun kv : string * string => snd kv <> EmptyString)
                  Examples.ledger_ref_map)
    by (repeat constructor; discriminate).
  split; [exact Hne |].
  split; [vm_compute; reflexivity |].
  apply (build_field_map_entries Examples.ledger_ref_map "pkg" Examples.ledger_index
           Examples.ledger_files Examples.ledger_field_map Hne).
  vm_compute. reflexivity.
Defined.

End FieldMapRuns.

(** ** slas_alias_generator.py and the documents of a nested [$id] *)

Lemma foldM_step_returns {A St : Type} (f : St -> A -> res St) (l : list A) (x : A) :
  forall s s', foldM f s l = Ok s' -> In x l -> exists s1 s2, f s1 x = Ok s2.
Proof.
  induction l as [| y r IH]; intros s s' H Hin; [destruct Hin |].
  simpl in H. split_bind H as s1 H1. destruct Hin as [-> | Hin].
  - exists s, s1. exact H1.
  - exact (IH s1 s' H Hin).
Qed.

Lemma smap_get_key {V : Type} (k : string) (m : list (string * V)) :
  In k (map fst m) -> exists v, smap_get k m = Some v.
Proof.
  induction m as [| [k' v'] r IH]; simpl; intros H; [destruct H |].
  destruct (String.eqb_spec k k') as [-> | Hne]; [exists v'; reflexivity |].
  destruct H as [E | H]; [symmetry in E; contradiction | exact (IH H)].
Qed.

Section NestedDocuments.

Context {L : Pylib}.

(** X16: [emit_alias_modules] asks [exportables] for every URI of
    [index.docs], and [exportables] reads the file of the document in
    [origin_files].  When the index holds a document that no file was
    recorded for, as [_index_tree] makes one for a nested [$id],
    [emit_alias_modules] raises and returns no alias map. *)
Theorem emit_alias_modules_needs_origin
  (idx : SchemaIndex) (package_name doc_uri : string) :
  In doc_uri (map fst (docs idx)) ->
  smap_get doc_uri (origin_files idx) = None ->
  exists e, emit_alias_modules idx package_name = Raise e.
Proof.
  intros Hin Ho.
  destruct (emit_alias_modules idx package_name) as [r | e] eqn:E; [| exists e; reflexivity].
  exfalso. unfold emit_alias_modules in E. split_bind E as bm Hbm. clear E.
  unfold aliases_by_module in Hbm. split_bind Hbm as refs Hr.
  destruct (foldM_step_returns _ _ doc_uri _ _ Hbm Hin) as [s1 [s2 Hs]].
  unfold export_doc in Hs. split_bind Hs as exports He.
  unfold exportables in He.
  destruct (smap_get_key _ _ Hin) as [doc Hd]. rewrite Hd, Ho in He. discriminate He.
Qed.

End NestedDocuments.

Section NestedDocumentRuns.

#[local] Existing Instance cpython.

Lemma emit_alias_modules_needs_origin_witness :
  load Examples.nested_files None = Ok Examples.nested_index
  /\ In "http://example.com/sub/" (map fst (docs Examples.nested_index))
  /\ exists e, emit_alias_modules Examples.nested_index "pkg" = Raise e.
Proof.
  split; [vm_compute; reflexivity |].
  assert (Hin : In "http://example.com/sub/" (map fst (docs Examples.nested_index)))
    by (vm_compute; tauto).
  split; [exact Hin |].
  apply (emit_alias_modules_needs_origin Examples.nested_index "pkg"
           "http://example.com/sub/" Hin).
  vm_compute. reflexivity.
Defined.

End NestedDocumentRuns.

(** ** slas_classifier.py: union_scalar_pattern *)

Lemma substring_append (s t : string) : String.substring 0 (String.length s) (s ++ t) = s.
Proof.
  induction s as [| c r IH]; simpl.
  - destruct t; reflexivity.
  - rewrite IH. reflexivity.
Qed.

Lemma length_snoc (s : string) (c : ascii) :
  String.length (s ++ String c EmptyString) = S (String.length s).
Proof. induction s as [| d r IH]; simpl; [reflexivity | rewrite IH; reflexivity]. Qed.

Lemma rev_append_char (s : string) (c : ascii) :
  Str.rev (s ++ String c EmptyString) = String c (Str.rev s).
Proof.
  induction s as [| d r IH]; simpl; [reflexivity |]. rewrite IH. reflexivity.
Qed.

Lemma strip_anchors_anchored (body : string) : strip_anchors ("^" ++ body ++ "$") = body.
Proof.
  unfold strip_anchors, Str.startswith, Str.endswith, Str.slice.
  cbn [append]. rewrite prefix_cons, prefix_empty. cbn [Str.drop].
  rewrite rev_append_char. cbn [Str.rev append].
  rewrite prefix_cons, prefix_empty, length_snoc.
  replace (S (String.length body) - 1 - 0)%nat with (String.length body) by lia.
  apply substring_append.
Qed.

Lemma branch_patterns_of (branches : list json) (pats : list string) :
  Forall2 pattern_branch branches pats ->
  branch_patterns branches = Ok (Some (map strip_anchors pats)).
Proof.
  induction 1 as [| b p bs ps [Hs [d [-> Hp]]] _ IH]; [reflexivity |].
  cbn [branch_patterns]. rewrite Hs. cbn [negb Py.contains bind].
  unfold dict_has. rewrite Hp. cbn [Py.getitem bind]. rewrite Hp, IH. reflexivity.
Qed.

(** X17: when every branch is a scalar string whose pattern is
    [^body$], [union_scalar_pattern] returns the alternation of the
    bodies, in the order of the branches, between one pair of anchors. *)
Theorem union_scalar_pattern_anchored (branches : list json) (bodies : list string) :
  bodies <> [] ->
  Forall2 (fun branch body => pattern_branch branch ("^" ++ body ++ "$")) branches bodies ->
  union_scalar_pattern branches
  = Ok (Some ("^(?:" ++ Str.join "|" bodies ++ ")$")).
Proof.
  intros Hne HF. unfold union_scalar_pattern.
  assert (H : Forall2 pattern_branch branches (map (fun b => "^" ++ b ++ "$") bodies)).
  { clear Hne. induction HF; simpl; constructor; assumption. }
  rewrite (branch_patterns_of _ _ H). cbn [bind]. rewrite map_map.
  rewrite (map_ext _ (fun b => b) strip_anchors_anchored), map_id.
  destruct bodies; [contradiction | reflexivity].
Qed.

Lemma union_scalar_pattern_anchored_witness :
  union_scalar_pattern
    [JObj [("type", JStr "string"); ("pattern", JStr "^[a-z]+$")];
     JObj [("type", JStr "string"); ("pattern", JStr "^[0-9]{3}$"); ("maxLength", JInt 3)]]
  = Ok (Some "^(?:[a-z]+|[0-9]{3})$").
Proof.
  apply (union_scalar_pattern_anchored _ ["[a-z]+"; "[0-9]{3}"]); [discriminate |].
  repeat constructor; eexists; split; reflexivity.
Defined.

(** X18: [union_scalar_pattern] returns a pattern exactly when there is
    a branch and every branch is a scalar string that has a pattern, a
    string.  A [oneOf] that [is_union_of_scalar_str] accepts because one
    branch has a pattern, while another has only a format or a length,
    gets none. *)
Theorem union_scalar_pattern_returns (branches : list json) :
  (exists p, union_scalar_pattern branches = Ok (Some p))
  <-> branches <> []
      /\ Forall (fun branch => exists pat, pattern_branch branch pat) branches.
Proof.
  split.
  - intros [p H]. unfold union_scalar_pattern in H. split_bind H as ps Hps.
    assert (Hall : forall bs ps, branch_patterns bs = Ok (Some ps) ->
              List.length ps = List.length bs
              /\ Forall (fun branch => exists pat, pattern_branch branch pat) bs).
    { clear. induction bs as [| b r IH]; intros ps H; cbn [branch_patterns] in H.
      - injection H as <-. split; [reflexivity | constructor].
      - destruct (is_scalar_str b) eqn:Hs; cbn [negb] in H; [| discriminate H].
        split_bind H as has Hh. destruct has; [| discriminate H].
        split_bind H as pat Hp. destruct pat as [| | | fl | pat | |]; try discriminate H.
        split_bind H as rest Hr. destruct rest as [rest |]; [| discriminate H].
        injection H as <-. destruct (IH rest Hr) as [Hl HF].
        split; [simpl; rewrite Hl; reflexivity |].
        constructor; [| exact HF]. exists pat. split; [exact Hs |].
        destruct b as [| | | | | | d]; try discriminate Hp. exists d.
        split; [reflexivity |]. cbn [Py.getitem] in Hp.
        destruct (dict_get "pattern" d); [injection Hp as ->; reflexivity | discriminate Hp]. }
    destruct ps as [[| p0 r] |]; try discriminate H.
    destruct (Hall _ _ Hps) as [Hl HF]. split; [| exact HF].
    intros ->. discriminate Hl.
  - intros [Hne HF].
    assert (Hex : exists pats, Forall2 pattern_branch branches pats).
    { clear Hne. induction HF as [| b r [pat Hb] _ [pats IH]].
      - exists []. constructor.
      - exists (pat :: pats). constructor; assumption. }
    destruct Hex as [pats HF2]. unfold union_scalar_pattern.
    rewrite (branch_patterns_of _ _ HF2). cbn [bind].
    destruct HF2 as [| b p bs ps _ _]; [contradiction |].
    cbn [map]. eexists. reflexivity.
Qed.

(** ** The module of a file with a numbered name *)

Lemma isdigit_no_underscore (d : string) : Str.isdigit d = true -> Str.mem "_" d = false.
Proof.
  intros H. assert (Hall : Str.forallb Str.isdigit_char d = true)
    by (destruct d; [discriminate H | exact H]).
  clear H. induction d as [| c r IH]; [reflexivity |].
  cbn [Str.forallb] in Hall. apply andb_true_iff in Hall. destruct Hall as [Hc Hr].
  cbn [Str.mem]. rewrite (IH Hr), orb_false_r.
  destruct (Ascii.eqb_spec "_"%char c) as [<- | _]; [discriminate Hc | reflexivity].
Qed.

Lemma module_name_of_numbered (digits rest : string) :
  Str.isdigit digits = true ->
  module_name_of (digits ++ "_" ++ rest) = rest.
Proof.
  intros H. unfold module_name_of.
  change (digits ++ "_" ++ rest) with (digits ++ String "_" rest).
  rewrite (split1_append _ _ _ (isdigit_no_underscore _ H)), H. reflexivity.
Qed.

Section NumberedFiles.

Context {L : Pylib}.

(** X19: when the stem of the file of a document begins with digits and
    an underscore, [exportables] files every symbol of the document, its
    title and its definitions, under the module named by what follows
    that underscore, further underscores and digits included. *)
Theorem exportables_numbered_file
  (idx : SchemaIndex) (doc_uri origin digits rest : string)
  (exports : list (NodeId * json * string)) :
  smap_get doc_uri (origin_files idx) = Some origin ->
  path_stem origin = digits ++ "_" ++ rest ->
  Str.isdigit digits = true ->
  exportables idx doc_uri = Ok exports ->
  Forall (fun e => snd e = rest /\ nid_doc_uri (fst (fst e)) = doc_uri) exports.
Proof.
  intros Ho Hstem Hd H. unfold exportables in H.
  destruct (smap_get doc_uri (docs idx)) as [doc |];
    [| injection H as <-; constructor].
  rewrite Ho, Hstem, (module_name_of_numbered _ _ Hd) in H.
  assert (Hdefs : forall key l,
             def_exports doc_uri key rest (n_val doc) = Ok l ->
             Forall (fun e : NodeId * json * string =>
                       snd e = rest /\ nid_doc_uri (fst (fst e)) = doc_uri) l).
  { intros key l Hl. unfold def_exports in Hl. split_bind Hl as has Hh.
    destruct has; [| injection Hl as <-; constructor].
    split_bind Hl as defs Hg. destruct defs as [| | | | | | items]; try discriminate Hl.
    injection Hl as <-. apply Forall_forall. intros e He.
    apply in_map_iff in He. destruct He as [kv [<- _]]. split; reflexivity. }
  split_bind H as has_title Ht. split_bind H as titled Hti.
  split_bind H as defs Hde. split_bind H as definitions Hdn. injection H as <-.
  apply Forall_app. split; [| apply Forall_app; split; eauto].
  destruct has_title; [| injection Hti as <-; constructor].
  split_bind Hti as t Hg. injection Hti as <-.
  constructor; [split; reflexivity | constructor].
Qed.

End NumberedFiles.

Section NumberedFileRuns.

#[local] Existing Instance cpython.

Lemma exportables_numbered_file_witness :
  load Examples.numbered_files None = Ok Examples.numbered_index
  /\ exists exports,
       exportables Examples.numbered_index "http://example.com/types.json" = Ok exports
       /\ exports <> []
       /\ Forall (fun e : NodeId * json * string =>
                    snd e = "common_types"
                    /\ nid_doc_uri (fst (fst e)) = "http://example.com/types.json")
            exports.
Proof.
  split; [vm_compute; reflexivity |].
  eexists. split; [vm_compute; reflexivity |]. split; [discriminate |].
  apply (exportables_numbered_file Examples.numbered_index _ "02_common_types.json"
           "02" "common_types").
  - vm_compute. reflexivity.
  - vm_compute. reflexivity.
  - reflexivity.
  - vm_compute. reflexivity.
Defined.

End NumberedFileRuns.

(** ** slas_allof_processor.py: extract_uuid_version_set *)

Lemma hyphen_positions_app (s t : string) :
  forall i bd cd,
    hyphen_positions (s ++ t) i bd cd
    = (hyphen_positions s i bd cd
       ++ hyphen_positions t (i + String.length s)
            (fst (depths s bd cd)) (snd (depths s bd cd)))%list.
Proof.
  induction s as [| c r IH]; intros i bd cd; cbn [append hyphen_positions depths
                                                   String.length fst snd app].
  - rewrite Nat.add_0_r. reflexivity.
  - replace (i + S (String.length r))%nat with (S i + String.length r)%nat by lia.
    repeat (match goal with
            | |- context [if ?b then _ else _] => destruct b
            end; try (rewrite IH; reflexivity)).
Qed.

Lemma hyphen_positions_shift (s : string) :
  forall i bd cd,
    hyphen_positions s i bd cd = map (Nat.add i) (hyphen_positions s 0 bd cd).
Proof.
  induction s as [| c r IH]; intros i bd cd; cbn [hyphen_positions]; [reflexivity |].
  assert (Hr : forall bd cd,
             hyphen_positions r (S i) bd cd
             = map (Nat.add i) (hyphen_positions r 1 bd cd)).
  { intros bd' cd'. rewrite (IH (S i)), (IH 1%nat), map_map. apply map_ext.
    intros n. lia. }
  repeat (match goal with
          | |- context [if ?b then _ else _] => destruct b
          end; try (rewrite Hr; cbn [map]; rewrite ?Nat.add_0_r; reflexivity)).
Qed.

Lemma uuid_group_hyphen (g t : string) (i : nat) :
  uuid_group g ->
  hyphen_positions (g ++ String "-" t) i 0 0
  = (i + String.length g)%nat :: hyphen_positions t (S (i + String.length g)) 0 0.
Proof.
  intros [Hh Hd]. rewrite hyphen_positions_app, Hd, (hyphen_positions_shift g), Hh.
  reflexivity.
Qed.

Lemma uuid_group_last (g : string) (i : nat) :
  uuid_group g -> hyphen_positions g i 0 0 = [].
Proof. intros [Hh _]. rewrite hyphen_positions_shift, Hh. reflexivity. Qed.

Lemma substring_skip (a b : string) (n : nat) :
  String.substring (String.length a) n (a ++ b) = String.substring 0 n b.
Proof. induction a as [| c r IH]; simpl; [reflexivity | exact IH]. Qed.

Lemma append_assoc (a b c : string) : (a ++ b) ++ c = a ++ b ++ c.
Proof. induction a as [| x r IH]; simpl; [reflexivity | rewrite IH; reflexivity]. Qed.

Lemma length_append (a b : string) :
  String.length (a ++ b) = (String.length a + String.length b)%nat.
Proof. induction a as [| c r IH]; simpl; [reflexivity | rewrite IH; reflexivity]. Qed.

Lemma ascii_digit_cases (c : ascii) :
  Str.is_ascii_digit c = true ->
  In c ["0"; "1"; "2"; "3"; "4"; "5"; "6"; "7"; "8"; "9"]%char.
Proof.
  unfold Str.is_ascii_digit. intros H. apply andb_true_iff in H. destruct H as [Hl Hu].
  apply Nat.leb_le in Hl, Hu. rewrite <- (ascii_nat_embedding c).
  remember (nat_of_ascii c) as n eqn:En. clear En c.
  do 48 (destruct n as [| n]; [lia |]).
  do 10 (destruct n as [| n]; [simpl; tauto |]). lia.
Qed.

Lemma find_bracket_digits (digits rest : string) :
  Str.forallb Str.is_ascii_digit digits = true ->
  Str.find "]"%char (digits ++ String "]" rest) = Some (String.length digits).
Proof.
  induction digits as [| c r IH]; cbn [Str.forallb append Str.find String.length];
    intros H; [reflexivity |].
  apply andb_true_iff in H. destruct H as [Hc Hr]. rewrite (IH Hr).
  destruct (Ascii.eqb_spec "]"%char c) as [<- | _]; [discriminate Hc | reflexivity].
Qed.

Lemma version_field_extracted (g : string) (v : vset) :
  version_field g v ->
  (let third_group := g in
   if Str.startswith third_group "[" then
     match Str.find "]"%char third_group with
     | None => Ok None
     | Some close_bracket =>
         let class_content := Str.slice 1 close_bracket third_group in
         let as_range :=
           match class_content with
           | String start_char (String mid (String end_char EmptyString)) =>
               if Ascii.eqb mid "-"%char
                  && Str.isdigit_char start_char && Str.isdigit_char end_char
               then Some (start_char, end_char)
               else None
           | _ => None
           end in
         match as_range with
         | Some (start_char, end_char) =>
             a <- Py.int (Str.of_char start_char) ;;
             b <- Py.int (Str.of_char end_char) ;;
             Ok (Some (digit_range a b))
         | None =>
             if Str.forallb Str.isdigit_char class_content
             then Ok (Some (VSet.of_string class_content))
             else Ok None
         end
     end
   else
     match third_group with
     | String c _ => if Str.isdigit_char c then Ok (Some [c]) else Ok None
     | EmptyString => Ok None
     end) = Ok (Some v).
Proof.
  intros H. cbv zeta. destruct H as [a b r Ha Hb | digits r Hd | d r Hd].
  - apply ascii_digit_cases in Ha, Hb. simpl in Ha, Hb.
    repeat (destruct Ha as [<- | Ha]; [| ]); try contradiction;
      repeat (destruct Hb as [<- | Hb]; [| ]); try contradiction; reflexivity.
  - unfold Str.startswith. rewrite prefix_cons, prefix_empty.
    cbn [Str.find]. rewrite (find_bracket_digits _ _ Hd).
    change (Ascii.eqb "]" "[") with false. cbv iota.
    unfold Str.slice. cbn [String.substring].
    replace (S (String.length digits) - 1)%nat with (String.length digits) by lia.
    rewrite substring_append.
    assert (Hall : Str.forallb Str.isdigit_char digits = true).
    { clear - Hd. induction digits as [| c r IH]; [reflexivity |].
      cbn [Str.forallb] in *. apply andb_true_iff in Hd. destruct Hd as [Hc Hr].
      rewrite (IH Hr). unfold Str.isdigit_char. rewrite Hc. reflexivity. }
    rewrite Hall.
    destruct digits as [| a [| m [| b [| x y]]]]; try reflexivity.
    cbn [Str.forallb] in Hd.
    apply andb_true_iff in Hd. destruct Hd as [_ Hd].
    apply andb_true_iff in Hd. destruct Hd as [Hm _].
    destruct (Ascii.eqb_spec m "-"%char) as [-> | _]; [discriminate Hm | reflexivity].
  - unfold Str.startswith. rewrite prefix_char_other.
    + unfold Str.isdigit_char. rewrite Hd. reflexivity.
    + destruct (Ascii.eqb_spec d "["%char) as [-> | _]; [discriminate Hd | reflexivity].
Qed.

(** X20: for a pattern that, its anchors stripped, is five groups
    separated by hyphens, each group keeping its own hyphens inside
    brackets or braces, [extract_uuid_version_set] reads the versions off
    the third group: the digits from [a] to [b] for a leading class
    [[a-b]], the digits of a leading class of digits, and the digit itself
    when the group begins with one. *)
Theorem extract_uuid_version_set_third_group
  (pattern g1 g2 g3 g4 g5 : string) (v : vset) :
  Str.rstrip "$" (Str.lstrip "^" pattern)
  = g1 ++ "-" ++ g2 ++ "-" ++ g3 ++ "-" ++ g4 ++ "-" ++ g5 ->
  uuid_group g1 -> uuid_group g2 -> uuid_group g3 -> uuid_group g4 -> uuid_group g5 ->
  version_field g3 v ->
  extract_uuid_version_set pattern = Ok (Some v).
Proof.
  intros Hc H1 H2 H3 H4 H5 Hv. unfold extract_uuid_version_set. rewrite Hc. cbv zeta.
  change (g1 ++ "-" ++ g2 ++ "-" ++ g3 ++ "-" ++ g4 ++ "-" ++ g5)
    with (g1 ++ String "-" (g2 ++ String "-" (g3 ++ String "-" (g4 ++ String "-" g5)))).
  rewrite (uuid_group_hyphen g1 _ 0 H1), (uuid_group_hyphen g2 _ _ H2),
    (uuid_group_hyphen g3 _ _ H3), (uuid_group_hyphen g4 _ _ H4),
    (uuid_group_last g5 _ H5).
  cbv iota.
  assert (Hthird :
            Str.slice (S (0 + String.length g1) + String.length g2 + 1)
              (S (S (0 + String.length g1) + String.length g2) + String.length g3)
              (g1 ++ String "-" (g2 ++ String "-" (g3 ++ String "-" (g4 ++ String "-" g5))))
            = g3).
  { unfold Str.slice.
    replace (g1 ++ String "-" (g2 ++ String "-" (g3 ++ String "-" (g4 ++ String "-" g5))))
      with ((g1 ++ String "-" (g2 ++ String "-" EmptyString))
            ++ g3 ++ String "-" (g4 ++ String "-" g5)).
    - replace (S (0 + String.length g1) + String.length g2 + 1)%nat
        with (String.length (g1 ++ String "-" (g2 ++ String "-" EmptyString))).
      + rewrite substring_skip.
        replace (S (S (0 + String.length g1) + String.length g2) + String.length g3
                 - String.length (g1 ++ String "-" (g2 ++ String "-" EmptyString)))%nat
          with (String.length g3).
        * apply substring_append.
        * rewrite !length_append. cbn [String.length]. rewrite !length_append.
          cbn [String.length]. lia.
      + rewrite !length_append. cbn [String.length]. rewrite !length_append.
        cbn [String.length]. lia.
    - rewrite append_assoc. cbn [append]. rewrite append_assoc. reflexivity. }
  rewrite Hthird. exact (version_field_extracted g3 v Hv).
Qed.

Lemma extract_uuid_version_set_third_group_witness :
  extract_uuid_version_set
    "^[0-9a-f]{8}-[0-9a-f]{4}-[1-5][0-9a-f]{3}-[89ab][0-9a-f]{3}-[0-9a-f]{12}$"
  = Ok (Some ["1"; "2"; "3"; "4"; "5"]%char).
Proof.
  apply (extract_uuid_version_set_third_group _
           "[0-9a-f]{8}" "[0-9a-f]{4}" "[1-5][0-9a-f]{3}" "[89ab][0-9a-f]{3}"
           "[0-9a-f]{12}").
  - reflexivity.
  - split; reflexivity.
  - split; reflexivity.
  - split; reflexivity.
  - split; reflexivity.
  - split; reflexivity.
  - exact (version_range "1" "5" "[0-9a-f]{3}" eq_refl eq_refl).
Defined.

(** ** slas_allof_processor.py: the pattern of a merged chain *)

Lemma try_uuid_pattern_specialization_In (patterns : list json) (ptr : string)
  (specialized : json) :
  try_uuid_pattern_specialization patterns ptr = Ok (Some specialized) ->
  In specialized patterns.
Proof.
  unfold try_uuid_pattern_specialization. intros H.
  destruct patterns as [| p1 [| p2 [| p3 r]]]; try discriminate H.
  split_bind H as v1 H1. split_bind H as v2 H2.
  destruct v1 as [v1 |]; [| discriminate H]. destruct v2 as [v2 |]; [| discriminate H].
  destruct (VSet.is_empty (VSet.inter v1 v2)); [discriminate H |].
  destruct (VSet.issubset v2 v1 && negb (VSet.eqb v2 v1)).
  - injection H as <-. right. left. reflexivity.
  - destruct (VSet.issubset v1 v2 && negb (VSet.eqb v1 v2));
      injection H as <-; left; reflexivity.
Qed.

(** X21: the pattern of the node that [merge_constraints] makes is one
    of the patterns of the branches, and there is one exactly when a
    branch has one.  [_validator_patterns], when the node has it, lists
    the patterns of all the branches in their order, and the pattern of
    the node is then the first of them. *)
Theorem merge_constraints_pattern
  (branches : list json) (scalar_type ptr : string) (strict : bool)
  (merged : dict) (w : list warning) (patterns : list json) :
  merge_constraints branches scalar_type ptr strict = Ok (merged, w) ->
  collect "pattern" branches = Ok patterns ->
  match dict_get "pattern" merged with
  | Some p => In p patterns
  | None => patterns = []
  end
  /\ match dict_get "_validator_patterns" merged with
     | Some all => all = JArr patterns
                   /\ dict_get "pattern" merged = Some (hd JNull patterns)
     | None => True
     end.
Proof.
  intros H Hc. destruct (merge_constraints_steps _ _ _ _ _ _ H)
    as (m0 & m5 & w1 & w2 & P0 & Hk & F6 & _).
  assert (Hp : dict_get "pattern" merged = dict_get "pattern" m0).
  { rewrite (merge_format_other _ _ _ "pattern" F6) by neq_lit.
    apply Hk. intros [E | [E | [E | [E | [E | []]]]]]; discriminate E. }
  assert (Hv : dict_get "_validator_patterns" merged
               = dict_get "_validator_patterns" m0).
  { rewrite (merge_format_other _ _ _ "_validator_patterns" F6) by neq_lit.
    apply Hk. intros [E | [E | [E | [E | [E | []]]]]]; discriminate E. }
  rewrite Hp, Hv. clear - P0 Hc. unfold merge_patterns in P0. rewrite Hc in P0.
  cbn [bind] in P0. destruct patterns as [| first rest].
  - injection P0 as <- <-. split; [reflexivity | exact I].
  - destruct (try_uuid_pattern_specialization (first :: rest) ptr)
      as [[specialized |] | e] eqn:Et.
    + apply try_uuid_pattern_specialization_In in Et.
      destruct (Py.truthy specialized); injection P0 as <- <-.
      * split; [exact Et | exact I].
      * split; [left; reflexivity | split; reflexivity].
    + injection P0 as <- <-. split; [left; reflexivity | split; reflexivity].
    + destruct e; try discriminate P0. destruct strict; [discriminate P0 |].
      injection P0 as <- <-. split; [left; reflexivity | exact I].
Qed.

Lemma merge_constraints_pattern_witness :
  exists merged w,
    merge_constraints
      [JObj [("type", JStr "string"); ("pattern", JStr "^[a-z]+$")];
       JObj [("pattern", JStr "^.{3}$"); ("title", JStr "Code")]]
      "string" "#/$defs/Code" true = Ok (merged, w)
    /\ match dict_get "pattern" merged with
       | Some p => In p [JStr "^[a-z]+$"; JStr "^.{3}$"]
       | None => [JStr "^[a-z]+$"; JStr "^.{3}$"] = []
       end
    /\ match dict_get "_validator_patterns" merged with
       | Some all => all = JArr [JStr "^[a-z]+$"; JStr "^.{3}$"]
                     /\ dict_get "pattern" merged
                        = Some (hd JNull [JStr "^[a-z]+$"; JStr "^.{3}$"])
       | None => True
       end.
Proof.
  eexists. eexists. split; [vm_compute; reflexivity |].
  eapply (merge_constraints_pattern
            [JObj [("type", JStr "string"); ("pattern", JStr "^[a-z]+$")];
             JObj [("pattern", JStr "^.{3}$"); ("title", JStr "Code")]]
            "string" "#/$defs/Code" true).
  - vm_compute. reflexivity.
  - vm_compute. reflexivity.
Defined.

(** ** utils.py: the pointers of walk_schema_nodes *)

Lemma In_flat_items {A : Type} (f : string -> json -> list A) (d : dict) (x : A) :
  In x (flat_items f d) -> exists k v, In (k, v) d /\ In x (f k v).
Proof.
  induction d as [| [k v] r IH]; simpl; intros H; [destruct H |].
  apply in_app_or in H. destruct H as [H | H].
  - exists k, v. split; [left; reflexivity | exact H].
  - destruct (IH H) as [k' [v' [Hin Hx]]]. exists k', v'.
    split; [right; exact Hin | exact Hx].
Qed.

Lemma In_flat_elems {A : Type} (f : nat -> json -> list A) (l : list json) (x : A) :
  forall i0, In x (flat_elems f l i0) ->
             exists i v, nth_error l i = Some v /\ In x (f (i0 + i) v).
Proof.
  induction l as [| v r IH]; simpl; intros i0 H; [destruct H |].
  apply in_app_or in H. destruct H as [H | H].
  - exists 0, v. rewrite Nat.add_0_r. split; [reflexivity | exact H].
  - destruct (IH (S i0) H) as [i [v' [Hn Hx]]]. exists (S i), v'.
    split; [exact Hn |]. replace (i0 + S i) with (S i0 + i) by lia. exact Hx.
Qed.

Ltac walk_segment H :=
  rewrite with_key_get in H;
  match type of H with
  | In _ match dict_get ?key ?d with _ => _ end =>
      let E := fresh "E" in
      let l := fresh "l" in
      let items := fresh "items" in
      destruct (dict_get key d) as [[| ? | ? | ? | ? | l | items] |] eqn:E;
      try (destruct H; fail);
      right;
      first
        [ apply In_flat_items in H;
          let name := fresh "name" in
          let s := fresh "s" in
          let Hin := fresh "Hin" in
          let Hx := fresh "Hx" in
          destruct H as (name & s & Hin & Hx);
          exists s; eexists; split; [| exact Hx];
          first [ apply (child_escaped _ _ key name items s);
                  [simpl; tauto | exact E | exact Hin]
                | apply (child_named _ _ key name items s);
                  [simpl; tauto | exact E | exact Hin] ]
        | apply In_flat_elems in H;
          let i := fresh "i" in
          let s := fresh "s" in
          let Hn := fresh "Hn" in
          let Hx := fresh "Hx" in
          destruct H as (i & s & Hn & Hx);
          exists s; eexists; split; [| exact Hx];
          apply (child_indexed _ _ key l i s); [simpl; tauto | exact E | exact Hn]
        | eexists; eexists; split; [| exact H];
          apply (child_single _ _ key items); [simpl; tauto | exact E] ]
  end.

(** A node that the generator yields is the schema itself, or comes from
    the walk of one of its children. *)
Lemma walk_schema_nodes_In (schema : json) (json_ptr : string) (node : dict) (p : string) :
  In (node, p) (walk_schema_nodes schema json_ptr) ->
  exists d,
    schema = JObj d
    /\ ((d, json_ptr) = (node, p)
        \/ exists sub sub_ptr,
             walk_child d json_ptr sub sub_ptr
             /\ In (node, p) (walk_schema_nodes sub sub_ptr)).
Proof.
  intros H. destruct schema as [| b | n | fl | x | l | d]; try (destruct H; fail).
  exists d. split; [reflexivity |].
  cbn [walk_schema_nodes] in H. cbv zeta in H.
  destruct H as [H | H]; [left; exact H |].
  repeat match type of H with
         | In _ (_ ++ _)%list => apply in_app_or in H; destruct H as [H | H]
         end; walk_segment H.
Qed.

(** The decimal text of a number is an index of RFC 6901. *)
Lemma string_of_uint_digits (d : Decimal.uint) :
  Str.forallb Str.is_ascii_digit (NilEmpty.string_of_uint d) = true.
Proof. induction d; cbn [NilEmpty.string_of_uint Str.forallb]; try exact IHd; reflexivity. Qed.

Lemma decimal_of_uint (d : Decimal.uint) :
  forall acc, decimal acc (NilEmpty.string_of_uint d) = Nat.of_uint_acc d acc.
Proof.
  induction d; intros acc; cbn [NilEmpty.string_of_uint decimal Nat.of_uint_acc];
    try reflexivity; rewrite IHd, Nat.tail_mul_spec; f_equal; simpl; lia.
Qed.

Lemma nzhead_not_zero (x y : Decimal.uint) : Decimal.nzhead x <> Decimal.D0 y.
Proof. induction x; cbn [Decimal.nzhead]; try discriminate. exact IHx. Qed.

Lemma rfc_index_str_of_nat (i : nat) :
  rfc_index (str_of_nat i) = Some i
  /\ Str.forallb Str.is_ascii_digit (str_of_nat i) = true.
Proof.
  unfold str_of_nat.
  assert (Hn : Decimal.unorm (Nat.to_uint i) = Nat.to_uint i).
  { rewrite <- DecimalNat.Unsigned.to_of, DecimalNat.Unsigned.of_to. reflexivity. }
  assert (Hv : Nat.of_uint (Nat.to_uint i) = i) by apply DecimalNat.Unsigned.of_to.
  revert Hn Hv. generalize (Nat.to_uint i). intros d Hn Hv.
  unfold Decimal.unorm in Hn. unfold Nat.of_uint in Hv.
  pose proof (nzhead_not_zero d) as Hz.
  destruct (Decimal.nzhead d) eqn:En; subst d;
    try (exfalso; exact (Hz _ eq_refl)).
  all: cbn [Nat.of_uint_acc] in Hv; rewrite ?Nat.tail_mul_spec in Hv.
  all: unfold rfc_index;
    cbn [NilZero.string_of_uint NilEmpty.string_of_uint Str.forallb];
    rewrite ?string_of_uint_digits.
  all: cbn [decimal]; rewrite ?decimal_of_uint.
  all: split; [| reflexivity].
  all: simpl; f_equal; simpl in Hv; exact Hv.
Qed.

Lemma pointer_of_app (a b : list string) :
  pointer_of (a ++ b) = pointer_of a ++ pointer_of b.
Proof.
  induction a as [| t r IH]; [reflexivity |].
  cbn [app pointer_of append]. rewrite IH, append_assoc. reflexivity.
Qed.

Lemma rfc6901_app (doc v : json) (t1 t2 : list string) :
  rfc6901 doc t1 = Some v -> rfc6901 doc (t1 ++ t2) = rfc6901 v t2.
Proof.
  revert doc. induction t1 as [| t r IH]; intros doc H.
  - injection H as <-. reflexivity.
  - cbn [app rfc6901] in H |- *. destruct doc; try discriminate H.
    + destruct (rfc_index t); [| discriminate H].
      destruct (nth_error items n); [| discriminate H]. exact (IH _ H).
    + destruct (dict_get t fields); [| discriminate H]. exact (IH _ H).
Qed.

Lemma dict_get_In (k : string) (v : json) (d : dict) :
  dict_get k d = Some v -> In (k, v) d.
Proof.
  induction d as [| [k' v'] r IH]; simpl; intros H; [discriminate H |].
  destruct (String.eqb_spec k k') as [-> | _].
  - injection H as ->. left. reflexivity.
  - right. exact (IH H).
Qed.

Lemma distinct_keys_get (k : string) (v : json) (d : dict) :
  distinct_keys (map fst d) = true -> In (k, v) d -> dict_get k d = Some v.
Proof.
  induction d as [| [k' v'] r IH]; simpl; intros Hd Hin; [destruct Hin |].
  apply andb_true_iff in Hd. destruct Hd as [Hn Hr].
  destruct Hin as [E | Hin].
  - injection E as -> ->. rewrite String.eqb_refl. reflexivity.
  - destruct (String.eqb_spec k k') as [-> | _]; [| exact (IH Hr Hin)].
    exfalso. apply negb_true_iff in Hn.
    assert (Hex : existsb (String.eqb k') (map fst r) = true).
    { apply existsb_exists. exists k'. split; [| apply String.eqb_refl].
      apply in_map_iff. exists (k', v). split; [reflexivity | exact Hin]. }
    rewrite Hex in Hn. discriminate Hn.
Qed.

Lemma pointer_safe_obj (d : dict) :
  pointer_safe (JObj d) = true ->
  distinct_keys (map fst d) = true
  /\ plain_names "$defs" d = true /\ plain_names "definitions" d = true
  /\ forall k v, In (k, v) d -> pointer_safe v = true.
Proof.
  cbn [pointer_safe]. intros H.
  apply andb_true_iff in H. destruct H as [H Hgo].
  apply andb_true_iff in H. destruct H as [H H3].
  apply andb_true_iff in H. destruct H as [H1 H2].
  repeat (split; [assumption |]).
  clear - Hgo. induction d as [| [k' v'] r IH]; intros k v Hin; [destruct Hin |].
  apply andb_true_iff in Hgo. destruct Hgo as [Hv Hr].
  destruct Hin as [E | Hin]; [injection E as _ <-; exact Hv | exact (IH Hr k v Hin)].
Qed.

Lemma pointer_safe_elem (l : list json) (i : nat) (v : json) :
  pointer_safe (JArr l) = true -> nth_error l i = Some v -> pointer_safe v = true.
Proof.
  cbn [pointer_safe]. intros H Hn. apply nth_error_In in Hn.
  exact (proj1 (forallb_forall _ _) H v Hn).
Qed.

Lemma plain_names_escape (key name : string) (d items : dict) (s : json) :
  plain_names key d = true -> dict_get key d = Some (JObj items) ->
  In (name, s) items -> rfc_escape name = name.
Proof.
  unfold plain_names. intros H E Hin. rewrite E in H.
  pose proof (proj1 (forallb_forall _ _) H (name, s) Hin) as Hn. cbn [fst] in Hn.
  apply String.eqb_eq in Hn. rewrite <- escape_rfc_escape. exact Hn.
Qed.

(** The pointer of a child is that of its parent and one or two tokens
    more, and these lead from the parent to the child. *)
Lemma walk_child_tokens (d : dict) (toks : list string) (sub : json) (sub_ptr : string) :
  pointer_safe (JObj d) = true ->
  walk_child d ("#" ++ pointer_of toks) sub sub_ptr ->
  exists t2,
    sub_ptr = "#" ++ pointer_of (toks ++ t2)
    /\ rfc6901 (JObj d) t2 = Some sub
    /\ pointer_safe sub = true.
Proof.
  intros Hs Hc. destruct (pointer_safe_obj d Hs) as (Hd & Hp1 & Hp2 & Hv).
  destruct Hc as [key name items s Hk E Hin | key name items s Hk E Hin
                  | key x Hk E | key l i s Hk E Hn].
  - pose proof (Hv _ _ (dict_get_In _ _ _ E)) as Hi.
    destruct (pointer_safe_obj items Hi) as (Hdi & _ & _ & Hvi).
    exists [key; name]. split; [| split; [| exact (Hvi _ _ Hin)]].
    + rewrite pointer_of_app. cbn [pointer_of]. rewrite escape_rfc_escape, append_nil_r.
      assert (Hkey : rfc_escape key = key)
        by (simpl in Hk; destruct Hk as [<- | [<- | [<- | []]]]; reflexivity).
      rewrite Hkey. cbn [append]. rewrite ?append_assoc. reflexivity.
    + cbn [rfc6901]. rewrite E, (distinct_keys_get _ _ _ Hdi Hin). reflexivity.
  - pose proof (Hv _ _ (dict_get_In _ _ _ E)) as Hi.
    destruct (pointer_safe_obj items Hi) as (Hdi & _ & _ & Hvi).
    assert (Hname : rfc_escape name = name).
    { simpl in Hk. destruct Hk as [<- | [<- | []]];
        [exact (plain_names_escape _ _ _ _ _ Hp1 E Hin)
        | exact (plain_names_escape _ _ _ _ _ Hp2 E Hin)]. }
    exists [key; name]. split; [| split; [| exact (Hvi _ _ Hin)]].
    + rewrite pointer_of_app. cbn [pointer_of]. rewrite Hname, append_nil_r.
      assert (Hkey : rfc_escape key = key)
        by (simpl in Hk; destruct Hk as [<- | [<- | []]]; reflexivity).
      rewrite Hkey. cbn [append]. rewrite ?append_assoc. reflexivity.
    + cbn [rfc6901]. rewrite E, (distinct_keys_get _ _ _ Hdi Hin). reflexivity.
  - exists [key]. split; [| split; [| exact (Hv _ _ (dict_get_In _ _ _ E))]].
    + rewrite pointer_of_app. cbn [pointer_of]. rewrite append_nil_r.
      assert (Hkey : rfc_escape key = key)
        by (simpl in Hk;
            destruct Hk as [<- | [<- | [<- | [<- | [<- | [<- | [<- | []]]]]]]]; reflexivity).
      rewrite Hkey. cbn [append]. rewrite ?append_assoc. reflexivity.
    + cbn [rfc6901]. rewrite E. reflexivity.
  - destruct (rfc_index_str_of_nat i) as [Hi Hdig].
    pose proof (Hv _ _ (dict_get_In _ _ _ E)) as Hl.
    exists [key; str_of_nat i]. split; [| split; [| exact (pointer_safe_elem _ _ _ Hl Hn)]].
    + rewrite pointer_of_app. cbn [pointer_of].
      rewrite (rfc_escape_plain (str_of_nat i))
        by (apply digits_plain; [exact Hdig | reflexivity]).
      rewrite append_nil_r.
      assert (Hkey : rfc_escape key = key)
        by (simpl in Hk; destruct Hk as [<- | [<- | [<- | [<- | [<- | []]]]]]; reflexivity).
      rewrite Hkey. cbn [append]. rewrite ?append_assoc. reflexivity.
    + cbn [rfc6901]. rewrite E, Hi, Hn. reflexivity.
Qed.

Lemma walk_child_member (P : json -> Prop) (d : dict) (json_ptr : string)
  (sub : json) (sub_ptr : string) :
  Forall (fun kv => members_hold P (snd kv)) d ->
  walk_child d json_ptr sub sub_ptr -> P sub.
Proof.
  intros HF Hc.
  assert (Hval : forall key v, dict_get key d = Some v -> members_hold P v).
  { intros key v E. apply dict_get_In in E.
    exact (proj1 (Forall_forall _ _) HF (key, v) E). }
  destruct Hc as [key name items s Hk E Hin | key name items s Hk E Hin
                  | key x Hk E | key l i s Hk E Hn].
  - destruct (Hval _ _ E) as [_ Hm]. exact (proj1 (Forall_forall _ _) Hm (name, s) Hin).
  - destruct (Hval _ _ E) as [_ Hm]. exact (proj1 (Forall_forall _ _) Hm (name, s) Hin).
  - exact (proj1 (Hval _ _ E)).
  - destruct (Hval _ _ E) as [_ Hm].
    exact (proj1 (Forall_forall _ _) Hm s (nth_error_In _ _ Hn)).
Qed.

Lemma walk_schema_nodes_tokens (schema : json) :
  forall (toks : list string) (node : dict) (p : string),
    pointer_safe schema = true ->
    In (node, p) (walk_schema_nodes schema ("#" ++ pointer_of toks)) ->
    exists t, p = "#" ++ pointer_of (toks ++ t) /\ rfc6901 schema t = Some (JObj node).
Proof.
  induction schema as [| b | n | fl | x | l IH | d IH] using json_ind_members;
    intros toks node p Hs Hin;
    apply walk_schema_nodes_In in Hin; destruct Hin as [d' [Heq Hin]];
    try discriminate Heq.
  injection Heq as <-. destruct Hin as [Heq | (sub & sub_ptr & Hc & Hin)].
  - injection Heq as <- <-. exists []. rewrite app_nil_r. split; reflexivity.
  - destruct (walk_child_tokens d toks sub sub_ptr Hs Hc) as (t2 & -> & Hr & Hsub).
    pose proof (walk_child_member _ d _ sub _ IH Hc) as IHsub.
    destruct (IHsub (toks ++ t2)%list node p Hsub Hin) as (t3 & -> & Hr3).
    exists (t2 ++ t3)%list. rewrite app_assoc. split; [reflexivity |].
    rewrite (rfc6901_app _ _ _ _ Hr). exact Hr3.
Qed.

Lemma resolve_pointer_hash (doc : node) (t : string) (r : list string) :
  resolve_pointer doc ("#" ++ pointer_of (t :: r)) = resolve_pointer doc (pointer_of (t :: r)).
Proof. reflexivity. Qed.

(** X22: in a document whose dictionaries have no key twice and whose
    definitions have names without [~] and [/], every pointer that
    [walk_schema_nodes] yields leads [resolve_pointer] from the root of the
    document to the node yielded with it. *)
Theorem walk_schema_nodes_resolves
  (doc : json) (a : addr) (node : dict) (ptr : string) :
  pointer_safe doc = true ->
  In (node, ptr) (walk_schema_nodes doc "#") ->
  exists n, resolve_pointer (mkNode a doc) ptr = Ok n /\ n_val n = JObj node.
Proof.
  intros Hs Hin.
  destruct (walk_schema_nodes_tokens doc [] node ptr Hs Hin) as (t & -> & Hr).
  cbn [app]. destruct t as [| t r].
  - injection Hr as ->. exists (mkNode a (JObj node)). split; reflexivity.
  - rewrite resolve_pointer_hash.
    apply (resolve_pointer_rfc6901 (t :: r) doc a (JObj node)); [discriminate | exact Hr].
Qed.

Lemma walk_schema_nodes_resolves_witness :
  pointer_safe Examples.items_doc = true
  /\ In ([("type", JStr "string")], "#/properties/a~1b/items/0")
        (walk_schema_nodes Examples.items_doc "#")
  /\ exists n,
       resolve_pointer (mkNode (0, []) Examples.items_doc) "#/properties/a~1b/items/0"
       = Ok n
       /\ n_val n = JObj [("type", JStr "string")].
Proof.
  split; [reflexivity |].
  assert (Hin : In ([("type", JStr "string")], "#/properties/a~1b/items/0")
                  (walk_schema_nodes Examples.items_doc "#"))
    by (vm_compute; tauto).
  split; [exact Hin |].
  apply (walk_schema_nodes_resolves Examples.items_doc (0, [])
           [("type", JStr "string")] "#/properties/a~1b/items/0");
    [reflexivity | exact Hin].
Defined.

(** ** slas_allof_processor.py: resolve_allof_branches *)

Lemma addr_eqb_refl (a : addr) : addr_eqb a a = true.
Proof.
  destruct a as [n p]. unfold addr_eqb. cbn [fst snd]. rewrite Nat.eqb_refl.
  cbn [andb]. induction p as [| s r IH]; [reflexivity |].
  cbn [path_eqb]. rewrite IH, andb_true_r.
  destruct s; cbn [step_eqb]; [apply String.eqb_refl | apply Nat.eqb_refl].
Qed.

Section ResolveBranches.

Context {L : Pylib}.

Lemma resolve_branches_spec (idx : SchemaIndex) (doc_uri : string) (branches : list json) :
  forall (i : nat) (visited : list node) (resolved : list json),
    resolve_branches idx doc_uri branches i visited = Ok resolved ->
    resolved = map (fun branch => match referent idx doc_uri branch with
                                  | Some n => n_val n
                                  | None => branch
                                  end) branches
    /\ ForallOrdPairs (fun a b => same_object b a = false)
         (referents idx doc_uri branches)
    /\ Forall (fun n => Py.truthy (n_val n) = true) (referents idx doc_uri branches)
    /\ forall v, In v visited ->
         Forall (fun n => same_object n v = false) (referents idx doc_uri branches).
Proof.
  induction branches as [| branch rest IH]; intros i visited resolved H.
  - injection H as <-. repeat split; try constructor.
  - cbn [resolve_branches] in H. unfold referents. cbn [flat_map map]. unfold referent.
    split_bind H as is_ref Hc. rewrite Hc. cbn [bind]. destruct is_ref.
    + split_bind H as ref_uri Hg. split_bind H as full Hr. split_bind H as found Hn.
      rewrite Hg. cbn [bind]. rewrite Hr. cbn [bind]. rewrite Hn.
      destruct found as [n |]; [| discriminate H].
      destruct (Py.truthy (n_val n)) eqn:Ht; cbn [negb] in H; [| discriminate H].
      destruct (existsb (same_object n) visited) eqn:Hv; [discriminate H |].
      split_bind H as r Hrest. injection H as <-.
      destruct (IH _ _ _ Hrest) as (-> & Hnd & Htr & Hvis).
      fold (referents idx doc_uri rest). cbn [app map].
      split; [reflexivity |]. split; [| split].
      * constructor; [| exact Hnd].
        apply (Hvis n). apply in_or_app. right. left. reflexivity.
      * constructor; [exact Ht | exact Htr].
      * intros v Hin. constructor.
        -- destruct (same_object n v) eqn:E; [| reflexivity].
           assert (Hex : existsb (same_object n) visited = true).
           { apply existsb_exists. exists v. split; [exact Hin | exact E]. }
           rewrite Hex in Hv. discriminate Hv.
        -- apply (Hvis v). apply in_or_app. left. exact Hin.
    + split_bind H as r Hrest. injection H as <-.
      destruct (IH _ _ _ Hrest) as (-> & Hnd & Htr & Hvis).
      fold (referents idx doc_uri rest). cbn [app].
      split; [reflexivity |]. split; [exact Hnd |]. split; [exact Htr | exact Hvis].
Qed.

(** X23: when [resolve_allof_branches] returns, the chain has a branch,
    and the result holds one schema for each branch, in order: the node
    that the index has for its reference when the branch is one, the
    branch itself otherwise.  The nodes referred to are not empty, and no
    two references of the chain designate the same object, be it one
    place of a file named twice or one object that CPython holds once
    ([True], a small integer, a string of one character, a NaN or an
    infinity) found at two places: such a chain is refused. *)
Theorem resolve_allof_branches_resolved
  (branches : list json) (idx : SchemaIndex) (json_ptr doc_uri : string)
  (resolved : list json) :
  resolve_allof_branches branches idx json_ptr doc_uri = Ok resolved ->
  branches <> []
  /\ resolved = map (fun branch => match referent idx doc_uri branch with
                                   | Some n => n_val n
                                   | None => branch
                                   end) branches
  /\ ForallOrdPairs (fun a b => same_object b a = false)
       (referents idx doc_uri branches)
  /\ Forall (fun n => Py.truthy (n_val n) = true) (referents idx doc_uri branches).
Proof.
  unfold resolve_allof_branches. intros H. split_bind H as r Hr.
  destruct (resolve_branches_spec _ _ _ _ _ _ Hr) as (-> & Hnd & Htr & _).
  split; [| split; [| split; assumption]].
  - intros ->. discriminate H.
  - destruct branches; [discriminate H |]. cbn [map] in H |- *.
    injection H as <-. reflexivity.
Qed.

End ResolveBranches.

Section ResolveBranchRuns.

#[local] Existing Instance cpython.

Lemma resolve_allof_branches_resolved_witness :
  referents Examples.twin_index "http://example.com/twin.json" Examples.twin_branches
  = [mkNode (0, [Key "$defs"; Key "A"])
       (JObj [("type", JStr "string"); ("minLength", JInt 1)]);
     mkNode (0, [Key "$defs"; Key "B"])
       (JObj [("type", JStr "string"); ("maxLength", JInt 9)])]
  /\ resolve_allof_branches Examples.twin_branches Examples.twin_index
       "#/properties/p" "http://example.com/twin.json"
     = Ok [JObj [("type", JStr "string"); ("minLength", JInt 1)];
           JObj [("type", JStr "string"); ("maxLength", JInt 9)]]
  /\ Examples.twin_branches <> []
  /\ [JObj [("type", JStr "string"); ("minLength", JInt 1)];
      JObj [("type", JStr "string"); ("maxLength", JInt 9)]]
     = map (fun branch =>
              match referent Examples.twin_index "http://example.com/twin.json" branch with
              | Some n => n_val n
              | None => branch
              end) Examples.twin_branches
  /\ ForallOrdPairs (fun a b => same_object b a = false)
       (referents Examples.twin_index "http://example.com/twin.json"
          Examples.twin_branches)
  /\ Forall (fun n => Py.truthy (n_val n) = true)
       (referents Examples.twin_index "http://example.com/twin.json"
          Examples.twin_branches).
Proof.
  split; [vm_compute; reflexivity |].
  split; [vm_compute; reflexivity |].
  apply (resolve_allof_branches_resolved Examples.twin_branches Examples.twin_index
           "#/properties/p" "http://example.com/twin.json").
  vm_compute. reflexivity.
Defined.

(** Two references to two places of a document that both hold [true]
    designate one object, and the chain is refused as circular. *)
Lemma resolve_allof_branches_shared_object :
  load Examples.twin_files None = Ok Examples.twin_index
  /\ referents Examples.twin_index "http://example.com/twin.json" Examples.flag_branches
     = [mkNode (0, [Key "$defs"; Key "flags"; Key "x"]) (JBool true);
        mkNode (0, [Key "$defs"; Key "flags"; Key "y"]) (JBool true)]
  /\ resolve_allof_branches Examples.flag_branches Examples.twin_index
       "#/properties/q" "http://example.com/twin.json"
     = Raise (ValueError (MsgCircular 1 (JStr "#/$defs/flags/y"))).
Proof. repeat split; vm_compute; reflexivity. Qed.

End ResolveBranchRuns.

(** ** slas_allof_processor.py: the records of the inline chains *)

Lemma validate_scalar_types_scalar (branches : list json) (json_ptr t : string) :
  validate_scalar_types branches json_ptr = Ok t -> In t scalar_types.
Proof.
  unfold validate_scalar_types. intros H. split_bind H as seen Hs.
  destruct seen as [| t0 [| t1 r]]; try discriminate H. injection H as ->.
  destruct (scan_types_spec _ _ _ _ Hs) as [_ [Hfrom _]].
  destruct (Hfrom t (or_introl eq_refl)) as [[] | [Hsc _]]. exact Hsc.
Qed.

Lemma inline_allofs_length (evs : list event) :
  List.length (inline_allofs evs) <= iteration_collapsed evs.
Proof.
  unfold inline_allofs, iteration_collapsed.
  induction evs as [| e r IH]; [apply Nat.le_refl |].
  destruct e as [[info |] w | v]; simpl; lia.
Qed.

Lemma inline_allofs_ok (file : string) (evs : list event) :
  Forall (event_ok file) evs ->
  Forall (fun info => origin_file info = file /\ tracked_ok info) (inline_allofs evs).
Proof.
  unfold inline_allofs. induction 1 as [| e r He _ IH]; [constructor |].
  destruct e as [[info |] w | v]; simpl; try exact IH. constructor; [exact He | exact IH].
Qed.

Lemma map_items_events {E : Type} (Q : E -> Prop)
  (f : string -> json -> res (json * list E)) (items : dict) :
  Forall (fun kv => forall j e, f (fst kv) (snd kv) = Ok (j, e) -> Forall Q e) items ->
  forall items' e, map_items f items = Ok (items', e) -> Forall Q e.
Proof.
  induction 1 as [| [k v] r Hx _ IH]; intros items' e H; simpl in H.
  - injection H as _ <-. constructor.
  - split_bind H as w Hw. destruct w as [v1 e1].
    split_bind H as w2 Hw2. destruct w2 as [r' e2]. injection H as _ <-.
    apply Forall_app. split; [exact (Hx _ _ Hw) | exact (IH _ _ Hw2)].
Qed.

Lemma map_elems_events {E : Type} (Q : E -> Prop)
  (f : nat -> json -> res (json * list E)) (l : list json) :
  Forall (fun v => forall i j e, f i v = Ok (j, e) -> Forall Q e) l ->
  forall i0 l' e, map_elems f l i0 = Ok (l', e) -> Forall Q e.
Proof.
  induction 1 as [| v r Hx _ IH]; intros i0 l' e H; simpl in H.
  - injection H as _ <-. constructor.
  - split_bind H as w Hw. destruct w as [v1 e1].
    split_bind H as w2 Hw2. destruct w2 as [r' e2]. injection H as _ <-.
    apply Forall_app. split; [exact (Hx _ _ _ Hw) | exact (IH _ _ _ Hw2)].
Qed.

Section TrackedRecords.

Context {L : Pylib}.

(** Every event of a walk is one that the body of the loop has made on a
    node. *)
Lemma collapse_walk_events (c : file_ctx) (Q : event -> Prop) :
  (forall node json_ptr r evs,
     process_node c node json_ptr = Ok (r, evs) -> Forall Q evs) ->
  forall (schema : json) (json_ptr : string) (j : json) (evs : list event),
    collapse_walk c schema json_ptr = Ok (j, evs) -> Forall Q evs.
Proof.
  intros Hnode schema.
  induction schema as [| b | n | fl | x | l IH | d IH] using json_ind_members;
    intros json_ptr j evs H; try (injection H as _ <-; constructor).
  rewrite collapse_walk_obj in H.
  split_bind H as w Hp. destruct w as [r evs0]. cbn beta iota zeta in H.
  pose proof (Hnode _ _ _ _ Hp) as H0.
  destruct r as [merged |]; [injection H as _ <-; exact H0 |].
  assert (Hval : forall key v, dict_get key d = Some v ->
             members_hold
               (fun s => forall json_ptr j evs,
                  collapse_walk c s json_ptr = Ok (j, evs) -> Forall Q evs) v).
  { intros key v E.
    exact (dict_get_Forall
             (members_hold
                (fun s => forall json_ptr j evs,
                   collapse_walk c s json_ptr = Ok (j, evs) -> Forall Q evs))
             d key v IH E). }
  clear IH.
  assert (Hnamed : forall key esc acc acc',
             walk_named c d json_ptr key esc acc = Ok acc' ->
             Forall Q (snd acc) -> Forall Q (snd acc')).
  { intros key esc acc acc' Hw Ha. unfold walk_named in Hw. rewrite with_key_get in Hw.
    destruct (dict_get key d) as [v |] eqn:E; [| injection Hw as <-; exact Ha].
    destruct (Hval key v E) as [_ Hm].
    destruct v; try (injection Hw as <-; exact Ha).
    split_bind Hw as w Hi. destruct w as [items' e]. injection Hw as <-.
    rewrite walked_add_events. apply Forall_app. split; [exact Ha |].
    revert Hi. apply (map_items_events Q). revert Hm. apply Forall_impl.
    intros kv Hkv j0 e0. apply Hkv. }
  assert (Hsingle : forall acc key acc',
             walk_single c d json_ptr acc key = Ok acc' ->
             Forall Q (snd acc) -> Forall Q (snd acc')).
  { intros acc key acc' Hw Ha. unfold walk_single in Hw. rewrite with_key_get in Hw.
    destruct (dict_get key d) as [v |] eqn:E; [| injection Hw as <-; exact Ha].
    destruct (Hval key v E) as [Hv _].
    destruct v; try (injection Hw as <-; exact Ha).
    split_bind Hw as w Hi. destruct w as [sub' e]. injection Hw as <-.
    rewrite walked_add_events. apply Forall_app. split; [exact Ha |].
    exact (Hv _ _ _ Hi). }
  assert (Hindexed : forall acc key acc',
             walk_indexed c d json_ptr acc key = Ok acc' ->
             Forall Q (snd acc) -> Forall Q (snd acc')).
  { intros acc key acc' Hw Ha. unfold walk_indexed in Hw. rewrite with_key_get in Hw.
    destruct (dict_get key d) as [v |] eqn:E; [| injection Hw as <-; exact Ha].
    destruct (Hval key v E) as [_ Hm].
    destruct v; try (injection Hw as <-; exact Ha).
    split_bind Hw as w Hi. destruct w as [l' e]. injection Hw as <-.
    rewrite walked_add_events. apply Forall_app. split; [exact Ha |].
    revert Hi. apply (map_elems_events Q). revert Hm. apply Forall_impl.
    intros v Hv i j0 e0. apply Hv. }
  assert (Hitems : forall acc acc',
             walk_items c d json_ptr acc = Ok acc' ->
             Forall Q (snd acc) -> Forall Q (snd acc')).
  { intros acc acc' Hw Ha. unfold walk_items in Hw. rewrite with_key_get in Hw.
    destruct (dict_get "items" d) as [v |] eqn:E; [| injection Hw as <-; exact Ha].
    destruct (Hval _ v E) as [Hv Hm].
    destruct v; try (injection Hw as <-; exact Ha).
    - split_bind Hw as w Hi. destruct w as [l' e]. injection Hw as <-.
      rewrite walked_add_events. apply Forall_app. split; [exact Ha |].
      revert Hi. apply (map_elems_events Q). revert Hm. apply Forall_impl.
      intros v Hv' i j0 e0. apply Hv'.
    - split_bind Hw as w Hi. destruct w as [sub' e]. injection Hw as <-.
      rewrite walked_add_events. apply Forall_app. split; [exact Ha |].
      exact (Hv _ _ _ Hi). }
  split_bind H as a1 S1. split_bind H as a2 S2. split_bind H as a3 S3.
  split_bind H as a4 S4. split_bind H as a5 S5. split_bind H as a6 S6.
  split_bind H as a7 S7. split_bind H as a8 S8. split_bind H as a9 S9.
  split_bind H as a10 S10. split_bind H as a11 S11. injection H as _ <-.
  apply (Hnamed _ _ _ _ S11). apply (Hnamed _ _ _ _ S10). apply (Hnamed _ _ _ _ S9).
  refine (foldM_preserves _ (fun acc => Forall Q (snd acc)) _ _ _ _ S8 _);
    [intros k s s'; apply Hsingle |].
  refine (foldM_preserves _ (fun acc => Forall Q (snd acc)) _ _ _ _ S7 _);
    [intros k s s'; apply Hindexed |].
  apply (Hsingle _ _ _ S6). apply (Hindexed _ _ _ S5). apply (Hitems _ _ S4).
  apply (Hsingle _ _ _ S3). apply (Hnamed _ _ _ _ S2). apply (Hnamed _ _ _ _ S1).
  exact H0.
Qed.

Lemma process_node_event_ok (c : file_ctx) (node : dict) (json_ptr : string)
  (r : option dict) (evs : list event) :
  process_node c node json_ptr = Ok (r, evs) -> Forall (event_ok (ctx_file c)) evs.
Proof.
  unfold process_node. intros H.
  destruct (negb (is_allof_refinement node)); [injection H as _ <-; constructor |].
  destruct (merged_chain c node json_ptr) as [[merged w] | e] eqn:Em.
  - split_bind H as tracked Ht. injection H as _ <-.
    constructor; [| constructor]. cbn [event_ok].
    destruct tracked as [info |]; [| exact I].
    unfold track_inline in Ht.
    destruct (_is_inline_property_allof node json_ptr (ctx_parent_class c)) eqn:Ei;
      [| discriminate Ht].
    destruct (ctx_parent_class c) as [parent |] eqn:Ep.
    + destruct (_extract_property_name json_ptr) as [name | e] eqn:Ex.
      * injection Ht as <-. cbn [origin_file]. split; [reflexivity |].
        unfold tracked_ok. cbn [json_pointer property_name merged_schema].
        split; [| split; [exact Ex |]].
        -- unfold _is_inline_property_allof in Ei.
           apply andb_true_iff in Ei. destruct Ei as [Ei _].
           apply andb_true_iff in Ei. exact (proj2 Ei).
        -- unfold merged_chain in Em. split_bind Em as branches Hb.
           split_bind Em as scalar_type Hs. split_bind Em as mw Hm.
           destruct mw as [m w1]. cbn beta iota zeta in Em.
           split_bind Em as w2 Hv. injection Em as <- _.
           exists scalar_type. split; [exact (validate_scalar_types_scalar _ _ _ Hs) |].
           exact (merge_constraints_type _ _ _ _ _ _ Hm).
      * destruct e; discriminate Ht.
    + destruct (_extract_property_name json_ptr) as [name | e];
        [discriminate Ht | destruct e; discriminate Ht].
  - destruct e; try discriminate H. injection H as _ <-.
    constructor; [exact I | constructor].
Qed.

Lemma process_file_event_ok (idx : SchemaIndex) (strict : bool) (f : file)
  (content : option json) (evs : list event) :
  process_file idx strict f = Ok (content, evs) -> Forall (event_ok (fname f)) evs.
Proof.
  unfold process_file. intros H.
  destruct (fcontent f) as [schema |]; [| discriminate H].
  destruct (doc_uri_for_path idx (fname f)) as [doc_uri |];
    [| injection H as _ <-; constructor].
  destruct (String.eqb doc_uri EmptyString); [injection H as _ <-; constructor |].
  split_bind H as c Hc. split_bind H as w Hw. destruct w as [schema' e].
  injection H as _ <-.
  destruct (file_context_fields _ _ _ _ _ _ Hc) as (_ & _ & <- & _).
  revert Hw. apply collapse_walk_events. intros node ptr r evs.
  apply process_node_event_ok.
Qed.

Lemma pass_files_tracked (idx : SchemaIndex) (strict : bool) (fs : list file) :
  forall (dir dir' : list file) (evs : list event) (raised : option exn),
    pass_files idx strict fs dir = (dir', evs, raised) ->
    Forall (fun info => In (origin_file info) (map fname fs) /\ tracked_ok info)
      (inline_allofs evs).
Proof.
  induction fs as [| f r IH]; intros dir dir' evs raised H; simpl in H.
  - injection H as _ <- _. constructor.
  - destruct (process_file idx strict f) as [[content evs0] | e] eqn:Ef;
      [| injection H as _ <- _; constructor].
    destruct (pass_files idx strict r
                match content with
                | Some c => write_file dir (fname f) c
                | None => dir
                end) as [[dir2 evs2] raised2] eqn:Er.
    injection H as _ <- _. unfold inline_allofs. rewrite flat_map_app.
    apply Forall_app. split.
    + pose proof (inline_allofs_ok _ _ (process_file_event_ok _ _ _ _ _ Ef)) as Hok.
      revert Hok. apply Forall_impl. intros info [Ho Ht].
      split; [left; symmetry; exact Ho | exact Ht].
    + pose proof (IH _ _ _ _ Er) as Hok. revert Hok. apply Forall_impl.
      intros info [Ho Ht]. split; [right; exact Ho | exact Ht].
Qed.

Lemma collapse_pass_tracked (idx : SchemaIndex) (strict : bool)
  (dir dir' : list file) (evs : list event) (raised : option exn) :
  collapse_pass idx strict dir = (dir', evs, raised) ->
  Forall (fun info => In (origin_file info) (map fname dir) /\ tracked_ok info)
    (inline_allofs evs).
Proof.
  unfold collapse_pass. intros H. pose proof (pass_files_tracked _ _ _ _ _ _ _ H) as Hok.
  revert Hok. apply Forall_impl. intros info [Ho Ht]. split; [| exact Ht].
  apply in_map_iff in Ho. destruct Ho as [f [<- Hf]].
  apply (proj1 (sort_files_In _ _)) in Hf. unfold glob_json in Hf.
  apply filter_In in Hf. apply in_map. exact (proj1 Hf).
Qed.

Lemma iterate_tracked (strict : bool) (names : list string) (n : nat) :
  forall (idx : SchemaIndex) (dir : list file) (tracked : list InlineAllOfInfo)
         (warned : list warning) (total done : nat) (out : list InlineAllOfInfo),
    map fname dir = names ->
    Forall (fun info => In (origin_file info) names /\ tracked_ok info) tracked ->
    List.length tracked <= total ->
    run_outcome (iterate n idx strict dir tracked warned total done) = Ok out ->
    Forall (fun info => In (origin_file info) names /\ tracked_ok info) out
    /\ List.length out
       <= total_collapsed (iterate n idx strict dir tracked warned total done).
Proof.
  induction n as [| n' IH]; intros idx dir tracked warned total done out Hn Ht Hl H.
  - cbn [iterate run_outcome total_collapsed] in H |- *. injection H as <-.
    split; assumption.
  - cbn [iterate] in H |- *.
    destruct (collapse_pass idx strict dir) as [[dir' evs] raised] eqn:Ep.
    pose proof (collapse_pass_tracked _ _ _ _ _ _ Ep) as Hev. rewrite Hn in Hev.
    destruct (collapse_pass_names _ _ _ _ _ _ Ep) as [Hn' _]. rewrite Hn in Hn'.
    pose proof (inline_allofs_length evs) as Hlen.
    assert (Ht' : Forall (fun info => In (origin_file info) names /\ tracked_ok info)
                    (tracked ++ inline_allofs evs))
      by (apply Forall_app; split; assumption).
    assert (Hl' : List.length (tracked ++ inline_allofs evs)
                  <= total + iteration_collapsed evs)
      by (rewrite length_app; lia).
    assert (Hfin : forall errs,
               finish strict errs (tracked ++ inline_allofs evs) = Ok out ->
               out = (tracked ++ inline_allofs evs)%list).
    { intros errs Hf. unfold finish in Hf.
      destruct errs; [injection Hf as <-; reflexivity |].
      destruct strict; [discriminate Hf | injection Hf as <-; reflexivity]. }
    destruct raised as [e |]; [discriminate H |].
    destruct (iteration_collapsed evs =? 0)%nat.
    + cbn [run_outcome total_collapsed] in H |- *. rewrite (Hfin _ H).
      split; assumption.
    + destruct (load (glob_json dir') (base_url idx)) as [idx' | e];
        [| discriminate H].
      destruct n' as [| n''].
      * cbn [run_outcome total_collapsed] in H |- *. rewrite (Hfin _ H).
        split; assumption.
      * exact (IH idx' dir' _ _ _ _ out Hn' Ht' Hl' H).
Qed.

(** X24: the records of the inline chains that a run returns are well
    formed: each names a file of the directory, its pointer goes through
    [properties] and gives the name of the property that the record
    holds, and its merged schema has one of the four scalar types.  There
    are no more of them than chains collapsed. *)
Theorem process_allof_collapse_tracked
  (dir : list file) (idx : SchemaIndex) (strict : bool) (tracked : list InlineAllOfInfo) :
  run_outcome (process_allof_collapse dir idx strict) = Ok tracked ->
  Forall (fun info => In (origin_file info) (map fname dir) /\ tracked_ok info) tracked
  /\ List.length tracked <= total_collapsed (process_allof_collapse dir idx strict).
Proof.
  unfold process_allof_collapse. intros H.
  apply (iterate_tracked strict (map fname dir) max_iterations idx dir [] [] 0 0 tracked
           eq_refl); [constructor | apply Nat.le_refl | exact H].
Qed.

End TrackedRecords.

Section TrackedRecordRuns.

#[local] Existing Instance cpython.

Lemma process_allof_collapse_tracked_witness :
  load Examples.event_files None = Ok Examples.event_index
  /\ exists tracked,
       run_outcome (process_allof_collapse Examples.event_files Examples.event_index true)
       = Ok tracked
       /\ map property_name tracked = ["code"]
       /\ Forall (fun info => In (origin_file info) (map fname Examples.event_files)
                              /\ tracked_ok info) tracked
       /\ List.length tracked
          <= total_collapsed
               (process_allof_collapse Examples.event_files Examples.event_index true).
Proof.
  split; [vm_compute; reflexivity |].
  eexists. split; [vm_compute; reflexivity |]. split; [reflexivity |].
  apply (process_allof_collapse_tracked Examples.event_files Examples.event_index true).
  vm_compute. reflexivity.
Defined.

End TrackedRecordRuns.
